(* ===== verification/_CoqProject ===== *)
-Q . S2P
Prelude.v
JsString.v
JsNumber.v
Json.v
WebPlatform.v
Async.v
Disciplines.v
View.v
Joins.v
JsErrors.v
Session.v
ApiClient.v
DashTypes.v
DashFormat.v
TransportDisplay.v
UseAsync.v
Dashboard.v
ClientsPage.v
TunnelsPage.v
TransportSettings.v
Rounded.v
DesktopTypes.v
DesktopFormat.v
UserFeedback.v
TunnelEndpoint.v
TrafficHistory.v
TrafficChart.v
TrafficFigures.v
DesktopApp.v
DesktopBinding.v
DesktopViews.v
Pages.v
DashViews.v
PagesViews.v
ClientsView.v
TransportView.v
TunnelsView.v
Forms.v
Runs.v
DesktopClient.v
OverviewPage.v
PagesRuns.v
Compose.v
Console.v
ConsoleRuns.v
ConsoleParts.v
ConsoleDrawer.v
