(* ===== verification/Prelude.v ===== *)
(** * The Nrynet front ends

    Nrynet tunnels local services through a public server. Its two front ends are React
    programs: the administrator's dashboard (web/dashboard/src) talks to the server's HTTP
    API, the desktop client (desktop/frontend/src) to a local service over a generated
    binding. This development models their own logic - data, requests, sessions, texts,
    handlers and the interleaving of their asynchronous functions - and proves what makes
    it correct. All paths below are under src/.

    ** The language and its platform

    - Prelude: truthiness and the operators [||] and [??], results of calls that may throw,
      lenses, list lemmas, tactics.
    - JsString, JsNumber, Json: strings as UTF-16 code units, the texts of numbers and
      [toFixed], JSON values with [JSON.stringify] and [JSON.parse] (a recursive-descent parser
      whose fuel is the length of its input, proved enough: [parse_stringify]).
    - WebPlatform: localStorage as a finite map, [Headers], [URLSearchParams],
      [encodeURIComponent] with its injectivity, and the class [Dates] of what the code asks of
      dates and locales. A localStorage that refuses a write is not modelled.
    - JsErrors: what may be thrown, and property access on values of unknown shape.
    - Async: async functions as trees ([prog]) of synchronous reads and updates, visible
      effects and suspensions; [run] executes one up to its next suspension, [step] lets the
      event loop start a handler, resume a suspended function or settle an awaited call
      with any answer, so [reachable] covers every interleaving; [evaluates] is one function
      on its own. Four disciplines that handlers are checked against have their invariants
      there: parts of the state left alone ([preserves]), a flag used as a lock ([locked]), a
      flag whose setter owes its clearing ([discharges]), a counter that outdates suspended
      functions ([stable]). [play] and [schedule] run concrete executions.
    - Disciplines: two more, a bound on the suspensions to come ([ends_within], from which a
      page left alone comes to rest) and an invariant kept by every update ([maintains]).
    - Joins: [Promise.all]. A function with parts waits for a tree of calls ([joint]) of which
      any may be answered first; [all] starts its parts in order, goes on when all have a value
      or the first has failed, and lets the others run on. What a part leaves alone the whole
      leaves alone ([indifferent], [all_whole]); [lift] puts a function without parts among those
      with parts, and carries every discipline over.
    - Compose: a function of a part of the state inside the whole ([embed]), with the disciplines
      it keeps there and the executions of the part it goes through ([run_embed]).
    - View: what a component returns, as a tree of elements ([element]) with handlers; the class
      [Toolkit] of what the code relies on in the component library (a disabled or spinning
      control takes no input, a closed dialog is not there); [offers], what a tree lets its user
      cause, and [events], which computes it. [presented_step] is a page as its user meets
      it, where an event happens when the tree offers it; [map_element] names the events of a
      tree that is inside another.
    - Rounded: the doubles the chart computes with, as 53-bit rounding of rationals to even
      (no exponent limits: the figures are far from them).

    ** The dashboard

    - Session (api/session.ts): the session in localStorage. It is read back as saved, moved
      from the retired key, dropped when corrupt; looking it up is stable.
    - ApiClient (api/client.ts): every endpoint, the headers, the error texts, the handling of
      401. The page is the class [Window] (its storage, and what its listener of
      nrynet:unauthorized does); the client's theorems hold of every instance: the outcomes of
      a request, signing out, the address of a setting, signing in, Chinese error texts.
    - DashTypes (types.ts), DashFormat (utils/format.ts, display/status.ts, StatusTag),
      TransportDisplay (settings/autoSubdomain.ts, settingsRows.ts, transportDisplay.ts): the
      data and its wording; accuracy of sizes and durations, agreement of the views of a
      certificate, the split of the settings.
    - UseAsync (hooks/useAsync.ts): the loading hook every page uses, over a lens into the
      page's state.
    - Dashboard (App.tsx, pages/LoginPage.tsx): the state every page shares ([app], an instance
      of [Window]), routing, login, sign out.
    - ClientsPage, TunnelsPage, TransportSettings, Pages (the files of the same names under
      pages/ and settings/; Pages has traffic, logs, tokens, relays and settings): the state of
      each page as a record, its handlers, the events of its transition system ([*_enabled],
      [*_handler]). Only the latest request fills the clients page's drawer; saving a tunnel
      either succeeds whole or changes nothing; a switch says one thing and never spins for
      ever; the traffic page can keep an overtaken answer.
    - DashViews (components/Page.tsx, the frame of App.tsx, the login, overview, traffic, relays,
      tokens, logs and settings pages), ClientsView, TransportView (with CertificateError.tsx),
      TunnelsView: the trees these pages return, and PagesViews what some of them offer. Signed out, only the login page is offered;
      the settings page saves exactly the mutable settings outside the transport section; the
      transport section and its transition system are one, the clients and the tunnels page
      refine theirs; the tunnels page renders exactly when every visitor address can be written.
    - Forms: the rules of the fields of every form, of the desktop's settings too, and the editor of
      a tunnel as its user meets it, edit by edit with its effect. Whatever is done there, the
      tunnel sent has its texts, ports that fit its protocol and a clean allowlist.
    - OverviewPage (pages/OverviewPage.tsx): its three joined requests. A load stores its outcome
      once, the spinner ends under every interleaving.
    - Runs, PagesRuns: what holds of whole runs of one page. Every page holds data, an error or
      neither, and never an error while it loads; left alone, every page comes to rest within
      twenty continuations per suspended function, the desktop client within five; who switches
      each spinner off; no page's functions end in being signed in, but a login.

    ** The whole dashboard

    - Console: the frame of App.tsx with the pages it mounts, over one browser. Every time a
      component is mounted it is given a number and a state of its own ([lives], [store]); the
      one on display is the last. A change of the frame, by whatever function, displays what the
      frame returns then ([commit]); the effects of what was mounted are due until they run
      ([due], [run_effects]); the functions of a page that was left go on, on the state it was
      left with and on the browser all pages share. [console_shown] is what can happen next: what
      the tree on display offers, an effect that is due, a timer of the page on display, or the
      answer to a confirmation dialog, which outlives its page. A page whose render throws shows
      nothing. Every use of this interface is an execution of the transition system
      ([console_interface_refines]).
    - ConsoleRuns: the page on display never spins for ever ([console_settles]); the whole comes
      to rest; signed out, by whichever request, it stays so until the login form is submitted;
      a page is displayed afresh; and a late answer 401 to a request of the session before takes
      the new session away ([late_refusal_ends_session]).
    - ConsoleParts: each mounted component goes through an execution of its own system in which
      the browser may change at any time ([console_refines_part]), so that what is proved of a
      page on its own holds of it in the dashboard.
    - ConsoleDrawer: a closed drawer stays closed, in the whole dashboard.

    ** The desktop client

    - DesktopTypes (the binding's models.ts), DesktopFormat (format.ts, elapsedTime.ts and the
      labels of the views), UserFeedback (userFeedback.ts, configDraft.ts), TunnelEndpoint
      (tunnelEndpoint.ts, over the class [UrlApi] of the platform's URL), TrafficHistory
      (useTrafficHistory.ts; rates are IEEE 754 doubles, [SpecFloat] at 53 bits; its samples are
      a window over the reports, [history_is_window]).
    - DesktopApp (App.tsx, previewData.ts): refreshes, timers, connection, save and update as
      handlers over the page's state, the service's methods as awaited calls. One refresh of
      a kind at a time under every interleaving, spinners that end, connections only with a
      complete configuration, saves that are complete.
    - TrafficChart (TrafficChart.tsx): sizes, frames and the calls made on the canvas. Up to eighty
      points every frame stays inside its inset, to the last bit of rounding; with more, a peak
      at an odd place is drawn above the canvas. TrafficFigures: the range of the doubles of the
      hook, none of which overflows, so that every point has figures for the chart.
    - DesktopBinding (the binding's desktopservice.ts): the calls by number it makes, from which the
      method and its arguments can be read back.
    - DesktopViews (HomeView.tsx, TunnelDetailView.tsx, SettingsView.tsx and what App.tsx renders):
      the trees, what each screen offers exactly, and that the interface refines the transition
      system of DesktopApp; the token is never on a screen, but in the log panel, which says
      that tokens are masked, whenever a message has it.
    - DesktopClient: the whole client, which is the page with the view it displays and that view's
      hooks - the traffic history, the clock, a canvas for each chart -, mounted anew when another
      view comes on display. Its executions are executions of its parts ([client_refines_parts]);
      whatever the service answers, the figures are finite and charts of up to eighty points stay
      inside ([client_charts_inside]); and a connection lost after a burst is an execution in which
      the chart is drawn above its canvas ([lost_connection_leaves_canvas]).

    ** Conventions and limits

    Numbers are the integers the server sends, below 2^53, where doubles are exact. Case
    mapping covers ASCII, Latin-1 and the characters that map to or from an ASCII letter: the
    code compares its results with ASCII texts only. An event an element offers is one run of
    its handler, which closes over the state of the render it belongs to; state updates take
    effect at once, and effects some time after they are due, also those of a page left
    meanwhile: this adds behaviours and removes none. Executions of one function ([evaluates])
    let nothing else run in between; the theorems about [reachable] states do not. A view takes
    the data as its types declare it; icons, sizes and styles are left out of the trees. A form's handler takes
    any values in the transition systems; which values the rules of the forms let through is in
    Forms, over the class [FormLibrary] of what the code relies on in the form library.

    Fuel: the parser of JSON has the length of its input, the loop of the desktop's sizes its list
    of units, [schedule] and [play] the steps they are given; the functions of the pages need
    none, being trees.

    Not modelled: the Go programs (server, agent, relay, desktop service), generated and bundled
    files. The desktop's views take the time of the clock they show as an argument.

    ** What is left out

    Beside what is listed above: the exponent limits of doubles in the chart, whose figures are
    far from them (TrafficFigures bounds those of the hook); the tab of a tunnel's page on display,
    whose state is the library's; copying an address, which touches nothing else. *)

From Stdlib Require Export ZArith NArith Lia ZifyBool ZifyN ZifyNat.
From stdpp Require Export base tactics option numbers gmap list.
Export list.

#[global] Unset Program Cases.

Declare Scope js_scope.
Delimit Scope js_scope with js.

(** ** Truthiness *)

(** JavaScript's ToBoolean on the types the code tests: the empty string, zero,
    [false] and [undefined] are falsy, an object is truthy. *)
Class Truthy (A : Type) := truthy : A -> bool.

#[export] Instance truthy_bool : Truthy bool := fun b => b.
#[export] Instance truthy_Z : Truthy Z := fun z => negb (Z.eqb z 0).
#[export] Instance truthy_list {A} : Truthy (list A) :=
  fun s => match s with [] => false | _ :: _ => true end.
#[export] Instance truthy_option {A} `{Truthy A} : Truthy (option A) :=
  fun o => match o with None => false | Some a => truthy a end.

(** [a || b] on two values of the same type. *)
Definition js_or {A} `{Truthy A} (a b : A) : A := if truthy a then a else b.

(** [a || b] where [a] may be [undefined] and [b] may not. *)
Definition js_or_def {A} `{Truthy A} (a : option A) (b : A) : A :=
  match a with Some v => if truthy v then v else b | None => b end.

(** [a ?? b]. *)
Definition js_nullish {A} (a : option A) (b : A) : A :=
  match a with Some v => v | None => b end.

(** [a ?? b] where [b] may be missing too. *)
Definition js_nullish_opt {A} (a b : option A) : option A :=
  match a with Some _ => a | None => b end.

Lemma truthy_Some {A} `{Truthy A} (a : A) : truthy (Some a) = truthy a.
Proof. done. Qed.

Infix "|||" := js_or_def (at level 50, left associativity) : js_scope.
Infix "??" := js_nullish (at level 50, left associativity) : js_scope.

(** An object reference is truthy as soon as it is there. *)
Definition present {A} (o : option A) : bool :=
  match o with Some _ => true | None => false end.

(** ** Results of calls that may throw *)

Inductive result (E A : Type) : Type :=
| Ok (a : A)
| Err (e : E).
Arguments Ok {E A} a.
Arguments Err {E A} e.

Definition result_bind {E A B} (r : result E A) (f : A -> result E B) : result E B :=
  match r with Ok a => f a | Err e => Err e end.

(** ** Parts of a state *)

(** A component of a larger state, read and replaced. *)
Record lens (S A : Type) := Lens {
  view : S -> A;
  put : A -> S -> S;
  view_put : forall a s, view (put a s) = a
}.
Arguments Lens {S A} view put view_put.
Arguments view {S A} l s.
Arguments put {S A} l a s.
Arguments view_put {S A} l a s.

Definition over {S A} (l : lens S A) (f : A -> A) (s : S) : S := put l (f (view l s)) s.

Lemma view_over {S A} (l : lens S A) (f : A -> A) (s : S) : view l (over l f s) = f (view l s).
Proof. apply view_put. Qed.

(** ** Tactics *)

(** Case analysis on every test of the goal, the equations kept. *)
Ltac split_tests :=
  repeat match goal with
         | |- context [if ?b then _ else _] => destruct b eqn:?
         end.

(** Evaluate both sides of a closed equation. *)
Ltac by_evaluation := vm_compute; reflexivity.

(** Split boolean hypotheses into their parts. *)
Ltac split_bools :=
  repeat match goal with
         | H : _ && _ = true |- _ => apply andb_true_iff in H as [? ?]
         | H : _ || _ = false |- _ => apply orb_false_iff in H as [? ?]
         | H : negb _ = true |- _ => apply negb_true_iff in H
         | H : negb _ = false |- _ => apply negb_false_iff in H
         end.

Create HintDb jsdb.

(** ** Lists *)

Section Lists.
Context {A : Type}.

Lemma existsb_app_true (p : A -> bool) (l1 l2 : list A) :
  existsb p (l1 ++ l2) = existsb p l1 || existsb p l2.
Proof. apply existsb_app. Qed.

Lemma existsb_false_Forall (p : A -> bool) (l : list A) :
  existsb p l = false <-> Forall (fun a => p a = false) l.
Proof.
  induction l as [|a l IH]; cbn; [by split; constructor|].
  rewrite orb_false_iff, IH. symmetry. apply Forall_cons_iff.
Qed.

(** [l.slice(-n)]. *)
Definition last_n (n : nat) (l : list A) : list A := drop (length l - n) l.

Lemma last_n_length (n : nat) (l : list A) :
  length (last_n n l) = Nat.min n (length l).
Proof. unfold last_n. rewrite length_drop. lia. Qed.

(** [l.find(p)]. *)
Definition js_find (p : A -> bool) (l : list A) : option A := List.find p l.

Lemma js_find_split (p : A -> bool) (l : list A) (a : A) :
  js_find p l = Some a <->
  exists l1 l2, l = l1 ++ a :: l2 /\ p a = true /\ Forall (fun b => p b = false) l1.
Proof.
  unfold js_find. induction l as [|b l IH]; cbn.
  - split; [done|]. intros ([|? ?] & ? & ? & _); discriminate.
  - destruct (p b) eqn:Hb.
    + split.
      * intros [= ->]. exists [], l. auto.
      * intros ([|c l1] & l2 & Heq & Ha & Hall); simplify_eq/=; [done|].
        inversion_clear Hall. congruence.
    + rewrite IH. split.
      * intros (l1 & l2 & -> & Ha & Hall). exists (b :: l1), l2. auto.
      * intros ([|c l1] & l2 & Heq & Ha & Hall); simplify_eq/=; [congruence|].
        inversion_clear Hall. eauto.
Qed.
End Lists.

Lemma find_app_singleton {A} (p : A -> bool) (l : list A) (a : A) :
  List.find p (l ++ [a]) = match List.find p l with
                           | Some b => Some b
                           | None => if p a then Some a else None
                           end.
Proof. induction l as [|b l IH]; [done|]. cbn. by destruct (p b). Qed.
