(* ===== verification/JsString.v ===== *)
(** JavaScript strings: sequences of UTF-16 code units, with the operations of
    [String.prototype] the front ends call. *)

From Stdlib Require Import String Ascii.
From S2P Require Import Prelude.
Export String.StringSyntax.

(** ** Data *)

(** A string is the list of its 16-bit code units, so [length], [slice] and the
    character classes of the regular expressions read exactly what a JavaScript
    engine reads. *)
Abbreviation jsstr := (list N) (only parsing).

Section Literals.
Local Open Scope N_scope.

Definition utf16_of_point (c : N) : jsstr :=
  if c <? 65536 then [c]
  else [55296 + (c - 65536) / 1024; 56320 + (c - 65536) mod 1024].

(** UTF-8 bytes to UTF-16 code units. *)
Fixpoint utf16_of_utf8 (bs : list N) : jsstr :=
  match bs with
  | [] => []
  | b0 :: r0 =>
    if b0 <? 128 then b0 :: utf16_of_utf8 r0
    else match r0 with
    | [] => []
    | b1 :: r1 =>
      if b0 <? 224 then utf16_of_point ((b0 - 192) * 64 + (b1 - 128)) ++ utf16_of_utf8 r1
      else match r1 with
      | [] => []
      | b2 :: r2 =>
        if b0 <? 240
        then utf16_of_point ((b0 - 224) * 4096 + (b1 - 128) * 64 + (b2 - 128))
               ++ utf16_of_utf8 r2
        else match r2 with
        | [] => []
        | b3 :: r3 =>
          utf16_of_point ((b0 - 240) * 262144 + (b1 - 128) * 4096
                            + (b2 - 128) * 64 + (b3 - 128)) ++ utf16_of_utf8 r3
        end
      end
    end
  end.

(** The string a literal of the source denotes (the sources are UTF-8 files). *)
Definition js (s : string) : jsstr :=
  utf16_of_utf8 (List.map N_of_ascii (list_ascii_of_string s)).
End Literals.
Arguments js s%_string : simpl never.

(** ** Operations *)

Section Operations.
Local Open Scope N_scope.

Definition str_eqb (s t : jsstr) : bool := bool_decide (s = t).

(** [s.startsWith(p)] *)
Fixpoint startsWith (p s : jsstr) : bool :=
  match p, s with
  | [], _ => true
  | _ :: _, [] => false
  | a :: p', b :: s' => (a =? b) && startsWith p' s'
  end.

(** [s.includes(p)] *)
Fixpoint includes (p s : jsstr) : bool :=
  startsWith p s || match s with [] => false | _ :: s' => includes p s' end.

(** WhiteSpace and LineTerminator of the language, the class [\s] too. *)
Definition is_space (c : N) : bool :=
  ((9 <=? c) && (c <=? 13)) || (c =? 32) || (c =? 160) || (c =? 5760)
  || ((8192 <=? c) && (c <=? 8202)) || (c =? 8232) || (c =? 8233) || (c =? 8239)
  || (c =? 8287) || (c =? 12288) || (c =? 65279).

Fixpoint trimStart (s : jsstr) : jsstr :=
  match s with
  | c :: s' => if is_space c then trimStart s' else s
  | [] => []
  end.

(** [s.trim()] *)
Definition trim (s : jsstr) : jsstr := rev (trimStart (rev (trimStart s))).

(** [String.prototype.toLowerCase], unit by unit: ASCII, Latin-1 and every
    character whose lower case has an ASCII letter in it (U+0130 and U+212A).
    The other scripts are left alone: the code compares lower-cased strings
    with ASCII literals only, so their mapping decides nothing. *)
Definition lower_unit (c : N) : jsstr :=
  if (65 <=? c) && (c <=? 90) then [c + 32]
  else if (192 <=? c) && (c <=? 222) && negb (c =? 215) then [c + 32]
  else if c =? 304 then [105; 775]
  else if c =? 8490 then [107]
  else [c].

Definition toLowerCase (s : jsstr) : jsstr := flat_map lower_unit s.

(** [String.prototype.toUpperCase], with the same coverage: ASCII, Latin-1 and
    the characters whose upper case has an ASCII letter in it. *)
Definition upper_unit (c : N) : jsstr :=
  if (97 <=? c) && (c <=? 122) then [c - 32]
  else if (224 <=? c) && (c <=? 254) && negb (c =? 247) then [c - 32]
  else if c =? 255 then [376]
  else if c =? 181 then [924]
  else if c =? 223 then [83; 83]
  else if c =? 305 then [73]
  else if c =? 329 then [700; 78]
  else if c =? 383 then [83]
  else if c =? 496 then [74; 780]
  else if c =? 7830 then [72; 817]
  else if c =? 7831 then [84; 776]
  else if c =? 7832 then [87; 778]
  else if c =? 7833 then [89; 778]
  else if c =? 7834 then [65; 702]
  else if c =? 64256 then [70; 70]
  else if c =? 64257 then [70; 73]
  else if c =? 64258 then [70; 76]
  else if c =? 64259 then [70; 70; 73]
  else if c =? 64260 then [70; 70; 76]
  else if (c =? 64261) || (c =? 64262) then [83; 84]
  else [c].

Definition toUpperCase (s : jsstr) : jsstr := flat_map upper_unit s.

(** [s.split(sep)] for a separator of one unit. *)
Fixpoint split_on (sep : N) (s : jsstr) : list jsstr :=
  match s with
  | [] => [[]]
  | c :: s' =>
    if c =? sep then [] :: split_on sep s'
    else match split_on sep s' with
         | [] => [[c]]
         | w :: ws => (c :: w) :: ws
         end
  end.

(** [l.join(sep)] *)
Fixpoint join (sep : jsstr) (l : list jsstr) : jsstr :=
  match l with
  | [] => []
  | [w] => w
  | w :: ws => w ++ sep ++ join sep ws
  end.

(** [s.padStart(n, fill)] for a fill of one unit. *)
Definition padStart (n : nat) (fill : N) (s : jsstr) : jsstr :=
  repeat fill (n - length s) ++ s.

(** [s.replace(p, r)] for a string pattern: the first occurrence. *)
Fixpoint replace_first (p r s : jsstr) : jsstr :=
  if startsWith p s then r ++ drop (length p) s
  else match s with [] => [] | c :: s' => c :: replace_first p r s' end.

(** [/[lo-hi]/.test(s)] *)
Definition has_unit_in (lo hi : N) (s : jsstr) : bool :=
  existsb (fun c => (lo <=? c) && (c <=? hi)) s.

(** Canonicalize of a case-insensitive pattern without the u flag, read on an
    ASCII pattern: only the ASCII letters are folded. *)
Definition fold_ascii (c : N) : N := if (65 <=? c) && (c <=? 90) then c + 32 else c.

(** [/p1|p2|.../i.test(s)] for alternatives that are lower-case ASCII text. *)
Definition matches_any_i (alts : list jsstr) (s : jsstr) : bool :=
  existsb (fun p => includes p (List.map fold_ascii s)) alts.
End Operations.

(** ** Substrings *)

Lemma startsWith_spec (p s : jsstr) :
  startsWith p s = true <-> exists r, s = p ++ r.
Proof.
  revert s. induction p as [|a p IH]; intros [|b s]; cbn.
  - split; eauto.
  - split; eauto.
  - split; [done|]. intros [r ?]. done.
  - rewrite andb_true_iff, N.eqb_eq, IH. split.
    + intros [-> [r ->]]. eauto.
    + intros [r ?]. simplify_eq. eauto.
Qed.

Lemma startsWith_app (p r : jsstr) : startsWith p (p ++ r) = true.
Proof. apply startsWith_spec. eauto. Qed.

Lemma includes_spec (p s : jsstr) :
  includes p s = true <-> exists a b, s = a ++ p ++ b.
Proof.
  induction s as [|c s IH]; cbn [includes]; rewrite orb_true_iff, startsWith_spec.
  - split.
    + intros [[r ?]|?]; [|done]. exists [], r. done.
    + intros (a & b & H). left. destruct a; [|done]. eauto.
  - rewrite IH. split.
    + intros [[r ->]|(a & b & ->)]; [exists [], r; done|].
      exists (c :: a), b. done.
    + intros ([|? a] & b & H); simplify_eq/=; eauto.
Qed.

Lemma includes_infix (p a b : jsstr) : includes p (a ++ p ++ b) = true.
Proof. apply includes_spec. eauto. Qed.

Lemma includes_trans (p q s : jsstr) :
  includes p q = true -> includes q s = true -> includes p s = true.
Proof.
  rewrite !includes_spec. intros (a & b & ->) (a' & b' & ->).
  exists (a' ++ a), (b ++ b'). by rewrite <-!(assoc_L (++)).
Qed.

(** ** Character classes *)

Lemma has_unit_in_app (lo hi : N) (s t : jsstr) :
  has_unit_in lo hi (s ++ t) = has_unit_in lo hi s || has_unit_in lo hi t.
Proof. apply existsb_app. Qed.

(** ** Case mapping *)

Lemma toLowerCase_app (s t : jsstr) :
  toLowerCase (s ++ t) = toLowerCase s ++ toLowerCase t.
Proof. apply flat_map_app. Qed.

Lemma lower_unit_fixed (c : N) : toLowerCase (lower_unit c) = lower_unit c.
Proof.
  unfold lower_unit.
  repeat case_match; split_bools; try done; cbn; unfold lower_unit;
    repeat case_match; split_bools; try done; lia.
Qed.

Lemma toLowerCase_idemp (s : jsstr) : toLowerCase (toLowerCase s) = toLowerCase s.
Proof.
  induction s as [|c s IH]; [done|]. cbn.
  change (flat_map lower_unit s) with (toLowerCase s).
  by rewrite toLowerCase_app, lower_unit_fixed, IH.
Qed.

Lemma toLowerCase_ascii_unit (c d : N) :
  (d < 128)%N -> lower_unit d = [d] -> d ∈ lower_unit c ->
  (c < 128 \/ c = 304 \/ c = 8490)%N.
Proof.
  unfold lower_unit. intros Hd Hfix Hin.
  repeat case_match; split_bools; set_unfold in Hin; lia.
Qed.

(** ** Joining and splitting *)

(** A separator-free piece is read back whole. *)
Lemma split_on_free (sep : N) (w : jsstr) : sep ∉ w -> split_on sep w = [w].
Proof.
  induction w as [|c w IH]; intros Hw; [done|]. cbn.
  apply not_elem_of_cons in Hw as [Hc Hw]. rewrite IH by done.
  destruct (N.eqb_spec c sep); [congruence|done].
Qed.

Lemma split_on_app (sep : N) (w s : jsstr) :
  sep ∉ w -> split_on sep (w ++ sep :: s) = w :: split_on sep s.
Proof.
  induction w as [|c w IH]; intros Hw; cbn; [by rewrite N.eqb_refl|].
  apply not_elem_of_cons in Hw as [Hc Hw]. rewrite IH by done.
  destruct (N.eqb_spec c sep); [congruence|done].
Qed.

Lemma split_on_join (sep : N) (l : list jsstr) :
  l <> [] -> Forall (fun w => sep ∉ w) l -> split_on sep (join [sep] l) = l.
Proof.
  induction l as [|w l IH]; [done|]. intros _ Hl.
  inversion_clear Hl as [|? ? Hw Hws].
  destruct l as [|v l]; [by apply split_on_free|].
  change (join [sep] (w :: v :: l)) with (w ++ sep :: join [sep] (v :: l)).
  rewrite split_on_app by done. by rewrite IH.
Qed.

Lemma split_on_free_pieces (sep : N) (s : jsstr) :
  Forall (fun w => sep ∉ w) (split_on sep s).
Proof.
  induction s as [|c s IH]; cbn.
  - constructor; [apply not_elem_of_nil|constructor].
  - destruct (N.eqb_spec c sep); [constructor; [apply not_elem_of_nil|done]|].
    destruct (split_on sep s) as [|w ws]; inversion_clear IH; constructor; try done;
      apply not_elem_of_cons; split; auto using not_elem_of_nil.
Qed.

(** ** Trimming *)

(** A string trimmed at both ends. *)
Definition trimmed (s : jsstr) : Prop :=
  (forall c, head s = Some c -> is_space c = false)
  /\ (forall c, last s = Some c -> is_space c = false).

Lemma last_head_rev (s : jsstr) : last s = head (rev s).
Proof.
  induction s as [|c s _] using rev_ind; [done|]. by rewrite last_snoc, rev_app_distr.
Qed.

Lemma trimStart_suffix (s : jsstr) : exists p, s = p ++ trimStart s /\ Forall (fun c => is_space c = true) p.
Proof.
  induction s as [|c s IH]; cbn; [by exists []|].
  destruct (is_space c) eqn:Hc; [|by exists []].
  destruct IH as (p & Hs & Hp). exists (c :: p). cbn. rewrite <-Hs. auto.
Qed.

Lemma trimStart_head (s : jsstr) (c : N) : head (trimStart s) = Some c -> is_space c = false.
Proof.
  induction s as [|d s IH]; cbn; [done|].
  destruct (is_space d) eqn:Hd; [done|]. cbn. by intros [= <-].
Qed.

Lemma trimStart_id (s : jsstr) :
  (forall c, head s = Some c -> is_space c = false) -> trimStart s = s.
Proof. destruct s as [|c s]; cbn; [done|]. intros H. by rewrite (H c). Qed.

Lemma trim_id (s : jsstr) : trimmed s -> trim s = s.
Proof.
  intros [Hh Hl]. unfold trim. rewrite (trimStart_id s) by done.
  rewrite trimStart_id; [apply rev_involutive|].
  intros c Hc. apply Hl. by rewrite last_head_rev.
Qed.

(** Trimming keeps whatever has no white space at its own ends. *)
Lemma trimStart_keeps (p w : jsstr) (c : N) :
  is_space c = false -> exists p', trimStart (p ++ c :: w) = p' ++ c :: w.
Proof.
  intros Hc. induction p as [|d p IH]; cbn [List.app trimStart]; [rewrite Hc; by exists []|].
  destruct (is_space d); [done|]. by exists (d :: p).
Qed.

Lemma trim_includes (w s : jsstr) :
  w <> [] -> trimmed w -> includes w s = true -> includes w (trim s) = true.
Proof.
  intros Hne [Hh Hl] Hi. apply includes_spec in Hi as (a & b & ->).
  destruct w as [|c w0]; [done|]. specialize (Hh c eq_refl).
  destruct (trimStart_keeps a (w0 ++ b) c Hh) as [a' Ha].
  unfold trim. change (a ++ (c :: w0) ++ b) with (a ++ c :: (w0 ++ b)). rewrite Ha.
  change (a' ++ c :: (w0 ++ b)) with (a' ++ (c :: w0) ++ b).
  destruct (exists_last Hne) as (w1 & d & Hw). rewrite Hw.
  assert (is_space d = false) as Hd by (apply Hl; by rewrite Hw, last_snoc).
  rewrite !rev_app_distr. cbn [rev List.app].
  rewrite <-app_assoc. cbn [List.app].
  destruct (trimStart_keeps (rev b) (rev w1 ++ rev a') d Hd) as [b' Hb]. rewrite Hb.
  rewrite rev_app_distr. cbn [rev List.app]. rewrite rev_app_distr, !rev_involutive.
  rewrite <-!app_assoc. apply includes_spec. exists a', (rev b'). by rewrite <-app_assoc.
Qed.

Lemma trim_trimmed (s : jsstr) : trimmed (trim s).
Proof.
  unfold trim. split.
  - intros c. destruct (trimStart_suffix (rev (trimStart s))) as (p & Hs & _).
    set (t := trimStart (rev (trimStart s))) in *. intros Hc.
    apply (trimStart_head s). rewrite <-(rev_involutive (trimStart s)), Hs, rev_app_distr.
    destruct (rev t); [done|]. done.
  - intros c Hc. apply (trimStart_head (rev (trimStart s))).
    by rewrite last_head_rev, rev_involutive in Hc.
Qed.

(** ** Formatting *)

Lemma padStart_length (n : nat) (fill : N) (s : jsstr) :
  length (padStart n fill s) = Nat.max n (length s).
Proof. unfold padStart. rewrite length_app, repeat_length. lia. Qed.
