(* ===== verification/JsNumber.v ===== *)
(** Numbers as the front ends print them: decimal text of integers, the
    Number-to-string algorithm on decimal values, and [toFixed] on rationals. *)

From Stdlib Require Import Decimal DecimalFacts DecimalN.
From S2P Require Import Prelude JsString.

Local Open Scope N_scope.

(** ** Integers *)

Fixpoint uint_units (d : uint) : jsstr :=
  match d with
  | Nil => []
  | D0 d => 48 :: uint_units d | D1 d => 49 :: uint_units d
  | D2 d => 50 :: uint_units d | D3 d => 51 :: uint_units d
  | D4 d => 52 :: uint_units d | D5 d => 53 :: uint_units d
  | D6 d => 54 :: uint_units d | D7 d => 55 :: uint_units d
  | D8 d => 56 :: uint_units d | D9 d => 57 :: uint_units d
  end.

Definition nat_to_string (n : N) : jsstr := uint_units (N.to_uint n).

(** [String(z)] for an integer of absolute value below 10^21. *)
Definition int_to_string (z : Z) : jsstr :=
  if (z <? 0)%Z then 45 :: nat_to_string (Z.to_N (- z)) else nat_to_string (Z.to_N z).

Definition is_digit (c : N) : bool := (48 <=? c) && (c <=? 57).

Definition digit_cons (c : N) (d : uint) : uint :=
  match c with
  | 48 => D0 d | 49 => D1 d | 50 => D2 d | 51 => D3 d | 52 => D4 d
  | 53 => D5 d | 54 => D6 d | 55 => D7 d | 56 => D8 d | _ => D9 d
  end.

(** The longest prefix of digits, and what follows it. *)
Fixpoint read_digits (s : jsstr) : uint * jsstr :=
  match s with
  | c :: s' => if is_digit c then let '(d, r) := read_digits s' in (digit_cons c d, r) else (Nil, s)
  | [] => (Nil, [])
  end.

Lemma read_digits_uint_units (d : uint) (r : jsstr) :
  (forall c, head r = Some c -> is_digit c = false) ->
  read_digits (uint_units d ++ r) = (d, r).
Proof.
  intros Hr. induction d; cbn; try by rewrite IHd.
  destruct r as [|c r]; [done|]. cbn. by rewrite Hr.
Qed.

Lemma of_uint_to_uint (n : N) : N.of_uint (N.to_uint n) = n.
Proof. apply Unsigned.of_to. Qed.

(** No leading zero: only the number zero starts with the digit 0. *)
Lemma to_uint_D0 (n : N) (d : uint) : N.to_uint n = D0 d -> n = 0.
Proof.
  intros H. pose proof (Unsigned.to_of (N.to_uint n)) as Hn.
  rewrite of_uint_to_uint, H in Hn. unfold unorm in Hn. cbn in Hn.
  destruct (nzhead d) eqn:Hd; try discriminate.
  - injection Hn as ->. by rewrite <-(of_uint_to_uint n), H.
  - exfalso. clear -Hd. induction d; cbn in Hd; try discriminate. auto.
Qed.

Lemma to_uint_not_nil (n : N) : N.to_uint n <> Nil.
Proof.
  intros H. pose proof (Unsigned.to_of (N.to_uint n)) as Hn.
  rewrite of_uint_to_uint, H in Hn. discriminate.
Qed.

Lemma nat_to_string_not_nil (n : N) : nat_to_string n <> [].
Proof.
  unfold nat_to_string. pose proof (to_uint_not_nil n). by destruct (N.to_uint n).
Qed.

Lemma uint_units_digits (d : uint) : Forall (fun c => is_digit c = true) (uint_units d).
Proof. induction d; cbn; auto. Qed.

Lemma nat_to_string_inj (n m : N) : nat_to_string n = nat_to_string m -> n = m.
Proof.
  unfold nat_to_string. intros H. rewrite <-(of_uint_to_uint n), <-(of_uint_to_uint m).
  assert (fst (read_digits (uint_units (N.to_uint n) ++ [])) =
          fst (read_digits (uint_units (N.to_uint m) ++ []))) as Hd by by rewrite H.
  rewrite !read_digits_uint_units in Hd by done. cbn in Hd. by rewrite Hd.
Qed.

(** ** Decimal values *)

Definition strip_step (m : Z) : option Z :=
  if ((m =? 0) || negb (m mod 10 =? 0))%Z then None else Some (m / 10)%Z.

(** Drop the trailing zeros of a mantissa, raising the exponent. *)
Fixpoint strip_zeros (fuel : nat) (m e : Z) : Z * Z :=
  match fuel with
  | O => (m, e)
  | S k => match strip_step m with
           | Some m' => strip_zeros k m' (e + 1)%Z
           | None => (m, e)
           end
  end.

(** The Number-to-string algorithm on the value [m * 10^e], [m] a positive
    integer with no trailing zero: [k] digits, the point after the [n]-th. *)
Definition digits_to_string (ds : jsstr) (e : Z) : jsstr :=
  let k := Z.of_nat (length ds) in
  let n := (k + e)%Z in
  if ((k <=? n) && (n <=? 21))%Z then ds ++ repeat 48 (Z.to_nat (n - k))
  else if ((0 <? n) && (n <=? 21))%Z
  then take (Z.to_nat n) ds ++ 46 :: drop (Z.to_nat n) ds
  else if ((-6 <? n) && (n <=? 0))%Z then 48 :: 46 :: repeat 48 (Z.to_nat (- n)) ++ ds
  else let ex := (n - 1)%Z in
       let mantissa := match ds with d :: ((_ :: _) as r) => d :: 46 :: r | _ => ds end in
       mantissa ++ 101 :: (if (0 <=? ex)%Z then 43 else 45) :: nat_to_string (Z.to_N (Z.abs ex)).

Definition decimal_to_string (m e : Z) : jsstr :=
  if (m =? 0)%Z then [48]
  else let '(m', e') := strip_zeros (length (nat_to_string (Z.to_N (Z.abs m)))) m e in
       let ds := digits_to_string (nat_to_string (Z.to_N (Z.abs m'))) e' in
       if (m <? 0)%Z then 45 :: ds else ds.

(** ** toFixed *)

(** The integer [n] for which [n / 10^f] is closest to [num / den], the larger of
    two: rounding half up, as [toFixed] is specified on a non-negative number. *)
Definition round_fixed (f : nat) (num den : Z) : Z :=
  ((2 * num * 10 ^ Z.of_nat f + den) / (2 * den))%Z.

Definition fixed_digits (f : nat) (n : N) : jsstr :=
  let m := padStart (S f) 48 (nat_to_string n) in
  let k := (length m - f)%nat in
  match f with O => m | S _ => take k m ++ 46 :: drop k m end.

(** [x.toFixed(f)] for the rational [x = num / den], [den] positive and [x] below
    10^21; every double is such a rational. *)
Definition toFixed (f : nat) (num den : Z) : jsstr :=
  if (num <? 0)%Z then 45 :: fixed_digits f (Z.to_N (round_fixed f (- num) den))
  else fixed_digits f (Z.to_N (round_fixed f num den)).

Lemma round_fixed_closest (f : nat) (num den : Z) :
  (0 < den)%Z ->
  (2 * Z.abs (round_fixed f num den * den - num * 10 ^ Z.of_nat f) <= den)%Z.
Proof.
  intros Hden. unfold round_fixed.
  pose proof (Z.div_mod (2 * num * 10 ^ Z.of_nat f + den) (2 * den) ltac:(lia)) as Hdm.
  pose proof (Z.mod_pos_bound (2 * num * 10 ^ Z.of_nat f + den) (2 * den) ltac:(lia)) as Hb.
  set (q := ((2 * num * 10 ^ Z.of_nat f + den) / (2 * den))%Z) in *.
  set (r := ((2 * num * 10 ^ Z.of_nat f + den) mod (2 * den))%Z) in *.
  set (p := (10 ^ Z.of_nat f)%Z) in *. clearbody p q r. nia.
Qed.

Lemma round_fixed_nonneg (f : nat) (num den : Z) :
  (0 < den)%Z -> (0 <= num)%Z -> (0 <= round_fixed f num den)%Z.
Proof.
  intros. unfold round_fixed. apply Z.div_pos; [|lia].
  assert (0 <= 10 ^ Z.of_nat f)%Z by (apply Z.pow_nonneg; lia). nia.
Qed.

Example toFixed_1536 : toFixed 1 1536 1024 = js "1.5". Proof. by_evaluation. Qed.
Example toFixed_half_up : toFixed 1 1 20 = js "0.1". Proof. by_evaluation. Qed.
Example decimal_frac : decimal_to_string (-12340) (-6) = js "-0.01234". Proof. by_evaluation. Qed.
Example decimal_exp : decimal_to_string 12 30 = js "1.2e+31". Proof. by_evaluation. Qed.
