(* ===== verification/Json.v ===== *)
(** JSON as the browser's [JSON.parse] and [JSON.stringify] read and write it:
    values, printer, recursive-descent parser, and the round trip. *)

From Stdlib Require Import Decimal DecimalN.
From S2P Require Import Prelude JsString JsNumber.

Local Open Scope N_scope.

(** ** Values *)

(** A number literal is kept as the decimal it denotes: [JInt z], or
    [JDec m e] for [m * 10^e] with [e] negative and no trailing zero in [m].
    An object is the list of its members in creation order, keys distinct. *)
#[warnings="-register-all"]
Inductive json : Type :=
| JNull
| JBool (b : bool)
| JInt (z : Z)
| JDec (m e : Z)
| JStr (s : jsstr)
| JArr (l : list json)
| JObj (l : list (jsstr * json)).

Section JsonInd.
Context (P : json -> Prop)
  (Hnull : P JNull) (Hbool : forall b, P (JBool b)) (Hint : forall z, P (JInt z))
  (Hdec : forall m e, P (JDec m e)) (Hstr : forall s, P (JStr s))
  (Harr : forall l, Forall P l -> P (JArr l))
  (Hobj : forall l, Forall (fun kv => P (snd kv)) l -> P (JObj l)).

Fixpoint json_ind' (v : json) : P v :=
  match v with
  | JNull => Hnull | JBool b => Hbool b | JInt z => Hint z
  | JDec m e => Hdec m e | JStr s => Hstr s
  | JArr l => Harr l
      ((fix go l : Forall P l :=
          match l with
          | [] => Forall_nil_2 _
          | x :: l' => Forall_cons_2 _ _ _ (json_ind' x) (go l')
          end) l)
  | JObj l => Hobj l
      ((fix go l : Forall (fun kv => P (snd kv)) l :=
          match l with
          | [] => Forall_nil_2 _
          | x :: l' => Forall_cons_2 _ _ _ (json_ind' (snd x)) (go l')
          end) l)
  end.
End JsonInd.

(** [o.key] on an object; the keys are distinct. *)
Definition obj_get (k : jsstr) (l : list (jsstr * json)) : option json :=
  snd <$> List.find (fun kv => str_eqb (fst kv) k) l.

(** Assigning a member: in place when the key is there, at the end otherwise. *)
Fixpoint obj_set (l : list (jsstr * json)) (k : jsstr) (v : json) : list (jsstr * json) :=
  match l with
  | [] => [(k, v)]
  | (k', v') :: l' => if str_eqb k' k then (k', v) :: l' else (k', v') :: obj_set l' k v
  end.

(** An object literal whose members may be [undefined]: [JSON.stringify] leaves
    those out. *)
Definition obj_of (l : list (jsstr * option json)) : json :=
  JObj (omap (fun kv => (fun v => (fst kv, v)) <$> snd kv) l).

(** ** Printer *)

Definition hex_digit (n : N) : N := if n <? 10 then 48 + n else 87 + n.

Definition hex4 (c : N) : jsstr :=
  [hex_digit (c / 4096); hex_digit (c / 256 mod 16); hex_digit (c / 16 mod 16); hex_digit (c mod 16)].

Definition is_high (c : N) : bool := (55296 <=? c) && (c <=? 56319).
Definition is_low (c : N) : bool := (56320 <=? c) && (c <=? 57343).

(** The escape of a unit that may not stand for itself. *)
Definition escape_unit (c : N) : option jsstr :=
  if c =? 8 then Some [92; 98]
  else if c =? 9 then Some [92; 116]
  else if c =? 10 then Some [92; 110]
  else if c =? 12 then Some [92; 102]
  else if c =? 13 then Some [92; 114]
  else if c =? 34 then Some [92; 34]
  else if c =? 92 then Some [92; 92]
  else if c <? 32 then Some (92 :: 117 :: hex4 c)
  else None.

(** The body of a quoted string: escapes, surrogate pairs as they are, lone
    surrogates escaped. *)
Fixpoint quote_body (s : jsstr) : jsstr :=
  match s with
  | [] => []
  | c :: s1 =>
    match escape_unit c with
    | Some e => e ++ quote_body s1
    | None =>
      if is_high c then
        match s1 with
        | d :: s2 => if is_low d then c :: d :: quote_body s2
                     else (92 :: 117 :: hex4 c) ++ quote_body s1
        | [] => 92 :: 117 :: hex4 c
        end
      else if is_low c then (92 :: 117 :: hex4 c) ++ quote_body s1
      else c :: quote_body s1
    end
  end.

Definition quote (s : jsstr) : jsstr := 34 :: quote_body s ++ [34].

Definition number_to_string (z : Z) : jsstr :=
  if (Z.abs z <? 10 ^ 21)%Z then int_to_string z else decimal_to_string z 0.

(** [JSON.stringify(v)] *)
Fixpoint stringify (v : json) : jsstr :=
  match v with
  | JNull => js "null"
  | JBool b => if b then js "true" else js "false"
  | JInt z => number_to_string z
  | JDec m e => decimal_to_string m e
  | JStr s => quote s
  | JArr l => 91 :: join [44] (List.map stringify l) ++ [93]
  | JObj l =>
      123 :: join [44] (List.map (fun kv => quote (fst kv) ++ 58 :: stringify (snd kv)) l) ++ [125]
  end.

(** [String(v)] *)
Fixpoint to_String (v : json) : jsstr :=
  match v with
  | JNull => js "null"
  | JBool b => if b then js "true" else js "false"
  | JInt z => number_to_string z
  | JDec m e => decimal_to_string m e
  | JStr s => s
  | JArr l => join [44] (List.map (fun x => match x with JNull => [] | _ => to_String x end) l)
  | JObj _ => js "[object Object]"
  end.

(** ** Parser *)

Definition is_json_ws (c : N) : bool := (c =? 32) || (c =? 9) || (c =? 10) || (c =? 13).

Fixpoint skip_ws (s : jsstr) : jsstr :=
  match s with
  | c :: s' => if is_json_ws c then skip_ws s' else s
  | [] => []
  end.

Definition hex_value (c : N) : option N :=
  if is_digit c then Some (c - 48)
  else if (97 <=? c) && (c <=? 102) then Some (c - 87)
  else if (65 <=? c) && (c <=? 70) then Some (c - 55)
  else None.

Definition unescape (c : N) : option N :=
  if c =? 34 then Some 34
  else if c =? 92 then Some 92
  else if c =? 47 then Some 47
  else if c =? 98 then Some 8
  else if c =? 102 then Some 12
  else if c =? 110 then Some 10
  else if c =? 114 then Some 13
  else if c =? 116 then Some 9
  else None.

(** After the opening quote: the string read and what follows the closing one. *)
Fixpoint parse_string (s : jsstr) : option (jsstr * jsstr) :=
  match s with
  | [] => None
  | c :: s1 =>
    if c =? 34 then Some ([], s1)
    else if c <? 32 then None
    else if c =? 92 then
      match s1 with
      | [] => None
      | e :: s2 =>
        if e =? 117 then
          match s2 with
          | a :: b :: c' :: d :: s3 =>
            match hex_value a, hex_value b, hex_value c', hex_value d, parse_string s3 with
            | Some a, Some b, Some c', Some d, Some (t, r) =>
                Some ((a * 4096 + b * 256 + c' * 16 + d) :: t, r)
            | _, _, _, _, _ => None
            end
          | _ => None
          end
        else match unescape e, parse_string s2 with
             | Some u, Some (t, r) => Some (u :: t, r)
             | _, _ => None
             end
      end
    else match parse_string s1 with
         | Some (t, r) => Some (c :: t, r)
         | None => None
         end
  end.

Definition json_number (neg : bool) (m e : Z) : json :=
  let m := if neg then (- m)%Z else m in
  if (m =? 0)%Z then JInt 0
  else if (0 <=? e)%Z then JInt (m * 10 ^ e)
  else let '(m', e') := strip_zeros (Z.to_nat (- e)) m e in
       if (0 <=? e')%Z then JInt (m' * 10 ^ e') else JDec m' e'.

Fixpoint uint_length (d : uint) : Z :=
  match d with
  | Nil => 0
  | D0 d | D1 d | D2 d | D3 d | D4 d | D5 d | D6 d | D7 d | D8 d | D9 d => 1 + uint_length d
  end%Z.

(** The exponent part, absent or [e|E sign? digits]. *)
Definition parse_exponent (s : jsstr) : option (Z * jsstr) :=
  match s with
  | c :: s1 =>
    if (c =? 101) || (c =? 69) then
      let '(neg, s2) := match s1 with
                        | d :: s' => if d =? 43 then (false, s') else if d =? 45 then (true, s') else (false, s1)
                        | [] => (false, s1)
                        end in
      match read_digits s2 with
      | (Nil, _) => None
      | (d, r) => Some ((if neg then - Z.of_N (N.of_uint d) else Z.of_N (N.of_uint d))%Z, r)
      end
    else Some (0%Z, s)
  | [] => Some (0%Z, s)
  end.

(** The fraction part, absent or [. digits]. *)
Definition parse_fraction (s : jsstr) : option (uint * jsstr) :=
  match s with
  | c :: s1 =>
    if c =? 46 then match read_digits s1 with (Nil, _) => None | dr => Some dr end
    else Some (Nil, s)
  | [] => Some (Nil, s)
  end.

(** An unsigned number: no leading zero unless the integer part is zero. *)
Definition parse_unsigned (neg : bool) (s : jsstr) : option (json * jsstr) :=
  match read_digits s with
  | (Nil, _) | (D0 (D0 _ | D1 _ | D2 _ | D3 _ | D4 _ | D5 _ | D6 _ | D7 _ | D8 _ | D9 _), _) => None
  | (ip, r1) =>
    match parse_fraction r1 with
    | None => None
    | Some (fp, r2) =>
      match parse_exponent r2 with
      | None => None
      | Some (ex, r3) =>
        let k := uint_length fp in
        let m := (Z.of_N (N.of_uint ip) * 10 ^ k + Z.of_N (N.of_uint fp))%Z in
        Some (json_number neg m (ex - k), r3)
      end
    end
  end.

Definition parse_number (s : jsstr) : option (json * jsstr) :=
  match s with
  | c :: s' => if c =? 45 then parse_unsigned true s' else parse_unsigned false s
  | [] => None
  end.

Definition parse_atom (s : jsstr) : option (json * jsstr) :=
  if startsWith (js "null") s then Some (JNull, drop 4 s)
  else if startsWith (js "true") s then Some (JBool true, drop 4 s)
  else if startsWith (js "false") s then Some (JBool false, drop 5 s)
  else parse_number s.

(** One value, the elements of an array after its bracket, the members of an object
    after its brace. Every call consumes a unit of the text, which bounds the
    fuel by its length. *)
Fixpoint parse_value (fuel : nat) (s : jsstr) : option (json * jsstr) :=
  match fuel with
  | O => None
  | S n =>
    match skip_ws s with
    | [] => None
    | c :: s1 =>
      if c =? 34 then
        match parse_string s1 with Some (t, r) => Some (JStr t, r) | None => None end
      else if c =? 91 then
        match skip_ws s1 with
        | d :: r => if d =? 93 then Some (JArr [], r)
                    else match parse_elements n s1 with
                         | Some (l, r) => Some (JArr l, r) | None => None end
        | [] => None
        end
      else if c =? 123 then
        match skip_ws s1 with
        | d :: r => if d =? 125 then Some (JObj [], r)
                    else match parse_members n [] s1 with
                         | Some (l, r) => Some (JObj l, r) | None => None end
        | [] => None
        end
      else parse_atom (c :: s1)
    end
  end
with parse_elements (fuel : nat) (s : jsstr) : option (list json * jsstr) :=
  match fuel with
  | O => None
  | S n =>
    match parse_value n s with
    | None => None
    | Some (v, r) =>
      match skip_ws r with
      | [] => None
      | c :: r1 =>
        if c =? 93 then Some ([v], r1)
        else if c =? 44 then
          match parse_elements n r1 with Some (l, r2) => Some (v :: l, r2) | None => None end
        else None
      end
    end
  end
with parse_members (fuel : nat) (acc : list (jsstr * json)) (s : jsstr)
    : option (list (jsstr * json) * jsstr) :=
  match fuel with
  | O => None
  | S n =>
    match skip_ws s with
    | c :: s1 =>
      if c =? 34 then
        match parse_string s1 with
        | None => None
        | Some (k, r) =>
          match skip_ws r with
          | d :: r1 =>
            if d =? 58 then
              match parse_value n r1 with
              | None => None
              | Some (v, r2) =>
                match skip_ws r2 with
                | [] => None
                | e :: r3 =>
                  if e =? 125 then Some (obj_set acc k v, r3)
                  else if e =? 44 then parse_members n (obj_set acc k v) r3
                  else None
                end
              end
            else None
          | [] => None
          end
        end
      else None
    | [] => None
    end
  end.

(** [JSON.parse(text)]; [None] stands for the SyntaxError it throws. *)
Definition parse (text : jsstr) : option json :=
  match parse_value (S (2 * length text)) text with
  | Some (v, r) => match skip_ws r with [] => Some v | _ :: _ => None end
  | None => None
  end.

(** ** What the printer and parser agree on *)

Definition wf_str (s : jsstr) : Prop := Forall (fun c => c < 65536) s.

(** The values the front ends serialise: strings of 16-bit units, integers
    printed positionally, distinct keys. *)
Fixpoint wf_json (v : json) : Prop :=
  match v with
  | JNull | JBool _ => True
  | JInt z => (Z.abs z < 10 ^ 21)%Z
  | JDec _ _ => False
  | JStr s => wf_str s
  | JArr l => List.fold_right (fun x p => wf_json x /\ p) True l
  | JObj l => NoDup (List.map fst l)
              /\ List.fold_right (fun kv p => (wf_str (fst kv) /\ wf_json (snd kv)) /\ p) True l
  end.

(** *** Strings *)

Lemma hex_value_digit (n : N) : n < 16 -> hex_value (hex_digit n) = Some n.
Proof.
  intros Hn. unfold hex_digit, hex_value, is_digit.
  destruct (N.ltb_spec n 10); repeat case_match; split_bools; try lia; f_equal; lia.
Qed.

Lemma parse_hex4 (c : N) (s : jsstr) :
  c < 65536 ->
  parse_string (92 :: 117 :: hex4 c ++ s)
  = match parse_string s with Some (t, r) => Some (c :: t, r) | None => None end.
Proof.
  intros Hc.
  assert (c / 4096 < 16) by (apply N.Div0.div_lt_upper_bound; lia).
  pose proof (N.mod_lt (c / 256) 16 ltac:(lia)). pose proof (N.mod_lt (c / 16) 16 ltac:(lia)).
  pose proof (N.mod_lt c 16 ltac:(lia)).
  cbn -[N.div N.modulo hex_value hex_digit N.mul N.add].
  rewrite !hex_value_digit by done.
  destruct (parse_string s) as [[t r]|]; [|done]. do 2 f_equal. f_equal.
  pose proof (N.div_mod c 16 ltac:(lia)). pose proof (N.div_mod (c / 16) 16 ltac:(lia)).
  pose proof (N.div_mod (c / 16 / 16) 16 ltac:(lia)).
  rewrite !N.Div0.div_div in *. change (16 * 16 * 16) with 4096 in *.
  change (16 * 16) with 256 in *. lia.
Qed.

Lemma escape_unit_parse (c : N) (e s : jsstr) :
  escape_unit c = Some e ->
  parse_string (e ++ s)
  = match parse_string s with Some (t, r) => Some (c :: t, r) | None => None end.
Proof.
  unfold escape_unit. intros He.
  repeat match type of He with
         | (if (c =? ?k) then _ else _) = _ =>
             destruct (N.eqb_spec c k) as [->|]; [by injection He as <-|]
         end.
  destruct (N.ltb_spec c 32); [|done]. injection He as <-. apply parse_hex4. lia.
Qed.

Lemma escape_unit_none (c : N) : escape_unit c = None -> 32 <= c /\ c <> 34 /\ c <> 92.
Proof. unfold escape_unit. intros He. repeat case_match; try done; lia. Qed.

Lemma parse_string_plain (c : N) (s : jsstr) :
  32 <= c -> c <> 34 -> c <> 92 ->
  parse_string (c :: s)
  = match parse_string s with Some (t, r) => Some (c :: t, r) | None => None end.
Proof. intros. cbn. repeat case_match; split_bools; try done; lia. Qed.

Lemma parse_string_quote (s r : jsstr) :
  wf_str s -> parse_string (quote_body s ++ 34 :: r) = Some (s, r).
Proof.
  remember (length s) as n eqn:Hn. revert s Hn.
  induction n as [n IH] using lt_wf_ind. intros [|c s] -> Hs; [done|].
  inversion_clear Hs as [|? ? Hc Hs']. cbn [quote_body].
  assert (parse_string (quote_body s ++ 34 :: r) = Some (s, r)) as IHs
    by (eapply IH; [|reflexivity|done]; cbn; lia).
  destruct (escape_unit c) as [e|] eqn:He.
  { rewrite <-app_assoc, (escape_unit_parse c) by done. by rewrite IHs. }
  apply escape_unit_none in He as (H32 & H34 & H92).
  assert (parse_string (((92 :: 117 :: hex4 c) ++ quote_body s) ++ 34 :: r) = Some (c :: s, r)) as Hesc.
  { rewrite <-app_assoc. cbn [app]. by rewrite parse_hex4, IHs. }
  destruct (is_high c) eqn:Hhi.
  - destruct s as [|d s]; [apply Hesc|]. destruct (is_low d) eqn:Hlo; [|apply Hesc].
    inversion_clear Hs' as [|? ? Hd Hs]. unfold is_low in Hlo. split_bools.
    cbn [app]. rewrite !parse_string_plain by lia.
    by rewrite (IH (length s)) by (done || cbn; lia).
  - destruct (is_low c); [apply Hesc|]. cbn [app].
    by rewrite parse_string_plain, IHs.
Qed.

(** *** Numbers *)

(** What may follow a value inside a printed text: nothing, a comma or a bracket. *)
Definition delim (r : jsstr) : Prop :=
  forall c, head r = Some c -> c = 44 \/ c = 93 \/ c = 125.

Lemma delim_nil : delim [].
Proof. intros c. done. Qed.

Lemma delim_cons (c : N) (r : jsstr) : c = 44 \/ c = 93 \/ c = 125 -> delim (c :: r).
Proof. by intros ? ? [= <-]. Qed.

Lemma delim_skip_ws (r : jsstr) : delim r -> skip_ws r = r.
Proof.
  intros Hr. destruct r as [|c r]; [done|]. cbn.
  by destruct (Hr c eq_refl) as [->|[->| ->]].
Qed.

#[export] Hint Resolve delim_nil delim_cons : jsdb.

Lemma parse_unsigned_nat (neg : bool) (n : N) (r : jsstr) :
  delim r ->
  parse_unsigned neg (nat_to_string n ++ r)
  = Some (JInt (if neg then - Z.of_N n else Z.of_N n)%Z, r).
Proof.
  intros Hr. unfold parse_unsigned, nat_to_string.
  rewrite read_digits_uint_units.
  2: { intros c Hc. destruct (Hr c Hc) as [->|[->| ->]]; done. }
  assert (parse_fraction r = Some (Nil, r)) as Hf.
  { destruct r as [|c r]; [done|]. by destruct (Hr c eq_refl) as [->|[->| ->]]. }
  assert (parse_exponent r = Some (0%Z, r)) as He.
  { destruct r as [|c r]; [done|]. by destruct (Hr c eq_refl) as [->|[->| ->]]. }
  assert (json_number neg (Z.of_N n * 10 ^ 0 + 0)%Z (0 - 0)
          = JInt (if neg then - Z.of_N n else Z.of_N n)%Z) as Hj.
  { unfold json_number. replace (Z.of_N n * 10 ^ 0 + 0)%Z with (Z.of_N n) by lia.
    destruct (Z.eqb_spec (if neg then - Z.of_N n else Z.of_N n)%Z 0) as [->|]; [done|].
    cbn. f_equal. lia. }
  pose proof (of_uint_to_uint n) as Hn. pose proof (to_uint_not_nil n) as Hnil.
  pose proof (to_uint_D0 n) as H0.
  destruct (N.to_uint n) as [|d|d|d|d|d|d|d|d|d|d] eqn:Hd; try done;
    try (rewrite Hf, He, Hn; cbn [uint_length]; by rewrite <-Hj).
  rewrite (H0 d eq_refl) in *. injection Hd as <-. rewrite Hf, He. by destruct neg.
Qed.

Lemma nat_to_string_head (n : N) :
  exists c t, nat_to_string n = c :: t /\ is_digit c = true.
Proof.
  pose proof (nat_to_string_not_nil n). pose proof (uint_units_digits (N.to_uint n)) as Hd.
  unfold nat_to_string in *. destruct (uint_units (N.to_uint n)) as [|c t]; [done|].
  inversion_clear Hd. eauto.
Qed.

Lemma parse_number_int (z : Z) (r : jsstr) :
  delim r -> parse_number (int_to_string z ++ r) = Some (JInt z, r).
Proof.
  intros Hr. unfold int_to_string. destruct (Z.ltb_spec z 0).
  - cbn. rewrite parse_unsigned_nat by done. do 3 f_equal. lia.
  - destruct (nat_to_string_head (Z.to_N z)) as (c & t & Hc & Hd).
    pose proof (parse_unsigned_nat false (Z.to_N z) r Hr) as Hp.
    rewrite Hc in *. cbn [app] in *. unfold parse_number.
    assert ((c =? 45) = false) as -> by (unfold is_digit in Hd; lia).
    rewrite Hp. do 3 f_equal. lia.
Qed.

(** *** Values *)

Lemma startsWith_head_ne (p s : jsstr) (c d : N) :
  head p = Some c -> head s = Some d -> c <> d -> startsWith p s = false.
Proof.
  intros Hp Hs Hcd. destruct p, s; simplify_eq/=. by rewrite (proj2 (N.eqb_neq _ _)).
Qed.

(** The first unit of a printed value is that of a token, never blank, never a
    closing bracket. *)
Definition token_head (s : jsstr) : Prop :=
  exists c t, s = c :: t /\ is_json_ws c = false /\ c <> 93 /\ c <> 125.

Lemma int_to_string_head (z : Z) :
  exists c t, int_to_string z = c :: t /\ (c = 45 \/ is_digit c = true).
Proof.
  unfold int_to_string. destruct (z <? 0)%Z; [eauto|].
  destruct (nat_to_string_head (Z.to_N z)) as (c & t & -> & ?). eauto.
Qed.

Lemma stringify_head (v : json) : wf_json v -> token_head (stringify v).
Proof.
  unfold token_head. destruct v as [|[]|z| | | |]; cbn; intros Hv; try done;
    try (by do 2 eexists; split; [reflexivity|]).
  unfold number_to_string. rewrite (proj2 (Z.ltb_lt _ _)) by lia.
  destruct (int_to_string_head z) as (c & t & -> & Hc).
  exists c, t. split; [done|]. destruct Hc as [->|Hc]; [done|].
  unfold is_digit in Hc. unfold is_json_ws. lia.
Qed.

Lemma token_head_app (s r : jsstr) : token_head s -> token_head (s ++ r).
Proof. intros (c & t & -> & ?). exists c, (t ++ r). done. Qed.

Lemma token_skip_ws (s : jsstr) : token_head s -> skip_ws s = s.
Proof. intros (c & t & -> & Hws & _). cbn. by rewrite Hws. Qed.

(** Fuel that is enough for a printed value. *)
Fixpoint cost (v : json) : nat :=
  match v with
  | JArr l => 1 + list_sum (List.map (fun x => S (cost x)) l)
  | JObj l => 1 + list_sum (List.map (fun kv => S (cost (snd kv))) l)
  | _ => 1
  end.

(** The parser reads back one printed value in front of a delimiter. *)
Definition reads_back (v : json) : Prop :=
  forall (fuel : nat) (r : jsstr),
    delim r -> (cost v <= fuel)%nat -> parse_value fuel (stringify v ++ r) = Some (v, r).

Lemma parse_atom_int (z : Z) (r : jsstr) :
  delim r -> parse_atom (int_to_string z ++ r) = Some (JInt z, r).
Proof.
  intros Hr. unfold parse_atom. destruct (int_to_string_head z) as (c & t & Hc & Hd).
  assert (forall p d, head p = Some d -> is_digit d = false -> d <> 45 ->
            startsWith p (int_to_string z ++ r) = false) as Hne.
  { intros p d Hp Hdig H45. eapply startsWith_head_ne; [done|by rewrite Hc|].
    intros ->. destruct Hd; congruence. }
  rewrite (Hne (js "null") 110), (Hne (js "true") 116), (Hne (js "false") 102) by done.
  by apply parse_number_int.
Qed.

Lemma reads_back_int (z : Z) : (Z.abs z < 10 ^ 21)%Z -> reads_back (JInt z).
Proof.
  intros Hz [|n] r Hr Hn; [cbn in Hn; lia|]. cbn [parse_value stringify].
  unfold number_to_string. rewrite (proj2 (Z.ltb_lt _ _)) by lia.
  destruct (int_to_string_head z) as (c & t & Hc & Hd).
  pose proof (parse_atom_int z r Hr) as Hp. rewrite Hc in *. cbn [app skip_ws] in *.
  unfold is_digit in Hd.
  assert (is_json_ws c = false) as -> by (unfold is_json_ws; lia).
  rewrite !(proj2 (N.eqb_neq c _)) by lia. done.
Qed.

Lemma reads_back_str (s : jsstr) : wf_str s -> reads_back (JStr s).
Proof.
  intros Hs [|n] r Hr Hn; [cbn in Hn; lia|]. cbn [stringify]. unfold quote.
  cbn [app]. rewrite <-app_assoc. cbn -[parse_string]. by rewrite parse_string_quote.
Qed.

Lemma parse_elements_print (l : list json) (fuel : nat) (r : jsstr) :
  l <> [] -> Forall reads_back l ->
  (list_sum (List.map (fun x => S (cost x)) l) <= fuel)%nat ->
  parse_elements fuel (join [44] (List.map stringify l) ++ 93 :: r) = Some (l, r).
Proof.
  revert fuel. induction l as [|v l IH]; [done|]. intros [|n] _ Hl Hn; [cbn in Hn; lia|].
  inversion_clear Hl as [|? ? Hv Hvs]. cbn [List.map list_sum foldr] in Hn.
  cbn [parse_elements]. destruct l as [|w l].
  - cbn [List.map join]. rewrite Hv by (eauto with jsdb; cbn in Hn; lia). done.
  - change (join [44] (List.map stringify (v :: w :: l)))
      with (stringify v ++ 44 :: join [44] (List.map stringify (w :: l))).
    rewrite <-app_assoc. rewrite Hv by (eauto with jsdb; cbn in Hn |- *; lia).
    cbn -[parse_elements List.map].
    rewrite IH by (done || (cbn in Hn |- *; lia)). done.
Qed.

Lemma obj_set_fresh (l : list (jsstr * json)) (k : jsstr) (v : json) :
  k ∉ List.map fst l -> obj_set l k v = l ++ [(k, v)].
Proof.
  induction l as [|[k' v'] l IH]; [done|]. cbn. intros Hk.
  apply not_elem_of_cons in Hk as [Hk Hl]. rewrite IH by done.
  unfold str_eqb. by rewrite bool_decide_eq_false_2.
Qed.

Definition print_member (kv : jsstr * json) : jsstr := quote (fst kv) ++ 58 :: stringify (snd kv).

Lemma parse_members_print (l acc : list (jsstr * json)) (fuel : nat) (r : jsstr) :
  l <> [] -> Forall (fun kv => wf_str (fst kv) /\ reads_back (snd kv)) l ->
  NoDup (List.map fst (acc ++ l)) ->
  (list_sum (List.map (fun kv => S (cost (snd kv))) l) <= fuel)%nat ->
  (forall kv, kv ∈ l -> token_head (stringify (snd kv))) ->
  parse_members fuel acc (join [44] (List.map print_member l) ++ 125 :: r) = Some (acc ++ l, r).
Proof.
  revert acc fuel. induction l as [|[k v] l IH]; [done|].
  intros acc [|n] _ Hl Hnd Hn Htok; [cbn in Hn; lia|].
  inversion_clear Hl as [|? ? [Hk Hv] Hvs]. cbn [fst snd] in *.
  cbn [List.map list_sum foldr snd] in Hn.
  assert (k ∉ List.map fst acc) as Hfresh.
  { rewrite map_app in Hnd. apply NoDup_app in Hnd as (_ & Hd & _). cbn in Hd.
    intros Hin. apply (Hd k Hin). by left. }
  assert (forall s, parse_members (S n) acc (print_member (k, v) ++ s)
    = match parse_value n (stringify v ++ s) with
      | None => None
      | Some (v, r2) =>
        match skip_ws r2 with
        | [] => None
        | e :: r3 => if e =? 125 then Some (obj_set acc k v, r3)
                     else if e =? 44 then parse_members n (obj_set acc k v) r3 else None
        end
      end) as Hstep.
  { intros s. unfold print_member, quote. cbn [fst snd].
    cbn [app]. rewrite <-!app_assoc. cbn [app parse_members].
    cbn -[parse_string parse_value parse_members]. rewrite parse_string_quote by done.
    cbn -[parse_value parse_members]. by rewrite <-app_assoc || idtac. }
  destruct l as [|[k2 v2] l].
  - cbn [List.map join]. rewrite Hstep, Hv by (eauto with jsdb; cbn in Hn; lia).
    cbn. by rewrite obj_set_fresh.
  - change (join [44] (List.map print_member ((k, v) :: (k2, v2) :: l)))
      with (print_member (k, v) ++ 44 :: join [44] (List.map print_member ((k2, v2) :: l))).
    rewrite <-app_assoc, Hstep, Hv by (eauto with jsdb; cbn in Hn |- *; lia).
    cbn -[parse_members List.map print_member]. rewrite obj_set_fresh by done.
    rewrite IH; [by rewrite <-app_assoc|done|done| | |].
    + by rewrite <-app_assoc.
    + cbn in Hn |- *. lia.
    + intros kv Hkv. apply Htok. by right.
Qed.

Lemma wf_json_arr (l : list json) : wf_json (JArr l) -> Forall wf_json l.
Proof. cbn. induction l as [|v l IH]; cbn; [constructor|]. intros [? ?]. auto. Qed.

Lemma wf_json_members (l : list (jsstr * json)) :
  wf_json (JObj l) -> Forall (fun kv => wf_str (fst kv) /\ wf_json (snd kv)) l.
Proof.
  cbn. intros [_ Hl]. induction l as [|v l IH]; cbn in *; [constructor|].
  destruct Hl as [? ?]. auto.
Qed.

Lemma stringify_reads_back (v : json) : wf_json v -> reads_back v.
Proof.
  induction v as [|b|z|m e|s|l IH|l IH] using json_ind'; intros Hv.
  - intros [|n] r Hr Hn; [cbn in Hn; lia|]. done.
  - intros [|n] r Hr Hn; [cbn in Hn; lia|]. by destruct b.
  - by apply reads_back_int.
  - done.
  - by apply reads_back_str.
  - intros [|n] r Hr Hn; [cbn in Hn; lia|]. cbn [stringify].
    apply wf_json_arr in Hv. destruct l as [|v l]; [done|].
    assert (token_head (join [44] (List.map stringify (v :: l)) ++ 93 :: r)) as Htok.
    { destruct l as [|w l]; cbn [List.map join]; [|rewrite <-app_assoc];
        apply token_head_app, stringify_head; by inversion_clear Hv. }
    cbn [app]. rewrite <-app_assoc. cbn [app parse_value skip_ws].
    cbn -[parse_elements List.map join].
    rewrite token_skip_ws by done. destruct Htok as (c & t & Hc & _ & H93 & _).
    rewrite Hc at 1. rewrite (proj2 (N.eqb_neq c 93)) by done.
    rewrite parse_elements_print; [done|done| |cbn in Hn |- *; lia].
    rewrite Forall_forall in IH, Hv |- *. eauto.
  - intros [|n] r Hr Hn; [cbn in Hn; lia|]. cbn [stringify].
    pose proof (wf_json_members l Hv) as Hm. destruct Hv as [Hnd _].
    change (fun kv => quote (fst kv) ++ 58 :: stringify (snd kv)) with print_member.
    destruct l as [|kv l]; [done|].
    assert (exists t, join [44] (List.map print_member (kv :: l)) ++ 125 :: r = 34 :: t) as [t Ht].
    { destruct l as [|w l]; cbn [List.map join]; unfold print_member, quote; cbn [app]; eauto. }
    cbn [app]. rewrite <-app_assoc. cbn [app parse_value skip_ws].
    cbn -[parse_members List.map join].
    rewrite Ht at 1. cbn -[parse_members List.map join].
    rewrite parse_members_print with (acc := []); [done|done| |done|cbn in Hn |- *; lia|].
    + rewrite Forall_forall in IH, Hm |- *. intros x Hx. destruct (Hm x Hx). split; eauto.
    + intros x Hx. rewrite Forall_forall in Hm. destruct (Hm x Hx). by apply stringify_head.
Qed.

(** *** Enough fuel *)

Lemma join_length (l : list jsstr) :
  l <> [] -> (length (join [44%N] l) + 1 = list_sum (List.map (fun w => S (length w)) l))%nat.
Proof.
  induction l as [|w l IH]; [done|]. intros _. destruct l as [|v l]; [cbn; lia|].
  change (join [44] (w :: v :: l)) with (w ++ 44 :: join [44] (v :: l)).
  rewrite length_app. cbn [length]. specialize (IH ltac:(done)).
  cbn -[join] in IH |- *. lia.
Qed.

Lemma list_sum_map_double {A} (f g : A -> nat) (l : list A) :
  Forall (fun a => f a <= 2 * g a)%nat l ->
  (list_sum (List.map f l) <= 2 * list_sum (List.map g l))%nat.
Proof.
  induction 1 as [|a l Ha _ IH]; [done|].
  change (f a + list_sum (List.map f l) <= 2 * (g a + list_sum (List.map g l)))%nat. lia.
Qed.

Lemma stringify_not_nil (v : json) : wf_json v -> (1 <= length (stringify v))%nat.
Proof. intros Hv. destruct (stringify_head v Hv) as (c & t & -> & _). cbn. lia. Qed.

Lemma cost_le_length (v : json) : wf_json v -> (cost v <= 2 * length (stringify v))%nat.
Proof.
  induction v as [|b|z|m e|s|l IH|l IH] using json_ind'; intros Hv;
    try (pose proof (stringify_not_nil _ Hv); cbn [cost]; lia).
  - apply wf_json_arr in Hv. cbn [cost stringify]. destruct l as [|w l]; [cbn; lia|].
    pose proof (join_length (List.map stringify (w :: l)) ltac:(done)) as Hj.
    rewrite map_map in Hj.
    opose proof (list_sum_map_double (fun x => S (cost x))
      (fun x => S (length (stringify x))) (w :: l) _) as Hs.
    { rewrite Forall_forall in IH, Hv |- *. intros x Hx. specialize (IH x Hx (Hv x Hx)). lia. }
    cbn [length]. rewrite length_app. cbn [length]. lia.
  - pose proof (wf_json_members l Hv) as Hm. clear Hv. cbn [cost stringify].
    change (fun kv => quote (fst kv) ++ 58 :: stringify (snd kv)) with print_member.
    destruct l as [|w l]; [cbn; lia|].
    pose proof (join_length (List.map print_member (w :: l)) ltac:(done)) as Hj.
    rewrite map_map in Hj.
    opose proof (list_sum_map_double (fun x => S (cost (snd x)))
      (fun x => S (length (print_member x))) (w :: l) _) as Hs.
    { rewrite Forall_forall in IH, Hm |- *. intros x Hx. specialize (IH x Hx (proj2 (Hm x Hx))).
      unfold print_member. rewrite length_app. cbn [length]. lia. }
    cbn [length]. rewrite length_app. cbn [length]. lia.
Qed.

(** [JSON.parse(JSON.stringify(v))] is [v] on the values the front ends serialise. *)
Lemma parse_stringify (v : json) : wf_json v -> parse (stringify v) = Some v.
Proof.
  intros Hv. unfold parse. pose proof (cost_le_length v Hv).
  pose proof (stringify_reads_back v Hv (S (2 * length (stringify v))) []) as Hr.
  rewrite app_nil_r in Hr. rewrite Hr; [done|auto with jsdb|lia].
Qed.

#[export] Hint Resolve parse_stringify : jsdb.

(** ** Members *)

Lemma obj_get_head (k : jsstr) (v : json) (l : list (jsstr * json)) :
  obj_get k ((k, v) :: l) = Some v.
Proof. unfold obj_get, str_eqb. cbn. by rewrite bool_decide_eq_true_2. Qed.

Example parse_escapes :
  parse ([34; 92; 117; 48; 48; 52; 49; 92; 110; 34]) = Some (JStr [65; 10]).
Proof. by_evaluation. Qed.
Example parse_leading_zero : parse (js "01") = None. Proof. by_evaluation. Qed.
Example parse_truncated : parse (js "{bad") = None. Proof. by_evaluation. Qed.
