(* ===== verification/WebPlatform.v ===== *)
(** The parts of the browser platform the front ends rest on: [localStorage],
    [Headers], [URLSearchParams] and [encodeURIComponent]. *)

From S2P Require Import Prelude JsString JsNumber Json.

Local Open Scope N_scope.

(** ** localStorage *)

Abbreviation Storage := (gmap (list N) (list N)) (only parsing).

(** A browser profile that never saw the dashboard. *)
Definition empty_storage : Storage := ∅.

Definition getItem (st : Storage) (k : jsstr) : option jsstr := st !! k.
Definition setItem (st : Storage) (k v : jsstr) : Storage := <[k := v]> st.
Definition removeItem (st : Storage) (k : jsstr) : Storage := delete k st.

(** ** UTF-8 *)

Definition utf8_of_point (c : N) : list N :=
  if c <? 128 then [c]
  else if c <? 2048 then [192 + c / 64; 128 + c mod 64]
  else if c <? 65536 then [224 + c / 4096; 128 + c / 64 mod 64; 128 + c mod 64]
  else [240 + c / 262144; 128 + c / 4096 mod 64; 128 + c / 64 mod 64; 128 + c mod 64].

Definition pair_point (hi lo : N) : N := 65536 + (hi - 55296) * 1024 + (lo - 56320).

(** ** encodeURIComponent *)

Definition hex_upper (n : N) : N := if n <? 10 then 48 + n else 55 + n.

Definition percent (b : N) : jsstr := [37; hex_upper (b / 16); hex_upper (b mod 16)].

Definition is_alnum (c : N) : bool :=
  is_digit c || ((65 <=? c) && (c <=? 90)) || ((97 <=? c) && (c <=? 122)).

(** Letters, digits and [- _ . ! ~ * ' ( )]. *)
Definition uri_unreserved (c : N) : bool :=
  is_alnum c || (c =? 45) || (c =? 95) || (c =? 46) || (c =? 33) || (c =? 126)
  || (c =? 42) || (c =? 39) || (c =? 40) || (c =? 41).

Definition encode_point (c : N) : jsstr :=
  if uri_unreserved c then [c] else flat_map percent (utf8_of_point c).

(** [encodeURIComponent(s)]; [None] stands for the URIError on a lone surrogate. *)
Fixpoint encodeURIComponent (s : jsstr) : option jsstr :=
  match s with
  | [] => Some []
  | c :: s1 =>
    if is_low c then None
    else if is_high c then
      match s1 with
      | d :: s2 => if is_low d
                   then (fun t => encode_point (pair_point c d) ++ t) <$> encodeURIComponent s2
                   else None
      | [] => None
      end
    else (fun t => encode_point c ++ t) <$> encodeURIComponent s1
  end.

(** What undoes it: percent triplets to bytes. *)
Fixpoint percent_decode (s : jsstr) : list N :=
  match s with
  | [] => []
  | c :: s1 =>
    if c =? 37 then
      match s1 with
      | a :: b :: s2 => match hex_value a, hex_value b with
                        | Some x, Some y => (x * 16 + y) :: percent_decode s2
                        | _, _ => c :: percent_decode s1
                        end
      | _ => c :: percent_decode s1
      end
    else c :: percent_decode s1
  end.

(** ** URLSearchParams *)

Abbreviation SearchParams := (list (list N * list N)) (only parsing).

(** [query.set(name, value)]: the first entry of that name is replaced and the
    others removed; a new name goes last. *)
Fixpoint params_set (q : SearchParams) (name value : jsstr) : SearchParams :=
  match q with
  | [] => [(name, value)]
  | (n, v) :: q' =>
    if str_eqb n name
    then (n, value) :: List.filter (fun e => negb (str_eqb (fst e) name)) q'
    else (n, v) :: params_set q' name value
  end.

Definition form_unreserved (c : N) : bool :=
  is_alnum c || (c =? 42) || (c =? 45) || (c =? 46) || (c =? 95).

Definition form_encode_point (c : N) : jsstr :=
  if form_unreserved c then [c]
  else if c =? 32 then [43]
  else flat_map percent (utf8_of_point c).

(** Lone surrogates are replaced by U+FFFD. *)
Fixpoint form_encode (s : jsstr) : jsstr :=
  match s with
  | [] => []
  | c :: s1 =>
    if is_high c then
      match s1 with
      | d :: s2 => if is_low d
                   then form_encode_point (pair_point c d) ++ form_encode s2
                   else form_encode_point 65533 ++ form_encode s1
      | [] => form_encode_point 65533
      end
    else if is_low c then form_encode_point 65533 ++ form_encode s1
    else form_encode_point c ++ form_encode s1
  end.

(** [`${query}`] *)
Definition params_toString (q : SearchParams) : jsstr :=
  join [38] (List.map (fun e => form_encode (fst e) ++ 61 :: form_encode (snd e)) q).

(** ** Headers *)

(** Names are case-insensitive: the map is keyed by the lower-cased name. *)
Abbreviation Headers := (gmap (list N) (list N)) (only parsing).

Definition is_http_ws (c : N) : bool := (c =? 9) || (c =? 10) || (c =? 13) || (c =? 32).

Fixpoint strip_http_ws (s : jsstr) : jsstr :=
  match s with
  | c :: s' => if is_http_ws c then strip_http_ws s' else s
  | [] => []
  end.

Definition normalize_value (v : jsstr) : jsstr := rev (strip_http_ws (rev (strip_http_ws v))).

Definition valid_value (v : jsstr) : bool :=
  forallb (fun c => (c <? 256) && negb (c =? 0) && negb (c =? 10) && negb (c =? 13)) v.

(** [headers.set(name, value)]; [None] stands for the TypeError on a value that is
    not a header value. *)
Definition headers_set (h : Headers) (name value : jsstr) : option Headers :=
  let v := normalize_value value in
  if valid_value v then Some (<[toLowerCase name := v]> h) else None.

Definition headers_has (h : Headers) (name : jsstr) : bool :=
  present (h !! toLowerCase name).

Definition headers_get (h : Headers) (name : jsstr) : option jsstr := h !! toLowerCase name.

(** ** Properties *)

Lemma hex_value_upper (n : N) : n < 16 -> hex_value (hex_upper n) = Some n.
Proof.
  intros Hn. unfold hex_upper, hex_value, is_digit.
  destruct (N.ltb_spec n 10); repeat case_match; split_bools; try lia; f_equal; lia.
Qed.

Lemma percent_decode_percent (b : N) (r : jsstr) :
  b < 256 -> percent_decode (percent b ++ r) = b :: percent_decode r.
Proof.
  intros Hb. assert (b / 16 < 16) by (apply N.Div0.div_lt_upper_bound; lia).
  pose proof (N.mod_lt b 16 ltac:(lia)).
  cbn -[N.div N.modulo hex_upper hex_value N.mul N.add]. rewrite !hex_value_upper by done.
  f_equal. pose proof (N.div_mod b 16 ltac:(lia)). lia.
Qed.

Lemma percent_decode_bytes (bs : list N) (r : jsstr) :
  Forall (fun b => b < 256) bs ->
  percent_decode (flat_map percent bs ++ r) = bs ++ percent_decode r.
Proof.
  induction 1 as [|b bs Hb _ IH]; [done|]. cbn [flat_map].
  by rewrite <-app_assoc, percent_decode_percent, IH.
Qed.

(** Quotients and remainders by 64, named for [lia]. *)
Ltac base64_digits c :=
  pose proof (N.div_mod c 64 ltac:(lia)); pose proof (N.mod_lt c 64 ltac:(lia));
  pose proof (N.div_mod (c / 64) 64 ltac:(lia)); pose proof (N.mod_lt (c / 64) 64 ltac:(lia));
  pose proof (N.div_mod (c / 64 / 64) 64 ltac:(lia));
  pose proof (N.mod_lt (c / 64 / 64) 64 ltac:(lia));
  rewrite ?N.Div0.div_div in *;
  change (64 * 64 * 64) with 262144 in *; change (64 * 64) with 4096 in *.

Lemma utf8_of_point_bytes (c : N) :
  c < 1114112 -> Forall (fun b => b < 256) (utf8_of_point c).
Proof.
  intros Hc. unfold utf8_of_point. base64_digits c.
  repeat case_match; split_bools; repeat constructor; lia.
Qed.

Lemma utf16_of_utf8_point (c : N) (r : list N) :
  c < 1114112 ->
  utf16_of_utf8 (utf8_of_point c ++ r) = utf16_of_point c ++ utf16_of_utf8 r.
Proof.
  intros Hc. unfold utf8_of_point. base64_digits c.
  destruct (N.ltb_spec c 128).
  { cbn. rewrite (proj2 (N.ltb_lt c 128)) by done. unfold utf16_of_point.
    by rewrite (proj2 (N.ltb_lt c 65536)) by lia. }
  destruct (N.ltb_spec c 2048); [|destruct (N.ltb_spec c 65536)];
    cbn -[N.div N.modulo N.mul N.add N.sub N.ltb utf16_of_point];
    repeat (rewrite (proj2 (N.ltb_ge _ _)) by lia);
    repeat (rewrite (proj2 (N.ltb_lt _ _)) by lia);
    do 2 f_equal; lia.
Qed.

Lemma pair_point_bounds (hi lo : N) :
  is_high hi = true -> is_low lo = true -> 65536 <= pair_point hi lo < 1114112.
Proof. unfold is_high, is_low, pair_point. lia. Qed.

Lemma utf16_of_pair (hi lo : N) :
  is_high hi = true -> is_low lo = true -> utf16_of_point (pair_point hi lo) = [hi; lo].
Proof.
  intros Hhi Hlo. pose proof (pair_point_bounds hi lo Hhi Hlo). unfold utf16_of_point.
  rewrite (proj2 (N.ltb_ge _ _)) by lia. unfold is_high, is_low, pair_point in *.
  assert (65536 + (hi - 55296) * 1024 + (lo - 56320) - 65536
          = (hi - 55296) * 1024 + (lo - 56320)) as -> by lia.
  rewrite N.div_add_l, N.div_small, (N.add_comm (_ * _)), N.Div0.mod_add, N.mod_small by lia.
  f_equal; [lia|]. f_equal. lia.
Qed.

Lemma uri_unreserved_not_percent (c : N) : uri_unreserved c = true -> c < 128 /\ c <> 37.
Proof. unfold uri_unreserved, is_alnum, is_digit. lia. Qed.

Lemma decode_encode_point (c : N) (r : jsstr) :
  c < 1114112 ->
  percent_decode (encode_point c ++ r) = utf8_of_point c ++ percent_decode r.
Proof.
  intros Hc. unfold encode_point. destruct (uri_unreserved c) eqn:Hu.
  - apply uri_unreserved_not_percent in Hu as [H128 H37]. unfold utf8_of_point.
    rewrite (proj2 (N.ltb_lt c 128)) by done. cbn. by rewrite (proj2 (N.eqb_neq c 37)).
  - apply percent_decode_bytes, utf8_of_point_bytes, Hc.
Qed.

(** Percent-decoding and reading the UTF-8 bytes gives the encoded string back. *)
Lemma decode_encodeURIComponent (s t : jsstr) :
  wf_str s -> encodeURIComponent s = Some t -> utf16_of_utf8 (percent_decode t) = s.
Proof.
  remember (length s) as n eqn:Hn. revert s t Hn.
  induction n as [n IH] using lt_wf_ind. intros [|c s] t -> Hs He; [by simplify_eq/=|].
  inversion_clear Hs as [|? ? Hc Hs']. cbn [encodeURIComponent] in He.
  destruct (is_low c) eqn:Hlow; [done|]. destruct (is_high c) eqn:Hhigh.
  - destruct s as [|d s]; [done|]. destruct (is_low d) eqn:Hd; [|done].
    apply fmap_Some in He as (u & Hu & ->). inversion_clear Hs' as [|? ? _ Hs].
    rewrite decode_encode_point, utf16_of_utf8_point, utf16_of_pair
      by (done || by apply pair_point_bounds).
    cbn. by rewrite (IH (length s) ltac:(cbn; lia) s u).
  - apply fmap_Some in He as (u & Hu & ->).
    rewrite decode_encode_point, utf16_of_utf8_point by lia.
    unfold utf16_of_point. rewrite (proj2 (N.ltb_lt c 65536)) by done.
    cbn. by rewrite (IH (length s) ltac:(cbn; lia) s u).
Qed.

Lemma encodeURIComponent_inj (s1 s2 t : jsstr) :
  wf_str s1 -> wf_str s2 ->
  encodeURIComponent s1 = Some t -> encodeURIComponent s2 = Some t -> s1 = s2.
Proof.
  intros H1 H2 E1 E2.
  by rewrite <-(decode_encodeURIComponent s1 t), <-(decode_encodeURIComponent s2 t).
Qed.

(** The units an encoded component is made of. *)
Definition uri_safe (c : N) : bool := uri_unreserved c || (c =? 37).

Lemma hex_upper_safe (n : N) : n < 16 -> uri_safe (hex_upper n) = true.
Proof.
  intros. unfold hex_upper, uri_safe, uri_unreserved, is_alnum, is_digit.
  destruct (n <? 10) eqn:?; lia.
Qed.

Lemma percent_safe (b : N) : b < 256 -> Forall (fun c => uri_safe c = true) (percent b).
Proof.
  intros. assert (b / 16 < 16) by (apply N.Div0.div_lt_upper_bound; lia).
  pose proof (N.mod_lt b 16 ltac:(lia)). repeat constructor; by apply hex_upper_safe.
Qed.

Lemma encode_point_safe (c : N) :
  c < 1114112 -> Forall (fun u => uri_safe u = true) (encode_point c).
Proof.
  intros Hc. unfold encode_point. destruct (uri_unreserved c) eqn:Hu.
  - constructor; [|constructor]. unfold uri_safe. by rewrite Hu.
  - pose proof (utf8_of_point_bytes c Hc) as Hb. induction Hb as [|b bs Hb _ IH]; [constructor|].
    apply Forall_app. auto using percent_safe.
Qed.

Lemma encodeURIComponent_safe (s t : jsstr) :
  wf_str s -> encodeURIComponent s = Some t -> Forall (fun u => uri_safe u = true) t.
Proof.
  remember (length s) as n eqn:Hn. revert s t Hn.
  induction n as [n IH] using lt_wf_ind. intros [|c s] t -> Hs He; [by simplify_eq/=|].
  inversion_clear Hs as [|? ? Hc Hs']. cbn [encodeURIComponent] in He.
  destruct (is_low c) eqn:Hlow; [done|]. destruct (is_high c) eqn:Hhigh.
  - destruct s as [|d s]; [done|]. destruct (is_low d) eqn:Hd; [|done].
    apply fmap_Some in He as (u & Hu & ->). inversion_clear Hs' as [|? ? _ Hs].
    apply Forall_app. split.
    + apply encode_point_safe, pair_point_bounds; done.
    + by apply (IH (length s) ltac:(cbn; lia) s u).
  - apply fmap_Some in He as (u & Hu & ->). apply Forall_app. split.
    + apply encode_point_safe. lia.
    + by apply (IH (length s) ltac:(cbn; lia) s u).
Qed.

Lemma headers_set_get (h h' : Headers) (n v : jsstr) :
  headers_set h n v = Some h' -> headers_get h' n = Some (normalize_value v).
Proof.
  unfold headers_set, headers_get. intros H. case_match; [|done]. injection H as <-.
  apply lookup_insert_eq.
Qed.

Example encode_mixed : encodeURIComponent (js "a/b 中") = Some (js "a%2Fb%20%E4%B8%AD").
Proof. by_evaluation. Qed.
Example form_mixed : form_encode (js "a b&中") = js "a+b%26%E4%B8%AD".
Proof. by_evaluation. Qed.

(** ** Dates *)

(** What the code asks of [Date] and of the locale: the time a text denotes, the local
    rendering of a time, its ISO text. Times are milliseconds since the epoch. *)
Class Dates := {
  parse_date : jsstr -> option Z;
  toLocaleString : option jsstr -> Z -> jsstr;
  toLocaleTimeString : Z -> jsstr;
  toISOString : Z -> jsstr
}.
