(* ===== verification/Async.v ===== *)
(** Asynchronous JavaScript: [async] functions over a component's state, run to
    completion between their awaits and interleaved by the event loop. *)

From stdpp Require Import relations.
From S2P Require Import Prelude.

(** ** Async functions *)

(** [S] is the mutable state (React state and refs, or the browser window), [C]
    the calls that are awaited and [R c] what call [c] resolves to, [O] the
    visible effects (messages), [E] what may be thrown. A function is the tree of
    what it does: [Read] and [Upd] are synchronous, [Await] suspends until the
    call settles, [Yield] suspends for a turn of the microtask queue, as awaiting
    the promise of another async function does. *)
Inductive prog (S C O E : Type) (R : C -> Type) (A : Type) : Type :=
| Ret (a : A)
| Throw (e : E)
| Read (k : S -> prog S C O E R A)
| Upd (f : S -> S) (k : prog S C O E R A)
| Say (o : O) (k : prog S C O E R A)
| Yield (k : prog S C O E R A)
| Await (c : C) (k : result E (R c) -> prog S C O E R A).

Arguments Ret {S C O E R A} a.
Arguments Throw {S C O E R A} e.
Arguments Read {S C O E R A} k.
Arguments Upd {S C O E R A} f k.
Arguments Say {S C O E R A} o k.
Arguments Yield {S C O E R A} k.
Arguments Await {S C O E R A} c k.

Section Combinators.
Context {S C O E : Type} {R : C -> Type}.
Local Abbreviation M := (prog S C O E R).

(** How a function goes on once [p] is over: [kr] after a value, [ke] after an
    exception. Sequencing, [try]/[catch] and [try]/[finally] are instances. *)
Fixpoint continue {A B} (p : M A) (kr : A -> M B) (ke : E -> M B) : M B :=
  match p with
  | Ret a => kr a
  | Throw e => ke e
  | Read k => Read (fun s => continue (k s) kr ke)
  | Upd f k => Upd f (continue k kr ke)
  | Say o k => Say o (continue k kr ke)
  | Yield k => Yield (continue k kr ke)
  | Await c k => Await c (fun r => continue (k r) kr ke)
  end.

Definition bind {A B} (p : M A) (f : A -> M B) : M B := continue p f Throw.

(** [try { p } catch (error) { h(error) }] *)
Definition try_catch {A} (p : M A) (h : E -> M A) : M A := continue p Ret h.

(** [try { p } finally { q }] *)
Definition finally {A} (p : M A) (q : M unit) : M A :=
  continue p (fun a => bind q (fun _ => Ret a)) (fun e => bind q (fun _ => Throw e)).

(** [await f(...)] for an async function of the program. *)
Definition await_fn {A} (p : M A) : M A :=
  continue p (fun a => Yield (Ret a)) (fun e => Yield (Throw e)).

(** [await c] for a call of the environment. *)
Definition call (c : C) : M (R c) :=
  Await c (fun r => match r with Ok v => Ret v | Err e => Throw e end).

Definition modify (f : S -> S) : M unit := Upd f (Ret tt).
Definition gets {A} (f : S -> A) : M A := Read (fun s => Ret (f s)).
Definition say (o : O) : M unit := Say o (Ret tt).
Definition skip : M unit := Ret tt.

(** [p.catch(() => undefined)] *)
Definition ignore_error (p : M unit) : M unit := try_catch p (fun _ => Ret tt).
End Combinators.

Declare Scope prog_scope.
Delimit Scope prog_scope with prog.
Notation "'let*' x := p 'in' q" := (bind p (fun x => q))
  (at level 10, x name, p at level 200, q at level 200) : prog_scope.
Notation "p ;;; q" := (bind p (fun _ => q))
  (at level 100, q at level 200, right associativity) : prog_scope.

(** ** The event loop *)

Section EventLoop.
Context {S C O E : Type} {R : C -> Type}.
Local Abbreviation M := (prog S C O E R).

(** How a run-to-completion step ends. *)
Inductive outcome : Type :=
| Done
| Failed (e : E)
| Paused (k : M unit)
| Waiting (c : C) (k : result E (R c) -> M unit).

Fixpoint run (p : M unit) (s : S) : S * list O * outcome :=
  match p with
  | Ret _ => (s, [], Done)
  | Throw e => (s, [], Failed e)
  | Read k => run (k s) s
  | Upd f k => run k (f s)
  | Say o k => let '(s', os, r) := run k s in (s', o :: os, r)
  | Yield k => (s, [], Paused k)
  | Await c k => (s, [], Waiting c k)
  end.

(** A suspended function. *)
Inductive thread : Type :=
| TPaused (k : M unit)
| TWaiting (c : C) (k : result E (R c) -> M unit).

Definition suspended (o : outcome) : list thread :=
  match o with
  | Done | Failed _ => []
  | Paused k => [TPaused k]
  | Waiting c k => [TWaiting c k]
  end.

(** The page: its state, the suspended functions and the effects so far. *)
Record sys := { st : S; threads : list thread; log : list O }.

Definition exec (p : M unit) (s : S) (ts : list thread) (os : list O) : sys :=
  let '(s', os', o) := run p s in
  {| st := s'; threads := ts ++ suspended o; log := os ++ os' |}.

(** Call a function on the page as it is. *)
Definition spawn (p : M unit) (y : sys) : sys := exec p (st y) (threads y) (log y).

(** *** Handlers that leave a part of the state alone *)

Section Frame.
Context {X : Type} (proj : S -> X).

Fixpoint preserves {A} (p : M A) : Prop :=
  match p with
  | Ret _ | Throw _ => True
  | Read k => forall s, preserves (k s)
  | Upd f k => (forall s, proj (f s) = proj s) /\ preserves k
  | Say _ k | Yield k => preserves k
  | Await _ k => forall r, preserves (k r)
  end.

Definition thread_preserves (t : thread) : Prop :=
  match t with TPaused k => preserves k | TWaiting _ k => forall r, preserves (k r) end.

Lemma run_preserves (p : M unit) (s s' : S) (os : list O) (o : outcome) :
  preserves p -> run p s = (s', os, o) ->
  proj s' = proj s /\ Forall thread_preserves (suspended o).
Proof.
  revert s s' os o. induction p as [a|e|k IH|f k IH|m k IH|k IH|c k IH];
    cbn; intros s s' os o Hp Hr.
  - simplify_eq. cbn. auto.
  - simplify_eq. cbn. auto.
  - by eapply IH.
  - destruct Hp as [Hf Hk]. apply IH in Hr as [-> ?]; auto.
  - destruct (run k s) as [[s1 os1] o1] eqn:Hrun. simplify_eq.
    by eapply IH.
  - simplify_eq. cbn. auto.
  - simplify_eq. cbn. auto.
Qed.

Lemma preserves_continue {A B} (p : M A) (kr : A -> M B) (ke : E -> M B) :
  preserves p -> (forall a, preserves (kr a)) -> (forall e, preserves (ke e)) ->
  preserves (continue p kr ke).
Proof. intros Hp Hr He. induction p; cbn in *; eauto. destruct Hp. auto. Qed.

Lemma preserves_bind {A B} (p : M A) (f : A -> M B) :
  preserves p -> (forall a, preserves (f a)) -> preserves (bind p f).
Proof. intros. by apply preserves_continue. Qed.

Lemma preserves_await_fn {A} (p : M A) : preserves p -> preserves (await_fn p).
Proof. intros. by apply preserves_continue. Qed.

Lemma preserves_call (c : C) : preserves (call c).
Proof. by intros [v|e]. Qed.

Lemma preserves_modify (f : S -> S) : (forall s, proj (f s) = proj s) -> preserves (modify f).
Proof. cbn. auto. Qed.
End Frame.

(** *** A flag that promises an end *)

Section Obligation.
Context (flag : S -> bool).

(** Whoever sets the flag owes its clearing, and pays before it ends; [owes] says
    whether this function does. Others may set or clear the flag meanwhile. *)
Fixpoint discharges (owes : bool) {A} (p : M A) : Prop :=
  match p with
  | Ret _ | Throw _ => owes = false
  | Read k => forall s, discharges owes (k s)
  | Upd f k => ((forall s, flag (f s) = false) /\ discharges false k)
               \/ ((forall s, flag (f s) = flag s) /\ discharges owes k)
               \/ discharges true k
  | Say _ k | Yield k => discharges owes k
  | Await _ k => forall r, discharges owes (k r)
  end.

Definition thread_discharges (owes : bool) (t : thread) : Prop :=
  match t with
  | TPaused k => discharges owes k
  | TWaiting _ k => forall r, discharges owes (k r)
  end.

(** A set flag has a suspended function that will clear it. *)
Definition promise_inv (y : sys) : Prop :=
  exists os, Forall2 thread_discharges os (threads y) /\ (flag (st y) = true -> true ∈ os).

Lemma run_discharges (p : M unit) (owes : bool) (s s' : S) (os : list O) (o : outcome) :
  discharges owes p -> run p s = (s', os, o) ->
  exists bs, Forall2 thread_discharges bs (suspended o)
             /\ (flag s' = true -> true ∈ bs \/ (owes = false /\ flag s = true)).
Proof.
  revert owes s s' os o. induction p as [a|e|k IH|f k IH|m k IH|k IH|c k IH];
    cbn; intros owes s s' os o Hp Hr.
  - simplify_eq. exists []. cbn. auto.
  - simplify_eq. exists []. cbn. auto.
  - by eapply IH.
  - destruct Hp as [[Hf Hk]|[[Hf Hk]|Hk]];
      destruct (IH _ _ _ _ _ Hk Hr) as (bs & Hbs & Hs'); exists bs; (split; [done|]).
    + intros H. destruct (Hs' H) as [?|[_ Ht]]; [by left|]. by rewrite Hf in Ht.
    + intros H. destruct (Hs' H) as [?|[? Ht]]; [by left|]. rewrite Hf in Ht. by right.
    + intros H. destruct (Hs' H) as [?|[? _]]; [by left|done].
  - destruct (run k s) as [[s1 os1] o1] eqn:Hrun. simplify_eq. by eapply IH.
  - simplify_eq. exists [owes]. split; [by constructor; [exact Hp|constructor]|].
    intros H. destruct owes; [left; by left|by right].
  - simplify_eq. exists [owes]. split; [by constructor; [exact Hp|constructor]|].
    intros H. destruct owes; [left; by left|by right].
Qed.

Lemma exec_discharges (p : M unit) (owes : bool) (s : S) (l : list thread) (os : list O)
    (bs : list bool) :
  discharges owes p -> Forall2 thread_discharges bs l ->
  (flag s = true -> true ∈ bs \/ owes = true) -> promise_inv (exec p s l os).
Proof.
  intros Hp Hl Hs. unfold exec. destruct (run p s) as [[s' os'] o] eqn:Hr.
  destruct (run_discharges _ _ _ _ _ _ Hp Hr) as (bs' & Hbs' & Hs').
  exists (bs ++ bs'). split; [by apply Forall2_app|]. cbn. intros H.
  apply elem_of_app. destruct (Hs' H) as [?|[-> Ht]]; [by right|].
  left. by destruct (Hs Ht).
Qed.

Lemma promise_inv_owed (y : sys) :
  promise_inv y -> flag (st y) = true -> exists t, t ∈ threads y /\ thread_discharges true t.
Proof.
  intros (os & Hos & Ho) Hf. specialize (Ho Hf).
  apply list_elem_of_lookup in Ho as [i Hi].
  destruct (Forall2_lookup_l _ _ _ _ _ Hos Hi) as (t & Ht & ?).
  exists t. split; [by eapply list_elem_of_lookup_2|done].
Qed.

(** *** Composition *)

Lemma discharges_continue {A B} (p : M A) (kr : A -> M B) (ke : E -> M B) (owes : bool) :
  preserves flag p -> (forall a, discharges owes (kr a)) -> (forall e, discharges owes (ke e)) ->
  discharges owes (continue p kr ke).
Proof. intros Hp Hr He. induction p; cbn in *; eauto. right. left. destruct Hp. auto. Qed.

(** [try { const a = p; kr(a) } catch (e) { le(e) }] and what follows. *)
Lemma discharges_try {A B D} (p : M A) (kr : A -> M B) (lr : B -> M D) (le : E -> M D)
    (owes : bool) :
  preserves flag p -> (forall a, discharges owes (continue (kr a) lr le)) ->
  (forall e, discharges owes (le e)) -> discharges owes (continue (bind p kr) lr le).
Proof.
  unfold bind. intros Hp Hr He. induction p; cbn in *; eauto. right. left. destruct Hp. auto.
Qed.

Lemma discharges_preserves {A} (p : M A) : preserves flag p -> discharges false p.
Proof. induction p; cbn; eauto. intros []. auto. Qed.

(** Whatever follows owes nothing, if the function itself pays in time. *)
Lemma discharges_then {A B} (p : M A) (kr : A -> M B) (ke : E -> M B) (owes : bool) :
  discharges owes p -> (forall a, discharges false (kr a)) -> (forall e, discharges false (ke e)) ->
  discharges owes (continue p kr ke).
Proof.
  intros Hp Hr He. revert owes Hp.
  induction p as [a|e|k IH|g k IH|m k IH|k IH|c k IH]; cbn; intros owes Hp; subst; eauto.
  destruct Hp as [[? ?]|[[? ?]|?]]; eauto 6.
Qed.

Lemma discharges_bind {A B} (p : M A) (f : A -> M B) (owes : bool) :
  discharges owes p -> (forall a, discharges false (f a)) -> discharges owes (bind p f).
Proof. intros. by apply discharges_then. Qed.

Lemma discharges_finally {A} (p : M A) (q : M unit) (owes : bool) :
  preserves flag p -> discharges owes q -> discharges owes (finally p q).
Proof. intros Hp Hq. apply discharges_continue; [done|..]; intros; by apply discharges_bind. Qed.

Lemma discharges_await_fn {A} (p : M A) (owes : bool) :
  discharges owes p -> discharges owes (await_fn p).
Proof. intros. by apply discharges_then. Qed.

Lemma discharges_modify_bind {A} (f : S -> S) (p : unit -> M A) (owes : bool) :
  (forall s, flag (f s) = flag s) -> discharges owes (p tt) -> discharges owes (bind (modify f) p).
Proof. intros. right. left. auto. Qed.

Lemma discharges_taken {A} (f : S -> S) (p : unit -> M A) (owes : bool) :
  discharges true (p tt) -> discharges owes (bind (modify f) p).
Proof. intros. right. by right. Qed.

Lemma discharges_paid (f : S -> S) (owes : bool) :
  (forall s, flag (f s) = false) -> discharges owes (modify f).
Proof. intros H. left. by split. Qed.
End Obligation.

(** *** A flag used as a lock *)

(** [guarded] marks the calls that are made under the flag. *)
Section Lock.
Context (flag : S -> bool) (guarded : C -> bool).

(** The function takes the flag only when it is free, gives it back before it
    ends, and makes the guarded calls while it holds it and only then. [held]
    says whether it holds the flag; the state may be any other one after a
    suspension, the flag still being taken if this function took it. *)
Fixpoint locked (held : bool) {A} (p : M A) (s : S) : Prop :=
  match p with
  | Ret _ | Throw _ => held = false
  | Read k => locked held (k s) s
  | Upd f k =>
      (flag (f s) = flag s /\ locked held k (f s))
      \/ (held = false /\ flag s = false /\ flag (f s) = true /\ locked true k (f s))
      \/ (held = true /\ flag (f s) = false /\ locked false k (f s))
  | Say _ k => locked held k s
  | Yield k => forall s', (held = true -> flag s' = true) -> locked held k s'
  | Await c k => guarded c = held
                 /\ forall r s', (held = true -> flag s' = true) -> locked held (k r) s'
  end.

Definition thread_locked (held : bool) (t : thread) : Prop :=
  match t with
  | TPaused k => forall s', (held = true -> flag s' = true) -> locked held k s'
  | TWaiting c k => guarded c = held
                    /\ forall r s', (held = true -> flag s' = true) -> locked held (k r) s'
  end.

(** One thread holds the flag exactly when it is set. *)
Definition lock_inv (y : sys) : Prop :=
  exists hs, Forall2 thread_locked hs (threads y)
             /\ length (List.filter id hs) = Nat.b2n (flag (st y)).

Definition awaits_guarded (t : thread) : bool :=
  match t with TPaused _ => false | TWaiting c _ => guarded c end.

Lemma run_locked (p : M unit) (held : bool) (s s' : S) (os : list O) (o : outcome) :
  locked held p s -> (held = true -> flag s = true) -> run p s = (s', os, o) ->
  exists hs, Forall2 thread_locked hs (suspended o)
             /\ (length (List.filter id hs) + Nat.b2n (flag s)
                 = Nat.b2n held + Nat.b2n (flag s'))%nat.
Proof.
  revert held s s' os o. induction p as [a|e|k IH|f k IH|m k IH|k IH|c k IH];
    cbn; intros held s s' os o Hp Hh Hr.
  - simplify_eq. exists []. cbn. auto.
  - simplify_eq. exists []. cbn. auto.
  - by eapply IH.
  - destruct Hp as [[Hf Hk]|[(-> & Hf & Hf' & Hk)|(-> & Hf & Hk)]].
    + rewrite <-Hf in Hh |- *. by eapply IH.
    + edestruct IH as (hs & Hhs & Hn); [exact Hk|by rewrite Hf'|exact Hr|].
      exists hs. split; [done|]. rewrite Hf, Hf' in *. cbn in *. lia.
    + edestruct IH as (hs & Hhs & Hn); [exact Hk|done|exact Hr|].
      exists hs. split; [done|]. rewrite (Hh eq_refl). rewrite Hf in Hn. cbn in *. lia.
  - destruct (run k s) as [[s1 os1] o1] eqn:Hrun. simplify_eq. by eapply IH.
  - simplify_eq. exists [held]. split; [by constructor; [exact Hp|constructor]|]. by destruct held.
  - simplify_eq. exists [held]. split; [by constructor; [exact Hp|constructor]|]. by destruct held.
Qed.

Lemma exec_locked (p : M unit) (held : bool) (s : S) (ts : list thread)
    (os : list O) (hs : list bool) :
  locked held p s -> (held = true -> flag s = true) ->
  Forall2 thread_locked hs ts ->
  (length (List.filter id hs) + Nat.b2n held = Nat.b2n (flag s))%nat ->
  lock_inv (exec p s ts os).
Proof.
  intros Hp Hh Hts Hn. unfold exec. destruct (run p s) as [[s' os'] o] eqn:Hr.
  edestruct run_locked as (hs' & Hhs' & Hn'); [exact Hp|exact Hh|exact Hr|].
  exists (hs ++ hs'). cbn. split; [by apply Forall2_app|].
  rewrite List.filter_app, length_app. lia.
Qed.

(** Taking one thread out of the pool, with its share of the flag. *)
Lemma pick_locked (hs : list bool) (l1 l2 : list thread) (t : thread) (b : bool) :
  Forall2 thread_locked hs (l1 ++ t :: l2) ->
  length (List.filter id hs) = Nat.b2n b ->
  exists h hs', thread_locked h t /\ (h = true -> b = true)
                /\ Forall2 thread_locked hs' (l1 ++ l2)
                /\ (length (List.filter id hs') + Nat.b2n h = Nat.b2n b)%nat.
Proof.
  intros Hhs Hn. apply Forall2_app_inv_r in Hhs as (h1 & h2 & Hh1 & Hh2 & ->).
  inversion Hh2 as [|h t' h2' ? Ht Hh2']; subst.
  rewrite List.filter_app, length_app in Hn. cbn in Hn.
  exists h, (h1 ++ h2'). split; [done|]. split; [|split].
  - intros ->. destruct b; [done|cbn in Hn; lia].
  - by apply Forall2_app.
  - rewrite List.filter_app, length_app. destruct h; cbn in *; lia.
Qed.

(** At most one guarded call is in flight, none when the flag is clear; and a
    set flag always has a suspended function that will clear it. *)
Lemma lock_inv_in_flight (y : sys) :
  lock_inv y ->
  (length (List.filter awaits_guarded (threads y)) <= Nat.b2n (flag (st y)))%nat.
Proof.
  intros (hs & Hhs & <-). induction Hhs as [|h t hs ts Ht _ IH]; [done|]. cbn.
  destruct t as [k|c k]; cbn in Ht |- *.
  - destruct h; cbn; lia.
  - destruct Ht as [-> _]. destruct h; cbn; lia.
Qed.

Lemma lock_inv_holder (y : sys) :
  lock_inv y -> flag (st y) = true -> exists t, t ∈ threads y /\ thread_locked true t.
Proof.
  intros (hs & Hhs & Hn) Hf. rewrite Hf in Hn. induction Hhs as [|h t hs ts Ht _ IH]; [done|].
  destruct h; [exists t; split; [by left|done]|].
  destruct (IH Hn) as (t' & ? & ?). exists t'. split; [by right|done].
Qed.
End Lock.

(** *** A counter that outdates suspended functions *)

Section Version.
Context (version : S -> Z) {X : Type} (proj : S -> X).

(** From [s] on, the function never lowers the version, and at version [m] it
    leaves the version and [proj] alone; after a suspension the state may be any. *)
Fixpoint stable (m : Z) {A} (p : M A) (s : S) : Prop :=
  match p with
  | Ret _ | Throw _ => True
  | Read k => stable m (k s) s
  | Upd f k => (version s <= version (f s))%Z
               /\ (version s = m -> version (f s) = m /\ proj (f s) = proj s)
               /\ stable m k (f s)
  | Say _ k => stable m k s
  | Yield k => forall s', stable m k s'
  | Await _ k => forall r s', stable m (k r) s'
  end.

Definition thread_stable (m : Z) (t : thread) : Prop :=
  match t with
  | TPaused k => forall s, stable m k s
  | TWaiting _ k => forall r s, stable m (k r) s
  end.

Lemma run_stable (m : Z) (p : M unit) (s s' : S) (os : list O) (o : outcome) :
  stable m p s -> run p s = (s', os, o) ->
  (version s <= version s')%Z
  /\ (version s = m -> version s' = m /\ proj s' = proj s)
  /\ Forall (thread_stable m) (suspended o).
Proof.
  revert s s' os o. induction p as [a|e|k IH|f k IH|x k IH|k IH|c k IH]; cbn; intros s s' os o Hp Hr.
  - simplify_eq. cbn. auto with lia.
  - simplify_eq. cbn. auto with lia.
  - by eapply IH.
  - destruct Hp as (Hle & Hf & Hk). destruct (IH _ _ _ _ Hk Hr) as (Hle' & Hf' & Hts).
    split; [lia|]. split; [|done]. intros Hm. destruct (Hf Hm) as [Hv Hx].
    destruct (Hf' Hv) as [? ?]. split; congruence.
  - destruct (run k s) as [[s1 os1] o1] eqn:Hrun. simplify_eq. by eapply IH.
  - simplify_eq. cbn. auto with lia.
  - simplify_eq. cbn. auto with lia.
Qed.

Lemma stable_continue {A B} (m : Z) (p : M A) (kr : A -> M B) (ke : E -> M B) (s : S) :
  stable m p s -> (forall a s', stable m (kr a) s') -> (forall e s', stable m (ke e) s') ->
  stable m (continue p kr ke) s.
Proof.
  intros Hp Hr He. revert s Hp. induction p; cbn; intros s0; try tauto; eauto.
  intros (? & ? & ?). eauto.
Qed.

Lemma stable_bind {A B} (m : Z) (p : M A) (f : A -> M B) (s : S) :
  stable m p s -> (forall a s', stable m (f a) s') -> stable m (bind p f) s.
Proof. intros. by apply stable_continue. Qed.

Lemma stable_await_fn {A} (m : Z) (p : M A) (s : S) : stable m p s -> stable m (await_fn p) s.
Proof. intros. by apply stable_continue. Qed.

Lemma stable_preserves {A} (m : Z) (p : M A) (s : S) :
  preserves (fun s => (version s, proj s)) p -> stable m p s.
Proof.
  revert s. induction p; cbn; intros s0; eauto. intros [Hf Hp].
  specialize (Hf s0). split; [|split]; [injection Hf; lia| |auto].
  intros <-. by split; injection Hf.
Qed.

(** Outdated at every version after [v]. *)
Definition outdated (v : Z) (t : thread) : Prop := forall m, (v < m)%Z -> thread_stable m t.

Lemma outdated_mono (v v' : Z) (t : thread) : (v <= v')%Z -> outdated v t -> outdated v' t.
Proof. intros Hle Ht m Hm. apply Ht. lia. Qed.

Lemma run_outdated (p : M unit) (s s' : S) (os : list O) (o : outcome) :
  (forall m, (version s < m)%Z -> stable m p s) -> run p s = (s', os, o) ->
  (version s <= version s')%Z /\ Forall (outdated (version s')) (suspended o).
Proof.
  intros Hp Hr.
  assert (version s <= version s')%Z as Hle.
  { by eapply (run_stable (version s + 1)); [apply Hp; lia|]. }
  split; [done|]. apply Forall_forall. intros t Hin m Hm.
  assert (version s < m)%Z as Hlt by lia.
  destruct (run_stable _ _ _ _ _ _ (Hp m Hlt) Hr) as (_ & _ & Hts).
  by eapply Forall_forall.
Qed.
End Version.
End EventLoop.

Arguments outcome S C O E R : clear implicits.
Arguments thread S C O E R : clear implicits.
Arguments sys S C O E R : clear implicits.

Section Reachability.
Context {S C O E : Type} {R : C -> Type}.
Local Abbreviation M := (prog S C O E R).
Local Abbreviation sys := (sys S C O E R).
Local Abbreviation thread := (thread S C O E R).

Context {Ev : Type}.
(** What a user action, a timer or an effect starts: the handler closes over the
    state of the render it belongs to. [enabled] says when the interface
    offers it. *)
Context (enabled : Ev -> S -> bool) (handler : Ev -> S -> M unit).

Inductive step : sys -> sys -> Prop :=
| step_event ev y :
    enabled ev (st y) = true ->
    step y (exec (handler ev (st y)) (st y) (threads y) (log y))
| step_resume y l1 k l2 :
    threads y = l1 ++ TPaused k :: l2 ->
    step y (exec k (st y) (l1 ++ l2) (log y))
| step_settle y l1 c k l2 r :
    threads y = l1 ++ TWaiting c k :: l2 ->
    step y (exec (k r) (st y) (l1 ++ l2) (log y)).

Definition initial (s : S) : sys := {| st := s; threads := []; log := [] |}.

(** The page once mounted (whatever its effects started) and what follows. *)
Definition reachable_from (y0 y : sys) : Prop := rtc step y0 y.

Definition reachable (s0 : S) (y : sys) : Prop := reachable_from (initial s0) y.

Lemma steps_invariant (I : sys -> Prop) (y0 y : sys) :
  I y0 -> (forall y y', I y -> step y y' -> I y') -> reachable_from y0 y -> I y.
Proof. intros H0 Hstep Hy. induction Hy; eauto. Qed.

Lemma reachable_invariant (I : sys -> Prop) (s0 : S) (y : sys) :
  I (initial s0) -> (forall y y', I y -> step y y' -> I y') -> reachable s0 y -> I y.
Proof. intros ? ?. by apply steps_invariant. Qed.

(** An invariant may rest on what else is known of reachable states. *)
Lemma reachable_invariant_strong (I : sys -> Prop) (s0 : S) (y : sys) :
  I (initial s0) -> (forall y y', reachable s0 y -> I y -> step y y' -> I y') -> reachable s0 y -> I y.
Proof.
  intros H0 Hstep Hy. enough (reachable s0 y /\ I y) as [_ ?] by done.
  revert Hy. apply (reachable_invariant (fun y => reachable s0 y /\ I y)); [by split; [apply rtc_refl|]|].
  intros y1 y2 [Hy1 HI] Hs. split; [by eapply rtc_r|by eapply Hstep].
Qed.

Lemma reachable_event (y0 y : sys) (ev : Ev) :
  reachable_from y0 y -> enabled ev (st y) = true ->
  reachable_from y0 (exec (handler ev (st y)) (st y) (threads y) (log y)).
Proof. intros Hy He. eapply rtc_r; [exact Hy|]. by constructor. Qed.

(** Let the [i]-th suspended function go on, its call answered by [answer]. *)
Definition advance (answer : forall c, result E (R c)) (i : nat) (y : sys) : sys :=
  match threads y !! i with
  | Some (TPaused k) => exec k (st y) (take i (threads y) ++ drop (Datatypes.S i) (threads y)) (log y)
  | Some (TWaiting c k) =>
    exec (k (answer c)) (st y) (take i (threads y) ++ drop (Datatypes.S i) (threads y)) (log y)
  | None => y
  end.

Lemma advance_reachable (answer : forall c, result E (R c)) (i : nat) (y0 y : sys) :
  reachable_from y0 y -> reachable_from y0 (advance answer i y).
Proof.
  intros Hy. unfold advance. destruct (threads y !! i) as [t|] eqn:Ht; [|done].
  pose proof (take_drop_middle _ _ _ Ht) as Hts.
  destruct t as [k|c k]; eapply rtc_r; try exact Hy.
  - by eapply step_resume.
  - by eapply step_settle.
Qed.

(** Several in turn. *)
Definition schedule (moves : list ((forall c, result E (R c)) * nat)) (y : sys) : sys :=
  fold_left (fun y m => advance (fst m) (snd m) y) moves y.

Lemma schedule_reachable moves (y0 y : sys) :
  reachable_from y0 y -> reachable_from y0 (schedule moves y).
Proof.
  unfold schedule. revert y. induction moves as [|m moves IH]; intros y Hy; [done|].
  by apply IH, advance_reachable.
Qed.

(** If every handler keeps its promises, a set flag always has a debtor. *)
Lemma promise_invariant (flag : S -> bool) (y0 y : sys) :
  promise_inv flag y0 ->
  (forall ev s, enabled ev s = true -> discharges flag false (handler ev s)) ->
  reachable_from y0 y -> promise_inv flag y.
Proof.
  intros H0 Hh. apply steps_invariant; [done|].
  intros y1 y2 (os & Hos & Ho) Hstep.
  destruct Hstep as [ev y1 He|y1 l1 k l2 Hts|y1 l1 c k l2 r Hts];
    [eapply exec_discharges; [by apply Hh|done|by auto]|..];
    rewrite Hts in Hos; apply Forall2_app_inv_r in Hos as (o1 & o2 & Ho1 & Ho2 & ->);
    inversion Ho2 as [|b t o2' ? Ht Ho2']; subst;
    (eapply exec_discharges; [apply Ht|by apply Forall2_app|]);
    intros H; specialize (Ho H); apply elem_of_app in Ho as [?|Ho];
    try (left; apply elem_of_app; by left);
    apply elem_of_cons in Ho as [<-|?]; [by right|left; apply elem_of_app; by right|by right|
      left; apply elem_of_app; by right].
Qed.

(** An invariant of the state and one of each suspended function that it rests on. *)
Lemma threads_invariant (I : S -> Prop) (T : S -> thread -> Prop) (y0 y : sys) :
  I (st y0) -> Forall (T (st y0)) (threads y0) ->
  (forall ev s s' os o, enabled ev s = true -> I s -> run (handler ev s) s = (s', os, o) ->
     I s' /\ Forall (T s') (suspended o) /\ (forall t, T s t -> T s' t)) ->
  (forall k s s' os o, I s -> T s (TPaused k) -> run k s = (s', os, o) ->
     I s' /\ Forall (T s') (suspended o) /\ (forall t, T s t -> T s' t)) ->
  (forall c k r s s' os o, I s -> T s (TWaiting c k) -> run (k r) s = (s', os, o) ->
     I s' /\ Forall (T s') (suspended o) /\ (forall t, T s t -> T s' t)) ->
  reachable_from y0 y -> I (st y) /\ Forall (T (st y)) (threads y).
Proof.
  intros HI0 HT0 Hev Hk Hc.
  apply (steps_invariant (fun y => I (st y) /\ Forall (T (st y)) (threads y))); [done|].
  assert (forall p s l os0, (forall s' os o, run p s = (s', os, o) ->
            I s' /\ Forall (T s') (suspended o) /\ (forall t, T s t -> T s' t)) ->
          Forall (T s) l ->
          I (st (exec p s l os0)) /\ Forall (T (st (exec p s l os0))) (threads (exec p s l os0))) as Hexec.
  { intros p s l os0 Hp Hl. unfold exec. destruct (run p s) as [[s' os'] o] eqn:Hr. cbn.
    destruct (Hp _ _ _ eq_refl) as (HI & HT & Hmono). split; [done|].
    apply Forall_app. split; [|done]. eapply Forall_impl; [exact Hl|apply Hmono]. }
  intros y1 y2 [HI HT] Hstep. destruct Hstep as [ev y1 He|y1 l1 k l2 Hts|y1 l1 c k l2 r Hts].
  - apply Hexec; [|done]. intros s' os o. by apply (Hev ev).
  - rewrite Hts in HT. apply Forall_app in HT as [HT1 HT2]. inversion_clear HT2.
    apply Hexec; [|by apply Forall_app]. intros. by eapply Hk.
  - rewrite Hts in HT. apply Forall_app in HT as [HT1 HT2]. inversion_clear HT2.
    apply Hexec; [|by apply Forall_app]. intros. by eapply Hc.
Qed.

(** If every handler respects the flag, so does every interleaving. *)
Lemma lock_invariant (flag : S -> bool) (guarded : C -> bool) (s0 : S) (y : sys) :
  flag s0 = false -> (forall ev s, locked flag guarded false (handler ev s) s) ->
  reachable s0 y -> lock_inv flag guarded y.
Proof.
  intros H0 Hh. apply reachable_invariant.
  - exists []. cbn. rewrite H0. auto.
  - intros y1 y2 (hs & Hhs & Hn) Hstep.
    destruct Hstep as [ev y0 He|y0 l1 k l2 Hts|y0 l1 c k l2 r Hts];
      try (rewrite Hts in Hhs; eapply pick_locked in Hhs
             as (h & hs' & Ht & Hf & Hhs' & Hn'); [|exact Hn]).
    + eapply exec_locked; [apply Hh|done|done|]. cbn. lia.
    + by eapply exec_locked; [apply Ht| | |].
    + destruct Ht as [_ Ht]. by eapply exec_locked; [apply Ht| | |].
Qed.

Lemma outdated_invariant (version : S -> Z) {X} (proj : S -> X) (y0 y : sys) :
  threads y0 = [] ->
  (forall ev s s' os o, run (handler ev s) s = (s', os, o) ->
     (version s <= version s')%Z /\ forall m, (version s' < m)%Z -> stable version proj m (handler ev s) s) ->
  reachable_from y0 y -> Forall (outdated version proj (version (st y))) (threads y).
Proof.
  intros H0 Hh Hy.
  eapply (threads_invariant (fun _ => True) (fun s => outdated version proj (version s)) y0 y);
    [done|by rewrite H0| | | |exact Hy].
  - intros ev s s' os o _ _ Hr. destruct (Hh _ _ _ _ _ Hr) as [Hle Hst].
    split; [done|]. split; [|intros t; by apply outdated_mono].
    apply Forall_forall. intros t Ht m Hm.
    destruct (run_stable _ _ _ _ _ _ _ _ (Hst m Hm) Hr) as (_ & _ & Hts). by eapply Forall_forall.
  - intros k s s' os o _ Ht Hr. split; [done|].
    destruct (run_outdated version proj k s s' os o (fun m Hm => Ht m Hm s) Hr) as [Hle Hts].
    split; [done|]. intros t. by apply outdated_mono.
  - intros c k r s s' os o _ Ht Hr. split; [done|].
    destruct (run_outdated version proj (k r) s s' os o (fun m Hm => Ht m Hm r s) Hr) as [Hle Hts].
    split; [done|]. intros t. by apply outdated_mono.
Qed.
(** While every function under way is outdated and every new one keeps [P], [P] stays. *)
Lemma outdated_stays (version : S -> Z) {X} (proj : S -> X) (P : X -> Prop) (v : Z) (y0 y : sys) :
  (v < version (st y0))%Z -> P (proj (st y0)) -> Forall (outdated version proj v) (threads y0) ->
  (forall ev s s' os o, enabled ev s = true -> (v < version s)%Z -> P (proj s) -> run (handler ev s) s = (s', os, o) ->
     (v < version s')%Z /\ P (proj s') /\ Forall (outdated version proj v) (suspended o)) ->
  reachable_from y0 y -> P (proj (st y)).
Proof.
  intros Hv HP Ht Hev Hy.
  assert (forall (p : M unit) s s1 os o, (v < version s)%Z /\ P (proj s) -> (forall m, (v < m)%Z -> stable version proj m p s) ->
            run p s = (s1, os, o) ->
            ((v < version s1)%Z /\ P (proj s1)) /\ Forall (outdated version proj v) (suspended o)
            /\ (forall t : thread, outdated version proj v t -> outdated version proj v t)) as Hrun.
  { intros p s s1 os o [Hn HPs] Hst Hr.
    destruct (run_stable _ _ _ _ _ _ _ _ (Hst (version s) Hn) Hr) as (Hle & Hsame & _).
    destruct (Hsame eq_refl) as [_ ->]. split; [split; [lia|done]|]. split; [|done].
    apply Forall_forall. intros t Hin m Hm.
    destruct (run_stable _ _ _ _ _ _ _ _ (Hst m Hm) Hr) as (_ & _ & Hts). by eapply Forall_forall. }
  apply (threads_invariant (fun s => (v < version s)%Z /\ P (proj s)) (fun _ => outdated version proj v) y0 y);
    [done|done| | | |exact Hy].
  - intros ev s s' os o He [Hs HPs] Hr. destruct (Hev ev s s' os o He Hs HPs Hr) as (? & ? & ?). done.
  - intros k s s' os o HI Hk Hr. eapply Hrun; [exact HI| |exact Hr]. intros m Hm. by apply Hk.
  - intros c k r s s' os o HI Hk Hr. eapply Hrun; [exact HI| |exact Hr]. intros m Hm. by apply Hk.
Qed.
End Reachability.

(** ** Composition of the lock discipline *)

Section LockComposition.
Context {S C O E : Type} {R : C -> Type} (flag : S -> bool) (guarded : C -> bool).
Local Abbreviation M := (prog S C O E R).

Lemma locked_continue {A B} (p : M A) (kr : A -> M B) (ke : E -> M B) (held : bool) (s : S) :
  locked flag guarded held p s ->
  (forall a s', locked flag guarded false (kr a) s') ->
  (forall e s', locked flag guarded false (ke e) s') ->
  locked flag guarded held (continue p kr ke) s.
Proof.
  intros Hp Hr He. revert held s Hp.
  induction p as [a|e|k IH|f k IH|m k IH|k IH|c k IH]; cbn; intros held s Hp.
  - subst. apply Hr.
  - subst. apply He.
  - by apply IH.
  - destruct Hp as [[? ?]|[(? & ? & ? & ?)|(? & ? & ?)]]; eauto 7.
  - by apply IH.
  - intros s' Hs'. apply IH, Hp, Hs'.
  - destruct Hp as [? Hp]. split; [done|]. intros r s' Hs'. by apply IH, Hp.
Qed.

Lemma locked_bind {A B} (p : M A) (f : A -> M B) (held : bool) (s : S) :
  locked flag guarded held p s ->
  (forall a s', locked flag guarded false (f a) s') ->
  locked flag guarded held (bind p f) s.
Proof. intros. by apply locked_continue. Qed.

Lemma locked_finally {A} (p : M A) (q : M unit) (s : S) :
  locked flag guarded false p s -> (forall s', locked flag guarded false q s') ->
  locked flag guarded false (finally p q) s.
Proof. intros Hp Hq. apply locked_continue; [done|intros; by apply locked_bind..]. Qed.

Lemma locked_try_catch {A} (p : M A) (h : E -> M A) (s : S) :
  locked flag guarded false p s -> (forall e s', locked flag guarded false (h e) s') ->
  locked flag guarded false (try_catch p h) s.
Proof. intros. by apply locked_continue. Qed.

Lemma locked_await_fn {A} (p : M A) (s : S) :
  locked flag guarded false p s -> locked flag guarded false (await_fn p) s.
Proof. intros. by apply locked_continue. Qed.

Lemma locked_ignore_error (p : M unit) (s : S) :
  locked flag guarded false p s -> locked flag guarded false (ignore_error p) s.
Proof. intros. by apply locked_try_catch. Qed.

Lemma locked_call (c : C) (s : S) :
  guarded c = false -> locked flag guarded false (call (O := O) (E := E) (R := R) c) s.
Proof. intros Hc. cbn. split; [done|]. intros [v|e] s' _; done. Qed.

Lemma locked_modify (f : S -> S) (s : S) :
  flag (f s) = flag s -> locked flag guarded false (modify (C := C) (O := O) (E := E) (R := R) f) s.
Proof. intros. cbn. auto. Qed.

Lemma locked_say (o : O) (s : S) :
  locked flag guarded false (say (S := S) (C := C) (E := E) (R := R) o) s.
Proof. done. Qed.
End LockComposition.

(** Any part of the state is as untouched as the whole. *)
Lemma preserves_proj {S C O E X Y} {R : C -> Type} (g : S -> X) (f : X -> Y) {A}
    (p : prog S C O E R A) :
  preserves g p -> preserves (fun s => f (g s)) p.
Proof.
  intros Hp. induction p; cbn in *; eauto. destruct Hp as [Hf Hp]. split; [|by apply IHp].
  intros s. by rewrite Hf.
Qed.

(** ** One function on its own *)

(** The uninterrupted executions of a function: what it awaited and was answered,
    what it showed, how it ended and in what state. *)
Section Evaluation.
Context {S C O E : Type} {R : C -> Type}.
Local Abbreviation M := (prog S C O E R).

Inductive happening : Type :=
| Did (o : O)
| Settled (c : C) (r : result E (R c)).

Fixpoint evaluates {A} (p : M A) (s : S) (tr : list happening) (r : result E A) (s' : S) : Prop :=
  match p with
  | Ret a => tr = [] /\ r = Ok a /\ s' = s
  | Throw e => tr = [] /\ r = Err e /\ s' = s
  | Read k => evaluates (k s) s tr r s'
  | Upd f k => evaluates k (f s) tr r s'
  | Say o k => exists tr', tr = Did o :: tr' /\ evaluates k s tr' r s'
  | Yield k => evaluates k s tr r s'
  | Await c k => exists v tr', tr = Settled c v :: tr' /\ evaluates (k v) s tr' r s'
  end.

Lemma evaluates_continue {A B} (p : M A) (kr : A -> M B) (ke : E -> M B) (s s' : S)
    (tr : list happening) (r : result E B) :
  evaluates (continue p kr ke) s tr r s' <->
  exists tr1 tr2 s1, tr = tr1 ++ tr2 /\
    ((exists a, evaluates p s tr1 (Ok a) s1 /\ evaluates (kr a) s1 tr2 r s')
     \/ (exists e, evaluates p s tr1 (Err e) s1 /\ evaluates (ke e) s1 tr2 r s')).
Proof.
  revert s tr. induction p as [a|e|k IH|f k IH|m k IH|k IH|c k IH]; intros s tr; cbn.
  - split.
    + intros H. exists [], tr, s. eauto 8.
    + intros (tr1 & tr2 & s1 & -> & [(a' & (-> & Heq & ->) & Hk)|(e & (_ & ? & _) & _)]); [|done].
      by injection Heq as <-.
  - split.
    + intros H. exists [], tr, s. eauto 8.
    + intros (tr1 & tr2 & s1 & -> & [(a' & (_ & ? & _) & _)|(e' & (-> & Heq & ->) & Hk)]); [done|].
      by injection Heq as <-.
  - apply IH.
  - apply IH.
  - split.
    + intros (tr' & -> & H). apply IH in H as (tr1 & tr2 & s1 & -> & H).
      exists (Did m :: tr1), tr2, s1. split; [done|].
      destruct H as [(a & H1 & H2)|(e & H1 & H2)]; [left; exists a|right; exists e]; eauto.
    + intros (tr1 & tr2 & s1 & -> & [(a & (tr' & -> & H) & Hk)|(e & (tr' & -> & H) & Hk)]);
        exists (tr' ++ tr2); (split; [done|]); apply IH; exists tr', tr2, s1; eauto 6.
  - apply IH.
  - split.
    + intros (v & tr' & -> & H). apply IH in H as (tr1 & tr2 & s1 & -> & H).
      exists (Settled c v :: tr1), tr2, s1. split; [done|].
      destruct H as [(a & H1 & H2)|(e & H1 & H2)]; [left; exists a|right; exists e]; eauto 6.
    + intros (tr1 & tr2 & s1 & -> & [(a & (v & tr' & -> & H) & Hk)|(e & (v & tr' & -> & H) & Hk)]);
        exists v, (tr' ++ tr2); (split; [done|]); apply IH; exists tr', tr2, s1; eauto 6.
Qed.

Lemma evaluates_bind {A B} (p : M A) (f : A -> M B) (s s' : S)
    (tr : list happening) (r : result E B) :
  evaluates (bind p f) s tr r s' <->
  exists tr1 tr2 s1, tr = tr1 ++ tr2 /\
    ((exists a, evaluates p s tr1 (Ok a) s1 /\ evaluates (f a) s1 tr2 r s')
     \/ (exists e, evaluates p s tr1 (Err e) s1 /\ tr2 = [] /\ r = Err e /\ s' = s1)).
Proof. exact (evaluates_continue p f Throw s s' tr r). Qed.

Lemma evaluates_await_fn {A} (p : M A) (s s' : S) (tr : list happening) (r : result E A) :
  evaluates (await_fn p) s tr r s' <-> evaluates p s tr r s'.
Proof.
  unfold await_fn. rewrite evaluates_continue. cbn. split.
  - intros (tr1 & tr2 & s1 & -> & [(a & H & -> & -> & ->)|(e & H & -> & -> & ->)]);
      by rewrite app_nil_r.
  - intros H. exists tr, [], s'. rewrite app_nil_r. split; [done|].
    destruct r as [a|e]; [left; exists a|right; exists e]; done.
Qed.

Lemma evaluates_call (c : C) (s s' : S) (tr : list happening) (r : result E (R c)) :
  evaluates (call c) s tr r s' <-> tr = [Settled c r] /\ s' = s.
Proof.
  cbn. split.
  - intros (v & tr' & -> & H). destruct v; destruct H as (-> & -> & ->); done.
  - intros [-> ->]. exists r, []. split; [done|]. by destruct r.
Qed.

Lemma evaluates_preserves {X} (proj : S -> X) {A} (p : M A) (s s' : S) (tr : list happening)
    (r : result E A) :
  preserves proj p -> evaluates p s tr r s' -> proj s' = proj s.
Proof.
  revert s tr. induction p as [a|e|k IH|f k IH|m k IH|k IH|c k IH]; cbn; intros s tr Hp; eauto.
  - by intros (_ & _ & ->).
  - by intros (_ & _ & ->).
  - destruct Hp as [Hf Hp]. intros He. by rewrite (IH _ _ Hp He).
  - intros (tr' & _ & He). eauto.
  - intros (v & tr' & _ & He). eauto.
Qed.

Lemma evaluates_modify_bind {A} (f : S -> S) (p : unit -> M A) (s s' : S) (tr : list happening)
    (r : result E A) :
  evaluates (bind (modify f) p) s tr r s' -> evaluates (p tt) (f s) tr r s'.
Proof. done. Qed.

Lemma evaluates_finally {A} (p : M A) (f : S -> S) (s s' : S) (tr : list happening) (r : result E A) :
  evaluates (finally p (modify f)) s tr r s' ->
  exists s1, evaluates p s tr r s1 /\ s' = f s1.
Proof.
  unfold finally. rewrite evaluates_continue.
  intros (tr1 & tr2 & s1 & -> & [(a & Hp & -> & -> & ->)|(e & Hp & -> & -> & ->)]);
    rewrite app_nil_r; by exists s1.
Qed.

(** A function that never throws. *)
Fixpoint safe {A} (p : M A) : Prop :=
  match p with
  | Ret _ => True
  | Throw _ => False
  | Read k => forall s, safe (k s)
  | Upd _ k | Say _ k | Yield k => safe k
  | Await _ k => forall r, safe (k r)
  end.

Lemma safe_evaluates {A} (p : M A) (s s' : S) (tr : list happening) (r : result E A) :
  safe p -> evaluates p s tr r s' -> exists a, r = Ok a.
Proof.
  revert s tr. induction p as [a|e|k IH|f k IH|m k IH|k IH|c k IH]; cbn; intros s tr Hp; eauto.
  - intros (_ & -> & _). eauto.
  - done.
  - intros (tr' & _ & He). eauto.
  - intros (v & tr' & _ & He). eauto.
Qed.

Lemma safe_continue {A B} (p : M A) (kr : A -> M B) (ke : E -> M B) :
  (forall a, safe (kr a)) -> (forall e, safe (ke e)) -> safe (continue p kr ke).
Proof. intros Hr He. induction p; cbn; auto. Qed.

Lemma safe_bind {A B} (p : M A) (f : A -> M B) : safe p -> (forall a, safe (f a)) -> safe (bind p f).
Proof. unfold bind. intros Hp Hf. induction p; cbn in *; auto. Qed.

Lemma safe_finally {A} (p : M A) (q : M unit) : safe p -> safe q -> safe (finally p q).
Proof.
  unfold finally. intros Hp Hq. induction p; cbn in *; auto; by apply safe_bind.
Qed.

Lemma safe_await_fn {A} (p : M A) : safe p -> safe (await_fn p).
Proof. unfold await_fn. intros Hp. induction p; cbn in *; auto. Qed.

(** A function that awaits nothing and shows nothing. *)
Fixpoint synchronous {A} (p : M A) : Prop :=
  match p with
  | Ret _ | Throw _ => True
  | Read k => forall s, synchronous (k s)
  | Upd _ k => synchronous k
  | Say _ _ | Yield _ | Await _ _ => False
  end.

Lemma synchronous_bind {A B} (p : M A) (f : A -> M B) :
  synchronous p -> (forall a, synchronous (f a)) -> synchronous (bind p f).
Proof. unfold bind. intros Hp Hf. induction p; cbn in *; try done; auto. Qed.

Lemma synchronous_trace {A} (p : M A) (s s' : S) (tr : list happening) (r : result E A) :
  synchronous p -> evaluates p s tr r s' -> tr = [].
Proof.
  revert s. induction p; cbn; intros s0 Hp; try done; eauto.
  all: by intros (-> & _).
Qed.

(** The execution in which the environment answers every call by [answer]. *)
Fixpoint play (answer : forall c, result E (R c)) {A} (p : M A) (s : S)
  : list happening * result E A * S :=
  match p with
  | Ret a => ([], Ok a, s)
  | Throw e => ([], Err e, s)
  | Read k => play answer (k s) s
  | Upd f k => play answer k (f s)
  | Say o k => let '(tr, r, s') := play answer k s in (Did o :: tr, r, s')
  | Yield k => play answer k s
  | Await c k => let '(tr, r, s') := play answer (k (answer c)) s in
                 (Settled c (answer c) :: tr, r, s')
  end.

Lemma play_evaluates (answer : forall c, result E (R c)) {A} (p : M A) (s s' : S)
    (tr : list happening) (r : result E A) :
  play answer p s = (tr, r, s') -> evaluates p s tr r s'.
Proof.
  revert s tr. induction p as [a|e|k IH|f k IH|m k IH|k IH|c k IH]; cbn; intros s tr Hp; eauto;
    try (by simplify_eq).
  - destruct (play answer k s) as [[tr' r'] s1] eqn:Hk. simplify_eq. eauto.
  - destruct (play answer (k (answer c)) s) as [[tr' r'] s1] eqn:Hk. simplify_eq. eauto.
Qed.
End Evaluation.
Arguments happening C O E R : clear implicits.
