(* ===== verification/Disciplines.v ===== *)
(** Two more properties of async functions that compose: coming to an end after a bounded
    number of suspensions, and keeping an invariant of the state. *)

From stdpp Require Import relations.
From S2P Require Import Prelude Async.

Section Disciplines.
Context {S C O E : Type} {R : C -> Type}.
Local Abbreviation M := (prog S C O E R).
Local Abbreviation sys := (sys S C O E R).
Local Abbreviation thread := (thread S C O E R).

(** ** Coming to an end *)

(** The function suspends at most [n] times, whatever it finds and whatever it is answered. *)
Fixpoint ends_within (n : nat) {A} (p : M A) : Prop :=
  match p with
  | Ret _ | Throw _ => True
  | Read k => forall s, ends_within n (k s)
  | Upd _ k | Say _ k => ends_within n k
  | Yield k => match n with 0%nat => False | Datatypes.S m => ends_within m k end
  | Await _ k => match n with 0%nat => False | Datatypes.S m => forall r, ends_within m (k r) end
  end.

Definition thread_ends (n : nat) (t : thread) : Prop :=
  match n, t with
  | 0%nat, _ => False
  | Datatypes.S m, TPaused k => ends_within m k
  | Datatypes.S m, TWaiting _ k => forall r, ends_within m (k r)
  end.

Lemma ends_mono {A} (p : M A) (n m : nat) : (n <= m)%nat -> ends_within n p -> ends_within m p.
Proof.
  revert n m. induction p as [a|e|k IH|f k IH|o k IH|k IH|c k IH]; cbn; intros n m Hle Hp; eauto.
  - destruct n, m; try done; [lia|]. eapply IH; [|exact Hp]. lia.
  - destruct n, m; try done; [lia|]. intros r. eapply IH; [|apply Hp]. lia.
Qed.

Lemma ends_continue {A B} (p : M A) (kr : A -> M B) (ke : E -> M B) (n m : nat) :
  ends_within n p -> (forall a, ends_within m (kr a)) -> (forall e, ends_within m (ke e)) ->
  ends_within (n + m) (continue p kr ke).
Proof.
  intros Hp Hr He. revert n Hp. induction p as [a|e|k IH|f k IH|o k IH|k IH|c k IH]; cbn; intros n Hp; eauto.
  - eapply ends_mono; [|apply Hr]. lia.
  - eapply ends_mono; [|apply He]. lia.
  - destruct n; [done|]. by apply IH.
  - destruct n; [done|]. intros r. by apply IH.
Qed.

Lemma ends_bind {A B} (p : M A) (f : A -> M B) (n m : nat) :
  ends_within n p -> (forall a, ends_within m (f a)) -> ends_within (n + m) (bind p f).
Proof. intros. by apply ends_continue. Qed.

Lemma ends_try_catch {A} (p : M A) (h : E -> M A) (n m : nat) :
  ends_within n p -> (forall e, ends_within m (h e)) -> ends_within (n + m) (try_catch p h).
Proof. intros. by apply ends_continue. Qed.

Lemma ends_await_fn {A} (p : M A) (n : nat) : ends_within n p -> ends_within (n + 1) (await_fn p).
Proof. intros. by apply ends_continue. Qed.

Lemma ends_finally {A} (p : M A) (q : M unit) (n m : nat) :
  ends_within n p -> ends_within m q -> ends_within (n + m) (finally p q).
Proof.
  intros Hp Hq. apply ends_continue; [done|intros a..]; rewrite <-(Nat.add_0_r m); by apply ends_bind.
Qed.

Lemma ends_call (c : C) : ends_within 1 (call (S := S) (O := O) (E := E) (R := R) c).
Proof. by intros [v|e]. Qed.

(** The page without its user and its timers: the suspended functions go on. *)
Inductive quiet : sys -> sys -> Prop :=
| quiet_resume y l1 k l2 :
    threads y = l1 ++ TPaused k :: l2 -> quiet y (exec k (st y) (l1 ++ l2) (log y))
| quiet_settle y l1 c k l2 r :
    threads y = l1 ++ TWaiting c k :: l2 -> quiet y (exec (k r) (st y) (l1 ++ l2) (log y)).

Lemma schedule_quiet moves (y : sys) : rtc quiet y (schedule moves y).
Proof.
  unfold schedule. revert y. induction moves as [|[answer i] moves IH]; intros y; [done|].
  etrans; [|apply IH]. unfold advance. cbn [fst snd]. destruct (threads y !! i) as [t|] eqn:Ht; [|done].
  pose proof (take_drop_middle _ _ _ Ht) as Hts. destruct t as [k|c k]; apply rtc_once.
  - by apply quiet_resume.
  - by apply quiet_settle.
Qed.

Lemma run_ends (p : M unit) (n : nat) (s s' : S) (os : list O) (o : outcome S C O E R) :
  ends_within n p -> run p s = (s', os, o) ->
  suspended o = [] \/ exists t, suspended o = [t] /\ thread_ends n t.
Proof.
  revert n s s' os o. induction p as [a|e|k IH|f k IH|m k IH|k IH|c k IH]; cbn; intros n s s' os o Hp Hr.
  - simplify_eq. by left.
  - simplify_eq. by left.
  - by eapply IH.
  - by eapply IH.
  - destruct (run k s) as [[s1 os1] o1] eqn:Hk. simplify_eq. by eapply IH.
  - simplify_eq. right. eexists. split; [done|]. by destruct n.
  - simplify_eq. right. eexists. split; [done|]. by destruct n.
Qed.

Lemma quiet_descends (ns : list nat) (y y' : sys) :
  Forall2 thread_ends ns (threads y) -> quiet y y' ->
  exists ns', Forall2 thread_ends ns' (threads y') /\ (sum_list ns' < sum_list ns)%nat.
Proof.
  intros Hns Hq.
  assert (exists n1 n n2 l1 l2 p, ns = n1 ++ Datatypes.S n :: n2 /\ Forall2 thread_ends n1 l1 /\ Forall2 thread_ends n2 l2
            /\ ends_within n p /\ y' = exec p (st y) (l1 ++ l2) (log y))
    as (n1 & n & n2 & l1 & l2 & p & -> & H1 & H2 & Hp & ->).
  { destruct Hq as [y l1 k l2 Ht|y l1 c k l2 r Ht]; rewrite Ht in Hns;
      apply Forall2_app_inv_r in Hns as (n1 & n2' & H1 & H2' & ->);
      inversion H2' as [|[|n] t n2 l2' Hend H2]; subst; try done;
      eexists n1, n, n2, l1, l2, _; eauto 6. }
  unfold exec. destruct (run p (st y)) as [[s' os'] o] eqn:Hr. cbn.
  destruct (run_ends _ _ _ _ _ _ Hp Hr) as [-> |(t & -> & Ht)].
  - exists (n1 ++ n2). rewrite app_nil_r. split; [by apply Forall2_app|].
    rewrite !sum_list_with_app. cbn. lia.
  - exists ((n1 ++ n2) ++ [n]). split; [apply Forall2_app; [by apply Forall2_app|by constructor]|].
    rewrite !sum_list_with_app. cbn. lia.
Qed.

(** Whatever is suspended can go on. *)
Lemma quiet_progress `{Inhabited E} (y : sys) : threads y <> [] -> exists y', quiet y y'.
Proof.
  destruct (threads y) as [|[k|c k] ts] eqn:Ht; [done|..]; intros _.
  - eexists. by apply (quiet_resume y []).
  - eexists. by apply (quiet_settle y [] c k ts (Err inhabitant)).
Qed.

(** From where every suspended function has [n] suspensions left at most, the page comes to
    rest, and it rests only with nothing suspended. *)
Lemma quiet_bounded `{Inhabited E} (n : nat) (y : sys) :
  Forall (thread_ends n) (threads y) ->
  (forall i y', nsteps quiet i y y' -> (i <= n * length (threads y))%nat)
  /\ ((forall y', ~ quiet y y') -> threads y = []).
Proof.
  intros Hn. split.
  - assert (Forall2 thread_ends (replicate (length (threads y)) n) (threads y)) as H2.
    { induction Hn; by constructor. }
    assert (sum_list (replicate (length (threads y)) n) = n * length (threads y))%nat as <-.
    { generalize (length (threads y)). intros l. induction l as [|l IH]; cbn; [lia|]. rewrite IH. lia. }
    intros i y' Hi. clear Hn. revert H2. generalize (replicate (length (threads y)) n).
    induction Hi as [|i y1 y2 y3 Hq _ IH]; intros ns H2; [lia|].
    destruct (quiet_descends _ _ _ H2 Hq) as (ns' & H2' & Hlt). specialize (IH _ H2'). lia.
  - intros Hrest. destruct (decide (threads y = [])) as [|Hne]; [done|]. exfalso.
    destruct (quiet_progress y Hne) as [y' Hy']. by apply (Hrest y').
Qed.

(** The handlers end, so the suspended functions of every reachable state do. *)
Lemma reachable_ends {Ev} (enabled : Ev -> S -> bool) (handler : Ev -> S -> M unit) (n : nat) (y0 y : sys) :
  Forall (thread_ends n) (threads y0) -> (forall ev s, ends_within n (handler ev s)) ->
  reachable_from enabled handler y0 y -> Forall (thread_ends n) (threads y).
Proof.
  intros H0 Hh. apply (steps_invariant enabled handler (fun y => Forall (thread_ends n) (threads y))); [done|].
  assert (forall p s l os, ends_within n p -> Forall (thread_ends n) l -> Forall (thread_ends n) (threads (exec p s l os)))
    as Hexec.
  { intros p s l os Hp Hl. unfold exec. destruct (run p s) as [[s' os'] o] eqn:Hr. cbn.
    destruct (run_ends _ _ _ _ _ _ Hp Hr) as [-> |(t & -> & Ht)]; rewrite ?app_nil_r; [done|].
    apply Forall_app_2; [done|]. by apply Forall_cons_2. }
  intros y1 y2 Hy Hstep. destruct Hstep as [ev y3 He|y3 l1 k l2 Ht|y3 l1 c k l2 r Ht]; [apply Hexec; [apply Hh|exact Hy]|..];
    rewrite Ht in Hy; apply Forall_app in Hy as [H1 [Hk H2]%Forall_cons]; apply Hexec;
    try (by apply Forall_app_2); (destruct n as [|n]; [done|]).
  - by apply (ends_mono _ n); [lia|].
  - apply (ends_mono _ n); [lia|]. apply Hk.
Qed.

(** ** Keeping an invariant *)

Section Maintain.
Context (I : S -> Prop).

Fixpoint maintains {A} (p : M A) : Prop :=
  match p with
  | Ret _ | Throw _ => True
  | Read k => forall s, maintains (k s)
  | Upd f k => (forall s, I s -> I (f s)) /\ maintains k
  | Say _ k | Yield k => maintains k
  | Await _ k => forall r, maintains (k r)
  end.

Definition thread_maintains (t : thread) : Prop :=
  match t with TPaused k => maintains k | TWaiting _ k => forall r, maintains (k r) end.

Lemma maintains_continue {A B} (p : M A) (kr : A -> M B) (ke : E -> M B) :
  maintains p -> (forall a, maintains (kr a)) -> (forall e, maintains (ke e)) -> maintains (continue p kr ke).
Proof. intros Hp Hr He. induction p; cbn in *; eauto. destruct Hp. auto. Qed.

Lemma maintains_bind {A B} (p : M A) (f : A -> M B) :
  maintains p -> (forall a, maintains (f a)) -> maintains (bind p f).
Proof. intros. by apply maintains_continue. Qed.

Lemma maintains_await_fn {A} (p : M A) : maintains p -> maintains (await_fn p).
Proof. intros. by apply maintains_continue. Qed.

Lemma maintains_modify (f : S -> S) : (forall s, I s -> I (f s)) -> maintains (modify f).
Proof. cbn. auto. Qed.

(** What always holds is kept. *)
Lemma maintains_trivial {A} (p : M A) : (forall s, I s) -> maintains p.
Proof. intros HI. induction p; cbn; eauto. Qed.

Lemma run_maintains (p : M unit) (s s' : S) (os : list O) (o : outcome S C O E R) :
  maintains p -> I s -> run p s = (s', os, o) -> I s' /\ Forall thread_maintains (suspended o).
Proof.
  revert s s' os o. induction p as [a|e|k IH|f k IH|m k IH|k IH|c k IH]; cbn; intros s s' os o Hp Hs Hr.
  - simplify_eq. cbn. auto.
  - simplify_eq. cbn. auto.
  - by eapply IH.
  - destruct Hp as [Hf Hk]. eapply IH; [exact Hk|by apply Hf|exact Hr].
  - destruct (run k s) as [[s1 os1] o1] eqn:Hk. simplify_eq. by eapply IH.
  - simplify_eq. cbn. auto.
  - simplify_eq. cbn. auto.
Qed.

Lemma run_suspends (p : M unit) (s s' : S) (os : list O) (o : outcome S C O E R) :
  maintains p -> run p s = (s', os, o) -> Forall thread_maintains (suspended o).
Proof.
  revert s s' os o. induction p as [a|e|k IH|f k IH|m k IH|k IH|c k IH]; cbn; intros s s' os o Hp Hr.
  all: try (by simplify_eq; cbn; repeat constructor).
  - by eapply IH.
  - destruct Hp as [_ Hk]. by eapply IH.
  - destruct (run k s) as [[s1 os1] o1] eqn:Hk. simplify_eq. by eapply IH.
Qed.

(** Every suspended function keeps what every handler keeps. *)
Lemma reachable_threads {Ev} (enabled : Ev -> S -> bool) (handler : Ev -> S -> M unit) (y0 y : sys) :
  Forall thread_maintains (threads y0) -> (forall ev s, maintains (handler ev s)) ->
  reachable_from enabled handler y0 y -> Forall thread_maintains (threads y).
Proof.
  intros H0 Hh. apply (steps_invariant enabled handler (fun y => Forall thread_maintains (threads y))); [done|].
  assert (forall s l p os, maintains p -> Forall thread_maintains l -> Forall thread_maintains (threads (exec p s l os))) as Hexec.
  { intros s l p os Hp Hl. unfold exec. destruct (run p s) as [[s' os'] o] eqn:Hr. cbn.
    apply Forall_app_2; [done|]. by eapply run_suspends. }
  intros y1 y2 Hts Hstep. destruct Hstep as [ev y3 He|y3 l1 k l2 Ht|y3 l1 c k l2 r Ht]; [apply Hexec; [apply Hh|exact Hts]|..];
    rewrite Ht in Hts; apply Forall_app in Hts as [H1 [Hk H2]%Forall_cons]; apply Hexec;
    try (by apply Forall_app_2); [exact Hk|apply Hk].
Qed.

Lemma reachable_maintains {Ev} (enabled : Ev -> S -> bool) (handler : Ev -> S -> M unit) (y0 y : sys) :
  I (st y0) -> Forall thread_maintains (threads y0) -> (forall ev s, maintains (handler ev s)) ->
  reachable_from enabled handler y0 y -> I (st y).
Proof.
  intros H0 Ht0 Hh Hy.
  assert (forall s l p os, I s -> maintains p -> Forall thread_maintains l ->
            I (st (exec p s l os)) /\ Forall thread_maintains (threads (exec p s l os))) as Hexec.
  { intros s l p os Hs Hp Hl. unfold exec. destruct (run p s) as [[s' os'] o] eqn:Hr. cbn.
    destruct (run_maintains _ _ _ _ _ Hp Hs Hr) as [? ?]. split; [done|]. by apply Forall_app_2. }
  apply (steps_invariant enabled handler (fun y => I (st y) /\ Forall thread_maintains (threads y)) y0 y);
    [done| |exact Hy].
  intros y1 y2 [Hs Hts] Hstep. destruct Hstep as [ev y3 He|y3 l1 k l2 Ht|y3 l1 c k l2 r Ht]; [apply Hexec; [exact Hs|apply Hh|exact Hts]|..];
    rewrite Ht in Hts; apply Forall_app in Hts as [H1 [Hk H2]%Forall_cons]; apply Hexec;
    try (by apply Forall_app_2); done.
Qed.
End Maintain.

(** What a function leaves alone it does not break. *)
Lemma preserves_maintains {X A} (proj : S -> X) (J : X -> Prop) (p : M A) :
  preserves proj p -> maintains (fun s => J (proj s)) p.
Proof. intros Hp. induction p; cbn in *; eauto. destruct Hp as [Hf ?]. split; [intros s; by rewrite Hf|auto]. Qed.
End Disciplines.
