(* ===== verification/View.v ===== *)
(** What a component returns: trees of elements, with the events they let the user cause.
    Attributes that only decorate (icons, sizes, styles) are left out. *)

From stdpp Require Import relations.
From S2P Require Import Prelude JsString Async Disciplines.

(** The elements of HTML and of the component library the pages use. *)
Module Tag.
Inductive t :=
| main | header | section | div | span | strong | small | nav | footer | code | em | img | h1 | a
| canvas | button
| Button | Switch | Tooltip | Title | Text | Tabs | Tab | Form | FormItem | Input | Password
| InputNumber | SearchInput | Select | Option | Segmented | Table | Column | Row | Cell | List | Item
| Empty | Alert | Spin | Modal | Drawer | Descriptions | Description | Space | Card | Layout | Menu
| MenuItem | Statistic | Divider | Badge.
End Tag.

(** [spinning] and [loading] are one attribute; [Named] is any other with a text as value. *)
Inductive attr :=
| Key (k : jsstr)
| Disabled (b : bool)
| Loading (b : bool)
| Open (b : bool)
| Checked (b : bool)
| Submit
| Named (name value : jsstr).

Inductive event_name := onClick | onChange | onFinish | onCancel | onOk | onClose | onSearch.

(** A handler makes an event of what it is called with (a form's values, a field's text). *)
Inductive handler (E : Type) :=
| Handler (V : Type) (f : V -> E).
Arguments Handler {E V} f.

Definition always {E} (e : E) : handler E := Handler (fun _ : unit => e).
Definition causes {E} (f : handler E) (e : E) : Prop := match f with Handler g => exists v, g v = e end.

Inductive element (E : Type) :=
| Text (s : jsstr)
| El (tag : Tag.t) (attrs : list attr) (on : list (event_name * handler E)) (children : list (element E)).

Arguments Text {E} s.
Arguments El {E} tag attrs on children.

(** [{condition && e}] *)
Definition when {A} (b : bool) (e : A) : list A := if b then [e] else [].

(** [{value && f(value)}] for a value that may be [undefined] or empty. *)
Definition when_some {A B} `{Truthy A} (o : option A) (f : A -> B) : list B :=
  match o with Some a => when (truthy a) (f a) | None => [] end.

Section Elements.
Context {E : Type}.
Local Abbreviation node := (element E).

Definition el (tag : Tag.t) (kids : list node) : node := El tag [] [] kids.
Definition classed (tag : Tag.t) (className : jsstr) (kids : list node) : node :=
  El tag [Named (js "className") className] [] kids.
Definition Button (attrs : list attr) (click : E) (kids : list node) : node :=
  El Tag.Button attrs [(onClick, always click)] kids.

(** A table: a row per item, each with its key and the cells of its columns. *)
Definition Table {A} (rowKey : A -> jsstr) (titles : list jsstr) (cells : A -> list (list node))
    (dataSource : list A) : node :=
  El Tag.Table [] []
    (map (fun title => el Tag.Column [Text title]) titles
     ++ map (fun item => El Tag.Row [Key (rowKey item)] [] (map (el Tag.Cell) (cells item))) dataSource).

Definition Description (key label : jsstr) (kids : list node) : node :=
  El Tag.Description [Key key; Named (js "label") label] [] kids.
End Elements.

(** ** The component library *)

Definition disabled (attrs : list attr) : bool :=
  existsb (fun a => match a with Disabled b => b | _ => false end) attrs.
Definition loading_shown (attrs : list attr) : bool :=
  existsb (fun a => match a with Loading b => b | _ => false end) attrs.
Definition closed (attrs : list attr) : bool :=
  existsb (fun a => match a with Open b => negb b | _ => false end) attrs.
Definition submits (attrs : list attr) : bool :=
  existsb (fun a => match a with Submit => true | _ => false end) attrs.
Definition spins (tag : Tag.t) : bool :=
  match tag with Tag.Button | Tag.Switch => true | _ => false end.
Definition pops (tag : Tag.t) : bool :=
  match tag with Tag.Modal | Tag.Drawer => true | _ => false end.

(** Its documented behaviour the pages rely on: a disabled control, and a button or switch
    that shows its spinner, takes no input; a dialog or drawer that is not open is not
    there. *)
Class Toolkit := {
  live : Tag.t -> list attr -> bool;
  shows : Tag.t -> list attr -> bool;
  live_law : forall tag attrs, live tag attrs = negb (disabled attrs) && negb (spins tag && loading_shown attrs);
  shows_law : forall tag attrs, shows tag attrs = negb (pops tag && closed attrs)
}.

Definition plain_toolkit : Toolkit.
Proof.
  refine {| live := fun tag attrs => negb (disabled attrs) && negb (spins tag && loading_shown attrs);
            shows := fun tag attrs => negb (pops tag && closed attrs) |}; done.
Defined.

(** ** What a tree offers *)

(** [Exists], by computation. *)
Fixpoint any {A} (P : A -> Prop) (l : list A) : Prop :=
  match l with [] => False | a :: rest => P a \/ any P rest end.

Section Offers.
Context `{Toolkit} {E : Type}.
Local Abbreviation node := (element E).

(** A button of the tree that submits the form around it. *)
Fixpoint submittable (e : node) : bool :=
  match e with
  | Text _ => false
  | El tag attrs _ kids =>
    shows tag attrs && ((submits attrs && live tag attrs) || existsb submittable kids)
  end.

(** A form calls its handler when one of its buttons submits it, any other element when it
    is live. *)
Definition fires (tag : Tag.t) (attrs : list attr) (kids : list node) (name : event_name) : bool :=
  match name with onFinish => existsb submittable kids | _ => live tag attrs end.

(** The user can cause the event [h]. *)
Fixpoint offers (h : E) (e : node) : Prop :=
  match e with
  | Text _ => False
  | El tag attrs on kids =>
    shows tag attrs = true
    /\ (any (fun p => fires tag attrs kids (fst p) = true /\ causes (snd p) h) on
        \/ any (offers h) kids)
  end.
End Offers.

(** ** Computing the events *)

(** The handlers of the live controls in the order of the tree, the documented behaviour of
    the component library taken in. *)
Section Events.
Context {E : Type}.
Local Abbreviation node := (element E).

Definition is_live (tag : Tag.t) (attrs : list attr) : bool :=
  negb (disabled attrs) && negb (spins tag && loading_shown attrs).

Fixpoint submits_form (e : node) : bool :=
  match e with
  | Text _ => false
  | El tag attrs _ kids =>
    negb (pops tag && closed attrs)
    && ((submits attrs && is_live tag attrs) || existsb submits_form kids)
  end.

Definition is_fired (tag : Tag.t) (attrs : list attr) (kids : list node) (name : event_name) : bool :=
  match name with onFinish => existsb submits_form kids | _ => is_live tag attrs end.

Fixpoint events (e : node) : list (handler E) :=
  match e with
  | Text _ => []
  | El tag attrs on kids =>
    if pops tag && closed attrs then []
    else flat_map (fun p => when (is_fired tag attrs kids (fst p)) (snd p)) on ++ flat_map events kids
  end.
End Events.

Section EventsSpec.
Context {E : Type}.
Local Abbreviation node := (element E).

Fixpoint element_ind' (P : node -> Prop) (HText : forall s, P (Text s))
    (HEl : forall tag attrs on kids, Forall P kids -> P (El tag attrs on kids)) (e : node) : P e :=
  match e with
  | Text s => HText s
  | El tag attrs on kids =>
    HEl tag attrs on kids
      ((fix go (l : list node) : Forall P l :=
          match l with
          | [] => Forall_nil_2 P
          | k :: rest => Forall_cons_2 P k rest (element_ind' P HText HEl k) (go rest)
          end) kids)
  end.

Lemma submits_form_spec `{Toolkit} (e : node) : submittable e = submits_form e.
Proof.
  induction e as [s|tag attrs on kids IH] using element_ind'; [done|]. cbn.
  rewrite shows_law, live_law. f_equal. f_equal.
  induction IH as [|k l Hk _ IHl]; [done|]. cbn. by rewrite Hk, IHl.
Qed.

Lemma is_fired_spec `{Toolkit} (tag : Tag.t) (attrs : list attr) (kids : list node) (name : event_name) :
  fires tag attrs kids name = is_fired tag attrs kids name.
Proof.
  destruct name; cbn; rewrite ?live_law; try done.
  induction kids as [|k l IH]; [done|]. cbn. by rewrite submits_form_spec, IH.
Qed.

Lemma any_flat_map {A} (P : A -> Prop) (g : A -> list (handler E)) (h : E) (l : list A) :
  Forall (fun a => P a <-> exists f, f ∈ g a /\ causes f h) l ->
  any P l <-> exists f, f ∈ flat_map g l /\ causes f h.
Proof.
  induction 1 as [|a l Ha _ IH]; cbn.
  - split; [done|]. intros (f & Hf & _). by apply elem_of_nil in Hf.
  - rewrite Ha, IH. setoid_rewrite elem_of_app. naive_solver.
Qed.

(** What a tree offers is what its live controls call. *)
Lemma offers_events `{Toolkit} (h : E) (e : node) :
  offers h e <-> exists f, f ∈ events e /\ causes f h.
Proof.
  induction e as [s|tag attrs on kids IH] using element_ind'; cbn [offers events].
  { split; [done|]. intros (f & Hf & _). by apply elem_of_nil in Hf. }
  rewrite shows_law. destruct (pops tag && closed attrs); cbn [negb].
  { split; [by intros [? _]|]. intros (f & Hf & _). by apply elem_of_nil in Hf. }
  rewrite (any_flat_map (offers h) events h kids IH).
  rewrite (any_flat_map _ (fun p => when (is_fired tag attrs kids (fst p)) (snd p)) h on).
  - setoid_rewrite elem_of_app. naive_solver.
  - apply Forall_forall. intros [name f] _. cbn. rewrite is_fired_spec.
    destruct (is_fired tag attrs kids name); cbn.
    + setoid_rewrite list_elem_of_singleton. naive_solver.
    + setoid_rewrite elem_of_nil. naive_solver.
Qed.
End EventsSpec.

(** Some handler of the list, given what the event carries, makes the event [h]. *)
Definition called {E} (h : E) (fs : list (handler E)) : Prop := exists f, f ∈ fs /\ causes f h.

Lemma offers_called `{Toolkit} {E} (h : E) (e : element E) : offers h e <-> called h (events e).
Proof. apply offers_events. Qed.

Lemma called_nil {E} (h : E) : called h ([] : list (handler E)) <-> False.
Proof. split; [|done]. intros (f & Hf & _). by apply elem_of_nil in Hf. Qed.

Lemma called_app {E} (h : E) (l1 l2 : list (handler E)) : called h (l1 ++ l2) <-> called h l1 \/ called h l2.
Proof. unfold called. setoid_rewrite elem_of_app. naive_solver. Qed.

Lemma called_cons {E} (h : E) (f : handler E) (l : list (handler E)) :
  called h (f :: l) <-> causes f h \/ called h l.
Proof. unfold called. setoid_rewrite elem_of_cons. naive_solver. Qed.

Lemma causes_always {E} (h e : E) : causes (always e) h <-> h = e.
Proof. cbn. split; [by intros [_ ->]|]. intros ->. by exists tt. Qed.

Lemma called_const {E} (h x : E) (l : list (handler E)) : called h (always x :: l) <-> h = x \/ called h l.
Proof. by rewrite called_cons, causes_always. Qed.

Lemma called_when {E} (h : E) (b : bool) (f : handler E) : called h (when b f) <-> b = true /\ causes f h.
Proof. destruct b; cbn; [rewrite called_cons|]; rewrite called_nil; naive_solver. Qed.

Lemma called_when_const {E} (h x : E) (b : bool) : called h (when b (always x)) <-> b = true /\ h = x.
Proof. by rewrite called_when, causes_always. Qed.

Lemma called_flat_map {E A} (h : E) (g : A -> list (handler E)) (l : list A) :
  called h (flat_map g l) <-> exists a, a ∈ l /\ called h (g a).
Proof.
  unfold called. split.
  - intros (f & Hf & Hv). apply list_elem_of_In, in_flat_map in Hf as (a & Ha & Hf).
    rewrite <-!list_elem_of_In in *. eauto 10.
  - intros (a & Ha & f & Hf & Hv). exists f. split; [|done].
    apply list_elem_of_In, in_flat_map. exists a. by rewrite <-!list_elem_of_In.
Qed.

(** Every event of a list of handlers has a property. *)
Definition only {E} (P : E -> Prop) (fs : list (handler E)) : Prop := Forall (fun f => forall e, causes f e -> P e) fs.

Lemma offers_only `{Toolkit} {E} (P : E -> Prop) (e : element E) :
  only P (events e) -> forall h, offers h e -> P h.
Proof.
  intros Hp h Ho. apply offers_events in Ho as (f & Hf & Hc).
  unfold only in Hp. rewrite Forall_forall in Hp. by apply (Hp f).
Qed.

(** Equations that compute the events of a tree. *)
Lemma flat_map_map {A B C} (f : A -> B) (g : B -> list C) (l : list A) :
  flat_map g (map f l) = flat_map (fun a => g (f a)) l.
Proof. induction l as [|a l IH]; [done|]. cbn. by rewrite IH. Qed.

Lemma flat_map_when {A B} (g : A -> list B) (b : bool) (e : A) :
  flat_map g (when b e) = if b then g e else [].
Proof. destruct b; [|done]. apply app_nil_r. Qed.

Lemma flat_map_when_some {A B C} `{Truthy A} (g : B -> list C) (o : option A) (f : A -> B) :
  flat_map g (when_some o f) = match o with Some a => if truthy a then g (f a) else [] | None => [] end.
Proof. destruct o; [|done]. apply flat_map_when. Qed.

Lemma flat_map_nil {A B} (g : A -> list B) (l : list A) :
  (forall a, g a = []) -> flat_map g l = [].
Proof. intros Hg. induction l as [|a l IH]; [done|]. cbn. by rewrite Hg. Qed.

Lemma events_Table {E A} (rowKey : A -> jsstr) (titles : list jsstr) (cells : A -> list (list (element E)))
    (l : list A) :
  events (Table rowKey titles cells l) = flat_map (fun a => flat_map (flat_map events) (cells a)) l.
Proof.
  unfold Table. cbn [events pops closed andb flat_map app]. rewrite flat_map_app, !flat_map_map.
  rewrite flat_map_nil by done. apply flat_map_ext. intros a. cbn [events pops closed andb flat_map app].
  rewrite flat_map_map. apply flat_map_ext. intros c. done.
Qed.

Create Rewrite HintDb events.
#[export] Hint Rewrite @flat_map_app @flat_map_map @flat_map_when @flat_map_when_some @events_Table
  @app_nil_l @app_nil_r : events.

Ltac compute_events :=
  repeat progress
    (cbn [events flat_map pops spins closed disabled loading_shown submits existsb andb orb negb List.app app fst snd
          el classed Button Description is_fired is_live submits_form when when_some];
     autorewrite with events).

(** ** A tree inside another component's *)

(** A child's events are passed on to its parent's. *)
Definition map_handler {E F} (g : E -> F) (h : handler E) : handler F :=
  match h with Handler f => Handler (fun v => g (f v)) end.

Fixpoint map_element {E F} (g : E -> F) (e : element E) : element F :=
  match e with
  | Text s => Text s
  | El tag attrs on kids =>
    El tag attrs (map (fun p => (fst p, map_handler g (snd p))) on) (map (map_element g) kids)
  end.

Lemma causes_map {E F} (g : E -> F) (h : handler E) (x : F) :
  causes (map_handler g h) x <-> exists e, x = g e /\ causes h e.
Proof. destruct h as [V f]. cbn. split; [intros [v <-]; eauto|]. intros (e & -> & v & <-). by exists v. Qed.

Lemma called_map {E F} (g : E -> F) (hs : list (handler E)) (x : F) :
  called x (map (map_handler g) hs) <-> exists e, x = g e /\ called e hs.
Proof.
  induction hs as [|h hs IH]; cbn [map].
  - rewrite called_nil. setoid_rewrite called_nil. naive_solver.
  - rewrite called_cons, IH, causes_map. setoid_rewrite called_cons. naive_solver.
Qed.

Lemma submits_form_map {E F} (g : E -> F) (e : element E) : submits_form (map_element g e) = submits_form e.
Proof.
  induction e as [s|tag attrs on kids IH] using element_ind'; [done|]. cbn. f_equal. f_equal.
  induction IH as [|k l Hk _ IHl]; [done|]. cbn. by rewrite Hk, IHl.
Qed.

Lemma is_fired_map {E F} (g : E -> F) (tag : Tag.t) (attrs : list attr) (kids : list (element E)) (name : event_name) :
  is_fired tag attrs (map (map_element g) kids) name = is_fired tag attrs kids name.
Proof.
  destruct name; try done. cbn. induction kids as [|k l IH]; [done|]. cbn. by rewrite submits_form_map, IH.
Qed.

Lemma events_map {E F} (g : E -> F) (e : element E) : events (map_element g e) = map (map_handler g) (events e).
Proof.
  induction e as [s|tag attrs on kids IH] using element_ind'; [done|]. cbn [map_element events].
  destruct (pops tag && closed attrs); [done|]. rewrite map_app. f_equal.
  - rewrite flat_map_map. clear IH. induction on as [|[name h] on IH]; [done|]. cbn [flat_map fst snd].
    rewrite is_fired_map, map_app, <-IH. by destruct (is_fired tag attrs kids name).
  - rewrite flat_map_map. induction IH as [|k l Hk _ IHl]; [done|]. cbn [flat_map]. by rewrite Hk, map_app, IHl.
Qed.

(** What the child offers, and nothing else, reaches the parent. *)
Lemma offers_map `{Toolkit} {E F} (g : E -> F) (e : element E) (x : F) :
  offers x (map_element g e) <-> exists y, x = g y /\ offers y e.
Proof. setoid_rewrite offers_called. by rewrite events_map, called_map. Qed.

(** ** The text of a tree *)

Fixpoint displayed {E} (e : element E) : list jsstr :=
  match e with
  | Text s => [s]
  | El _ _ _ kids => flat_map displayed kids
  end.

(** ** A page and its interface *)

(** The page as its user meets it: an event happens when the interface shows it. *)
Section Presented.
Context {S C O X : Type} {R : C -> Type} {Ev : Type}.
Context (shown : Ev -> S -> Prop) (enabled : Ev -> S -> bool) (handler : Ev -> S -> prog S C O X R unit).
Local Abbreviation sys := (sys S C O X R).

Inductive presented_step : sys -> sys -> Prop :=
| presented_event ev y : shown ev (st y) -> presented_step y (spawn (handler ev (st y)) y)
| presented_resume y l1 k l2 :
    threads y = l1 ++ TPaused k :: l2 -> presented_step y (exec k (st y) (l1 ++ l2) (log y))
| presented_settle y l1 c k l2 r :
    threads y = l1 ++ TWaiting c k :: l2 -> presented_step y (exec (k r) (st y) (l1 ++ l2) (log y)).

(** A suspended function goes on. *)
Lemma presented_advance (answer : forall c, result X (R c)) (i : nat) (y : sys) :
  is_Some (threads y !! i) -> presented_step y (advance answer i y).
Proof.
  intros [t Ht]. unfold advance. rewrite Ht. pose proof (take_drop_middle _ _ _ Ht) as Hts.
  destruct t as [k|c k]; [by eapply presented_resume|by eapply presented_settle].
Qed.

(** When the interface shows only what the system admits, every state the user can bring
    about is one of the system's, and the system's invariants hold of it. *)
Lemma presented_reachable (y0 y : sys) :
  (forall ev s, shown ev s -> enabled ev s = true) ->
  rtc presented_step y0 y -> reachable_from enabled handler y0 y.
Proof.
  intros Hs. apply rtc_subrel. intros y1 y2 [ev z Hev|z l1 k l2 Ht|z l1 c k l2 r Ht].
  - by apply step_event, Hs.
  - by apply step_resume.
  - by apply step_settle.
Qed.

(** When it shows all the system admits, the two are one. *)
Lemma presented_exact (y0 y : sys) :
  (forall ev s, shown ev s <-> enabled ev s = true) ->
  rtc presented_step y0 y <-> reachable_from enabled handler y0 y.
Proof.
  intros Hs. split; [apply presented_reachable; intros; by apply Hs|].
  apply rtc_subrel. intros y1 y2 [ev z Hev|z l1 k l2 Ht|z l1 c k l2 r Ht].
  - by apply presented_event, Hs.
  - by apply presented_resume.
  - by apply presented_settle.
Qed.
(** What goes on without the user goes on with them. *)
Lemma quiet_presented (y0 y : sys) : rtc quiet y0 y -> rtc presented_step y0 y.
Proof.
  apply rtc_subrel. intros y1 y2 [z l1 k l2 Ht|z l1 c k l2 r Ht].
  - by apply presented_resume.
  - by apply presented_settle.
Qed.
End Presented.
