(* ===== verification/Joins.v ===== *)
(** Joined promises: async functions that run side by side, as [Promise.all] starts them. *)

From stdpp Require Import relations.
From S2P Require Import Prelude Async Disciplines.

(** ** What a function with parts waits for *)

(** A turn of the microtask queue, a call, or whichever of two comes first. *)
Inductive joint (C : Type) := Turn | One (c : C) | Both (a b : joint C).
Arguments Turn {C}.
Arguments One {C} c.
Arguments Both {C} a b.

(** What comes: the answer of one of the two. *)
Fixpoint answer {C} (E : Type) (R : C -> Type) (j : joint C) : Type :=
  match j with
  | Turn => unit
  | One c => R c
  | Both a b => result E (answer E R a) + result E (answer E R b)
  end.

Section Joins.
Context {S C O E : Type} {R : C -> Type}.
Local Abbreviation M := (prog S C O E R).
Local Abbreviation J := (prog S (joint C) O E (answer E R)).

Definition turn {A} (k : J A) : J A := Await Turn (fun _ => k).

(** A function on its own, its turns made calls. *)
Fixpoint lift {A} (p : M A) : J A :=
  match p with
  | Ret a => Ret a
  | Throw e => Throw e
  | Read k => Read (fun s => lift (k s))
  | Upd f k => Upd f (lift k)
  | Say o k => Say o (lift k)
  | Yield k => turn (lift k)
  | Await c k => Await (One c) (fun r => lift (k r))
  end.

(** Of two suspended functions the one whose answer came goes on; a failure that names none
    is the first one's. *)
Definition pick {A} {a b : joint C} (r : result E (answer E R (Both a b)))
    (k1 : result E (answer E R a) -> A) (k2 : result E (answer E R b) -> A) : A :=
  match r with Ok (inl x) => k1 x | Ok (inr x) => k2 x | Err e => k1 (Err e) end.

(** [m], with [q] going on beside it; whatever [q] comes to is ignored. *)
Fixpoint beside {X} (m : J unit) : J X -> J unit :=
  match m with
  | Ret _ => fun q => continue q (fun _ => Ret tt) (fun _ => Ret tt)
  | Throw e => fun q => continue q (fun _ => Throw e) (fun _ => Throw e)
  | Read k => fun q => Read (fun s => beside (k s) q)
  | Upd f k => fun q => Upd f (beside k q)
  | Say o k => fun q => Say o (beside k q)
  | Yield k => fun q => Yield (beside k q)
  | Await c k =>
    fix go (q : J X) : J unit :=
      match q with
      | Ret _ | Throw _ => m
      | Read kq => Read (fun s => go (kq s))
      | Upd f kq => Upd f (go kq)
      | Say o kq => Say o (go kq)
      | Yield kq => Yield (go kq)
      | Await cq kq => Await (Both c cq) (fun r => pick r (fun x => beside (k x) q) (fun x => go (kq x)))
      end
  end.

(** [Promise.all([p, q]).then(kr, ke)]: both are started, the first up to its first
    suspension first. [kr] runs when both have a value; [ke] as soon as one fails, while the
    other goes on. *)
Fixpoint both {A B} (p : J A) : J B -> (A -> B -> J unit) -> (E -> J unit) -> J unit :=
  match p with
  | Ret a => fun q kr ke => continue q (kr a) ke
  | Throw e => fun q kr ke => beside (ke e) q
  | Read k => fun q kr ke => Read (fun s => both (k s) q kr ke)
  | Upd f k => fun q kr ke => Upd f (both k q kr ke)
  | Say o k => fun q kr ke => Say o (both k q kr ke)
  | Yield k => fun q kr ke => Yield (both k q kr ke)
  | Await c k =>
    fix go (q : J B) (kr : A -> B -> J unit) (ke : E -> J unit) : J unit :=
      match q with
      | Ret b => continue p (fun a => kr a b) ke
      | Throw e => beside (ke e) p
      | Read kq => Read (fun s => go (kq s) kr ke)
      | Upd f kq => Upd f (go kq kr ke)
      | Say o kq => Say o (go kq kr ke)
      | Yield kq => Yield (go kq kr ke)
      | Await cq kq =>
        Await (Both c cq) (fun r => pick r (fun x => both (k x) q kr ke) (fun x => go (kq x) kr ke))
      end
  end.

(** [Promise.all([p, q, r]).then(kr, ke)] *)
Fixpoint all {A B D} (p : J A) :
    J B -> J D -> (A -> B -> D -> J unit) -> (E -> J unit) -> J unit :=
  match p with
  | Ret a => fun q r kr ke => both q r (kr a) ke
  | Throw e => fun q r kr ke => beside (beside (ke e) q) r
  | Read k => fun q r kr ke => Read (fun s => all (k s) q r kr ke)
  | Upd f k => fun q r kr ke => Upd f (all k q r kr ke)
  | Say o k => fun q r kr ke => Say o (all k q r kr ke)
  | Yield k => fun q r kr ke => Yield (all k q r kr ke)
  | Await c k =>
    fix go2 (q : J B) : J D -> (A -> B -> D -> J unit) -> (E -> J unit) -> J unit :=
      match q with
      | Ret b => fun r kr ke => both p r (fun a d => kr a b d) ke
      | Throw e => fun r kr ke => beside (beside (ke e) p) r
      | Read kq => fun r kr ke => Read (fun s => go2 (kq s) r kr ke)
      | Upd f kq => fun r kr ke => Upd f (go2 kq r kr ke)
      | Say o kq => fun r kr ke => Say o (go2 kq r kr ke)
      | Yield kq => fun r kr ke => Yield (go2 kq r kr ke)
      | Await cq kq =>
        fix go3 (r : J D) (kr : A -> B -> D -> J unit) (ke : E -> J unit) : J unit :=
          match r with
          | Ret d => both p q (fun a b => kr a b d) ke
          | Throw e => beside (beside (ke e) p) q
          | Read k3 => Read (fun s => go3 (k3 s) kr ke)
          | Upd f k3 => Upd f (go3 k3 kr ke)
          | Say o k3 => Say o (go3 k3 kr ke)
          | Yield k3 => Yield (go3 k3 kr ke)
          | Await c3 k3 =>
            Await (Both c (Both cq c3)) (fun x =>
              pick x (fun y => all (k y) q r kr ke)
                     (fun y => pick y (fun z => go2 (kq z) r kr ke) (fun z => go3 (k3 z) kr ke)))
          end
      end
  end.

(** ** Properties of the parts that the whole keeps *)

Section Whole.
Context {X : Type} (proj : S -> X).

Lemma preserves_lift {A} (p : M A) : preserves proj p -> preserves proj (lift p).
Proof. induction p; cbn; eauto. intros []. auto. Qed.

(** A property of functions that does not see what leaves [proj] alone. *)
Record indifferent (Q : J unit -> Prop) : Prop := {
  ind_read : forall k, (forall s, Q (k s)) -> Q (Read k);
  ind_upd : forall f k, (forall s, proj (f s) = proj s) -> Q k -> Q (Upd f k);
  ind_say : forall o k, Q k -> Q (Say o k);
  ind_yield : forall k, Q k -> Q (Yield k);
  ind_await : forall c (k : result E (answer E R c) -> J unit), (forall r, Q (k r)) -> Q (Await c k);
  ind_beside : forall Y (m : J unit) (q : J Y), Q m -> preserves proj q -> Q (beside m q)
}.

Context (Q : J unit -> Prop) (HQ : indifferent Q).

Lemma pick_all {a b : joint C} (r : result E (answer E R (Both a b))) k1 k2 :
  (forall x, Q (k1 x)) -> (forall x, Q (k2 x)) -> Q (pick r k1 k2).
Proof. intros H1 H2. destruct r as [[x|x]|e]; cbn; auto. Qed.

Lemma continue_whole {A} (p : J A) kr ke :
  preserves proj p -> (forall a, Q (kr a)) -> (forall e, Q (ke e)) -> Q (continue p kr ke).
Proof.
  intros Hp Hr He. destruct HQ. induction p; cbn in *; eauto. destruct Hp. eauto.
Qed.

Lemma both_whole {A B} (p : J A) (q : J B) kr ke :
  preserves proj p -> preserves proj q -> (forall a b, Q (kr a b)) -> (forall e, Q (ke e)) -> Q (both p q kr ke).
Proof.
  intros Hp Hq Hr He. revert q Hq kr Hr.
  induction p as [a|e|k IH|f k IH|o k IH|k IH|c k IH]; intros q Hq kr Hr; cbn [both].
  - by apply continue_whole.
  - by apply (ind_beside Q HQ).
  - apply (ind_read Q HQ). intros s. by apply IH.
  - destruct Hp. apply (ind_upd Q HQ); [done|]. by apply IH.
  - apply (ind_say Q HQ). by apply IH.
  - apply (ind_yield Q HQ). by apply IH.
  - induction q as [b|e|kq IHq|f kq IHq|o kq IHq|kq IHq|cq kq IHq].
    + by apply (continue_whole (Await c k)).
    + by apply (ind_beside Q HQ).
    + apply (ind_read Q HQ). intros s. by apply IHq.
    + destruct Hq. apply (ind_upd Q HQ); [done|]. by apply IHq.
    + apply (ind_say Q HQ). by apply IHq.
    + apply (ind_yield Q HQ). by apply IHq.
    + apply (ind_await Q HQ). intros r. apply pick_all; intros x; [by apply IH|by apply IHq].
Qed.

Lemma all_whole {A B D} (p : J A) (q : J B) (r : J D) kr ke :
  preserves proj p -> preserves proj q -> preserves proj r ->
  (forall a b d, Q (kr a b d)) -> (forall e, Q (ke e)) -> Q (all p q r kr ke).
Proof.
  intros Hp Hq Hr3 Hr He.
  assert (forall Y Z e (x : J Y) (y : J Z), preserves proj x -> preserves proj y -> Q (beside (beside (ke e) x) y)) as Hb.
  { intros. apply (ind_beside Q HQ); [|done]. by apply (ind_beside Q HQ). }
  revert q Hq r Hr3 kr Hr.
  induction p as [a|e|k IH|f k IH|o k IH|k IH|c k IH]; intros q Hq r Hr3 kr Hr; cbn [all].
  - by apply both_whole.
  - by apply Hb.
  - apply (ind_read Q HQ). intros s. by apply IH.
  - destruct Hp. apply (ind_upd Q HQ); [done|]. by apply IH.
  - apply (ind_say Q HQ). by apply IH.
  - apply (ind_yield Q HQ). by apply IH.
  - revert r Hr3 kr Hr. induction q as [b|e|kq IHq|f kq IHq|o kq IHq|kq IHq|cq kq IHq]; intros r Hr3 kr Hr.
    + by apply (both_whole (Await c k)).
    + by apply Hb.
    + apply (ind_read Q HQ). intros s. by apply IHq.
    + destruct Hq. apply (ind_upd Q HQ); [done|]. by apply IHq.
    + apply (ind_say Q HQ). by apply IHq.
    + apply (ind_yield Q HQ). by apply IHq.
    + induction r as [d|e|k3 IH3|f k3 IH3|o k3 IH3|k3 IH3|c3 k3 IH3].
      * by apply (both_whole (Await c k) (Await cq kq)).
      * by apply Hb.
      * apply (ind_read Q HQ). intros s. by apply IH3.
      * destruct Hr3. apply (ind_upd Q HQ); [done|]. by apply IH3.
      * apply (ind_say Q HQ). by apply IH3.
      * apply (ind_yield Q HQ). by apply IH3.
      * apply (ind_await Q HQ). intros x. apply pick_all; intros y; [by apply IH|].
        apply pick_all; intros z; [by apply IHq|by apply IH3].
Qed.
End Whole.

(** ** Three such properties *)

Lemma maintains_beside {X} (I : S -> Prop) (m : J unit) (q : J X) :
  maintains I m -> maintains I q -> maintains I (beside m q).
Proof.
  intros Hm. revert q. induction m as [a|e|k IH|f k IH|o k IH|k IH|c k IH]; cbn [beside]; intros q Hq.
  1, 2: by apply maintains_continue.
  1-4: cbn in *; try destruct Hm; eauto.
  induction q as [b|e|kq IHq|f kq IHq|o kq IHq|kq IHq|cq kq IHq]; cbn in *; eauto.
  - destruct Hq. eauto.
  - intros [[x|x]|e]; cbn; eauto.
Qed.

(** Two functions side by side owe what either owes. *)
Lemma discharges_upd {A B} (flag : S -> bool) (a b : bool) (f : S -> S) (p : J A) (k : J B) :
  (forall a', discharges flag a' p -> discharges flag (a' || b) k) ->
  discharges flag a (Upd f p) -> discharges flag (a || b) (Upd f k).
Proof.
  cbn. intros Hk [[Hf Hp]|[[Hf Hp]|Hp]]; apply Hk in Hp; cbn in Hp; [destruct b; auto|auto..].
Qed.

Lemma discharges_upd_r {A B} (flag : S -> bool) (a b : bool) (f : S -> S) (p : J A) (k : J B) :
  (forall b', discharges flag b' p -> discharges flag (a || b') k) ->
  discharges flag b (Upd f p) -> discharges flag (a || b) (Upd f k).
Proof.
  cbn. intros Hk [[Hf Hp]|[[Hf Hp]|Hp]]; apply Hk in Hp; cbn in Hp; rewrite ?orb_true_r, ?orb_false_r in *;
    [destruct a; auto|auto..].
Qed.

Lemma discharges_aside {X} (flag : S -> bool) (a b : bool) (m : J unit) (q : J X) :
  discharges flag a m -> discharges flag b q -> discharges flag (a || b) (beside m q).
Proof.
  intros Hm. revert a Hm b q. induction m as [v|e|k IH|f k IH|o k IH|k IH|c k IH]; cbn [beside]; intros a Hm b q Hq.
  - cbn in Hm. subst. by apply discharges_then.
  - cbn in Hm. subst. by apply discharges_then.
  - cbn in *. intros s. by apply IH.
  - eapply discharges_upd; [|exact Hm]. intros a' Ha. by apply IH.
  - cbn in *. by apply IH.
  - cbn in *. by apply IH.
  - revert b Hq. induction q as [v|e|kq IHq|f kq IHq|o kq IHq|kq IHq|cq kq IHq]; intros b Hq.
    1, 2: cbn in Hq; subst; by rewrite orb_false_r.
    + cbn in *. intros s. by apply IHq.
    + eapply discharges_upd_r; [|exact Hq]. intros b' Hb. by apply IHq.
    + cbn in *. by apply IHq.
    + cbn in *. by apply IHq.
    + intros r. unfold pick. destruct r as [[x|x]|e]; [by apply IH|by apply IHq|by apply IH].
Qed.

Lemma discharges_beside {X} (flag : S -> bool) (owes : bool) (m : J unit) (q : J X) :
  discharges flag owes m -> preserves flag q -> discharges flag owes (beside m q).
Proof. intros Hm Hq. rewrite <-(orb_false_r owes). apply discharges_aside; [done|by apply discharges_preserves]. Qed.

Lemma discharges_both {A B} (flag : S -> bool) (a b : bool) (p : J A) (q : J B) (kr : A -> B -> J unit) (ke : E -> J unit) :
  discharges flag a p -> discharges flag b q ->
  (forall x y, discharges flag false (kr x y)) -> (forall e, discharges flag false (ke e)) ->
  discharges flag (a || b) (both p q kr ke).
Proof.
  intros Hp Hq Hr He. revert a Hp b q Hq kr Hr.
  induction p as [v|e|k IH|f k IH|o k IH|k IH|c k IH]; cbn [both]; intros a Hp b q Hq kr Hr.
  - cbn in Hp. subst. by apply discharges_then.
  - cbn in Hp. subst. by apply (discharges_aside flag false).
  - cbn in *. intros s. by apply IH.
  - eapply discharges_upd; [|exact Hp]. intros a' Ha. by apply IH.
  - cbn in *. by apply IH.
  - cbn in *. by apply IH.
  - revert b Hq kr Hr. induction q as [v|e|kq IHq|f kq IHq|o kq IHq|kq IHq|cq kq IHq]; intros b Hq kr Hr.
    + cbn in Hq. subst. rewrite orb_false_r. by apply (discharges_then flag (Await c k)).
    + cbn in Hq. subst. rewrite orb_false_r. rewrite <-(orb_false_l a). by apply (discharges_aside flag false a).
    + cbn in *. intros s. by apply IHq.
    + eapply discharges_upd_r; [|exact Hq]. intros b' Hb. by apply IHq.
    + cbn in *. by apply IHq.
    + cbn in *. by apply IHq.
    + intros r. unfold pick. destruct r as [[x|x]|e]; [by apply IH|by apply IHq|by apply IH].
Qed.

Lemma maintains_both {A B} (I : S -> Prop) (p : J A) (q : J B) (kr : A -> B -> J unit) (ke : E -> J unit) :
  maintains I p -> maintains I q -> (forall x y, maintains I (kr x y)) -> (forall e, maintains I (ke e)) ->
  maintains I (both p q kr ke).
Proof.
  intros Hp Hq Hr He. revert q Hq kr Hr.
  induction p as [v|e|k IH|f k IH|o k IH|k IH|c k IH]; cbn [both]; intros q Hq kr Hr.
  - by apply maintains_continue.
  - apply maintains_beside; [apply He|done].
  - cbn in *. eauto.
  - cbn in *. destruct Hp. eauto.
  - cbn in *. eauto.
  - cbn in *. eauto.
  - revert kr Hr. induction q as [v|e|kq IHq|f kq IHq|o kq IHq|kq IHq|cq kq IHq]; intros kr Hr.
    + by apply (maintains_continue I (Await c k)).
    + apply maintains_beside; [apply He|done].
    + cbn in *. eauto.
    + cbn in *. destruct Hq. eauto.
    + cbn in *. eauto.
    + cbn in *. eauto.
    + intros r. unfold pick. destruct r as [[x|x]|e]; [by apply IH|by apply IHq|by apply IH].
Qed.

Lemma maintains_all {A B D} (I : S -> Prop) (p : J A) (q : J B) (r : J D) (kr : A -> B -> D -> J unit) (ke : E -> J unit) :
  maintains I p -> maintains I q -> maintains I r -> (forall x y z, maintains I (kr x y z)) -> (forall e, maintains I (ke e)) ->
  maintains I (all p q r kr ke).
Proof.
  intros Hp Hq Hr3 Hr He. revert q Hq r Hr3 kr Hr.
  induction p as [v|e|k IH|f k IH|o k IH|k IH|c k IH]; cbn [all]; intros q Hq r Hr3 kr Hr.
  - by apply maintains_both.
  - do 2 (apply maintains_beside; [|done]). apply He.
  - cbn in *. eauto.
  - cbn in *. destruct Hp. eauto.
  - cbn in *. eauto.
  - cbn in *. eauto.
  - revert r Hr3 kr Hr. induction q as [v|e|kq IHq|f kq IHq|o kq IHq|kq IHq|cq kq IHq]; intros r Hr3 kr Hr.
    + by apply (maintains_both I (Await c k)).
    + do 2 (apply maintains_beside; [|done]). apply He.
    + cbn in *. eauto.
    + cbn in *. destruct Hq. eauto.
    + cbn in *. eauto.
    + cbn in *. eauto.
    + revert kr Hr. induction r as [v|e|k3 IH3|f k3 IH3|o k3 IH3|k3 IH3|c3 k3 IH3]; intros kr Hr.
      * by apply (maintains_both I (Await c k) (Await cq kq)).
      * apply maintains_beside; [|exact Hq]. apply maintains_beside; [apply He|exact Hp].
      * cbn in *. eauto.
      * cbn in *. destruct Hr3. eauto.
      * cbn in *. eauto.
      * cbn in *. eauto.
      * intros x. unfold pick. destruct x as [[y|[[z|z]|e]]|e];
          [by apply IH|by apply (IHq z)|by apply IH3|by apply (IHq (Err e))|by apply IH].
Qed.

Lemma discharges_indifferent (flag : S -> bool) (owes : bool) : indifferent flag (discharges flag owes).
Proof. split; cbn; auto. intros. by apply discharges_beside. Qed.

Lemma maintains_indifferent {X} (proj : S -> X) (I : X -> Prop) :
  indifferent proj (maintains (fun s => I (proj s))).
Proof.
  split; cbn; auto.
  - intros f k Hf Hk. split; [intros s; by rewrite Hf|done].
  - intros. apply maintains_beside; [done|]. by apply preserves_maintains.
Qed.

(** ** What holds of a function on its own holds of it among others *)

Lemma discharges_lift (flag : S -> bool) (owes : bool) {A} (p : M A) :
  discharges flag owes p -> discharges flag owes (lift p).
Proof.
  revert owes. induction p as [a|e|k IH|f k IH|o k IH|k IH|c k IH]; cbn; intros owes Hp; eauto.
  destruct Hp as [[? ?]|[[? ?]|?]]; eauto 6.
Qed.

Lemma maintains_lift (I : S -> Prop) {A} (p : M A) : maintains I p -> maintains I (lift p).
Proof. induction p; cbn; eauto. intros []. eauto. Qed.

Lemma ends_lift (n : nat) {A} (p : M A) : ends_within n p -> ends_within n (lift p).
Proof.
  revert n. induction p as [a|e|k IH|f k IH|o k IH|k IH|c k IH]; cbn; intros n Hp; eauto;
    (destruct n; [done|eauto]).
Qed.

Lemma stable_lift {X} (version : S -> Z) (proj : S -> X) (m : Z) {A} (p : M A) (s : S) :
  stable version proj m p s -> stable version proj m (lift p) s.
Proof. revert s. induction p; cbn; intros s0 Hp; eauto. destruct Hp as (? & ? & ?). eauto. Qed.

Definition lift_outcome (o : outcome S C O E R) : outcome S (joint C) O E (answer E R) :=
  match o with
  | Done => Done
  | Failed e => Failed e
  | Paused k => Waiting Turn (fun _ => lift k)
  | Waiting c k => Waiting (One c) (fun r => lift (k r))
  end.

Lemma run_lift (p : M unit) (s s' : S) (os : list O) (o : outcome S C O E R) :
  run p s = (s', os, o) -> run (lift p) s = (s', os, lift_outcome o).
Proof.
  revert s s' os o. induction p as [a|e|k IH|f k IH|x k IH|k IH|c k IH]; cbn; intros s s' os o Hr; try (by simplify_eq); eauto.
  destruct (run k s) as [[s1 os1] o1] eqn:Hk. simplify_eq. by rewrite (IH _ _ _ _ Hk).
Qed.

(** *** Ends of joined functions *)

Lemma ends_beside {X} (m : J unit) (q : J X) (n k : nat) :
  ends_within n m -> ends_within k q -> ends_within (n + k) (beside m q).
Proof.
  intros Hm. revert n Hm k q. induction m as [a|e|km IH|f km IH|o km IH|km IH|c km IH]; cbn [beside]; intros n Hm k q Hq.
  - apply (ends_mono _ (k + 0)); [lia|]. by apply ends_continue.
  - apply (ends_mono _ (k + 0)); [lia|]. by apply ends_continue.
  - cbn in *. intros s. by apply IH.
  - cbn in *. by apply IH.
  - cbn in *. by apply IH.
  - cbn in *. destruct n as [|n]; [done|]. by apply IH.
  - revert k Hq. induction q as [b|e|kq IHq|f kq IHq|o kq IHq|kq IHq|cq kq IHq]; intros k Hq.
    1, 2: eapply (ends_mono (Await c km) n); [lia|exact Hm].
    + cbn in *. intros s. by apply IHq.
    + cbn in *. by apply IHq.
    + cbn in *. by apply IHq.
    + destruct k as [|k]; [done|]. rewrite Nat.add_succ_r. by apply IHq.
    + destruct n as [|n]; [done|]. destruct k as [|k]; [done|]. cbn in Hm, Hq. intros r.
      assert (forall x, ends_within (n + Datatypes.S k) (beside (km x) (Await cq kq))) as H1 by (intros x; by apply IH).
      assert (forall x, ends_within (Datatypes.S n + k)
        ((fix go (q : J X) : J unit :=
            match q with
            | Ret _ | Throw _ => Await c km
            | Read kq => Read (fun s => go (kq s))
            | Upd f kq => Upd f (go kq)
            | Say o kq => Say o (go kq)
            | Yield kq => Yield (go kq)
            | Await cq0 kq0 =>
              Await (Both c cq0) (fun r0 => pick r0 (fun x0 => beside (km x0) q) (fun x0 => go (kq0 x0)))
            end) (kq x))) as H2 by (intros x; by apply IHq).
      destruct r as [[x|x]|e]; [apply H1| |apply H1].
      eapply ends_mono; [|apply H2]. lia.
Qed.

Lemma ends_both {A B} (p : J A) (q : J B) (kr : A -> B -> J unit) (ke : E -> J unit) (n k j : nat) :
  ends_within n p -> ends_within k q -> (forall a b, ends_within j (kr a b)) -> (forall e, ends_within j (ke e)) ->
  ends_within (n + k + j) (both p q kr ke).
Proof.
  intros Hp Hq Hr He.
  assert (forall Y e (x : J Y) i, ends_within i x -> ends_within (i + j) (beside (ke e) x)) as Hb.
  { intros Y e x i Hx. apply (ends_mono _ (j + i)); [lia|]. by apply ends_beside. }
  revert n Hp k q Hq kr Hr.
  induction p as [a|e|kp IH|f kp IH|o kp IH|kp IH|c kp IH]; cbn [both]; intros n Hp k q Hq kr Hr.
  - apply (ends_mono _ (k + j)); [lia|]. by apply ends_continue.
  - apply (ends_mono _ (k + j)); [lia|]. by apply Hb.
  - cbn in *. intros s. by apply IH.
  - cbn in *. by apply IH.
  - cbn in *. by apply IH.
  - cbn in *. destruct n as [|n]; [done|]. by apply IH.
  - revert k Hq kr Hr. induction q as [b|e|kq IHq|f kq IHq|o kq IHq|kq IHq|cq kq IHq]; intros k Hq kr Hr.
    + apply (ends_mono _ (n + j)); [lia|]. by apply (ends_continue (Await c kp)).
    + apply (ends_mono _ (n + j)); [lia|]. by apply Hb.
    + cbn in *. intros s. by apply IHq.
    + cbn in *. by apply IHq.
    + cbn in *. by apply IHq.
    + destruct k as [|k]; [done|]. rewrite Nat.add_succ_r. by apply IHq.
    + destruct n as [|n]; [done|]. destruct k as [|k]; [done|]. cbn in Hp, Hq. intros r.
      unfold pick. destruct r as [[x|x]|e].
      * by apply (IH _ n).
      * eapply ends_mono; [|by apply (IHq x k)]. lia.
      * by apply (IH _ n).
Qed.

Lemma ends_all {A B D} (p : J A) (q : J B) (r : J D) (kr : A -> B -> D -> J unit) (ke : E -> J unit) (n k i j : nat) :
  ends_within n p -> ends_within k q -> ends_within i r ->
  (forall a b d, ends_within j (kr a b d)) -> (forall e, ends_within j (ke e)) ->
  ends_within (n + k + i + j) (all p q r kr ke).
Proof.
  intros Hp Hq Hr3 Hr He.
  assert (forall Y Z e (x : J Y) (y : J Z) a b, ends_within a x -> ends_within b y ->
            ends_within (a + b + j) (beside (beside (ke e) x) y)) as Hb.
  { intros Y Z e x y a b Hx Hy. apply (ends_mono _ (j + a + b)); [lia|]. by do 2 (apply ends_beside; [|done]). }
  revert n Hp k q Hq i r Hr3 kr Hr.
  induction p as [a|e|kp IH|f kp IH|o kp IH|kp IH|c kp IH]; cbn [all]; intros n Hp k q Hq i r Hr3 kr Hr.
  - apply (ends_mono _ (k + i + j)); [lia|]. by apply ends_both.
  - apply (ends_mono _ (k + i + j)); [lia|]. by apply Hb.
  - cbn in *. intros s. by apply IH.
  - cbn in *. by apply IH.
  - cbn in *. by apply IH.
  - cbn in *. destruct n as [|n]; [done|]. by apply IH.
  - revert k Hq i r Hr3 kr Hr. induction q as [b|e|kq IHq|f kq IHq|o kq IHq|kq IHq|cq kq IHq]; intros k Hq i r Hr3 kr Hr.
    + apply (ends_mono _ (n + i + j)); [lia|]. by apply (ends_both (Await c kp)).
    + apply (ends_mono _ (n + i + j)); [lia|]. by apply Hb.
    + cbn in *. intros s. by apply IHq.
    + cbn in *. by apply IHq.
    + cbn in *. by apply IHq.
    + destruct k as [|k]; [done|]. rewrite Nat.add_succ_r. by apply IHq.
    + revert i Hr3 kr Hr. induction r as [d|e|k3 IH3|f k3 IH3|o k3 IH3|k3 IH3|c3 k3 IH3]; intros i Hr3 kr Hr.
      * apply (ends_mono _ (n + k + j)); [lia|]. by apply (ends_both (Await c kp) (Await cq kq)).
      * apply (ends_mono _ (n + k + j)); [lia|]. by apply (Hb _ _ e (Await c kp) (Await cq kq)).
      * cbn in *. intros s. by apply IH3.
      * cbn in *. by apply IH3.
      * cbn in *. by apply IH3.
      * destruct i as [|i]; [done|]. rewrite Nat.add_succ_r. by apply IH3.
      * destruct n as [|n]; [done|]. destruct k as [|k]; [done|]. destruct i as [|i]; [done|]. cbn in Hp, Hq, Hr3.
        intros x. unfold pick. destruct x as [[y|[[z|z]|e]]|e].
        -- by apply (IH _ n).
        -- eapply ends_mono; [|by apply (IHq z k (Hq z) (Datatypes.S i) (Await c3 k3) Hr3)]. lia.
        -- eapply ends_mono; [|by apply (IH3 z i)]. lia.
        -- eapply ends_mono; [|by apply (IHq (Err e) k (Hq (Err e)) (Datatypes.S i) (Await c3 k3) Hr3)]. lia.
        -- by apply (IH _ n).
Qed.

(** *** Writing once *)

Section Once.
Context {X : Type} (proj : S -> X) (open : X -> bool).

(** The function changes [proj] at most once, and then closes it. *)
Fixpoint writes_once {A} (p : J A) : Prop :=
  match p with
  | Ret _ | Throw _ => True
  | Read k => forall s, writes_once (k s)
  | Upd f k => ((forall s, proj (f s) = proj s) /\ writes_once k)
               \/ ((forall s, open (proj (f s)) = false) /\ preserves proj k)
  | Say _ k | Yield k => writes_once k
  | Await _ k => forall r, writes_once (k r)
  end.

Lemma once_preserves {A} (p : J A) : preserves proj p -> writes_once p.
Proof. induction p; cbn; eauto. intros []. eauto. Qed.

Lemma preserves_beside {Y} (m : J unit) (q : J Y) : preserves proj m -> preserves proj q -> preserves proj (beside m q).
Proof.
  intros Hm. revert q. induction m as [a|e|k IH|f k IH|o k IH|k IH|c k IH]; cbn [beside]; intros q Hq.
  1, 2: by apply preserves_continue.
  1-4: cbn in *; try destruct Hm; eauto.
  induction q as [b|e|kq IHq|f kq IHq|o kq IHq|kq IHq|cq kq IHq]; cbn in *; eauto.
  - destruct Hq. eauto.
  - intros [[x|x]|e]; cbn; eauto.
Qed.

Lemma once_beside {Y} (m : J unit) (q : J Y) : writes_once m -> preserves proj q -> writes_once (beside m q).
Proof.
  intros Hm. revert q. induction m as [a|e|k IH|f k IH|o k IH|k IH|c k IH]; cbn [beside]; intros q Hq.
  1, 2: by apply once_preserves, preserves_continue.
  - cbn in *. eauto.
  - cbn in *. destruct Hm as [[? ?]|[? ?]]; eauto using preserves_beside.
  - cbn in *. eauto.
  - cbn in *. eauto.
  - induction q as [b|e|kq IHq|f kq IHq|o kq IHq|kq IHq|cq kq IHq]; cbn in *; eauto.
    + destruct Hq. eauto.
    + intros [[x|x]|e]; cbn; eauto.
Qed.

Lemma once_indifferent : indifferent proj writes_once.
Proof. split; cbn; auto. intros. by apply once_beside. Qed.

Lemma run_once (p : J unit) (s s' : S) (os : list O) (o : outcome S (joint C) O E (answer E R)) :
  writes_once p -> run p s = (s', os, o) ->
  (proj s' = proj s /\ Forall (fun t => match t with TPaused k => writes_once k | TWaiting _ k => forall r, writes_once (k r) end)
                          (suspended o))
  \/ (open (proj s') = false /\ Forall (thread_preserves proj) (suspended o)).
Proof.
  revert s s' os o. induction p as [a|e|k IH|f k IH|m k IH|k IH|c k IH]; cbn; intros s s' os o Hp Hr.
  - simplify_eq. left. by split; [|constructor].
  - simplify_eq. left. by split; [|constructor].
  - by eapply IH.
  - destruct Hp as [[Hf Hk]|[Hf Hk]].
    + rewrite <-(Hf s). by eapply IH.
    + right. destruct (run_preserves _ _ _ _ _ _ Hk Hr) as [-> ?]. by rewrite Hf.
  - destruct (run k s) as [[s1 os1] o1] eqn:Hrun. simplify_eq. by eapply IH.
  - simplify_eq. left. split; [done|]. by apply Forall_cons_2.
  - simplify_eq. left. split; [done|]. by apply Forall_cons_2.
Qed.
End Once.

(** *** A page with one function under way *)

Section Alone.
Context {X : Type} (proj : S -> X) (open : X -> bool).
Local Abbreviation sys := (sys S (joint C) O E (answer E R)).

(** Once closed, the answers still to come change nothing. *)
Definition closed_for_good (y : sys) : Prop :=
  open (proj (st y)) = false /\ Forall (thread_preserves proj) (threads y).

Lemma exec_preserves (p : J unit) (s : S) l os :
  preserves proj p -> Forall (thread_preserves proj) l ->
  proj (st (exec p s l os)) = proj s /\ Forall (thread_preserves proj) (threads (exec p s l os)).
Proof.
  intros Hp Hl. unfold exec. destruct (run p s) as [[s' os'] o] eqn:Hr. cbn.
  destruct (run_preserves _ _ _ _ _ _ Hp Hr) as [-> ?]. split; [done|]. by apply Forall_app_2.
Qed.

Lemma closed_quiet (y y' : sys) :
  closed_for_good y -> rtc quiet y y' -> closed_for_good y' /\ proj (st y') = proj (st y).
Proof.
  intros Hc Hq. induction Hq as [y|y y1 y2 Hq _ IH]; [done|].
  assert (closed_for_good y1 /\ proj (st y1) = proj (st y)) as [Hc1 Heq].
  { assert (forall q l, preserves proj q -> Forall (thread_preserves proj) l ->
              closed_for_good (exec q (st y) l (log y)) /\ proj (st (exec q (st y) l (log y))) = proj (st y)) as Hexec.
    { intros q l Hp Hl. destruct (exec_preserves q (st y) l (log y) Hp Hl) as [Heq Hts].
      split; [|done]. split; [|done]. rewrite Heq. apply Hc. }
    destruct Hc as [_ Ht]. destruct Hq as [y l1 k l2 Hl|y l1 c k l2 r Hl]; rewrite Hl in Ht;
      apply Forall_app in Ht as [H1 [Hk H2]%Forall_cons]; apply Hexec;
      first [by apply Forall_app_2 | exact Hk | apply Hk]. }
  destruct (IH Hc1) as [? ?]. split; [done|]. congruence.
Qed.

(** Started with nothing else under way, a function that writes once leaves the page either as
    it was or closed for good. *)
Lemma alone_quiet (p : J unit) (y0 y : sys) :
  writes_once proj open p -> threads y0 = [] -> rtc quiet (spawn p y0) y ->
  proj (st y) = proj (st y0) \/ closed_for_good y.
Proof.
  intros Hp H0 Hq.
  set (once_thread := fun t : thread S (joint C) O E (answer E R) =>
         match t with TPaused k => writes_once proj open k | TWaiting _ k => forall r, writes_once proj open (k r) end).
  set (I := fun y : sys => (proj (st y) = proj (st y0) /\ (length (threads y) <= 1)%nat /\ Forall once_thread (threads y))
                           \/ closed_for_good y).
  assert (forall q s os, writes_once proj open q -> proj s = proj (st y0) -> I (exec q s [] os)) as Hexec.
  { intros q s os Hw Hs. unfold exec. destruct (run q s) as [[s' os'] o] eqn:Hr.
    destruct (run_once proj open q s s' os' o Hw Hr) as [[Heq Ht]|[Ho Ht]]; [left|right; by split].
    cbn. split; [congruence|]. split; [by destruct o; cbn; lia|exact Ht]. }
  assert (I (spawn p y0)) as HI by (unfold spawn; rewrite H0; by apply Hexec).
  assert (forall y1 y2, I y1 -> quiet y1 y2 -> I y2) as Hstep.
  { intros y1 y2 [(Hs & Hn & Ht)|Hc] Hq1.
    - destruct Hq1 as [y1 l1 k l2 Hl|y1 l1 c k l2 r Hl]; rewrite Hl, length_app in Hn; rewrite Hl in Ht; cbn in Hn;
        (assert (l1 = [] /\ l2 = []) as [-> ->] by (destruct l1, l2; cbn in Hn; (done || lia)));
        apply Forall_cons in Ht as [Hk _]; apply Hexec; first [exact Hs|exact Hk|apply Hk].
    - right. by apply (closed_quiet y1 y2 Hc), rtc_once. }
  clear Hexec H0 Hp. revert HI. induction Hq as [y|y1 y2 y3 Hq1 _ IH]; intros HI; [|by apply IH, (Hstep y1)].
  destruct HI as [(? & _)|?]; [by left|by right].
Qed.
End Alone.
End Joins.
