(* ===== verification/JsErrors.v ===== *)
(** What JavaScript code throws, and property access on values of unknown shape. *)

From S2P Require Import Prelude JsString JsNumber Json.

(** [TApiError] is the dashboard's own subclass of Error, [TError] any other Error,
    [TValue] a thrown value that is not an Error, [TUndefined] the value [undefined]. *)
Inductive thrown : Type :=
| TApiError (status : Z) (message : jsstr)
| TError (message : jsstr)
| TValue (v : json)
| TUndefined.

(** ToBoolean on a JSON value. *)
#[export] Instance truthy_json : Truthy json := fun v =>
  match v with
  | JNull => false
  | JBool b => b
  | JInt z => negb (Z.eqb z 0)
  | JDec _ _ => true
  | JStr s => truthy s
  | JArr _ | JObj _ => true
  end.

(** [v.key] for a key no built-in prototype has: a TypeError on [null] and
    [undefined], [undefined] on what is not an object. *)
Definition prop (v : option json) (k : jsstr) : result thrown (option json) :=
  match v with
  | None | Some JNull => Err (TError (js "Cannot read properties of null or undefined"))
  | Some (JObj l) => Ok (obj_get k l)
  | Some _ => Ok None
  end.

(** A value in a template literal. *)
Definition template (v : option json) : jsstr :=
  match v with Some v => to_String v | None => js "undefined" end.
