(* ===== verification/Session.v ===== *)
(** The dashboard's session in localStorage: web/dashboard/src/api/session.ts. *)

From S2P Require Import Prelude JsString JsNumber Json JsErrors WebPlatform.

Definition SESSION_KEY : jsstr := js "nrynet.session".
Definition LEGACY_SESSION_KEY : jsstr := js "nat-link.session".

(** The stored object of a well-formed session. *)
Record Session := { token : jsstr; tokenType : jsstr }.

Definition session_json (s : Session) : json :=
  JObj [(js "token", JStr (token s)); (js "tokenType", JStr (tokenType s))].

Definition clearSession (st : Storage) : Storage :=
  removeItem (removeItem st SESSION_KEY) LEGACY_SESSION_KEY.

(** The parsed value is cast to [Session] unchecked, so it is any JSON value whose
    [token] is truthy; reading [token] of [null] throws inside the [try]. *)
Definition getSession (st : Storage) : option json * Storage :=
  match js_nullish_opt (getItem st SESSION_KEY) (getItem st LEGACY_SESSION_KEY) with
  | None => (None, st)
  | Some raw =>
    if negb (truthy raw) then (None, st)
    else match parse raw with
         | None => (None, clearSession st)
         | Some session =>
           match prop (Some session) (js "token") with
           | Err _ => (None, clearSession st)
           | Ok tok =>
             let st' :=
               if truthy tok && negb (truthy (getItem st SESSION_KEY))
               then removeItem (setItem st SESSION_KEY raw) LEGACY_SESSION_KEY
               else st in
             (if truthy tok then Some session else None, st')
           end
         end
  end.

Definition saveSession (st : Storage) (tok : option json) (tokType : option json) : Storage :=
  setItem st SESSION_KEY
    (stringify (obj_of [(js "token", tok);
                        (js "tokenType", Some (js_nullish tokType (JStr (js "Bearer"))))])).

(** The header record, and the storage after the lookup. *)
Definition authHeader (st : Storage) : list (jsstr * jsstr) * Storage :=
  let '(session, st') := getSession st in
  (match session with
   | Some s =>
     match prop (Some s) (js "tokenType"), prop (Some s) (js "token") with
     | Ok ty, Ok tok => [(js "Authorization", template ty ++ js " " ++ template tok)]
     | _, _ => []
     end
   | None => []
   end, st').

(** ** Properties *)

Lemma session_keys_differ : SESSION_KEY <> LEGACY_SESSION_KEY.
Proof. vm_compute. discriminate. Qed.

Lemma getItem_set_same (st : Storage) (k v : jsstr) : getItem (setItem st k v) k = Some v.
Proof. apply lookup_insert_eq. Qed.

Lemma clearSession_empty (st : Storage) :
  getItem (clearSession st) SESSION_KEY = None
  /\ getItem (clearSession st) LEGACY_SESSION_KEY = None.
Proof.
  unfold clearSession, getItem, removeItem. split; [|apply lookup_delete_eq].
  rewrite lookup_delete_ne by (apply not_eq_sym, session_keys_differ). apply lookup_delete_eq.
Qed.

Lemma getSession_clear (st : Storage) : getSession (clearSession st) = (None, clearSession st).
Proof. unfold getSession. by destruct (clearSession_empty st) as [-> ->]. Qed.

(** What a stored text gives when it stands under the current key. *)
Lemma getSession_current (st : Storage) (raw : jsstr) (v : json) (tok : option json) :
  getItem st SESSION_KEY = Some raw -> truthy raw = true ->
  parse raw = Some v -> prop (Some v) (js "token") = Ok tok ->
  getSession st = (if truthy tok then Some v else None, st).
Proof.
  intros Hk Hraw Hp Ht. unfold getSession. rewrite Hk.
  cbn [js_nullish_opt]. rewrite Hraw, Hp, Ht, truthy_Some, Hraw. cbn [negb].
  by rewrite andb_false_r.
Qed.

Lemma stringify_truthy (v : json) : wf_json v -> truthy (stringify v) = true.
Proof. intros Hv. by destruct (stringify_head v Hv) as (c & t & -> & _). Qed.

Lemma session_json_wf (s : Session) :
  wf_str (token s) -> wf_str (tokenType s) -> wf_json (session_json s).
Proof.
  intros. cbn. split; [by apply (bool_decide_unpack _)|].
  repeat split; try done; by apply (bool_decide_unpack _).
Qed.

Lemma saveSession_text (st : Storage) (s : Session) :
  saveSession st (Some (JStr (token s))) (Some (JStr (tokenType s)))
  = setItem st SESSION_KEY (stringify (session_json s)).
Proof. done. Qed.

Lemma prop_token (s : Session) :
  prop (Some (session_json s)) (js "token") = Ok (Some (JStr (token s))).
Proof. unfold prop, session_json. by rewrite obj_get_head. Qed.

(** Saving a session and reading it back. *)
Lemma getSession_saved (st : Storage) (s : Session) :
  wf_str (token s) -> wf_str (tokenType s) -> token s <> [] ->
  let st' := saveSession st (Some (JStr (token s))) (Some (JStr (tokenType s))) in
  getSession st' = (Some (session_json s), st').
Proof.
  intros Ht Hty Hne st'. assert (wf_json (session_json s)) by by apply session_json_wf.
  rewrite (getSession_current st' (stringify (session_json s)) (session_json s)
             (Some (JStr (token s)))); auto using stringify_truthy, prop_token, parse_stringify.
  - by destruct (token s).
  - apply getItem_set_same.
Qed.

(** The same text with the session under the retired key. *)
Lemma getSession_legacy (st : Storage) (raw : jsstr) (v : json) (tok : option json) :
  getItem st SESSION_KEY = None -> getItem st LEGACY_SESSION_KEY = Some raw ->
  truthy raw = true -> parse raw = Some v -> prop (Some v) (js "token") = Ok tok ->
  getSession st
  = if truthy tok
    then (Some v, removeItem (setItem st SESSION_KEY raw) LEGACY_SESSION_KEY)
    else (None, st).
Proof.
  intros Hk Hl Hraw Hp Ht. unfold getSession. rewrite Hk, Hl.
  cbn [js_nullish_opt]. rewrite Hraw, Hp, Ht. cbn.
  by destruct (truthy tok).
Qed.

Lemma migrated_items (st : Storage) (raw : jsstr) :
  let st' := removeItem (setItem st SESSION_KEY raw) LEGACY_SESSION_KEY in
  getItem st' SESSION_KEY = Some raw /\ getItem st' LEGACY_SESSION_KEY = None.
Proof.
  cbn. unfold getItem, setItem, removeItem. split; [|apply lookup_delete_eq].
  rewrite lookup_delete_ne by (apply not_eq_sym, session_keys_differ). apply lookup_insert_eq.
Qed.

(** *** Theorems *)

(** C8: A session that was saved is the one read back, whatever the storage held
    before, and it gives the header [Authorization: <type> <token>]; the lookup
    changes nothing. *)
Theorem session_round_trip (st : Storage) (s : Session) :
  wf_str (token s) -> wf_str (tokenType s) -> token s <> [] ->
  let st' := saveSession st (Some (JStr (token s))) (Some (JStr (tokenType s))) in
  getSession st' = (Some (session_json s), st')
  /\ authHeader st'
     = ([(js "Authorization", tokenType s ++ js " " ++ token s)], st').
Proof.
  intros Ht Hty Hne st'. pose proof (getSession_saved st s Ht Hty Hne) as Hg.
  split; [exact Hg|]. unfold authHeader. subst st'. by rewrite Hg.
Qed.

Lemma session_round_trip_witness :
  let st' := saveSession empty_storage (Some (JStr (js "jwt"))) (Some (JStr (js "Bearer"))) in
  authHeader st' = ([(js "Authorization", js "Bearer jwt")], st').
Proof.
  apply (session_round_trip empty_storage {| token := js "jwt"; tokenType := js "Bearer" |});
    [by apply (bool_decide_unpack _)..|done].
Defined.

(** C14: A session stored by an older version under the retired key is adopted: it is
    returned, its text moves unchanged to the current key, the retired key goes
    away, and every later lookup finds it there. *)
Theorem session_migration (st : Storage) (s : Session) :
  wf_str (token s) -> wf_str (tokenType s) -> token s <> [] ->
  getItem st SESSION_KEY = None ->
  getItem st LEGACY_SESSION_KEY = Some (stringify (session_json s)) ->
  let st' := snd (getSession st) in
  fst (getSession st) = Some (session_json s)
  /\ getItem st' SESSION_KEY = Some (stringify (session_json s))
  /\ getItem st' LEGACY_SESSION_KEY = None
  /\ (forall k, k <> SESSION_KEY -> k <> LEGACY_SESSION_KEY -> getItem st' k = getItem st k)
  /\ getSession st' = (Some (session_json s), st').
Proof.
  intros Ht Hty Hne Hk Hl st'. assert (wf_json (session_json s)) as Hwf by by apply session_json_wf.
  assert (truthy (Some (JStr (token s))) = true) as Htok by by destruct (token s).
  pose proof (getSession_legacy st _ (session_json s) (Some (JStr (token s))) Hk Hl
                (stringify_truthy _ Hwf) (parse_stringify _ Hwf) (prop_token s)) as Hg.
  rewrite Htok in Hg. subst st'. rewrite Hg. cbn [fst snd].
  destruct (migrated_items st (stringify (session_json s))) as [Hk' Hl'].
  split; [done|]. split; [exact Hk'|]. split; [exact Hl'|]. split.
  - intros k H1 H2. unfold getItem, setItem, removeItem.
    by rewrite lookup_delete_ne, lookup_insert_ne.
  - rewrite (getSession_current _ _ _ _ Hk' (stringify_truthy _ Hwf) (parse_stringify _ Hwf) (prop_token s)).
    by rewrite Htok.
Qed.

Lemma session_migration_witness :
  let s := {| token := js "legacy"; tokenType := js "Bearer" |} in
  let st := setItem empty_storage LEGACY_SESSION_KEY (stringify (session_json s)) in
  getItem (snd (getSession st)) SESSION_KEY = Some (stringify (session_json s)).
Proof.
  set (s := {| token := js "legacy"; tokenType := js "Bearer" |}).
  apply (session_migration (setItem empty_storage LEGACY_SESSION_KEY (stringify (session_json s))) s);
    [by apply (bool_decide_unpack _)|by apply (bool_decide_unpack _)|done|by_evaluation|by_evaluation].
Defined.

(** Looking the session up is stable: whatever is stored, well formed or not, a
    second lookup gives the same answer and leaves the storage as the first did. *)
Theorem session_lookup_stable (st : Storage) :
  getSession (snd (getSession st)) = (fst (getSession st), snd (getSession st)).
Proof.
  destruct (js_nullish_opt (getItem st SESSION_KEY) (getItem st LEGACY_SESSION_KEY))
    as [raw|] eqn:Hraw.
  2: { assert (getSession st = (None, st)) as Hg by (unfold getSession; by rewrite Hraw).
       by rewrite Hg. }
  destruct (truthy raw) eqn:Htr.
  2: { assert (getSession st = (None, st)) as Hg
         by (unfold getSession; by rewrite Hraw, Htr).
       by rewrite Hg. }
  assert (getSession st = (None, clearSession st)
          \/ exists v tok, parse raw = Some v /\ prop (Some v) (js "token") = Ok tok) as [Hg|Hg].
  { unfold getSession. rewrite Hraw, Htr. cbn [negb].
    destruct (parse raw) as [v|]; [|by left].
    destruct (prop (Some v) (js "token")) as [tok|] eqn:Ht; [right; eauto|by left]. }
  { rewrite Hg. apply getSession_clear. }
  destruct Hg as (v & tok & Hp & Ht).
  destruct (getItem st SESSION_KEY) as [raw'|] eqn:Hk; cbn [js_nullish_opt] in Hraw; simplify_eq.
  - rewrite (getSession_current st raw v tok) by done. cbn [fst snd].
    by apply (getSession_current st raw v tok).
  - rewrite (getSession_legacy st raw v tok) by done. destruct (truthy tok) eqn:Htok; cbn [fst snd].
    + destruct (migrated_items st raw) as [Hk' _].
      rewrite (getSession_current _ raw v tok) by done. by rewrite Htok.
    + rewrite (getSession_legacy st raw v tok) by done. by rewrite Htok.
Qed.

(** Text that is not JSON, or the JSON text [null], is treated as corrupt:
    nobody is signed in and both keys are gone afterwards, other items untouched. *)
Theorem session_corrupt_cleared (st : Storage) (raw : jsstr) :
  js_nullish_opt (getItem st SESSION_KEY) (getItem st LEGACY_SESSION_KEY) = Some raw ->
  raw <> [] -> parse raw = None \/ parse raw = Some JNull ->
  let st' := snd (getSession st) in
  fst (getSession st) = None /\ getItem st' SESSION_KEY = None /\ getItem st' LEGACY_SESSION_KEY = None
  /\ (forall k, k <> SESSION_KEY -> k <> LEGACY_SESSION_KEY -> getItem st' k = getItem st k).
Proof.
  intros Hraw Hne Hp. cbn zeta. assert (getSession st = (None, clearSession st)) as ->.
  { unfold getSession. rewrite Hraw. destruct raw; [done|]. by destruct Hp as [-> | ->]. }
  destruct (clearSession_empty st) as [H1 H2]. repeat split; try done.
  intros k Hk1 Hk2. cbn [snd]. unfold getItem, clearSession, removeItem.
  by rewrite !lookup_delete_ne.
Qed.

Lemma session_corrupt_cleared_witness :
  let st := setItem empty_storage SESSION_KEY (js "{bad") in fst (getSession st) = None.
Proof.
  apply (session_corrupt_cleared (setItem empty_storage SESSION_KEY (js "{bad")) (js "{bad"));
    [by_evaluation|done|left; by_evaluation].
Defined.
