(* ===== verification/ApiClient.v ===== *)
(** The dashboard's HTTP client: web/dashboard/src/api/client.ts. *)

From S2P Require Import Prelude JsString JsNumber Json JsErrors WebPlatform Async Session.

#[local] Open Scope prog_scope.

(** ** Error texts *)

(** [/[\u4e00-\u9fff]/.test(value)] *)
Definition hasChinese (value : jsstr) : bool := has_unit_in 19968 40959 value.

Definition mappedErrorMessage (message : jsstr) : jsstr :=
  let normalized := toLowerCase message in
  let inc s := includes s normalized in
  if negb (truthy normalized) then js ""
  else if inc (js "unauthorized") || inc (js "unauthenticated") then js "未授权，请重新登录"
  else if inc (js "forbidden") || inc (js "permission denied") then js "无权访问该资源"
  else if inc (js "not found") then js "资源不存在"
  else if inc (js "internal server error") then js "服务器内部错误"
  else if inc (js "bad request") || inc (js "invalid request") then js "请求参数无效"
  else if inc (js "invalid credentials") || inc (js "invalid username") || inc (js "invalid password")
  then js "用户名或密码错误"
  else if inc (js "plain_listen") && inc (js "plain_data_listen") && inc (js "required")
  then js "请先配置明文 WS 控制端口和数据端口"
  else if inc (js "certbot") && inc (js "not found") then js "服务器未安装 Certbot，请先安装后再申请证书"
  else if inc (js "base_domain") && inc (js "required") then js "请输入隧道根域名"
  else if inc (js "could not allocate") && inc (js "subdomain")
  then js "自动子域名已被占用，请更换隧道名称或手动填写域名"
  else if inc (js "fully qualified") || inc (js "invalid label") then js "域名格式不正确，请填写完整公网域名"
  else if inc (js "domain") && inc (js "required") then js "请输入要绑定的域名"
  else if inc (js "wildcard") then js "请确认通配符 DNS 已配置为指向服务器"
  else if inc (js "email") && inc (js "required") then js "请输入用于证书通知的邮箱"
  else if inc (js "dns") then js "域名解析未生效，请确认 DNS 已指向当前服务器"
  else if inc (js "port 80") || inc (js "tcp/80") then js "证书申请需要公网 TCP 80 端口可访问"
  else if inc (js "certificate") || inc (js "letsencrypt")
  then js "证书申请失败，请检查域名解析、80 端口和 Certbot 配置"
  else if inc (js "setting value must be a boolean") then js "设置值必须为开启或关闭"
  else if inc (js "token expired") || inc (js "expired token") then js "登录已过期，请重新登录"
  else if inc (js "network error") || inc (js "failed to fetch") then js "网络连接失败"
  else js "".

Definition localizedErrorMessage (message fallback : jsstr) : jsstr :=
  if hasChinese message then message
  else let mapped := js_or (mappedErrorMessage message) (mappedErrorMessage fallback) in
       js_or mapped (js "请求失败，请稍后重试").

Definition fallbackErrorMessage (fallback : jsstr) : jsstr := localizedErrorMessage fallback (js "").

(** [payload && typeof payload === "object" && "error" in payload] holds of the
    objects that have the member; no array has it. *)
Definition errorMessage (payload : json) (fallback : jsstr) : jsstr :=
  match payload with
  | JObj l => match obj_get (js "error") l with
              | Some e => localizedErrorMessage (to_String e) fallback
              | None => fallbackErrorMessage fallback
              end
  | _ => fallbackErrorMessage fallback
  end.

(** ** Requests *)

(** The members of RequestInit the callers set. *)
Record RequestInit := { method : option jsstr; body : option jsstr; headers : list (jsstr * jsstr) }.

Definition no_options : RequestInit := {| method := None; body := None; headers := [] |}.

(** What [fetch] is given: the options with the headers replaced. *)
Record FetchInit := { fetch_method : option jsstr; fetch_body : option jsstr; fetch_headers : Headers }.

(** Status line of a response; its body is read by a call of its own. *)
Record Response := { status : Z; statusText : jsstr }.

Definition ok (r : Response) : bool := (200 <=? status r)%Z && (status r <=? 299)%Z.

Inductive api_call :=
| Fetch (path : jsstr) (init : FetchInit)
| ReadText (r : Response)
| ReadBlob (r : Response).

Definition api_result (c : api_call) : Type :=
  match c with Fetch _ _ => Response | ReadText _ => jsstr | ReadBlob _ => unit end.

(** What the user sees happen: a file the browser saves, a notice at the top of the
    page, a dialog that asks for confirmation. *)
Inductive notice := Success | Failure | Warning | Info.
Inductive ui_effect :=
| Download (filename : jsstr)
| Message (kind : notice) (content : jsstr)
| Confirm (title : jsstr).

(** What the client needs of the page it runs in: its localStorage, and what the
    listeners of [nrynet:unauthorized] do when the event is dispatched. *)
Class Window (S : Type) := {
  storage : S -> Storage;
  set_storage : Storage -> S -> S;
  on_unauthorized : S -> S;
  storage_set : forall m s, storage (set_storage m s) = m;
  storage_on_unauthorized : forall s, storage (on_unauthorized s) = storage s
}.

(** The body as [readPayload] understands it. *)
Definition payload_of_text (text : jsstr) : json :=
  if negb (truthy text) then JObj []
  else match parse text with
       | Some v => v
       | None => JObj [(js "error", JStr text)]
       end.

Section Client.
Context {S : Type} `{Window S}.
Local Abbreviation M := (prog S api_call ui_effect thrown api_result).

Definition or_throw {A} (o : option A) (message : jsstr) : M A :=
  match o with Some a => Ret a | None => Throw (TError message) end.

(** [headers.set(...)] for each entry in turn. *)
Fixpoint set_all (h : Headers) (entries : list (jsstr * jsstr)) : M Headers :=
  match entries with
  | [] => Ret h
  | (n, v) :: rest =>
    let* h' := or_throw (headers_set h n v) (js "invalid header value") in set_all h' rest
  end.

Definition read_auth : M (list (jsstr * jsstr)) :=
  Read (fun s => let '(entries, st') := authHeader (storage s) in
                 Upd (set_storage st') (Ret entries)).

Definition requestHeaders (options : RequestInit) : M Headers :=
  let* h0 := set_all (∅ : Headers) (headers options) in
  let* h1 := set_all h0 [(js "Accept", js "application/json")] in
  let* h2 := if truthy (body options) && negb (headers_has h1 (js "Content-Type"))
             then set_all h1 [(js "Content-Type", js "application/json")]
             else Ret h1 in
  let* entries := read_auth in
  set_all h2 entries.

Definition signed_out (s : S) : S := on_unauthorized (set_storage (clearSession (storage s)) s).

Definition handleUnauthorized (response : Response) : M unit :=
  modify (fun s => if (status response =? 401)%Z then signed_out s else s).

Definition readPayload (response : Response) : M json :=
  let* text := call (ReadText response) in Ret (payload_of_text text).

(** [undefined] is [None]. *)
Definition request (path : jsstr) (options : RequestInit) : M (option json) :=
  let* h := requestHeaders options in
  let* response := call (Fetch path {| fetch_method := method options;
                                       fetch_body := body options; fetch_headers := h |}) in
  handleUnauthorized response ;;;
  if (status response =? 204)%Z then Ret None
  else let* payload := await_fn (readPayload response) in
       if negb (ok response)
       then Throw (TApiError (status response) (errorMessage payload (statusText response)))
       else Ret (Some payload).

(** [.then((payload) => payload.key)] *)
Definition then_prop (p : M (option json)) (k : jsstr) : M (option json) :=
  let* payload := await_fn p in
  match prop payload k with Ok v => Ret v | Err e => Throw e end.

Definition items (p : M (option json)) : M (option json) := then_prop p (js "items").

Definition send (m : jsstr) (b : option json) : RequestInit :=
  {| method := Some m; body := stringify <$> b; headers := [] |}.

(** *** The endpoints *)

Definition login (username password : jsstr) : M unit :=
  let* res := await_fn (request (js "/api/auth/login")
    (send (js "POST") (Some (obj_of [(js "username", Some (JStr username));
                                     (js "password", Some (JStr password))])))) in
  match prop res (js "token"), prop res (js "token_type") with
  | Ok tok, Ok ty =>
    modify (fun s => set_storage (saveSession (storage s) tok
                                    (Some (ty ||| JStr (js "Bearer"))%js)) s)
  | Err e, _ | _, Err e => Throw e
  end.

Definition me := request (js "/api/auth/me") no_options.
Definition changePassword (currentPassword newPassword : jsstr) :=
  request (js "/api/auth/password")
    (send (js "POST") (Some (obj_of [(js "current_password", Some (JStr currentPassword));
                                     (js "new_password", Some (JStr newPassword))]))).
Definition overview := request (js "/api/overview") no_options.
Definition listTokens := items (request (js "/api/tokens") no_options).
Definition createToken (name : jsstr) :=
  request (js "/api/tokens") (send (js "POST") (Some (obj_of [(js "name", Some (JStr name))]))).
Definition setTokenDisabled (id : jsstr) (disabled : bool) :=
  request (js "/api/tokens/" ++ id)
    (send (js "PATCH") (Some (obj_of [(js "disabled", Some (JBool disabled))]))).
Definition deleteToken (id : jsstr) := request (js "/api/tokens/" ++ id) (send (js "DELETE") None).
Definition listClients := items (request (js "/api/clients") no_options).
Definition getClient (id : jsstr) := request (js "/api/clients/" ++ id) no_options.
Definition updateClient (id : jsstr) (b : list (jsstr * option json)) :=
  request (js "/api/clients/" ++ id) (send (js "PATCH") (Some (obj_of b))).
Definition deleteClient (id : jsstr) := request (js "/api/clients/" ++ id) (send (js "DELETE") None).
Definition resetClientToken (id : jsstr) :=
  request (js "/api/clients/" ++ id ++ js "/reset-token") (send (js "POST") None).
Definition listTunnels := items (request (js "/api/tunnels") no_options).
Definition createTunnel (b : list (jsstr * option json)) :=
  request (js "/api/tunnels") (send (js "POST") (Some (obj_of b))).
Definition updateTunnel (id : jsstr) (b : list (jsstr * option json)) :=
  request (js "/api/tunnels/" ++ id) (send (js "PUT") (Some (obj_of b))).
Definition deleteTunnel (id : jsstr) := request (js "/api/tunnels/" ++ id) (send (js "DELETE") None).
Definition startTunnel (id : jsstr) :=
  request (js "/api/tunnels/" ++ id ++ js "/start") (send (js "POST") None).
Definition stopTunnel (id : jsstr) :=
  request (js "/api/tunnels/" ++ id ++ js "/stop") (send (js "POST") None).
Definition traffic (range : jsstr) :=
  request (js "/api/traffic/summary?range=" ++ range) no_options.

Record log_filter := { keyword : option jsstr; level : option jsstr;
                       page : option Z; limit : option Z }.

Definition set_if (q : SearchParams) (name : jsstr) (v : option jsstr) : SearchParams :=
  match v with
  | Some v => if truthy v then params_set q name v else q
  | None => q
  end.

Definition logs_query (filter : log_filter) : SearchParams :=
  let q := set_if [] (js "keyword") (keyword filter) in
  let q := set_if q (js "level") (level filter) in
  let q := params_set q (js "page") (int_to_string (js_nullish (page filter) 1%Z)) in
  params_set q (js "limit") (int_to_string (js_nullish (limit filter) 100%Z)).

Definition logs (filter : log_filter) :=
  request (js "/api/logs?" ++ params_toString (logs_query filter)) no_options.
Definition clearLogs := request (js "/api/logs") (send (js "DELETE") None).

Definition downloadLogs (kw lvl : option jsstr) : M unit :=
  let q := set_if (set_if [] (js "keyword") kw) (js "level") lvl in
  let* h := requestHeaders no_options in
  let* response := call (Fetch (js "/api/logs/download?" ++ params_toString q)
                           {| fetch_method := None; fetch_body := None; fetch_headers := h |}) in
  handleUnauthorized response ;;;
  if negb (ok response)
  then let* payload := await_fn (readPayload response) in
       Throw (TApiError (status response) (errorMessage payload (statusText response)))
  else (let* _ := call (ReadBlob response) in say (Download (js "nrynet-logs.jsonl"))).

Definition settings := items (request (js "/api/settings") no_options).
Definition updateSetting (key : jsstr) (value : json) : M (option json) :=
  let* k := or_throw (encodeURIComponent key) (js "URI malformed") in
  request (js "/api/settings/" ++ k)
    (send (js "PATCH") (Some (obj_of [(js "value", Some value)]))).
Definition transport := request (js "/api/transport") no_options.
Definition requestCertificate (domain email : jsstr) :=
  request (js "/api/transport/certificates")
    (send (js "POST") (Some (obj_of [(js "domain", Some (JStr domain));
                                     (js "email", Some (JStr email))]))).
Definition setTransportTLS (enabled : bool) :=
  request (js "/api/transport/tls")
    (send (js "PATCH") (Some (obj_of [(js "enabled", Some (JBool enabled))]))).
Definition setTransportPlain (enabled : bool) :=
  request (js "/api/transport/plain")
    (send (js "PATCH") (Some (obj_of [(js "enabled", Some (JBool enabled))]))).
Definition setAutoSubdomain (enabled : bool) (baseDomain : jsstr) :=
  request (js "/api/transport/auto-subdomain")
    (send (js "PATCH") (Some (obj_of [(js "enabled", Some (JBool enabled));
                                      (js "base_domain", Some (JStr baseDomain))]))).
Definition relays := then_prop (request (js "/api/v2/relays") no_options) (js "nodes").
Definition relayAssignments :=
  then_prop (request (js "/api/v2/relays/assignments") no_options) (js "assignments").
End Client.

(** ** Properties *)

(** *** Texts *)

Lemma mappedErrorMessage_localized (m : jsstr) :
  mappedErrorMessage m = [] \/ hasChinese (mappedErrorMessage m) = true.
Proof. unfold mappedErrorMessage. repeat case_match; (left; by_evaluation) || (right; by_evaluation). Qed.

Lemma js_or_localized (a b : jsstr) :
  a = [] \/ hasChinese a = true -> b = [] \/ hasChinese b = true ->
  js_or a b = [] \/ hasChinese (js_or a b) = true.
Proof. unfold js_or. intros. by destruct (truthy a). Qed.

Lemma localizedErrorMessage_chinese (m f : jsstr) : hasChinese (localizedErrorMessage m f) = true.
Proof.
  unfold localizedErrorMessage. destruct (hasChinese m) eqn:Hm; [done|].
  pose proof (js_or_localized _ _ (mappedErrorMessage_localized m) (mappedErrorMessage_localized f))
    as Hmap.
  destruct (js_or (mappedErrorMessage m) (mappedErrorMessage f)) as [|c t]; [by_evaluation|].
  by destruct Hmap.
Qed.

Lemma errorMessage_chinese (payload : json) (fallback : jsstr) :
  hasChinese (errorMessage payload fallback) = true.
Proof.
  unfold errorMessage, fallbackErrorMessage.
  destruct payload; try apply localizedErrorMessage_chinese.
  destruct (obj_get _ l); apply localizedErrorMessage_chinese.
Qed.

(** Whatever the server answered - any payload, any status text - the message the
    user is shown contains Chinese text: an English error never reaches the page
    untranslated. *)
Theorem error_message_localized (payload : json) (fallback : jsstr) :
  hasChinese (errorMessage payload fallback) = true.
Proof. apply errorMessage_chinese. Qed.

(** The rule for a missing Certbot can never apply: every text that mentions both
    [certbot] and [not found] is caught by the earlier [not found] rule, so no message
    maps to the Certbot hint. *)
Theorem certbot_rule_unreachable (message : jsstr) :
  mappedErrorMessage message <> js "服务器未安装 Certbot，请先安装后再申请证书"
  /\ (includes (js "certbot") (toLowerCase message) = true ->
      includes (js "not found") (toLowerCase message) = true ->
      includes (js "unauthorized") (toLowerCase message) = false ->
      includes (js "unauthenticated") (toLowerCase message) = false ->
      includes (js "forbidden") (toLowerCase message) = false ->
      includes (js "permission denied") (toLowerCase message) = false ->
      mappedErrorMessage message = js "资源不存在").
Proof.
  split.
  - unfold mappedErrorMessage. repeat case_match; try (vm_compute; discriminate).
    split_bools. congruence.
  - intros _ Hnf H1 H2 H3 H4. unfold mappedErrorMessage. rewrite H1, H2, H3, H4, Hnf.
    cbn [orb]. destruct (toLowerCase message); [done|]. done.
Qed.

Lemma certbot_rule_unreachable_witness :
  mappedErrorMessage (js "Certbot executable not found") = js "资源不存在".
Proof. apply (certbot_rule_unreachable (js "Certbot executable not found")); by_evaluation. Defined.

(** *** Requests *)

Section RequestProperties.
Context {S : Type} `{Window S}.
Local Abbreviation M := (prog S api_call ui_effect thrown api_result).
Local Abbreviation trace := (list (happening api_call ui_effect thrown api_result)).

Lemma or_throw_synchronous {A} (o : option A) (m : jsstr) : synchronous (or_throw o m : M A).
Proof. by destruct o. Qed.

Lemma set_all_synchronous (h : Headers) (l : list (jsstr * jsstr)) :
  synchronous (set_all h l : M Headers).
Proof.
  revert h. induction l as [|[n v] l IH]; intros h; [done|].
  apply synchronous_bind; auto using or_throw_synchronous.
Qed.

Lemma requestHeaders_synchronous (o : RequestInit) : synchronous (requestHeaders o : M Headers).
Proof.
  unfold requestHeaders.
  apply synchronous_bind; [apply set_all_synchronous|intros h0].
  apply synchronous_bind; [apply set_all_synchronous|intros h1].
  apply synchronous_bind; [case_match; [apply set_all_synchronous|done]|intros h2].
  apply synchronous_bind; [|intros entries; apply set_all_synchronous].
  cbn. intros s. by destruct (authHeader (storage s)).
Qed.

Lemma set_all_get (h h' : Headers) (l : list (jsstr * jsstr)) (s s' : S) (tr : trace) (k : jsstr) :
  evaluates (set_all h l : M Headers) s tr (Ok h') s' ->
  s' = s /\
  h' !! k = match List.find (fun nv => str_eqb (toLowerCase (fst nv)) k) (rev l) with
            | Some nv => Some (normalize_value (snd nv))
            | None => h !! k
            end.
Proof.
  revert h tr. induction l as [|[n v] l IH]; intros h tr; cbn [set_all].
  - cbn. intros (_ & [= ->] & ->). done.
  - intros Hev. apply evaluates_bind in Hev
      as (tr1 & tr2 & s1 & _ & [(h1 & Hh & Hev)|(e & _ & _ & ? & _)]); [|done].
    unfold headers_set in Hh.
    destruct (valid_value (normalize_value v)); cbn in Hh;
      [|by destruct Hh as (_ & ? & _)].
    destruct Hh as (_ & [= ->] & ->). apply IH in Hev as [-> ->]. split; [done|].
    cbn [rev]. rewrite find_app_singleton. cbn [fst snd].
    destruct (List.find _ (rev l)); [done|]. unfold str_eqb.
    destruct (bool_decide_reflect (toLowerCase n = k)) as [<-|Hne].
    + apply lookup_insert_eq.
    + by apply lookup_insert_ne.
Qed.

(** Evaluate the comparisons of header names in the goal. *)
Ltac eval_names :=
  repeat match goal with
         | |- context [str_eqb (toLowerCase (js ?a)) (js ?b)] =>
           let v := eval vm_compute in (str_eqb (toLowerCase (js a)) (js b)) in
           change (str_eqb (toLowerCase (js a)) (js b)) with v
         end; cbv iota.

Lemma set_one_get (h h' : Headers) (n v : jsstr) (s s' : S) (tr : trace) :
  evaluates (set_all h [(n, v)] : M Headers) s tr (Ok h') s' ->
  s' = s /\ forall k, h' !! k = if str_eqb (toLowerCase n) k then Some (normalize_value v) else h !! k.
Proof.
  intros Hev. split; [by destruct (set_all_get _ _ _ _ _ _ [] Hev)|]. intros k.
  destruct (set_all_get _ _ _ _ _ _ k Hev) as [_ ->]. cbn [rev app List.find fst snd].
  by destruct (str_eqb (toLowerCase n) k).
Qed.

Lemma read_auth_evaluates (s s' : S) (tr : trace) (r : result thrown (list (jsstr * jsstr))) :
  evaluates (read_auth : M _) s tr r s' ->
  r = Ok (fst (authHeader (storage s))) /\ s' = set_storage (snd (authHeader (storage s))) s.
Proof. cbn. destruct (authHeader (storage s)) as [e m]. by intros (_ & -> & ->). Qed.

Lemma authHeader_shape (m : Storage) :
  fst (authHeader m) = [] \/ exists v, fst (authHeader m) = [(js "Authorization", v)].
Proof.
  unfold authHeader. destruct (getSession m) as [[s|] m']; cbn [fst]; [|by left].
  destruct (prop (Some s) (js "tokenType")); [|by left].
  destruct (prop (Some s) (js "token")); [right; eauto|by left].
Qed.

Lemma content_type_step (o : RequestInit) (h1 h2 : Headers) (s s1 : S) (tr : trace) :
  evaluates (if truthy (body o) && negb (headers_has h1 (js "Content-Type"))
             then set_all h1 [(js "Content-Type", js "application/json")]
             else Ret h1 : M Headers) s tr (Ok h2) s1 ->
  h1 !! js "content-type" = None ->
  s1 = s /\ h2 !! js "content-type" = (if truthy (body o) then Some (js "application/json") else None)
  /\ forall k, k <> js "content-type" -> h2 !! k = h1 !! k.
Proof.
  intros Hev Hct.
  assert (headers_has h1 (js "Content-Type") = false) as Hhas.
  { unfold headers_has. change (toLowerCase (js "Content-Type")) with (js "content-type").
    by rewrite Hct. }
  rewrite Hhas, andb_true_r in Hev. destruct (truthy (body o)).
  - apply set_one_get in Hev as [-> Hget]. split; [done|]. split.
    + rewrite Hget. by_evaluation.
    + intros k Hk. rewrite Hget. change (toLowerCase (js "Content-Type")) with (js "content-type").
      unfold str_eqb. by rewrite bool_decide_eq_false_2.
  - cbn in Hev. destruct Hev as (_ & [= ->] & ->). done.
Qed.

(** Every request carries [Accept: application/json], a JSON content type exactly
    when it has a body, and the session's credentials exactly when somebody is signed
    in; building the headers changes nothing but what the session lookup does. *)
Theorem request_headers_spec (o : RequestInit) (s s' : S) (tr : trace) (h : Headers) :
  headers o = [] ->
  evaluates (requestHeaders o : M Headers) s tr (Ok h) s' ->
  tr = []
  /\ headers_get h (js "Accept") = Some (js "application/json")
  /\ headers_get h (js "Content-Type")
     = (if truthy (body o) then Some (js "application/json") else None)
  /\ headers_get h (js "Authorization")
     = match fst (authHeader (storage s)) with
       | (_, v) :: _ => Some (normalize_value v)
       | [] => None
       end
  /\ s' = set_storage (snd (authHeader (storage s))) s.
Proof.
  intros Ho Hev. split; [by eapply synchronous_trace; [apply requestHeaders_synchronous|]|].
  unfold requestHeaders in Hev. rewrite Ho in Hev.
  apply evaluates_bind in Hev as (? & ? & ? & _ & [(h0 & Hh0 & Hev)|(? & _ & _ & ? & _)]); [|done].
  destruct Hh0 as (_ & [= ->] & ->).
  apply evaluates_bind in Hev as (? & ? & ? & _ & [(h1 & Hh1 & Hev)|(? & _ & _ & ? & _)]); [|done].
  apply set_one_get in Hh1 as [-> Hh1].
  apply evaluates_bind in Hev as (? & ? & ? & _ & [(h2 & Hh2 & Hev)|(? & _ & _ & ? & _)]); [|done].
  apply content_type_step in Hh2 as (-> & Hct & Hh2).
  2: { rewrite Hh1. by_evaluation. }
  apply evaluates_bind in Hev as (? & ? & ? & _ & [(es & Hes & Hev)|(? & _ & _ & ? & _)]); [|done].
  apply read_auth_evaluates in Hes as ([= ->] & ->).
  assert (h1 !! js "accept" = Some (js "application/json")) as Hacc by (rewrite Hh1; by_evaluation).
  assert (h1 !! js "authorization" = None) as Hau by (rewrite Hh1; by_evaluation).
  rewrite <-(Hh2 (js "accept")) in Hacc by (vm_compute; discriminate).
  rewrite <-(Hh2 (js "authorization")) in Hau by (vm_compute; discriminate).
  unfold headers_get. change (toLowerCase (js "Accept")) with (js "accept").
  change (toLowerCase (js "Content-Type")) with (js "content-type").
  change (toLowerCase (js "Authorization")) with (js "authorization").
  destruct (authHeader_shape (storage s)) as [He|[v He]]; rewrite He in *.
  - destruct Hev as (_ & [= ->] & ->). done.
  - apply set_one_get in Hev as [-> Hget]. rewrite !Hget. eval_names. done.
Qed.

Lemma storage_signed_out (s : S) : storage (signed_out s) = clearSession (storage s).
Proof. unfold signed_out. by rewrite storage_on_unauthorized, storage_set. Qed.

(** The response a step of the trace delivered, if it is the answer to a fetch. *)
Definition fetched_response (h : happening api_call ui_effect thrown api_result) : option Response :=
  match h with
  | Settled (Fetch _ _) (Ok r) => Some r
  | _ => None
  end.

(** What a settled body makes of a response whose status is not 204. *)
Definition reply (r : Response) (text : jsstr) : result thrown (option json) :=
  if negb (ok r)
  then Err (TApiError (status r) (errorMessage (payload_of_text text) (statusText r)))
  else Ok (Some (payload_of_text text)).

Definition after_status (r : Response) (s : S) : S :=
  if (status r =? 401)%Z then signed_out s else s.

(** The part of [request] that follows the response. *)
Lemma request_tail (r : Response) (s s' : S) (tr : trace) (res : result thrown (option json)) :
  evaluates (handleUnauthorized r ;;;
             if (status r =? 204)%Z then Ret None
             else let* payload := await_fn (readPayload r) in
                  if negb (ok r)
                  then Throw (TApiError (status r) (errorMessage payload (statusText r)))
                  else Ret (Some payload) : M (option json)) s tr res s' ->
  s' = after_status r s /\
  if (status r =? 204)%Z then tr = [] /\ res = Ok None
  else exists body, tr = [Settled (ReadText r) body]
                    /\ res = match body with Ok text => reply r text | Err e => Err e end.
Proof.
  intros Hev. apply evaluates_bind in Hev
    as (tr1 & tr2 & s1 & -> & [([] & Hh & Hev)|(e & Hh & _)]); [|by destruct Hh as (_ & ? & _)].
  destruct Hh as (-> & _ & ->). change (if (status r =? 401)%Z then _ else _) with (after_status r s) in Hev.
  destruct (status r =? 204)%Z; [by destruct Hev as (-> & -> & ->)|].
  apply evaluates_bind in Hev as (tr1 & tr3 & s2 & -> & [(p & Hp & Hev)|(e & Hp & -> & -> & ->)]).
  - rewrite evaluates_await_fn in Hp. apply evaluates_bind in Hp
      as (tr4 & tr5 & s3 & -> & [(t & Ht & Hr)|(e & _ & _ & ? & _)]); [|done].
    apply evaluates_call in Ht as [-> ->]. destruct Hr as (-> & [= ->] & ->).
    unfold reply. destruct (negb (ok r)); destruct Hev as (-> & -> & ->);
      (split; [done|]; by eexists).
  - rewrite evaluates_await_fn in Hp. apply evaluates_bind in Hp
      as (tr4 & tr5 & s3 & -> & [(t & _ & Hr)|(e' & Ht & -> & [= ->] & ->)]);
      [by destruct Hr as (_ & ? & _)|].
    apply evaluates_call in Ht as [-> ->]. split; [done|]. by eexists.
Qed.

Definition body_result (r : Response) (b : result thrown jsstr) : result thrown (option json) :=
  match b with Ok text => reply r text | Err e => Err e end.

Lemma request_shape (path : jsstr) (o : RequestInit) (s s' : S) (tr : trace)
    (res : result thrown (option json)) :
  evaluates (request path o : M (option json)) s tr res s' ->
  (tr = [] /\ exists e, res = Err e)
  \/ exists h s1, evaluates (requestHeaders o : M Headers) s [] (Ok h) s1 /\
     let fetched := Fetch path {| fetch_method := method o; fetch_body := body o; fetch_headers := h |} in
     (exists e, tr = [Settled fetched (Err e)] /\ res = Err e /\ s' = s1)
     \/ (exists r : Response, s' = after_status r s1 /\
          if (status r =? 204)%Z
          then tr = [Settled fetched (Ok r)] /\ res = Ok None
          else exists body, tr = [Settled fetched (Ok r); Settled (ReadText r) body]
               /\ res = body_result r body).
Proof.
  intros Hev. apply evaluates_bind in Hev
    as (tr1 & tr2 & s1 & -> & [(h & Hh & Hev)|(e & Hh & -> & -> & ->)]);
    pose proof (synchronous_trace _ _ _ _ _ (requestHeaders_synchronous o) Hh) as ->; [right|eauto].
  exists h, s1. split; [done|]. cbn zeta. cbn [app].
  apply evaluates_bind in Hev as (tr1 & tr3 & s2 & -> & [(r & Hr & Hev)|(e & Hr & -> & -> & ->)]);
    apply evaluates_call in Hr as [-> ->]; [right|left; eauto].
  exists r. apply request_tail in Hev as [-> Hev]. split; [done|].
  destruct (status r =? 204)%Z; [by destruct Hev as [-> ->]|].
  destruct Hev as (b & -> & ->). by exists b.
Qed.

(** The body a step of the trace delivered. *)
Definition read_answer (h : happening api_call ui_effect thrown api_result)
  : option (Response * result thrown jsstr) :=
  match h with
  | Settled (ReadText r) b => Some (r, b)
  | _ => None
  end.

Definition fetched_path (h : happening api_call ui_effect thrown api_result) : option jsstr :=
  match h with
  | Settled (Fetch p _) _ => Some p
  | _ => None
  end.

(** The address, and what a delivered response and a delivered body determine. *)
Lemma request_trace (path : jsstr) (o : RequestInit) (s s' : S) (tr : trace)
    (res : result thrown (option json)) :
  evaluates (request path o : M (option json)) s tr res s' ->
  (forall h p, h ∈ tr -> fetched_path h = Some p -> p = path)
  /\ (forall h r, h ∈ tr -> fetched_response h = Some r -> exists s1, s' = after_status r s1 /\
        (status r <> 204%Z -> exists b, Settled (ReadText r) b ∈ tr /\ res = body_result r b))
  /\ (forall h r b, h ∈ tr -> read_answer h = Some (r, b) ->
        res = body_result r b /\ exists s1, s' = after_status r s1).
Proof.
  intros Hev.
  apply request_shape in Hev as [[-> _]|(h & s1 & _ & [(e & -> & _)|(r & -> & Hr)])].
  - repeat split; intros; by match goal with H : _ ∈ [] |- _ => apply elem_of_nil in H end.
  - repeat split; intros; match goal with H : _ ∈ [_] |- _ => apply list_elem_of_singleton in H as -> end;
      cbn in *; congruence.
  - destruct (Z.eqb_spec (status r) 204) as [H204|H204];
      [destruct Hr as [-> ->]|destruct Hr as (b & -> & ->)].
    + split; [|split]; [intros ? ? Hin|intros ? ? Hin|intros ? ? ? Hin];
        apply list_elem_of_singleton in Hin as ->; cbn; intros; simplify_eq; try done.
      eexists. split; [done|]. done.
    + split; [|split]; [intros ? ? Hin|intros ? ? Hin|intros ? ? ? Hin];
        apply elem_of_cons in Hin as [-> |Hin];
        try (apply list_elem_of_singleton in Hin as ->); cbn; intros; simplify_eq; try done.
      * eexists. split; [done|]. intros _. exists b. split; [by right; left|done].
      * eauto.
Qed.

(** What a request asks for, and that it shows nothing. *)
Lemma request_fetched (path : jsstr) (o : RequestInit) (s s' : S) (tr : trace)
    (res : result thrown (option json)) (p : jsstr) (init : FetchInit) (answer : result thrown Response) :
  evaluates (request path o : M (option json)) s tr res s' -> Settled (Fetch p init) answer ∈ tr ->
  p = path /\ fetch_method init = method o /\ fetch_body init = body o.
Proof.
  intros Hev Hin.
  apply request_shape in Hev as [[-> _]|(h & s1 & _ & [(e & -> & _)|(r & -> & Hr)])].
  - by apply elem_of_nil in Hin.
  - apply list_elem_of_singleton in Hin. by injection Hin as -> ->.
  - destruct (status r =? 204)%Z; [destruct Hr as [-> _]|destruct Hr as (b & -> & _)].
    + apply list_elem_of_singleton in Hin. by injection Hin as -> ->.
    + apply elem_of_cons in Hin as [Hin|Hin]; [by injection Hin as -> ->|].
      by apply list_elem_of_singleton in Hin.
Qed.

Lemma request_silent (path : jsstr) (o : RequestInit) (s s' : S) (tr : trace)
    (res : result thrown (option json)) (m : ui_effect) :
  evaluates (request path o : M (option json)) s tr res s' -> Did m ∉ tr.
Proof.
  intros Hev Hin.
  apply request_shape in Hev as [[-> _]|(h & s1 & _ & [(e & -> & _)|(r & -> & Hr)])].
  - by apply elem_of_nil in Hin.
  - by apply list_elem_of_singleton in Hin.
  - destruct (status r =? 204)%Z; [destruct Hr as [-> _]|destruct Hr as (b & -> & _)].
    + by apply list_elem_of_singleton in Hin.
    + apply elem_of_cons in Hin as [?|Hin]; [done|]. by apply list_elem_of_singleton in Hin.
Qed.

(** C16: Everything a request can do, branch by branch: fail before the network when the
    headers cannot be built; reject with what [fetch] or the body reader rejected with;
    give [undefined] on 204 without reading the body; and otherwise give the payload
    when the status is in 200-299 and an ApiError with that status and the localized
    message when it is not. The page's state changes only by the session lookup and,
    on 401, by signing out. *)
Theorem request_branches (path : jsstr) (o : RequestInit) (s s' : S) (tr : trace)
    (res : result thrown (option json)) :
  evaluates (request path o : M (option json)) s tr res s' ->
  (tr = [] /\ exists e, res = Err e)
  \/ exists h s1, evaluates (requestHeaders o : M Headers) s [] (Ok h) s1 /\
     let fetched := Fetch path {| fetch_method := method o; fetch_body := body o; fetch_headers := h |} in
     (exists e, tr = [Settled fetched (Err e)] /\ res = Err e /\ s' = s1)
     \/ (exists r : Response, s' = after_status r s1 /\
          if (status r =? 204)%Z
          then tr = [Settled fetched (Ok r)] /\ res = Ok None
          else exists body, tr = [Settled fetched (Ok r); Settled (ReadText r) body]
               /\ res = body_result r body).
Proof. apply request_shape. Qed.

(** C9: An answer 401 signs the user out, whatever the endpoint and the body: the page
    is told, no session can be found afterwards, and the caller gets an error - the
    ApiError 401 with a Chinese message as soon as the body could be read. *)
Theorem request_unauthorized (path : jsstr) (o : RequestInit) (s s' : S) (tr : trace)
    (res : result thrown (option json)) (init : FetchInit) (r : Response) :
  evaluates (request path o : M (option json)) s tr res s' ->
  Settled (Fetch path init) (Ok r) ∈ tr -> status r = 401%Z ->
  fst (getSession (storage s')) = None
  /\ (exists s1, s' = on_unauthorized s1)
  /\ exists body, Settled (ReadText r) body ∈ tr /\
     match body with
     | Ok text => exists m, res = Err (TApiError 401 m) /\ hasChinese m = true
     | Err e => res = Err e
     end.
Proof.
  intros Hev Hin H401. apply request_trace in Hev as (_ & Hfetch & _).
  destruct (Hfetch _ r Hin eq_refl) as (s1 & -> & Hbody).
  destruct Hbody as (b & Hb & ->); [by rewrite H401|].
  unfold after_status. rewrite H401. cbn [Z.eqb Pos.eqb]. split; [|split].
  - rewrite storage_signed_out. by rewrite getSession_clear.
  - by eexists.
  - exists b. split; [done|]. destruct b as [text|e]; [|done].
    cbn. unfold reply, ok. rewrite H401. cbn. eexists. split; [done|]. apply errorMessage_chinese.
Qed.

(** The key of a setting stays one path segment: the only address [updateSetting]
    ever fetches is [/api/settings/<k>] where [k] is made of unreserved characters and
    percent signs - no slash, question mark or hash - and determines the key. *)
Theorem update_setting_path (key : jsstr) (value : json) (s s' : S) (tr : trace)
    (res : result thrown (option json)) (path : jsstr) (init : FetchInit)
    (answer : result thrown Response) :
  wf_str key ->
  evaluates (updateSetting key value : M (option json)) s tr res s' ->
  Settled (Fetch path init) answer ∈ tr ->
  exists k, path = js "/api/settings/" ++ k
    /\ Forall (fun c => uri_safe c = true) k
    /\ (forall key', wf_str key' -> encodeURIComponent key' = Some k -> key' = key).
Proof.
  intros Hkey Hev Hin. apply evaluates_bind in Hev
    as (tr1 & tr2 & s1 & -> & [(k & Hk & Hev)|(e & Hk & -> & _ & _)]).
  2: { destruct (encodeURIComponent key); destruct Hk as (-> & ? & _); [done|].
       by apply elem_of_nil in Hin. }
  destruct (encodeURIComponent key) as [k'|] eqn:Henc; destruct Hk as (-> & Hk & ->); [|done].
  injection Hk as ->. exists k'. split; [|split].
  - apply request_trace in Hev as (Hpath & _). exact (Hpath _ _ Hin eq_refl).
  - by eapply encodeURIComponent_safe.
  - intros key' Hkey' Henc'. by eapply encodeURIComponent_inj.
Qed.

Definition login_answer (t : jsstr) (ty : option jsstr) : json :=
  obj_of [(js "token", Some (JStr t)); (js "token_type", JStr <$> ty)].

Lemma payload_of_printed (v : json) : wf_json v -> payload_of_text (stringify v) = v.
Proof.
  intros Hv. unfold payload_of_text. by rewrite stringify_truthy, parse_stringify.
Qed.

Lemma login_answer_wf (t : jsstr) (ty : option jsstr) :
  wf_str t -> (forall y, ty = Some y -> wf_str y) -> wf_json (login_answer t ty).
Proof.
  intros Ht Hty. destruct ty as [y|]; cbn.
  - split; [by apply (bool_decide_unpack _)|].
    repeat split; auto; by apply (bool_decide_unpack _).
  - split; [by apply (bool_decide_unpack _)|].
    repeat split; auto; by apply (bool_decide_unpack _).
Qed.

Lemma reply_printed (r : Response) (v : json) :
  ok r = true -> wf_json v -> reply r (stringify v) = Ok (Some v).
Proof. intros Hok Hv. unfold reply. by rewrite Hok, payload_of_printed. Qed.

(** The part of [login] that follows the answer. *)
Definition login_store (res : option json) : M unit :=
  match prop res (js "token"), prop res (js "token_type") with
  | Ok tok, Ok ty =>
    modify (fun s => set_storage (saveSession (storage s) tok
                                    (Some (ty ||| JStr (js "Bearer"))%js)) s)
  | Err e, _ | _, Err e => Throw e
  end.

Lemma login_store_trace (v : option json) (s s' : S) (tr : trace) (res : result thrown unit) :
  evaluates (login_store v) s tr res s' -> tr = [].
Proof. unfold login_store. by repeat case_match; intros [-> _]. Qed.

Lemma login_store_answer (t : jsstr) (ty : option jsstr) (s s' : S) (tr : trace)
    (res : result thrown unit) :
  evaluates (login_store (Some (login_answer t ty))) s tr res s' ->
  res = Ok tt /\ s' = set_storage (saveSession (storage s) (Some (JStr t))
                                    (Some (JStr (ty ||| js "Bearer")%js))) s.
Proof.
  unfold login_store.
  assert (prop (Some (login_answer t ty)) (js "token") = Ok (Some (JStr t))) as -> by done.
  assert (prop (Some (login_answer t ty)) (js "token_type") = Ok (JStr <$> ty)) as ->
    by by destruct ty.
  assert (((JStr <$> ty) ||| JStr (js "Bearer"))%js = JStr (ty ||| js "Bearer")%js) as ->.
  { destruct ty as [y|]; [|done]. cbn. by destruct y. }
  by intros (_ & -> & ->).
Qed.

(** C31: Signing in: when the server accepts and answers with a token (and perhaps a
    token type), [login] succeeds and the session found afterwards is that token with
    that type, [Bearer] when none or an empty one was given. *)
Theorem login_establishes_session (username password t : jsstr) (ty : option jsstr)
    (s s' : S) (tr : trace) (res : result thrown unit) (r : Response) :
  wf_str t -> t <> [] -> (forall y, ty = Some y -> wf_str y) ->
  evaluates (login username password : M unit) s tr res s' ->
  Settled (ReadText r) (Ok (stringify (login_answer t ty))) ∈ tr -> ok r = true ->
  res = Ok tt
  /\ fst (getSession (storage s'))
     = Some (session_json {| token := t; tokenType := (ty ||| js "Bearer")%js |}).
Proof.
  intros Ht Hne Hty Hev Hin Hok. apply evaluates_bind in Hev
    as (tr1 & tr2 & s1 & -> & [(v & Hv & Hev)|(e & Hv & -> & _ & _)]);
    rewrite evaluates_await_fn in Hv; apply request_trace in Hv as (_ & _ & Hread).
  - rewrite (login_store_trace _ _ _ _ _ Hev), app_nil_r in Hin.
    destruct (Hread _ r _ Hin eq_refl) as [Hv (s2 & ->)].
    unfold body_result in Hv. rewrite reply_printed in Hv by (done || by apply login_answer_wf).
    injection Hv as ->. apply login_store_answer in Hev as [-> ->]. split; [done|].
    rewrite storage_set. pose proof (getSession_saved (storage (after_status r s2))
      {| token := t; tokenType := (ty ||| js "Bearer")%js |}) as Hg.
    cbn [token tokenType] in Hg. rewrite Hg; [done|done| |done].
    destruct ty as [y|]; cbn; [|by apply (bool_decide_unpack _)].
    destruct (truthy y); [auto|by apply (bool_decide_unpack _)].
  - exfalso. rewrite app_nil_r in Hin. destruct (Hread _ r _ Hin eq_refl) as [Hv _].
    unfold body_result in Hv. by rewrite reply_printed in Hv by (done || by apply login_answer_wf).
Qed.
End RequestProperties.

(** ** What a request leaves alone *)

Create HintDb frame.

Section RequestFrame.
Context {S X : Type} `{Window S} (proj : S -> X).
Context (proj_storage : forall m s, proj (set_storage m s) = proj s).
Context (proj_out : forall s, proj (on_unauthorized s) = proj s).
Local Abbreviation M := (prog S api_call ui_effect thrown api_result).

Lemma preserves_or_throw {A} (o : option A) (m : jsstr) : preserves proj (or_throw o m : M A).
Proof. by destruct o. Qed.

Lemma preserves_set_all (h : Headers) (l : list (jsstr * jsstr)) :
  preserves proj (set_all h l : M Headers).
Proof.
  revert h. induction l as [|[n v] l IH]; intros h; [done|].
  apply preserves_bind; auto using preserves_or_throw.
Qed.

Lemma preserves_requestHeaders (o : RequestInit) : preserves proj (requestHeaders o : M Headers).
Proof.
  unfold requestHeaders.
  apply preserves_bind; [apply preserves_set_all|intros h0].
  apply preserves_bind; [apply preserves_set_all|intros h1].
  apply preserves_bind; [case_match; [apply preserves_set_all|done]|intros h2].
  apply preserves_bind; [|intros entries; apply preserves_set_all].
  cbn. intros s. destruct (authHeader (storage s)). cbn. auto.
Qed.

Lemma preserves_handleUnauthorized (r : Response) : preserves proj (handleUnauthorized r : M unit).
Proof.
  apply preserves_modify. intros s. unfold signed_out.
  destruct (status r =? 401)%Z; [|done]. by rewrite proj_out, proj_storage.
Qed.

Lemma preserves_readPayload (r : Response) : preserves proj (readPayload r : M json).
Proof. apply preserves_bind; [apply preserves_call|done]. Qed.

Lemma preserves_request (path : jsstr) (o : RequestInit) :
  preserves proj (request path o : M (option json)).
Proof.
  unfold request. apply preserves_bind; [apply preserves_requestHeaders|intros h].
  apply preserves_bind; [apply preserves_call|intros r].
  apply preserves_bind; [apply preserves_handleUnauthorized|intros _].
  case_match; [done|].
  apply preserves_bind; [apply preserves_await_fn, preserves_readPayload|intros p].
  by case_match.
Qed.

Lemma preserves_then_prop (p : M (option json)) (k : jsstr) :
  preserves proj p -> preserves proj (then_prop p k).
Proof.
  intros Hp. apply preserves_bind; [by apply preserves_await_fn|]. intros v. by case_match.
Qed.

Lemma preserves_items (p : M (option json)) : preserves proj p -> preserves proj (items p).
Proof. apply preserves_then_prop. Qed.

Lemma preserves_login (u p : jsstr) : preserves proj (login u p : M unit).
Proof.
  apply preserves_bind; [apply preserves_await_fn, preserves_request|]. intros v.
  by repeat case_match.
Qed.

Lemma preserves_updateSetting (k : jsstr) (v : json) : preserves proj (updateSetting k v : M _).
Proof. apply preserves_bind; [apply preserves_or_throw|]. intros. apply preserves_request. Qed.

Lemma preserves_downloadLogs (k l : option jsstr) : preserves proj (downloadLogs k l : M unit).
Proof.
  unfold downloadLogs. apply preserves_bind; [apply preserves_requestHeaders|intros h].
  apply preserves_bind; [apply preserves_call|intros r].
  apply preserves_bind; [apply preserves_handleUnauthorized|intros _]. case_match.
  - apply preserves_bind; [apply preserves_await_fn, preserves_readPayload|done].
  - apply preserves_bind; [apply preserves_call|done].
Qed.
End RequestFrame.

#[export] Hint Resolve preserves_request preserves_items preserves_then_prop preserves_login
  preserves_updateSetting preserves_downloadLogs : frame.

(** ** Executions on a bare page *)

(** A page that keeps its localStorage and whether it was told of a 401. *)
#[export] Instance bare_window : Window (Storage * bool) := {|
  storage := fst;
  set_storage := fun m s => (m, snd s);
  on_unauthorized := fun s => (fst s, true);
  storage_set := fun _ _ => eq_refl;
  storage_on_unauthorized := fun _ => eq_refl
|}.

Section Executions.
Local Abbreviation trace := (list (happening api_call ui_effect thrown api_result)).

(** A server that answers every fetch with [r] and the body [text]. *)
Definition answering (r : Response) (text : jsstr) (c : api_call) : result thrown (api_result c) :=
  match c with
  | Fetch _ _ => Ok r
  | ReadText _ => Ok text
  | ReadBlob _ => Ok tt
  end.

Definition signed_in : Storage :=
  setItem empty_storage SESSION_KEY
    (stringify (session_json {| token := js "jwt"; tokenType := js "Bearer" |})).

Definition plain_headers : Headers := <[js "accept" := js "application/json"]> (∅ : Headers).
Definition auth_headers : Headers := <[js "authorization" := js "Bearer jwt"]> plain_headers.
Definition fetch_get (h : Headers) : FetchInit :=
  {| fetch_method := None; fetch_body := None; fetch_headers := h |}.
Definition response (code : Z) (text : jsstr) : Response := {| status := code; statusText := text |}.

Definition denied : Response := response 401 (js "Unauthorized").
Definition denied_trace : trace :=
  [Settled (Fetch (js "/api/overview") (fetch_get auth_headers)) (Ok denied);
   Settled (ReadText denied) (Ok (js "Unauthorized"))].

Lemma denied_run :
  evaluates (request (js "/api/overview") no_options) (signed_in, false) denied_trace
    (Err (TApiError 401 (js "未授权，请重新登录"))) (empty_storage, true).
Proof. apply (play_evaluates (answering denied (js "Unauthorized"))). by_evaluation. Qed.

Lemma request_headers_spec_witness :
  headers_get (auth_headers : Headers) (js "Authorization") = Some (js "Bearer jwt").
Proof.
  refine (proj1 (proj2 (proj2 (proj2 (request_headers_spec no_options
    (signed_in, false) (signed_in, false) [] auth_headers _ _))))); [done|].
  apply (play_evaluates (answering denied [])). by_evaluation.
Defined.

Lemma request_branches_witness :
  denied_trace = [] \/ exists h s1,
    evaluates (requestHeaders no_options) (signed_in, false) [] (Ok h) s1.
Proof.
  destruct (request_branches _ _ _ _ _ _ denied_run) as [[H _]|(h & s1 & H & _)];
    [by left|right; eauto].
Defined.

Lemma request_unauthorized_witness : fst (getSession empty_storage) = None.
Proof.
  apply (request_unauthorized _ _ _ _ _ _ (fetch_get auth_headers) denied denied_run);
    [by left|done].
Defined.

Definition fetch_patch (text : jsstr) : FetchInit :=
  {| fetch_method := Some (js "PATCH"); fetch_body := Some text;
     fetch_headers := <[js "content-type" := js "application/json"]> plain_headers |}.

Lemma update_setting_path_witness :
  exists k, js "/api/settings/a%2Fb" = js "/api/settings/" ++ k
            /\ Forall (fun c => uri_safe c = true) k.
Proof.
  destruct (update_setting_path (js "a/b") (JBool true) (empty_storage, false) (empty_storage, false)
    [Settled (Fetch (js "/api/settings/a%2Fb") (fetch_patch (stringify (obj_of [(js "value", Some (JBool true))]))))
             (Ok (response 204 []))] (Ok None) (js "/api/settings/a%2Fb")
    (fetch_patch (stringify (obj_of [(js "value", Some (JBool true))]))) (Ok (response 204 [])))
    as (k & ? & ? & _); [by apply (bool_decide_unpack _)| |by left|eauto].
  apply (play_evaluates (answering (response 204 []) [])). by_evaluation.
Defined.

Definition accepted : Response := response 200 (js "OK").
Definition credentials : jsstr :=
  stringify (obj_of [(js "username", Some (JStr (js "root"))); (js "password", Some (JStr (js "pw")))]).
Definition login_text : jsstr := stringify (login_answer (js "jwt") None).

Lemma login_establishes_session_witness :
  fst (getSession signed_in) = Some (session_json {| token := js "jwt"; tokenType := js "Bearer" |}).
Proof.
  refine (proj2 (login_establishes_session (js "root") (js "pw") (js "jwt") None
           (empty_storage, false) (signed_in, false)
           [Settled (Fetch (js "/api/auth/login")
              {| fetch_method := Some (js "POST"); fetch_body := Some credentials;
                 fetch_headers := <[js "content-type" := js "application/json"]> plain_headers |})
              (Ok accepted);
            Settled (ReadText accepted) (Ok login_text)] (Ok tt) accepted _ _ _ _ _ _));
    [by apply (bool_decide_unpack _)|done|done| |by right; left|done].
  apply (play_evaluates (answering accepted login_text)). by_evaluation.
Defined.
End Executions.
