(* ===== verification/DashTypes.v ===== *)
(** The data the dashboard shows: web/dashboard/src/types.ts. A field [f?: T] is an
    [option], a number an integer (the server sends int64 counters and ports), a field
    whose type is a union a JSON value. Field names carry the record's name. *)

From S2P Require Import Prelude JsString Json.

Abbreviation Status := jsstr (only parsing).

Record SessionUser := {
  user_sub : option jsstr; user_username : option jsstr; user_exp : option Z;
  user_rest : list (jsstr * json)
}.

Record Token := {
  token_id : jsstr; token_name : jsstr; token_prefix : jsstr; token_disabled : bool;
  token_last_used : option jsstr; token_created_at : jsstr
}.

Record Client := {
  client_id : jsstr; client_name : jsstr; client_device_id : jsstr; client_token_id : jsstr;
  client_status : Status; client_disabled : bool; client_ip : jsstr; client_os : jsstr;
  client_version : jsstr; client_last_online : jsstr; client_created_at : jsstr
}.

Record TrafficSummary := { traffic_upload : Z; traffic_download : Z }.

Record Tunnel := {
  tunnel_id : jsstr; tunnel_client_id : jsstr; tunnel_name : jsstr; tunnel_protocol : jsstr;
  tunnel_visitor_token : option jsstr; tunnel_local_host : jsstr; tunnel_local_port : Z;
  tunnel_remote_port : Z; tunnel_domain : jsstr; tunnel_status : Status;
  tunnel_ip_allowlist : option (list jsstr); tunnel_created_at : jsstr; tunnel_updated_at : jsstr
}.

Record ClientDetail := {
  detail_client : Client; detail_tunnels : list Tunnel; detail_connected_at : option jsstr;
  detail_connected_seconds : Z; detail_today : TrafficSummary; detail_month : TrafficSummary
}.

Record TrafficPoint := {
  point_tunnel_id : option jsstr; point_upload : Z; point_download : Z;
  point_created_at : option jsstr; point_at : option jsstr
}.

Record TrafficTarget := {
  target_id : jsstr; target_name : jsstr; target_upload : Z; target_download : Z
}.

Record TrafficResponse := {
  traffic_summary : TrafficSummary; traffic_clients : list TrafficTarget;
  traffic_tunnels : list TrafficTarget; traffic_since : jsstr
}.

Record Overview := {
  overview_status : jsstr; overview_uptime_seconds : Z; overview_online_clients : Z;
  overview_total_clients : Z; overview_active_tunnels : Z; overview_total_tunnels : Z;
  overview_connections : Z; overview_bandwidth_bps : Z; overview_today_upload : Z;
  overview_today_download : Z
}.

Record LogEntry := {
  log_id : option json; log_level : jsstr; log_event : option jsstr; log_message : jsstr;
  log_source : option jsstr; log_created_at : option jsstr
}.

Record SettingItem := {
  setting_key : jsstr; setting_value : json; setting_description : option jsstr;
  setting_mutable : option bool
}.

Record TransportEndpoint := {
  enabled : bool; listen : option jsstr; data_listen : option jsstr;
  control_url : option jsstr; websocket_url : option jsstr; data_address : option jsstr
}.

Record TransportCertificate := {
  cert_domain : option jsstr; cert_issuer : option jsstr; cert_not_after : option jsstr;
  cert_status : option jsstr; cert_error : option jsstr; cert_details : option jsstr
}.

Record TransportCertbot := {
  certbot_available : bool; certbot_message : option jsstr; certbot_version : option jsstr
}.

Record TransportAutoSubdomain := {
  auto_enabled : bool; auto_base_domain : option jsstr; auto_suffix_example : option jsstr
}.

(** The members the code reads through [?.] may be missing at run time whatever their
    declared type says, so they are options. *)
Record TransportStatus := {
  plain : option TransportEndpoint; compatibility_plain : option TransportEndpoint;
  tls : option TransportEndpoint; certbot : option TransportCertbot;
  certificate : option TransportCertificate; auto_subdomain : option TransportAutoSubdomain
}.

Record RelayNode := {
  node_id : jsstr; node_address : jsstr; node_control_address : option jsstr;
  node_connections : Z; node_healthy : bool; node_last_seen : jsstr
}.

Record RelayAssignment := {
  assignment_tunnel_id : jsstr; assignment_node_id : jsstr; assignment_address : jsstr
}.
