(* ===== verification/DashFormat.v ===== *)
(** Texts of the dashboard: web/dashboard/src/utils/format.ts, display/status.ts and
    components/StatusTag.tsx. Counters are the integers the server sends (int64 kept
    below 2^53), so [Number.isFinite] holds of every number there is. *)

From S2P Require Import Prelude JsString JsNumber WebPlatform.

(** ** Dates, sizes, durations *)

Section Dates.
Context `{Dates}.

Definition formatDate (value : option jsstr) : jsstr :=
  match value with
  | Some v => if negb (truthy v) then js "-"
              else match parse_date v with
                   | None => js "-"
                   | Some t => toLocaleString (Some (js "zh-CN")) t
                   end
  | None => js "-"
  end.
End Dates.

(** [Math.floor(Math.log(b) / Math.log(1024))] on a positive integer below 2^53, where
    the quotient of the two logarithms is far from an integer unless [b] is a power. *)
Definition log1024 (b : Z) : Z := (Z.log2 b / 10)%Z.

Definition units : list jsstr := [js "B"; js "KB"; js "MB"; js "GB"; js "TB"].

Definition formatBytes (bytes : option Z) : jsstr :=
  let bytes := js_nullish bytes 0%Z in
  if (bytes <=? 0)%Z then js "0 B"
  else let index := Z.min (log1024 bytes) (Z.of_nat (length units) - 1) in
       toFixed (if (index =? 0)%Z then 0 else 1) bytes (1024 ^ index)
       ++ js " " ++ nth (Z.to_nat index) units [].

Definition formatRate (bytesPerSecond : option Z) : jsstr :=
  formatBytes (Some (js_nullish bytesPerSecond 0%Z)) ++ js "/秒".

Definition formatDuration (seconds : option Z) : jsstr :=
  let whole := js_nullish seconds 0%Z in
  if (whole <? 0)%Z then js "-"
  else let days := (whole / 86400)%Z in
       let hours := (whole mod 86400 / 3600)%Z in
       let minutes := (whole mod 3600 / 60)%Z in
       if (0 <? days)%Z then int_to_string days ++ js "天 " ++ int_to_string hours ++ js "小时"
       else if (0 <? hours)%Z then int_to_string hours ++ js "小时 " ++ int_to_string minutes ++ js "分钟"
       else if (0 <? minutes)%Z then int_to_string minutes ++ js "分钟"
       else int_to_string whole ++ js "秒".

Definition isOnline (status : jsstr) (disabled : option bool) : bool :=
  if truthy disabled then false
  else existsb (str_eqb (toLowerCase status)) [js "online"; js "running"; js "active"].

Definition sumBy {T} (items : list T) (selector : T -> Z) : Z :=
  fold_left (fun total item => total + selector item)%Z items 0%Z.

(** ** Status labels *)

Definition statusLabels : list (jsstr * jsstr) :=
  [(js "active", js "活跃"); (js "disabled", js "已禁用"); (js "error", js "错误");
   (js "healthy", js "健康"); (js "offline", js "离线"); (js "online", js "在线");
   (js "running", js "运行中"); (js "stopped", js "已停止"); (js "unknown", js "未知");
   (js "warn", js "警告")].

(** What reading a property of an object literal gives: one of its own strings, or a
    member every object inherits. *)
Inductive property := Own (text : jsstr) | Inherited (name : jsstr).

(** The inherited members whose name is in lower case. *)
Definition inherited_names : list jsstr := [js "constructor"; js "__proto__"].

Definition statusLabels_get (k : jsstr) : option property :=
  match List.find (fun kv => str_eqb (fst kv) k) statusLabels with
  | Some kv => Some (Own (snd kv))
  | None => if existsb (str_eqb k) inherited_names then Some (Inherited k) else None
  end.

Definition statusText (value : option jsstr) : property :=
  let unknown := Own (js "未知") in
  match value with
  | Some v => if negb (truthy v) then unknown
              else js_nullish (statusLabels_get (toLowerCase v)) unknown
  | None => unknown
  end.

(** The colour of a [StatusTag]; its child is [statusText value]. *)
Definition StatusTag (value : jsstr) : jsstr * property :=
  let normalized := toLowerCase value in
  (if str_eqb normalized (js "online") || str_eqb normalized (js "running") then js "green"
   else if str_eqb normalized (js "disabled") then js "red" else js "default",
   statusText (Some value)).

(** ** Properties *)

(** *** Sizes *)

Lemma log1024_spec (b : Z) :
  (0 < b)%Z -> (0 <= log1024 b /\ 1024 ^ log1024 b <= b < 1024 ^ (log1024 b + 1))%Z.
Proof.
  intros Hb. unfold log1024. pose proof (Z.log2_spec b Hb) as Hl.
  pose proof (Z.log2_nonneg b) as Hn.
  pose proof (Z.div_mod (Z.log2 b) 10 ltac:(lia)) as Hd.
  pose proof (Z.mod_pos_bound (Z.log2 b) 10 ltac:(lia)) as Hm.
  set (i := (Z.log2 b / 10)%Z) in *. assert (0 <= i)%Z by lia. split; [done|].
  change 1024%Z with (2 ^ 10)%Z. rewrite <-!Z.pow_mul_r by lia.
  split.
  - transitivity (2 ^ Z.log2 b)%Z; [|lia]. apply Z.pow_le_mono_r; lia.
  - apply Z.lt_le_trans with (2 ^ Z.succ (Z.log2 b))%Z; [lia|]. apply Z.pow_le_mono_r; lia.
Qed.

(** The unit a size is shown in. *)
Definition scale (b : Z) : Z := Z.min (log1024 b) 4.

Lemma scale_spec (b : Z) :
  (0 < b)%Z ->
  (0 <= scale b <= 4 /\ 1024 ^ scale b <= b /\ (scale b < 4 -> b < 1024 ^ (scale b + 1)))%Z.
Proof.
  intros Hb. destruct (log1024_spec b Hb) as (Hn & Hlo & Hhi). unfold scale.
  split; [lia|]. split.
  - transitivity (1024 ^ log1024 b)%Z; [|done]. apply Z.pow_le_mono_r; lia.
  - intros Hlt. by rewrite Z.min_l by lia.
Qed.

(** A unit is determined by its bounds. *)
Lemma scale_unique (b i : Z) :
  (0 < b -> 0 <= i <= 4 -> 1024 ^ i <= b -> (i < 4 -> b < 1024 ^ (i + 1)) -> scale b = i)%Z.
Proof.
  intros Hb Hi Hlo Hhi. destruct (scale_spec b Hb) as (Hs & Hslo & Hshi).
  destruct (Z.lt_trichotomy (scale b) i) as [Hlt|[Heq|Hgt]]; [|done|]; exfalso.
  - specialize (Hshi ltac:(lia)).
    pose proof (Z.pow_le_mono_r 1024 (scale b + 1) i ltac:(lia) ltac:(lia)). lia.
  - specialize (Hhi ltac:(lia)).
    pose proof (Z.pow_le_mono_r 1024 (i + 1) (scale b) ltac:(lia) ltac:(lia)). lia.
Qed.

(** The number of a size, as shown. *)
Definition size_digits (b : Z) : jsstr :=
  toFixed (if (scale b =? 0)%Z then 0 else 1) b (1024 ^ scale b).

Lemma formatBytes_closed (b : Z) :
  (0 < b)%Z -> formatBytes (Some b) = size_digits b ++ js " " ++ nth (Z.to_nat (scale b)) units [].
Proof.
  intros Hb. unfold formatBytes. cbn [js_nullish].
  destruct (Z.leb_spec b 0); [lia|]. done.
Qed.

Lemma toFixed_nonneg (f : nat) (num den : Z) :
  (0 <= num)%Z -> toFixed f num den = fixed_digits f (Z.to_N (round_fixed f num den)).
Proof. intros. unfold toFixed. by destruct (Z.ltb_spec num 0); [lia|]. Qed.

(** C40: A byte count is shown in the largest unit that fits (bytes to terabytes, then
    terabytes without bound), and the number shown is the count in that unit rounded
    to the nearest tenth: the integer [d] of tenths is within half a tenth of it. *)
Theorem formatBytes_accurate (b : Z) :
  (0 < b)%Z ->
  exists i d : Z,
    (0 <= i <= 4 /\ 1024 ^ i <= b /\ (i < 4 -> b < 1024 ^ (i + 1)))%Z
    /\ let f := if (i =? 0)%Z then O else 1%nat in
       formatBytes (Some b) = fixed_digits f (Z.to_N d) ++ js " " ++ nth (Z.to_nat i) units []
       /\ (0 <= d /\ 2 * Z.abs (d * 1024 ^ i - b * 10 ^ Z.of_nat f) <= 1024 ^ i)%Z.
Proof.
  intros Hb. exists (scale b).
  set (f := if (scale b =? 0)%Z then O else 1%nat).
  exists (round_fixed f b (1024 ^ scale b)). split; [by apply scale_spec|].
  assert (0 < 1024 ^ scale b)%Z by (apply Z.pow_pos_nonneg; [lia|]; by apply scale_spec).
  split; [|split].
  - rewrite formatBytes_closed by done. unfold size_digits. by rewrite toFixed_nonneg by lia.
  - apply round_fixed_nonneg; lia.
  - by apply round_fixed_closest.
Qed.

Lemma formatBytes_accurate_witness : exists i : Z, (0 <= i <= 4 /\ 1024 ^ i <= 1536)%Z.
Proof.
  destruct (formatBytes_accurate 1536 eq_refl) as (i & _ & (? & ? & _) & _). by exists i.
Defined.

Example formatBytes_1536 : formatBytes (Some 1536%Z) = js "1.5 KB". Proof. by_evaluation. Qed.
Example formatBytes_rounds_up : formatBytes (Some 1048575%Z) = js "1024.0 KB". Proof. by_evaluation. Qed.

(** *** Durations *)

(** The parts of a duration that are shown, and what they add up to. *)
Inductive duration_text :=
| DaysHours (d h : Z)
| HoursMinutes (h m : Z)
| Minutes (m : Z)
| Seconds (s : Z).

Definition print_duration (t : duration_text) : jsstr :=
  match t with
  | DaysHours d h => int_to_string d ++ js "天 " ++ int_to_string h ++ js "小时"
  | HoursMinutes h m => int_to_string h ++ js "小时 " ++ int_to_string m ++ js "分钟"
  | Minutes m => int_to_string m ++ js "分钟"
  | Seconds s => int_to_string s ++ js "秒"
  end.

Definition duration_seconds (t : duration_text) : Z :=
  match t with
  | DaysHours d h => 86400 * d + 3600 * h
  | HoursMinutes h m => 3600 * h + 60 * m
  | Minutes m => 60 * m
  | Seconds s => s
  end%Z.

(** How coarse a form is, and which parts it allows. *)
Definition duration_step (t : duration_text) : Z :=
  match t with DaysHours _ _ => 3600 | HoursMinutes _ _ | Minutes _ => 60 | Seconds _ => 1 end%Z.

Definition duration_wf (t : duration_text) : Prop :=
  match t with
  | DaysHours d h => 0 < d /\ 0 <= h < 24
  | HoursMinutes h m => 0 < h < 24 /\ 0 <= m < 60
  | Minutes m => 0 < m < 60
  | Seconds s => 0 <= s < 60
  end%Z.

(** A duration is shown in a canonical form (hours below 24, minutes and seconds
    below 60, no leading zero part) that never overstates it and understates it by
    less than the smallest part shown: an hour from a day on, a minute from a minute on,
    nothing below. *)
Theorem formatDuration_truncates (s : Z) :
  (0 <= s)%Z ->
  exists t, formatDuration (Some s) = print_duration t /\ duration_wf t
            /\ (duration_seconds t <= s < duration_seconds t + duration_step t)%Z.
Proof.
  intros Hs. unfold formatDuration. cbn [js_nullish]. destruct (Z.ltb_spec s 0); [lia|].
  pose proof (Z.div_mod s 86400 ltac:(lia)). pose proof (Z.mod_pos_bound s 86400 ltac:(lia)).
  pose proof (Z.div_mod s 3600 ltac:(lia)). pose proof (Z.mod_pos_bound s 3600 ltac:(lia)).
  pose proof (Z.div_mod (s mod 86400) 3600 ltac:(lia)).
  pose proof (Z.mod_pos_bound (s mod 86400) 3600 ltac:(lia)).
  pose proof (Z.div_mod (s mod 3600) 60 ltac:(lia)).
  pose proof (Z.mod_pos_bound (s mod 3600) 60 ltac:(lia)).
  destruct (Z.ltb_spec 0 (s / 86400)); [eexists (DaysHours _ _); cbn; split; [done|lia]|].
  destruct (Z.ltb_spec 0 (s mod 86400 / 3600)); [eexists (HoursMinutes _ _); cbn; split; [done|lia]|].
  destruct (Z.ltb_spec 0 (s mod 3600 / 60)); [eexists (Minutes _); cbn; split; [done|lia]|].
  eexists (Seconds _); cbn; split; [done|lia].
Qed.

Lemma formatDuration_truncates_witness :
  exists t, duration_wf t /\ (duration_seconds t <= 93784 < duration_seconds t + duration_step t)%Z.
Proof.
  destruct (formatDuration_truncates 93784 ltac:(lia)) as (t & _ & ? & ?). by exists t.
Defined.

(** *** Statuses *)

Lemma statusLabels_get_cases (k : jsstr) :
  (exists t, statusLabels_get k = Some (Own t) /\ t ∈ snd <$> statusLabels)
  \/ (statusLabels_get k = Some (Inherited k) /\ k ∈ inherited_names)
  \/ statusLabels_get k = None.
Proof.
  unfold statusLabels_get. destruct (List.find _ statusLabels) as [kv|] eqn:Hf.
  - left. exists (snd kv). split; [done|]. apply List.find_some in Hf as [Hin _].
    apply list_elem_of_fmap. exists kv. split; [done|]. by apply list_elem_of_In.
  - right. destruct (existsb _ inherited_names) eqn:He; [left|by right].
    split; [done|]. apply existsb_exists in He as (n & Hin & Hn).
    unfold str_eqb in Hn. apply bool_decide_eq_true in Hn as ->. by apply list_elem_of_In.
Qed.

(** Whatever status the server sends, in whatever case, the label is one of the ten
    Chinese labels of the table, the label of [unknown] when the table has none - unless
    the status is the name of a member every object has, whose value is then shown. *)
Theorem statusText_known (value : option jsstr) :
  (exists t, statusText value = Own t /\ t ∈ snd <$> statusLabels)
  \/ exists v, value = Some v /\ toLowerCase v ∈ inherited_names
               /\ statusText value = Inherited (toLowerCase v).
Proof.
  assert (js "未知" ∈ snd <$> statusLabels) as Hu by (apply (bool_decide_unpack _); by_evaluation).
  destruct value as [v|]; cbn; [|eauto]. destruct (truthy v); cbn [negb]; [|eauto].
  destruct (statusLabels_get_cases (toLowerCase v)) as [(t & -> & ?)|[[-> ?]| ->]]; cbn; eauto.
Qed.

(** The tag of a status is green exactly when the label says online or running, red
    exactly when it says disabled. *)
Theorem StatusTag_consistent (value : jsstr) :
  (fst (StatusTag value) = js "green"
   <-> snd (StatusTag value) = Own (js "在线") \/ snd (StatusTag value) = Own (js "运行中"))
  /\ (fst (StatusTag value) = js "red" <-> snd (StatusTag value) = Own (js "已禁用")).
Proof.
  assert (forall n, let r := js_nullish (statusLabels_get n) (Own (js "未知")) in
            (str_eqb n (js "online") || str_eqb n (js "running") = true
             <-> r = Own (js "在线") \/ r = Own (js "运行中"))
            /\ (str_eqb n (js "disabled") = true <-> r = Own (js "已禁用"))) as Hn.
  { intros n. unfold statusLabels_get, str_eqb, statusLabels, inherited_names.
    cbn [List.find existsb fst snd].
    repeat (case_bool_decide; [subst; split; split; vm_compute; intuition discriminate|]).
    split; split; vm_compute; intuition discriminate. }
  unfold StatusTag, statusText. cbn [fst snd].
  destruct value as [|c v]; [split; split; vm_compute; intuition discriminate|].
  cbn [truthy truthy_list negb]. specialize (Hn (toLowerCase (c :: v))) as [Hon Hdis].
  destruct (str_eqb _ (js "online") || _); [|destruct (str_eqb _ (js "disabled"))].
  - split; [by rewrite <-Hon|]. rewrite <-Hdis.
    assert (js_nullish (statusLabels_get (toLowerCase (c :: v))) (Own (js "未知")) <> Own (js "已禁用")) as Hne.
    { destruct (proj1 Hon eq_refl) as [-> | ->]; vm_compute; discriminate. }
    split; [vm_compute; discriminate|]. intros He. by apply Hdis in He.
  - rewrite <-Hon, <-Hdis. split; split; try done; vm_compute; discriminate.
  - rewrite <-Hon, <-Hdis. split; split; try done; vm_compute; discriminate.
Qed.
