(* ===== verification/TransportDisplay.v ===== *)
(** How the settings page words the transport configuration:
    web/dashboard/src/settings/autoSubdomain.ts, settingsRows.ts, transportDisplay.ts and
    the tag colour of TransportSettings.tsx. *)

From S2P Require Import Prelude JsString Json DashTypes.

(** ** Automatic subdomains *)

(** [config?.enabled] and [config.base_domain] as conditions. *)
Definition auto_on (config : option TransportAutoSubdomain) : bool :=
  match config with Some c => auto_enabled c | None => false end.

Definition auto_base (config : option TransportAutoSubdomain) : option jsstr :=
  match config with Some c => auto_base_domain c | None => None end.

Definition autoSubdomainStatusText (config : option TransportAutoSubdomain) : jsstr :=
  match config with
  | Some c => if negb (auto_enabled c) then js "未开启"
              else match auto_base_domain c with
                   | Some d => if negb (truthy d) then js "待配置根域名"
                               else js "已开启：*." ++ d
                   | None => js "待配置根域名"
                   end
  | None => js "未开启"
  end.

Definition autoSubdomainHint (config : option TransportAutoSubdomain) : jsstr :=
  let off := js "自动子域名未开启，HTTP/HTTPS 隧道仍需手动填写域名。" in
  match config with
  | Some c =>
    match auto_base_domain c with
    | Some d =>
      if negb (auto_enabled c) || negb (truthy d) then off
      else let example := js_or_def (auto_suffix_example c) (js "app." ++ d) in
           js "已开启自动子域名。新建 HTTP/HTTPS 隧道且域名留空时将自动分配，例如 " ++ example
           ++ js "；手动填写域名时优先使用显式域名。"
    | None => off
    end
  | None => off
  end.

Definition shouldSuggestAutoDomain (protocol : option jsstr)
    (config : option TransportAutoSubdomain) : bool :=
  let normalized := toLowerCase <$> protocol in
  auto_on config && truthy (auto_base config)
  && (bool_decide (normalized = Some (js "http")) || bool_decide (normalized = Some (js "https"))).

(** ** Rows of the settings table *)

Definition PLAIN_WS_SETTING_KEY : jsstr := js "server.plain_enabled".

Definition TRANSPORT_SETTING_KEYS : list jsstr :=
  [PLAIN_WS_SETTING_KEY; js "server.plain_listen"; js "server.plain_data_listen"; js "server.listen";
   js "server.data_listen"; js "server.tls.enabled"; js "server.tls.cert_file";
   js "server.tls.key_file"].

Record settings_rows := { plainWsSetting : option SettingItem; rows : list SettingItem }.

Definition splitSettingsRows (items : list SettingItem) : settings_rows :=
  {| plainWsSetting := js_find (fun item => str_eqb (setting_key item) PLAIN_WS_SETTING_KEY) items;
     rows := List.filter (fun item => negb (existsb (str_eqb (setting_key item)) TRANSPORT_SETTING_KEYS)) items |}.

Definition settingSaveMessage (key : jsstr) : jsstr :=
  if str_eqb key (js "server.p2p_enabled") then js "P2P 设置已保存并立即生效"
  else js "设置已保存，重启 Nrynet 后生效".

Definition plainWsSaveMessage (enabled : bool) : jsstr :=
  js "兼容明文访问已" ++ (if enabled then js "开启" else js "关闭") ++ js "，配置已热更新".

(** ** Certificates *)

(** Membership in the cases of a [switch] or a chain of [===]. *)
Definition one_of (v : jsstr) (l : list jsstr) : bool := existsb (str_eqb v) l.

Definition certificate_status (status : option TransportStatus) : option jsstr :=
  match status with
  | Some s => match certificate s with Some c => cert_status c | None => None end
  | None => None
  end.

Definition certificatePending (status : option TransportStatus) : bool :=
  let value := js_nullish (toLowerCase <$> certificate_status status) (js "") in
  str_eqb value (js "pending") || str_eqb value (js "running") || str_eqb value (js "issuing").

Definition certificateStateLabel (status : option jsstr) : jsstr :=
  let v := toLowerCase (js_nullish status (js "")) in
  if one_of v [js "valid"; js "issued"; js "success"] then js "已签发"
  else if one_of v [js "pending"; js "running"; js "issuing"] then js "签发中"
  else if one_of v [js "failed"; js "error"] then js "签发失败"
  else js "未绑定".

(** [value === ...] on a value that may be [undefined] is false of it. *)
Definition certificateTagColor (status : option jsstr) : jsstr :=
  match toLowerCase <$> status with
  | Some v => if one_of v [js "valid"; js "issued"; js "success"] then js "green"
              else if one_of v [js "pending"; js "running"; js "issuing"] then js "blue"
              else if one_of v [js "failed"; js "error"] then js "red"
              else js "default"
  | None => js "default"
  end.

(** ** Endpoints *)

Definition normalizeListen (l : jsstr) : jsstr :=
  if negb (startsWith (js "0.0.0.0:") l) then l
  else replace_first (js "0.0.0.0:") (js "服务器IP:") l.

Definition valueOrFallback (value listen : option jsstr) (scheme path : jsstr) : jsstr :=
  match value with
  | Some v => if truthy v then v
              else match listen with
                   | Some l => if negb (truthy l) then js "-"
                               else scheme ++ js "://" ++ normalizeListen l ++ path
                   | None => js "-"
                   end
  | None => match listen with
            | Some l => if negb (truthy l) then js "-"
                        else scheme ++ js "://" ++ normalizeListen l ++ path
            | None => js "-"
            end
  end.

Record endpoint_row := { row_key : jsstr; row_label : jsstr; row_value : jsstr }.
Definition row (k l v : jsstr) : endpoint_row := {| row_key := k; row_label := l; row_value := v |}.

(** [e?.field] *)
Definition opt_field {A} (e : option TransportEndpoint) (f : TransportEndpoint -> option A) : option A :=
  e ≫= f.

(** [a || b || c] *)
Definition or_or (a b : option jsstr) (c : jsstr) : jsstr := js_or_def a (js_or_def b c).

Definition endpointRows (status : option TransportStatus) : list endpoint_row :=
  let p := status ≫= plain in
  let t := status ≫= tls in
  let base :=
    [row (js "http") (js "控制台 HTTP") (valueOrFallback (opt_field p control_url) (opt_field p listen) (js "http") (js ""));
     row (js "ws") (js "Agent WS")
       (valueOrFallback (opt_field p websocket_url) (opt_field p listen) (js "ws") (js "/agent/connect"));
     row (js "plain-data") (js "明文数据通道") (or_or (opt_field p data_address) (opt_field p data_listen) (js "-"))] in
  match t with
  | Some e =>
    if negb (enabled e) then base
    else base ++
      [row (js "https") (js "控制台 HTTPS") (valueOrFallback (control_url e) (listen e) (js "https") (js ""));
       row (js "wss") (js "Agent WSS")
         (valueOrFallback (websocket_url e) (listen e) (js "wss") (js "/agent/connect"));
       row (js "tls-data") (js "TLS 数据通道") (or_or (data_address e) (data_listen e) (js "-"))]
  | None => base
  end.

Definition endpoint_enabled (e : option TransportEndpoint) : bool :=
  match e with Some e => enabled e | None => false end.

Definition nextTLSState (status : option TransportStatus) : bool :=
  negb (endpoint_enabled (status ≫= tls)).

Definition nextPlainState (status : option TransportStatus) : bool :=
  negb (endpoint_enabled (status ≫= compatibility_plain)).

(** ** Properties *)

Lemma one_of_elem (v : jsstr) (l : list jsstr) : one_of v l = true <-> v ∈ l.
Proof.
  unfold one_of. rewrite existsb_exists. split.
  - intros (x & Hin & Hx). apply bool_decide_eq_true in Hx as ->. by apply list_elem_of_In.
  - intros Hin. exists v. split; [by apply list_elem_of_In|]. by apply bool_decide_eq_true.
Qed.

Lemma split_rows_spec (items : list SettingItem) (i : SettingItem) :
  i ∈ rows (splitSettingsRows items) <-> (i ∈ items) /\ setting_key i ∉ TRANSPORT_SETTING_KEYS.
Proof.
  cbn [splitSettingsRows rows].
  rewrite list_elem_of_In, filter_In, <-list_elem_of_In, negb_true_iff, <-not_true_iff_false.
  change (existsb _ _) with (one_of (setting_key i) TRANSPORT_SETTING_KEYS). by rewrite one_of_elem.
Qed.

(** The settings table and the transport section share the settings out: the table
    lists, in the server's order, exactly the settings whose key is not a transport key,
    so the plain WS setting, the first of its key, is never in the table. *)
Theorem splitSettingsRows_partition (items : list SettingItem) :
  let '{| plainWsSetting := p; rows := rs |} := splitSettingsRows items in
  (rs `sublist_of` items)
  /\ (forall i, i ∈ rs <-> (i ∈ items) /\ setting_key i ∉ TRANSPORT_SETTING_KEYS)
  /\ (forall i, p = Some i -> (i ∉ rs) /\ exists before after, items = before ++ i :: after
        /\ setting_key i = PLAIN_WS_SETTING_KEY
        /\ Forall (fun j => setting_key j <> PLAIN_WS_SETTING_KEY) before)
  /\ (p = None -> Forall (fun j => setting_key j <> PLAIN_WS_SETTING_KEY) items).
Proof.
  unfold splitSettingsRows. cbv beta iota.
  assert (forall l, Forall (fun b => str_eqb (setting_key b) PLAIN_WS_SETTING_KEY = false) l ->
                    Forall (fun j => setting_key j <> PLAIN_WS_SETTING_KEY) l) as Hne.
  { intros l Hl. eapply Forall_impl; [exact Hl|]. intros j Hj Hk. apply bool_decide_eq_false in Hj. done. }
  split; [|split; [apply (split_rows_spec items)|split]].
  - clear. induction items as [|i l IH]; cbn; [constructor|]. by case_match; constructor.
  - intros i Hp. apply js_find_split in Hp as (l1 & l2 & Heq & Hi & Hl1).
    apply bool_decide_eq_true in Hi. split; [|eauto 6].
    intros [_ Hn]%(split_rows_spec items). rewrite Hi in Hn. apply Hn. by left.
  - intros Hp. apply Hne. unfold js_find in Hp. apply Forall_forall. intros j Hj.
    by apply (List.find_none _ _ Hp), list_elem_of_In.
Qed.

Lemma splitSettingsRows_partition_witness :
  let setting k := {| setting_key := k; setting_value := JStr []; setting_description := None;
                      setting_mutable := None |} in
  setting (js "server.listen") ∉ rows (splitSettingsRows [setting (js "server.listen"); setting (js "log.level")]).
Proof.
  intros setting Hin.
  apply (splitSettingsRows_partition [setting (js "server.listen"); setting (js "log.level")]) in Hin as [_ Hk].
  apply Hk. apply (bool_decide_unpack _). by_evaluation.
Defined.

(** The three views of a certificate's state agree on every status text, in any case:
    the page polls exactly while the label reads 签发中, which is when the tag is blue; the
    tag is green exactly for 已签发 and red exactly for 签发失败. *)
Theorem certificate_views_agree (status : option TransportStatus) :
  let s := certificate_status status in
  (certificatePending status = true <-> certificateStateLabel s = js "签发中")
  /\ (certificateTagColor s = js "blue" <-> certificateStateLabel s = js "签发中")
  /\ (certificateTagColor s = js "green" <-> certificateStateLabel s = js "已签发")
  /\ (certificateTagColor s = js "red" <-> certificateStateLabel s = js "签发失败").
Proof.
  unfold certificatePending. cbv zeta. generalize (certificate_status status) as s. intros [v|].
  2: { split; [|split; [|split]]; vm_compute; intuition discriminate. }
  unfold certificateStateLabel, certificateTagColor. cbn [fmap option_fmap option_map js_nullish].
  generalize (toLowerCase v) as n. intros n.
  unfold one_of, existsb, str_eqb.
  repeat (case_bool_decide; [subst; split; [|split; [|split]]; vm_compute; intuition discriminate|]).
  split; [|split; [|split]]; vm_compute; intuition discriminate.
Qed.

Lemma valueOrFallback_shown (v l : option jsstr) (scheme path : jsstr) :
  scheme <> [] -> valueOrFallback v l scheme path <> [].
Proof.
  intros Hs. unfold valueOrFallback.
  destruct v as [[|? ?]|], l as [[|? ?]|]; cbn [truthy truthy_list negb]; try done;
    by destruct scheme.
Qed.

Lemma or_or_shown (a b : option jsstr) : or_or a b (js "-") <> [].
Proof. by destruct a as [[|? ?]|], b as [[|? ?]|]. Qed.

(** The address table has one row per channel, each key once and no empty value; the
    three TLS rows are there exactly when TLS is enabled, after the three plain ones. *)
Theorem endpointRows_channels (status : option TransportStatus) :
  NoDup (row_key <$> endpointRows status)
  /\ row_key <$> endpointRows status
     = [js "http"; js "ws"; js "plain-data"]
       ++ (if nextTLSState status then [] else [js "https"; js "wss"; js "tls-data"])
  /\ Forall (fun r => row_value r <> []) (endpointRows status).
Proof.
  assert (row_key <$> endpointRows status
     = [js "http"; js "ws"; js "plain-data"]
       ++ (if nextTLSState status then [] else [js "https"; js "wss"; js "tls-data"])) as Hk.
  { unfold endpointRows, nextTLSState, endpoint_enabled.
    destruct (status ≫= tls) as [e|]; [destruct (enabled e)|]; done. }
  split; [|split; [done|]].
  - rewrite Hk. destruct (nextTLSState status); apply (bool_decide_unpack _); by_evaluation.
  - unfold endpointRows.
    destruct (status ≫= tls) as [e|]; [destruct (enabled e)|]; cbn [negb app];
      repeat constructor; cbn [row row_value];
      (apply valueOrFallback_shown; vm_compute; discriminate) || apply or_or_shown.
Qed.

(** A listen address on every interface is shown with a placeholder for the server's
    address; any other is shown as it is. *)
Theorem normalizeListen_spec (l : jsstr) :
  (forall port, l = js "0.0.0.0:" ++ port -> normalizeListen l = js "服务器IP:" ++ port)
  /\ (startsWith (js "0.0.0.0:") l = false -> normalizeListen l = l).
Proof.
  unfold normalizeListen. split.
  - intros port ->. rewrite startsWith_app. cbn [negb].
    destruct (js "0.0.0.0:" ++ port) as [|c t] eqn:Heq; [by destruct port|].
    cbn [replace_first]. rewrite <-Heq, startsWith_app. by rewrite drop_app_length.
  - by intros ->.
Qed.

Lemma normalizeListen_spec_witness :
  normalizeListen (js "0.0.0.0:7000") = js "服务器IP:7000".
Proof. apply (normalizeListen_spec (js "0.0.0.0:7000")). by_evaluation. Defined.

(** The texts about automatic subdomains agree: the tag reads 已开启 exactly when a
    new HTTP tunnel is offered an automatic domain, and only then does the hint name an
    example domain; an upper-case protocol counts, a missing one does not. *)
Theorem autoSubdomain_texts_agree (config : option TransportAutoSubdomain) :
  (shouldSuggestAutoDomain (Some (js "HTTP")) config = true
   <-> startsWith (js "已开启：*.") (autoSubdomainStatusText config) = true)
  /\ (shouldSuggestAutoDomain (Some (js "https")) config = true
      <-> startsWith (js "已开启自动子域名。") (autoSubdomainHint config) = true)
  /\ shouldSuggestAutoDomain None config = false
  /\ shouldSuggestAutoDomain (Some (js "tcp")) config = false.
Proof.
  assert (forall p, (bool_decide (toLowerCase <$> Some p = Some (js "http"))
                     || bool_decide (toLowerCase <$> Some p = Some (js "https"))) = false ->
                    shouldSuggestAutoDomain (Some p) config = false) as Hp.
  { intros p Hp. unfold shouldSuggestAutoDomain. cbv zeta. rewrite Hp. by rewrite andb_false_r. }
  split; [|split; [|split]].
  3: { unfold shouldSuggestAutoDomain. cbn. by rewrite andb_false_r. }
  3: { apply Hp. by_evaluation. }
  all: destruct config as [[[|] [[|c d]|] e]|]; vm_compute; intuition discriminate.
Qed.
