(* ===== verification/UseAsync.v ===== *)
(** The hook every page loads its data with: web/dashboard/src/hooks/useAsync.ts. *)

From S2P Require Import Prelude JsString Json JsErrors Async.

#[local] Open Scope prog_scope.

Record AsyncState (T : Type) := { data : option T; loading : bool; error : option jsstr }.
Arguments data {T} a.
Arguments loading {T} a.
Arguments error {T} a.
Arguments Build_AsyncState {T} data loading error.

(** [useState({ loading: true })] *)
Definition not_loaded {T} : AsyncState T := {| data := None; loading := true; error := None |}.

Definition toMessage (e : thrown) : jsstr :=
  match e with
  | TApiError code m => if (code =? 404)%Z then js "接口尚未提供或资源不存在" else m
  | TError m => m
  | TValue _ | TUndefined => js "请求失败"
  end.

Definition started {T} (current : AsyncState T) : AsyncState T :=
  {| data := data current; loading := true; error := None |}.

Definition settled {T} (r : result thrown (option T)) : AsyncState T :=
  match r with
  | Ok d => {| data := d; loading := false; error := None |}
  | Err e => {| data := None; loading := false; error := Some (toMessage e) |}
  end.

Section UseAsync.
Context {S C O T : Type} {R : C -> Type} (hook : lens S (AsyncState T)).
Local Abbreviation M := (prog S C O thrown R).

(** [load], which the hook also returns as [reload]; the page starts it when it is
    mounted and whenever [deps] change. *)
Definition load (loader : M (option T)) : M unit :=
  modify (over hook started) ;;;
  try_catch (let* d := await_fn loader in modify (put hook (settled (Ok d))))
            (fun e => modify (put hook (settled (Err e)))).
End UseAsync.

(** ** Properties *)

Section UseAsyncProperties.
Context {S C O T : Type} {R : C -> Type} (hook : lens S (AsyncState T)).
Local Abbreviation M := (prog S C O thrown R).

Lemma load_evaluates (loader : M (option T)) (s s' : S) tr (r : result thrown unit) :
  evaluates (load hook loader) s tr r s' ->
  r = Ok tt
  /\ exists outcome s1, evaluates loader (put hook (started (view hook s)) s) tr outcome s1
       /\ s' = put hook (settled outcome) s1 /\ view hook s' = settled outcome.
Proof.
  intros Hev. apply evaluates_bind in Hev
    as (tr1 & tr2 & s1 & -> & [([] & Hm & Hev)|(e & Hm & _)]); [|by destruct Hm as (_ & ? & _)].
  destruct Hm as (-> & _ & ->). apply evaluates_continue in Hev
    as (tr1 & tr3 & s2 & -> & [([] & Hev & -> & -> & ->)|(e & Hev & Hh)]);
    rewrite ?app_nil_r.
  - apply evaluates_bind in Hev as (tr4 & tr5 & s3 & -> & [(d & Hd & Hev)|(? & _ & _ & ? & _)]); [|done].
    rewrite evaluates_await_fn in Hd. destruct Hev as (-> & _ & ->). rewrite app_nil_r.
    split; [done|]. exists (Ok d), s3. by rewrite view_put.
  - destruct Hh as (-> & -> & ->). rewrite app_nil_r. split; [done|].
    apply evaluates_bind in Hev as (tr4 & tr5 & s3 & -> & [(d & _ & Hev)|(e' & Hd & -> & [= ->] & ->)]).
    + by destruct Hev as (_ & ? & _).
    + rewrite evaluates_await_fn in Hd. rewrite app_nil_r. exists (Err e'), s3. by rewrite view_put.
Qed.

(** A load never throws; once the loader is over, the hook holds exactly its
    outcome - the data without an error, or the message without data - and is no
    longer loading; while the loader runs, the old data stays, the old error is gone. *)
Theorem load_outcome (loader : M (option T)) (s s' : S) tr (r : result thrown unit) :
  evaluates (load hook loader) s tr r s' ->
  r = Ok tt
  /\ exists outcome s1, evaluates loader (put hook (started (view hook s)) s) tr outcome s1
       /\ s' = put hook (settled outcome) s1 /\ view hook s' = settled outcome.
Proof. apply load_evaluates. Qed.

(** A load promises the end of the spinner it starts, whatever it loads. *)
Lemma load_discharges (loader : M (option T)) (owes : bool) :
  preserves (fun s => loading (view hook s)) loader ->
  discharges (fun s => loading (view hook s)) owes (load hook loader).
Proof.
  intros Hl. cbn. right. right. apply discharges_try.
  - by apply preserves_await_fn.
  - intros d. cbn. left. split; [|done]. intros s. by rewrite view_put.
  - intros e. cbn. left. split; [|done]. intros s. by rewrite view_put.
Qed.
End UseAsyncProperties.

Definition whole_state {T} : lens T T := Lens (fun s => s) (fun a _ => a) (fun _ _ => eq_refl).

Lemma load_outcome_witness :
  (Ok tt : result thrown unit) = Ok tt
  /\ exists outcome s1,
       evaluates (C := unit) (O := unit) (R := fun _ => unit) (Ret (Some JNull)) (started (T := json) not_loaded) []
         outcome s1 /\ settled (T := json) (Ok (Some JNull)) = settled outcome.
Proof.
  destruct (load_outcome (C := unit) (O := unit) (R := fun _ => unit) (whole_state (T := AsyncState json)) (Ret (Some JNull))
              not_loaded (settled (Ok (Some JNull))) [] (Ok tt)) as (Hr & o & s1 & He & _ & Hv).
  - cbn. done.
  - split; [exact Hr|]. by exists o, s1.
Defined.
