(* ===== verification/Dashboard.v ===== *)
(** The frame of the dashboard: web/dashboard/src/App.tsx and pages/LoginPage.tsx. *)

From S2P Require Import Prelude JsString JsNumber Json JsErrors WebPlatform Async Session ApiClient UseAsync.

#[local] Open Scope prog_scope.

(** ** The page and the browser it runs in *)

(** localStorage, and the state of [DashboardApp]: its listener of
    [nrynet:unauthorized] runs while the event is dispatched. *)
Record browser := { local_storage : Storage; authenticated : bool; active : jsstr }.

(** The browser and the component on display. *)
Record app (X : Type) := { shell : browser; page : X }.
Arguments shell {X} a.
Arguments page {X} a.
Arguments Build_app {X} shell page.

Definition with_storage (m : Storage) (b : browser) : browser :=
  {| local_storage := m; authenticated := authenticated b; active := active b |}.
Definition setAuthenticated (v : bool) (b : browser) : browser :=
  {| local_storage := local_storage b; authenticated := v; active := active b |}.
Definition setActive (v : jsstr) (b : browser) : browser :=
  {| local_storage := local_storage b; authenticated := authenticated b; active := v |}.

#[export, refine] Instance app_window (X : Type) : Window (app X) := {|
  storage := fun s => local_storage (shell s);
  set_storage := fun m s => {| shell := with_storage m (shell s); page := page s |};
  on_unauthorized := fun s => {| shell := setAuthenticated false (shell s); page := page s |}
|}.
Proof. all: done. Defined.

Abbreviation action X A := (prog (app X) api_call ui_effect thrown api_result A) (only parsing).

(** A piece of the component's own state. *)
Definition field {X A} (l : lens X A) : lens (app X) A :=
  Lens (fun s => view l (page s)) (fun a s => {| shell := shell s; page := put l a (page s) |})
       (fun a s => view_put l a (page s)).

Definition setPage {X} (f : X -> X) : app X -> app X :=
  fun s => {| shell := shell s; page := f (page s) |}.

(** ** DashboardApp *)

Definition pages : list (jsstr * jsstr) :=
  [(js "overview", js "概览"); (js "clients", js "客户端"); (js "tokens", js "令牌");
   (js "tunnels", js "隧道"); (js "relays", js "中继"); (js "traffic", js "流量");
   (js "logs", js "日志"); (js "settings", js "设置")].

Definition activePage (b : browser) : option (jsstr * jsstr) :=
  js_nullish_opt (js_find (fun p => str_eqb (fst p) (active b)) pages) (head pages).

(** The first render; the lookup may migrate the stored session. *)
Definition mounted (m : Storage) : browser :=
  {| local_storage := snd (getSession m); authenticated := present (fst (getSession m));
     active := js "overview" |}.

Definition logout (b : browser) : browser :=
  setAuthenticated false (with_storage (clearSession (local_storage b)) b).

(** ** LoginPage *)

Record LoginState := { login_loading : bool; login_error : option jsstr }.

Definition setLoading (v : bool) (s : LoginState) : LoginState :=
  {| login_loading := v; login_error := login_error s |}.
Definition setError (v : option jsstr) (s : LoginState) : LoginState :=
  {| login_loading := login_loading s; login_error := v |}.

Definition onSuccess : action LoginState unit :=
  modify (fun s => {| shell := setAuthenticated true (shell s); page := page s |}).

Definition submit (username password : jsstr) : action LoginState unit :=
  modify (setPage (setLoading true)) ;;;
  modify (setPage (setError None)) ;;;
  finally (try_catch (await_fn (login username password) ;;; onSuccess)
                     (fun err => modify (setPage (setError (Some (toMessage err))))))
          (modify (setPage (setLoading false))).

Inductive login_event := Submit (username password : jsstr).
Definition login_enabled (ev : login_event) (s : app LoginState) : bool := negb (login_loading (page s)).
Definition login_handler (ev : login_event) (_ : app LoginState) : action LoginState unit :=
  match ev with Submit u p => submit u p end.

(** ** Properties *)

Lemma pages_nodup : NoDup (fst <$> pages).
Proof. apply (bool_decide_unpack _). by_evaluation. Qed.

(** Some page is always on display: the one the menu entry names - every entry leads
    to its own page - and the overview for any other key. *)
Theorem activePage_spec (b : browser) :
  (forall p, p ∈ pages -> activePage (setActive (fst p) b) = Some p)
  /\ (active b ∉ fst <$> pages -> activePage b = Some (js "overview", js "概览")).
Proof.
  split.
  - intros p Hp. unfold pages in Hp. unfold activePage. cbn [active setActive].
    set_unfold in Hp. repeat (destruct Hp as [-> |Hp]; [by_evaluation|]). done.
  - intros Ha. unfold activePage.
    assert (js_find (fun p => str_eqb (fst p) (active b)) pages = None) as ->; [|done].
    unfold js_find. destruct (List.find _ pages) as [p|] eqn:Hf; [|done]. exfalso.
    apply List.find_some in Hf as [Hin He]. apply bool_decide_eq_true in He.
    apply Ha. rewrite <-He. apply list_elem_of_fmap. exists p. split; [done|].
    by apply list_elem_of_In.
Qed.

Lemma activePage_spec_witness :
  activePage (setActive (js "logs") (mounted empty_storage)) = Some (js "logs", js "日志").
Proof.
  refine (proj1 (activePage_spec (mounted empty_storage)) (js "logs", js "日志") _). apply list_elem_of_In. vm_compute. tauto.
Defined.

(** Signing out is final: after the button, and after any answer 401, the page shows
    the login form, and so it does after a reload, since no session can be found. *)
Theorem sign_out_final {X : Type} (s : app X) (b : browser) :
  (authenticated (logout b) = false
   /\ authenticated (mounted (local_storage (logout b))) = false)
  /\ (authenticated (shell (signed_out s)) = false
      /\ authenticated (mounted (storage (signed_out s))) = false).
Proof.
  split; split; try done; unfold mounted; cbn [authenticated].
  - cbn. by rewrite getSession_clear.
  - rewrite storage_signed_out. by rewrite getSession_clear.
Qed.

Lemma app_page_storage {X : Type} (m : Storage) (s : app X) : page (set_storage m s) = page s.
Proof. done. Qed.
Lemma app_page_out {X : Type} (s : app X) : page (on_unauthorized s) = page s.
Proof. done. Qed.
#[export] Hint Resolve app_page_storage app_page_out : frame.

Lemma submit_discharges (u p : jsstr) :
  discharges (fun s => login_loading (page s)) false (submit u p).
Proof.
  apply discharges_taken, discharges_modify_bind; [done|]. apply discharges_finally.
  - apply preserves_continue; [|done|done].
    apply preserves_bind; [apply preserves_await_fn|done].
    apply (preserves_proj page). by apply preserves_login.
  - by apply discharges_paid.
Qed.

(** The login button never spins for ever: whenever it does, whatever was clicked and
    however the answers came in, some submission is still under way, and that one will
    stop it when it ends. *)
Theorem login_spinner_ends (s0 : app LoginState) (y : sys (app LoginState) api_call ui_effect thrown api_result) :
  login_loading (page s0) = false ->
  reachable login_enabled login_handler s0 y -> login_loading (page (st y)) = true ->
  exists t, t ∈ threads y /\ thread_discharges (fun s => login_loading (page s)) true t.
Proof.
  intros H0 Hy. apply (promise_inv_owed (fun s => login_loading (page s))).
  eapply (promise_invariant login_enabled login_handler (fun s => login_loading (page s))); [| |exact Hy].
  - exists []. cbn. rewrite H0. split; [constructor|done].
  - intros [u p] s _. apply submit_discharges.
Qed.

(** A login form in a browser with nothing stored. *)
Definition login_page : app LoginState :=
  {| shell := mounted empty_storage; page := {| login_loading := false; login_error := None |} |}.

Lemma login_spinner_ends_witness :
  let y := exec (submit (js "root") (js "pw")) login_page [] [] in
  exists t, t ∈ threads y /\ thread_discharges (fun s => login_loading (page s)) true t.
Proof.
  apply (login_spinner_ends login_page); [done| |by_evaluation].
  by apply (reachable_event login_enabled login_handler (initial login_page) (initial login_page)
              (Submit (js "root") (js "pw")) (rtc_refl _ _)).
Defined.

(** When the network fails, the page shows the browser's own words: a rejected [fetch]
    is not an ApiError, so its message reaches the user as it is, and the rule that
    translates it is never consulted. *)
Theorem network_failure_untranslated (path : jsstr) (o : RequestInit) (s s' : app LoginState)
    (res : result thrown (option json)) (init : FetchInit) :
  evaluates (request path o : action LoginState _) s
    [Settled (Fetch path init) (Err (TError (js "Failed to fetch")))] res s' ->
  exists e, res = Err e /\ toMessage e = js "Failed to fetch"
            /\ hasChinese (toMessage e) = false
            /\ mappedErrorMessage (toMessage e) = js "网络连接失败".
Proof.
  intros Hev. apply request_shape in Hev as [[? _]|(h & s1 & _ & [(e & Htr & -> & _)|(r & _ & Hr)])]; [done|..].
  - exists e. injection Htr as _ He. subst e. repeat split; by_evaluation.
  - destruct (status r =? 204)%Z; [destruct Hr as [Hr _]|destruct Hr as (b & Hr & _)]; done.
Qed.

Lemma network_failure_untranslated_witness :
  exists e : thrown, toMessage e = js "Failed to fetch".
Proof.
  destruct (network_failure_untranslated (js "/api/overview") no_options login_page login_page
    (Err (TError (js "Failed to fetch"))) (fetch_get plain_headers)) as (e & _ & He & _).
  - apply (play_evaluates (fun c => Err (TError (js "Failed to fetch")))). by_evaluation.
  - by exists e.
Defined.
