(* ===== verification/ClientsPage.v ===== *)
(** The clients page: web/dashboard/src/pages/ClientsPage.tsx. *)

From stdpp Require Import relations.
From S2P Require Import Prelude JsString JsNumber Json JsErrors WebPlatform Async Session ApiClient DashTypes DashFormat UseAsync Dashboard.

#[local] Open Scope prog_scope.

(** ** State *)

(** [detail] is the server's answer as it came, cast to ClientDetail by the code;
    [detailRequest] is the ref that numbers the requests for one. *)
Record ClientsState := {
  clients_list : AsyncState json;
  detail : option json;
  editing : option Client;
  tokenValue : option json;
  detailRequest : Z
}.

Definition clients_initial : ClientsState :=
  {| clients_list := not_loaded; detail := None; editing := None; tokenValue := None; detailRequest := 0 |}.

Definition setDetail (v : option json) (s : ClientsState) : ClientsState :=
  {| clients_list := clients_list s; detail := v; editing := editing s;
     tokenValue := tokenValue s; detailRequest := detailRequest s |}.
Definition setEditing (v : option Client) (s : ClientsState) : ClientsState :=
  {| clients_list := clients_list s; detail := detail s; editing := v;
     tokenValue := tokenValue s; detailRequest := detailRequest s |}.
Definition setTokenValue (v : option json) (s : ClientsState) : ClientsState :=
  {| clients_list := clients_list s; detail := detail s; editing := editing s;
     tokenValue := v; detailRequest := detailRequest s |}.
Definition bumpRequest (s : ClientsState) : ClientsState :=
  {| clients_list := clients_list s; detail := detail s; editing := editing s;
     tokenValue := tokenValue s; detailRequest := detailRequest s + 1 |}.
Definition setClients (v : AsyncState json) (s : ClientsState) : ClientsState :=
  {| clients_list := v; detail := detail s; editing := editing s;
     tokenValue := tokenValue s; detailRequest := detailRequest s |}.

Definition clients_hook : lens (app ClientsState) (AsyncState json) :=
  field (Lens clients_list setClients (fun _ _ => eq_refl)).

(** ** Handlers *)

Local Abbreviation M := (action ClientsState unit).

Definition reload_clients : M := load clients_hook listClients.

(** [if (request === detailRequest.current) setDetail(next)] *)
Definition acceptDetail (request : Z) (next : option json) : M :=
  Read (fun s => if (request =? detailRequest (page s))%Z then modify (setPage (setDetail next)) else skip).

Definition loadDetail (client : Client) : M :=
  modify (setPage bumpRequest) ;;;
  let* request := gets (fun s => detailRequest (page s)) in
  let* next := await_fn (getClient (client_id client)) in
  acceptDetail request next.

Definition closeDetail : M := modify (setPage bumpRequest) ;;; modify (setPage (setDetail None)).

(** [editing] is the one of the render the form belongs to. *)
Definition saveEdit (s : app ClientsState) (name : jsstr) (disabled : bool) : M :=
  match editing (page s) with
  | None => skip
  | Some client =>
    let* _ := await_fn (updateClient (client_id client)
                [(js "name", Some (JStr name)); (js "disabled", Some (JBool disabled))]) in
    modify (setPage (setEditing None)) ;;;
    await_fn reload_clients
  end.

Definition remove (client : Client) : M := say (Confirm (js "删除 " ++ client_name client ++ js "?")).

(** [onOk] of that dialog. *)
Definition remove_confirmed (client : Client) : M :=
  let* _ := await_fn (deleteClient (client_id client)) in
  say (Message Success (js "客户端已删除")) ;;;
  await_fn reload_clients.

Definition resetToken (client : Client) : M :=
  let* answer := await_fn (resetClientToken (client_id client)) in
  match prop answer (js "value") with
  | Ok v => modify (setPage (setTokenValue v))
  | Err e => Throw e
  end.

Inductive clients_event :=
| Reload
| ViewClient (client : Client)
| CloseDetail
| EditClient (client : Client)
| CancelEdit
| SaveEdit (name : jsstr) (disabled : bool)
| ResetToken (client : Client)
| CloseToken
| Remove (client : Client)
| ConfirmRemove (client : Client).

(** The editor saves only while it is open, the drawer closes only while it is open;
    the buttons are otherwise always there. *)
Definition clients_enabled (ev : clients_event) (s : app ClientsState) : bool :=
  match ev with
  | SaveEdit _ _ | CancelEdit => present (editing (page s))
  | CloseDetail => present (detail (page s))
  | CloseToken => truthy (tokenValue (page s))
  | _ => true
  end.

Definition clients_handler (ev : clients_event) (s : app ClientsState) : M :=
  match ev with
  | Reload => reload_clients
  | ViewClient c => loadDetail c
  | CloseDetail => closeDetail
  | EditClient c => modify (setPage (setEditing (Some c)))
  | CancelEdit => modify (setPage (setEditing None))
  | SaveEdit n d => saveEdit s n d
  | ResetToken c => resetToken c
  | CloseToken => modify (setPage (setTokenValue None))
  | Remove c => remove c
  | ConfirmRemove c => remove_confirmed c
  end.

(** ** What each handler leaves alone *)

Lemma preserves_load {X Y T} (hook : lens (app X) (AsyncState T)) (proj : app X -> Y)
    (loader : action X (option T)) :
  (forall a s, proj (put hook a s) = proj s) -> preserves proj loader ->
  preserves proj (load hook loader).
Proof.
  intros Hput Hl. apply preserves_bind; [by apply preserves_modify; intros; apply Hput|intros _].
  apply preserves_continue; [|done|by intros e; apply preserves_modify; intros; apply Hput].
  apply preserves_bind; [by apply preserves_await_fn|].
  intros d. apply preserves_modify. intros. apply Hput.
Qed.

Definition shown (s : app ClientsState) : Z * option json := (detailRequest (page s), detail (page s)).

Lemma preserves_reload_shown : preserves shown reload_clients.
Proof. apply preserves_load; [done|]. by apply preserves_items, preserves_request. Qed.

Lemma preserves_handler_shown (ev : clients_event) (s : app ClientsState) :
  match ev with ViewClient _ | CloseDetail => True | _ => preserves shown (clients_handler ev s) end.
Proof.
  destruct ev as [|c| |c| |n d|c| |c|c]; try done; cbn [clients_handler].
  - apply preserves_reload_shown.
  - unfold saveEdit. case_match; [|done].
    apply preserves_bind; [by apply preserves_await_fn, preserves_request|intros _].
    apply preserves_bind; [by apply preserves_modify|intros _].
    apply preserves_await_fn, preserves_reload_shown.
  - apply preserves_bind; [by apply preserves_await_fn, preserves_request|intros v].
    case_match; [by apply preserves_modify|done].
  - apply preserves_bind; [by apply preserves_await_fn, preserves_request|intros _].
    apply preserves_bind; [done|intros _]. apply preserves_await_fn, preserves_reload_shown.
Qed.

(** ** The drawer *)

Definition version (s : app ClientsState) : Z := detailRequest (page s).
Definition drawer (s : app ClientsState) : option json := detail (page s).

(** The part of [loadDetail] after the ref was bumped to [request]. *)
Definition await_detail (client : Client) (request : Z) : M :=
  let* next := await_fn (getClient (client_id client)) in
  acceptDetail request next.

Lemma await_detail_stable (m : Z) (c : Client) (request : Z) (s : app ClientsState) :
  m <> request -> stable version drawer m (await_detail c request) s.
Proof.
  intros Hm. apply stable_bind.
  - apply stable_await_fn, stable_preserves. by apply preserves_request.
  - intros next s'. unfold acceptDetail. cbn. destruct (Z.eqb_spec request (detailRequest (page s'))); cbn; [|done].
    unfold version. cbn. repeat split; lia.
Qed.

Lemma loadDetail_stable (m : Z) (c : Client) (s : app ClientsState) :
  m <> (version s + 1)%Z -> version s <> m -> stable version drawer m (loadDetail c) s.
Proof.
  intros Hm Hs. split; [unfold version; cbn; lia|]. split; [done|].
  by apply (await_detail_stable m c (version s + 1)).
Qed.

Lemma closeDetail_stable (m : Z) (s : app ClientsState) :
  m <> (version s + 1)%Z -> version s <> m -> stable version drawer m closeDetail s.
Proof. intros ? ?. cbn. unfold version, drawer in *. repeat split; cbn; lia. Qed.

Lemma handler_stable (ev : clients_event) (s s' : app ClientsState) os o :
  run (clients_handler ev s) s = (s', os, o) ->
  (version s <= version s')%Z
  /\ forall m, (version s' < m)%Z -> stable version drawer m (clients_handler ev s) s.
Proof.
  intros Hr. pose proof (preserves_handler_shown ev s) as Hp.
  destruct ev; cbn [clients_handler] in *;
    try (split; [|by intros; apply stable_preserves];
         apply (run_preserves _ _ _ _ _ _ Hp) in Hr as [Hr _]; injection Hr as Hv _;
         unfold version; lia).
  - change (run (await_detail client (version s + 1)) (setPage bumpRequest s) = (s', os, o)) in Hr.
    destruct (run_stable version drawer (version s + 2) _ _ _ _ _
                (await_detail_stable (version s + 2) client (version s + 1) _ ltac:(lia)) Hr) as (Hle & _ & _).
    change (version (setPage bumpRequest s)) with (version s + 1)%Z in Hle.
    split; [lia|]. intros m Hm. apply loadDetail_stable; lia.
  - injection Hr as <- _ _. change (version _) with (version s + 1)%Z at 2.
    split; [lia|]. intros m Hm. change (version _) with (version s + 1)%Z in Hm.
    apply closeDetail_stable; lia.
Qed.

Abbreviation clients_sys := (sys (app ClientsState) api_call ui_effect thrown api_result) (only parsing).

Lemma clients_outdated (y0 y : clients_sys) :
  threads y0 = [] -> reachable_from clients_enabled clients_handler y0 y ->
  Forall (outdated version drawer (version (st y))) (threads y).
Proof. intros H0. apply outdated_invariant; [done|]. intros ev s s' os o. apply handler_stable. Qed.


(** Whatever is not opening a client keeps a closed drawer closed, and leaves nothing under way
    that opens it. *)
Lemma handler_keeps_closed (v : Z) (ev : clients_event) (s s' : app ClientsState) os o :
  match ev with ViewClient _ => False | _ => True end -> (v < version s)%Z -> drawer s = None ->
  run (clients_handler ev s) s = (s', os, o) ->
  (v < version s')%Z /\ drawer s' = None /\ Forall (outdated version drawer v) (suspended o).
Proof.
  intros Hev Hv Hd Hr. assert (ev = CloseDetail \/ ev <> CloseDetail) as [->|Hne] by (destruct ev; auto; by right).
  - injection Hr as <- _ <-. split; [unfold version in *; cbn; lia|]. by split; [|constructor].
  - pose proof (preserves_handler_shown ev s) as Hp.
    assert (preserves shown (clients_handler ev s)) as Hps by by destruct ev.
    destruct (run_preserves _ _ _ _ _ _ Hps Hr) as [Heq _]. injection Heq as He1 He2. unfold version, drawer in *.
    rewrite He1, He2. split; [done|]. split; [done|]. apply Forall_forall. intros t Ht m Hm.
    destruct (run_stable version drawer m _ _ _ _ _ (stable_preserves _ _ _ _ _ Hps) Hr) as (_ & _ & Hts). by eapply Forall_forall.
Qed.

(** A closed drawer stays closed: from the moment it is closed, nothing that happens -
    answers to requests still in flight included - opens it, until a client is opened
    again. *)
Theorem closed_drawer_stays_closed (y0 y y' : clients_sys) :
  threads y0 = [] -> reachable_from clients_enabled clients_handler y0 y ->
  reachable_from (fun ev s => match ev with ViewClient _ => false | _ => clients_enabled ev s end)
    clients_handler (spawn closeDetail y) y' ->
  drawer (st y') = None.
Proof.
  intros H0 Hy. pose proof (clients_outdated _ _ H0 Hy) as Hout.
  apply (outdated_stays _ _ version drawer (fun d => d = None) (version (st y))); [..|].
  - unfold spawn, exec, version. cbn. lia.
  - done.
  - unfold spawn, exec. cbn. by rewrite app_nil_r.
  - intros ev s s' os o He. apply handler_keeps_closed. by destruct ev.
Qed.

(** ** The spinner *)

Lemma clients_discharges (ev : clients_event) (s : app ClientsState) :
  discharges (fun s => loading (view clients_hook s)) false (clients_handler ev s).
Proof.
  assert (discharges (fun s => loading (view clients_hook s)) false reload_clients) as Hload.
  { by apply load_discharges, preserves_items, preserves_request. }
  destruct ev as [|c| |c| |n d|c| |c|c]; cbn [clients_handler];
    try (apply discharges_preserves; done).
  - exact Hload.
  - apply discharges_preserves, preserves_bind; [done|intros _].
    apply preserves_bind; [done|intros v].
    apply preserves_bind; [by apply preserves_await_fn, preserves_request|].
    intros next s'. by case_match.
  - unfold saveEdit. case_match; [|done].
    apply discharges_bind; [by apply discharges_preserves, preserves_await_fn, preserves_request|intros _].
    apply discharges_modify_bind; [done|]. by apply discharges_await_fn.
  - apply discharges_preserves, preserves_bind; [by apply preserves_await_fn, preserves_request|].
    intros v. by case_match.
  - apply discharges_bind; [by apply discharges_preserves, preserves_await_fn, preserves_request|intros _].
    apply discharges_bind; [done|intros _]. by apply discharges_await_fn.
Qed.

(** The page as mounting leaves it: the list is being loaded. *)
Definition clients_mounted (b : browser) : clients_sys :=
  spawn reload_clients (initial {| shell := b; page := clients_initial |}).

(** The clients page is never stuck loading: whenever it shows the spinner, whatever
    was clicked and in whatever order the server answered, some load of the list is still
    under way that will take the spinner away. *)
Theorem clients_spinner_ends (b : browser) (y : clients_sys) :
  reachable_from clients_enabled clients_handler (clients_mounted b) y ->
  loading (clients_list (page (st y))) = true ->
  exists t, t ∈ threads y
            /\ thread_discharges (fun s => loading (view clients_hook s)) true t.
Proof.
  intros Hy. apply (promise_inv_owed (fun s => loading (view clients_hook s))).
  eapply (promise_invariant clients_enabled clients_handler (fun s => loading (view clients_hook s)));
    [| |exact Hy].
  - eapply (exec_discharges _ _ true); [|constructor|by right].
    by apply load_discharges, preserves_items, preserves_request.
  - intros ev s _. apply clients_discharges.
Qed.

(** *** Executions *)

Definition sample_client (id : jsstr) : Client :=
  {| client_id := id; client_name := id; client_device_id := []; client_token_id := [];
     client_status := js "online"; client_disabled := false; client_ip := []; client_os := [];
     client_version := []; client_last_online := []; client_created_at := [] |}.

Definition idle_clients : clients_sys :=
  initial {| shell := mounted empty_storage; page := clients_initial |}.

(** The first client was opened, its details are on their way. *)
Definition one_opened : clients_sys := spawn (loadDetail (sample_client (js "a"))) idle_clients.

Lemma one_opened_reachable : reachable_from clients_enabled clients_handler idle_clients one_opened.
Proof.
  by apply (reachable_event clients_enabled clients_handler idle_clients idle_clients
              (ViewClient (sample_client (js "a"))) (rtc_refl _ _)).
Qed.

Lemma closed_drawer_stays_closed_witness : drawer (st (spawn closeDetail one_opened)) = None.
Proof.
  apply (closed_drawer_stays_closed idle_clients one_opened); [done|exact one_opened_reachable|].
  apply rtc_refl.
Defined.

Lemma clients_spinner_ends_witness :
  exists t, t ∈ threads (clients_mounted (mounted empty_storage))
            /\ thread_discharges (fun s => loading (view clients_hook s)) true t.
Proof. apply (clients_spinner_ends (mounted empty_storage)); [apply rtc_refl|by_evaluation]. Defined.

