(* ===== verification/TunnelsPage.v ===== *)
(** The tunnels page: web/dashboard/src/pages/TunnelsPage.tsx. *)

From S2P Require Import Prelude JsString JsNumber Json JsErrors WebPlatform Async Session ApiClient DashTypes DashFormat UseAsync Dashboard.

#[local] Open Scope prog_scope.

(** ** The editor's form *)

(** The fields the form registers. [None] is [null] in the number fields (one that was
    cleared) and [undefined] in the others (a member the tunnel did not have). *)
Record TunnelForm := {
  form_name : jsstr; form_client_id : jsstr; form_protocol : jsstr; form_status : option jsstr;
  form_local_host : jsstr; form_local_port : option Z; form_remote_port : option Z;
  form_domain : option jsstr; form_ip_allowlist_text : option jsstr
}.

(** What is sent. *)
Record TunnelPayload := {
  payload_name : jsstr; payload_client_id : jsstr; payload_protocol : jsstr;
  payload_status : jsstr; payload_local_host : jsstr; payload_local_port : option Z;
  payload_remote_port : option Z; payload_domain : option jsstr; payload_ip_allowlist : list jsstr
}.

Definition number_or_null (v : option Z) : json := match v with Some z => JInt z | None => JNull end.

Definition payload_body (p : TunnelPayload) : list (jsstr * option json) :=
  [(js "name", Some (JStr (payload_name p))); (js "client_id", Some (JStr (payload_client_id p)));
   (js "protocol", Some (JStr (payload_protocol p))); (js "status", Some (JStr (payload_status p)));
   (js "local_host", Some (JStr (payload_local_host p)));
   (js "local_port", Some (number_or_null (payload_local_port p)));
   (js "remote_port", Some (number_or_null (payload_remote_port p)));
   (js "domain", JStr <$> payload_domain p);
   (js "ip_allowlist", Some (JArr (JStr <$> payload_ip_allowlist p)))].

(** [text.split(",").map((item) => item.trim()).filter(Boolean)] *)
Definition parse_allowlist (text : jsstr) : list jsstr :=
  List.filter truthy (trim <$> split_on 44 text).

Definition normalize (values : TunnelForm) : TunnelPayload :=
  let list := js_nullish (parse_allowlist <$> form_ip_allowlist_text values) [] in
  let visitor := str_eqb (form_protocol values) (js "visitor_webrtc") in
  {| payload_name := form_name values; payload_client_id := form_client_id values;
     payload_protocol := form_protocol values;
     payload_status := js_or_def (form_status values) (js "stopped");
     payload_local_host := form_local_host values; payload_local_port := form_local_port values;
     payload_remote_port := if visitor then Some 0%Z else form_remote_port values;
     payload_domain := if visitor then Some (js "") else form_domain values;
     payload_ip_allowlist := list |}.

Definition needsRemotePort (protocol : option jsstr) : bool :=
  bool_decide (protocol = Some (js "tcp")) || bool_decide (protocol = Some (js "p2p"))
  || bool_decide (protocol = Some (js "udp")).

(** [emptyTunnel(clientID)] at the moment whose ISO text is [now]. *)
Definition emptyTunnel (now : jsstr) (clientID : option jsstr) : Tunnel :=
  {| tunnel_id := js ""; tunnel_client_id := js_nullish clientID (js ""); tunnel_name := js "";
     tunnel_protocol := js "tcp"; tunnel_visitor_token := None; tunnel_local_host := js "127.0.0.1";
     tunnel_local_port := 8080; tunnel_remote_port := 6000; tunnel_domain := js "";
     tunnel_status := js "stopped"; tunnel_ip_allowlist := Some []; tunnel_created_at := now;
     tunnel_updated_at := now |}.

(** The values the form opens with. *)
Definition initial_values (t : Tunnel) : TunnelForm :=
  {| form_name := tunnel_name t; form_client_id := tunnel_client_id t;
     form_protocol := tunnel_protocol t; form_status := Some (tunnel_status t);
     form_local_host := tunnel_local_host t; form_local_port := Some (tunnel_local_port t);
     form_remote_port := Some (tunnel_remote_port t); form_domain := Some (tunnel_domain t);
     form_ip_allowlist_text := join (js ",") <$> tunnel_ip_allowlist t |}.

Definition set_remote_port (v : option Z) (f : TunnelForm) : TunnelForm :=
  {| form_name := form_name f; form_client_id := form_client_id f; form_protocol := form_protocol f;
     form_status := form_status f; form_local_host := form_local_host f;
     form_local_port := form_local_port f; form_remote_port := v; form_domain := form_domain f;
     form_ip_allowlist_text := form_ip_allowlist_text f |}.
Definition set_domain (v : option jsstr) (f : TunnelForm) : TunnelForm :=
  {| form_name := form_name f; form_client_id := form_client_id f; form_protocol := form_protocol f;
     form_status := form_status f; form_local_host := form_local_host f;
     form_local_port := form_local_port f; form_remote_port := form_remote_port f; form_domain := v;
     form_ip_allowlist_text := form_ip_allowlist_text f |}.

(** The effect that runs when the form opens and when the protocol changes. *)
Definition editor_effect (protocol : option jsstr) (form : TunnelForm) : TunnelForm :=
  if bool_decide (protocol = Some (js "visitor_webrtc"))
  then set_domain (Some (js "")) (set_remote_port (Some 0%Z) form)
  else if bool_decide (form_remote_port form = Some 0%Z) then set_remote_port (Some 6000%Z) form
  else form.

(** ** Where a tunnel is reached *)

Definition visitorURL (origin : jsstr) (tunnel : Tunnel) : result thrown jsstr :=
  match tunnel_visitor_token tunnel with
  | Some token =>
    if negb (truthy token) then Ok (js "")
    else match encodeURIComponent (tunnel_id tunnel), encodeURIComponent token with
         | Some i, Some t => Ok (origin ++ js "/visitor/" ++ i ++ js "/" ++ t)
         | _, _ => Err (TError (js "URI malformed"))
         end
  | None => Ok (js "")
  end.

Inductive endpoint_cell := PlainText (text : jsstr) | Link (url : jsstr).

Definition TunnelEndpoint (origin : jsstr) (tunnel : Tunnel) : result thrown endpoint_cell :=
  if negb (str_eqb (tunnel_protocol tunnel) (js "visitor_webrtc"))
  then Ok (PlainText (if truthy (tunnel_domain tunnel) then tunnel_domain tunnel
                      else if truthy (tunnel_remote_port tunnel)
                           then int_to_string (tunnel_remote_port tunnel) else js "-"))
  else match visitorURL origin tunnel with
       | Ok url => Ok (if negb (truthy url) then PlainText (js "-") else Link url)
       | Err e => Err e
       end.

(** ** The page *)

Record tunnels_data := { loaded_tunnels : option json; loaded_clients : option json;
                         loaded_transport : option json }.

Record TunnelsState := { tunnels_list : AsyncState tunnels_data; editing : option Tunnel }.

Definition setList (v : AsyncState tunnels_data) (s : TunnelsState) : TunnelsState :=
  {| tunnels_list := v; editing := editing s |}.
Definition setEditing (v : option Tunnel) (s : TunnelsState) : TunnelsState :=
  {| tunnels_list := tunnels_list s; editing := v |}.

Definition tunnels_hook : lens (app TunnelsState) (AsyncState tunnels_data) :=
  field (Lens tunnels_list setList (fun _ _ => eq_refl)).

Local Abbreviation M := (action TunnelsState unit).

(** The three lists are fetched one after the other. *)
Definition tunnels_loader : action TunnelsState (option tunnels_data) :=
  let* t := await_fn listTunnels in
  let* c := await_fn listClients in
  let* tr := await_fn transport in
  Ret (Some {| loaded_tunnels := t; loaded_clients := c; loaded_transport := tr |}).

Definition reload_tunnels : M := load tunnels_hook tunnels_loader.

Definition submit (s : app TunnelsState) (values : TunnelForm) : M :=
  let payload := payload_body (normalize values) in
  (let* _ := match editing (page s) with
             | Some t => if truthy (tunnel_id t) then await_fn (updateTunnel (tunnel_id t) payload)
                         else await_fn (createTunnel payload)
             | None => await_fn (createTunnel payload)
             end in
   modify (setPage (setEditing None)) ;;;
   await_fn reload_tunnels).

Definition toggle (tunnel : Tunnel) : M :=
  let* _ := if str_eqb (tunnel_status tunnel) (js "running")
            then await_fn (stopTunnel (tunnel_id tunnel))
            else await_fn (startTunnel (tunnel_id tunnel)) in
  await_fn reload_tunnels.

Definition remove (tunnel : Tunnel) : M := say (Confirm (js "删除 " ++ tunnel_name tunnel ++ js "?")).

Definition remove_confirmed (tunnel : Tunnel) : M :=
  let* _ := await_fn (deleteTunnel (tunnel_id tunnel)) in
  say (Message Success (js "隧道已删除")) ;;;
  await_fn reload_tunnels.

(** ** Properties *)

(** *** The allowlist *)

(** An entry the list can hold: non-empty, trimmed, no comma in it. *)
Definition entry_ok (e : jsstr) : Prop := e <> [] /\ trimmed e /\ 44%N ∉ e.

Lemma trim_free (c : N) (s : jsstr) : c ∉ s -> c ∉ trim s.
Proof.
  intros Hc Hin. apply Hc. unfold trim in Hin.
  rewrite list_elem_of_In, <-in_rev in Hin.
  destruct (trimStart_suffix (rev (trimStart s))) as (p & Hp & _).
  assert (In c (rev (trimStart s))) as H by (rewrite Hp; apply in_app_iff; by right).
  rewrite <-in_rev in H. destruct (trimStart_suffix s) as (q & Hq & _).
  rewrite Hq. apply elem_of_app. right. by apply list_elem_of_In.
Qed.

Lemma parse_allowlist_ok (text : jsstr) : Forall entry_ok (parse_allowlist text).
Proof.
  unfold parse_allowlist. apply Forall_forall. intros e He.
  apply list_elem_of_In, filter_In in He as [He Ht].
  apply list_elem_of_In, list_elem_of_fmap in He as (w & -> & Hw).
  split; [by destruct (trim w)|]. split; [apply trim_trimmed|].
  apply trim_free. pose proof (split_on_free_pieces 44 text) as Hp.
  rewrite Forall_forall in Hp. by apply Hp.
Qed.

Lemma parse_allowlist_join (l : list jsstr) :
  Forall entry_ok l -> parse_allowlist (join (js ",") l) = l.
Proof.
  intros Hl. destruct l as [|e l]; [done|]. unfold parse_allowlist.
  change (js ",") with [44%N]. rewrite split_on_join; [|done|].
  2: { eapply Forall_impl; [exact Hl|]. by intros ? (_ & _ & ?). }
  generalize dependent (e :: l). clear. intros l. induction 1 as [|e l (Hne & Ht & _) _ IH]; [done|].
  cbn [fmap list_fmap List.filter]. rewrite trim_id by done.
  destruct e; [done|]. cbn [truthy truthy_list]. by rewrite IH.
Qed.

Lemma normalize_entries (f : TunnelForm) : Forall entry_ok (payload_ip_allowlist (normalize f)).
Proof.
  unfold normalize. cbn [payload_ip_allowlist].
  destruct (form_ip_allowlist_text f); [apply parse_allowlist_ok|constructor].
Qed.


Definition sample_tunnel (allow : list jsstr) : Tunnel :=
  {| tunnel_id := js "t1"; tunnel_client_id := js "c1"; tunnel_name := js "web";
     tunnel_protocol := js "https"; tunnel_visitor_token := None; tunnel_local_host := js "127.0.0.1";
     tunnel_local_port := 8080; tunnel_remote_port := 0; tunnel_domain := js "a.example.com";
     tunnel_status := js "running"; tunnel_ip_allowlist := Some allow; tunnel_created_at := [];
     tunnel_updated_at := [] |}.


(** A visitor tunnel is always sent without a remote port and a domain, any other with
    the ones of the form; a status is always sent, [stopped] when none was chosen. *)
Theorem normalize_ports (f : TunnelForm) :
  (form_protocol f = js "visitor_webrtc" ->
     payload_remote_port (normalize f) = Some 0%Z /\ payload_domain (normalize f) = Some (js ""))
  /\ (form_protocol f <> js "visitor_webrtc" ->
     payload_remote_port (normalize f) = form_remote_port f
     /\ payload_domain (normalize f) = form_domain f)
  /\ payload_status (normalize f) <> [].
Proof.
  unfold normalize. cbn. split; [|split].
  - intros ->. done.
  - intros Hne. unfold str_eqb. by rewrite bool_decide_eq_false_2.
  - destruct (form_status f) as [[|? ?]|]; done.
Qed.

Lemma normalize_ports_witness :
  payload_remote_port (normalize (initial_values (sample_tunnel []))) = Some 0%Z.
Proof.
  refine (proj1 (proj1 (proj2 (normalize_ports (initial_values (sample_tunnel [])))) _)).
  vm_compute. discriminate.
Defined.

(** *** The editor's effect *)

(** Opening the editor on a tunnel that is no visitor tunnel and has remote port 0 -
    which the form allows for every protocol that needs no remote port - replaces the
    port by 6000 before anything was touched: saving then changes the tunnel. Every other
    field, and every other port, is left as it was. *)
Theorem editor_rewrites_zero_port (t : Tunnel) :
  tunnel_protocol t <> js "visitor_webrtc" ->
  let opened := editor_effect (Some (tunnel_protocol t)) (initial_values t) in
  payload_remote_port (normalize opened)
  = Some (if (tunnel_remote_port t =? 0)%Z then 6000%Z else tunnel_remote_port t)
  /\ set_remote_port None opened = set_remote_port None (initial_values t).
Proof.
  intros Hp. cbn zeta. unfold editor_effect.
  rewrite (bool_decide_eq_false_2 (Some (tunnel_protocol t) = _)) by congruence.
  assert (str_eqb (tunnel_protocol t) (js "visitor_webrtc") = false) as Hv
    by by apply bool_decide_eq_false_2.
  destruct (Z.eqb_spec (tunnel_remote_port t) 0) as [Hz|Hz].
  - rewrite bool_decide_eq_true_2 by (cbn; by rewrite Hz).
    unfold normalize. cbn. by rewrite Hv.
  - rewrite bool_decide_eq_false_2 by (cbn; congruence).
    unfold normalize. cbn. by rewrite Hv.
Qed.

Lemma editor_rewrites_zero_port_witness :
  payload_remote_port (normalize (editor_effect (Some (js "https")) (initial_values (sample_tunnel []))))
  = Some 6000%Z.
Proof.
  refine (proj1 (editor_rewrites_zero_port (sample_tunnel []) _)). vm_compute. discriminate.
Defined.

(** *** Visitor addresses *)

Lemma split_at_slash (i1 i2 t1 t2 : jsstr) :
  47%N ∉ i1 -> 47%N ∉ i2 -> i1 ++ 47%N :: t1 = i2 ++ 47%N :: t2 -> i1 = i2 /\ t1 = t2.
Proof.
  revert i2. induction i1 as [|c i1 IH]; intros [|d i2] H1 H2 Heq; cbn in *; simplify_eq.
  - done.
  - exfalso. apply H2. by left.
  - exfalso. apply H1. by left.
  - apply not_elem_of_cons in H1 as [_ H1], H2 as [_ H2].
    destruct (IH i2 H1 H2) as [-> ->]; done.
Qed.

Lemma uri_safe_no_slash (s : jsstr) : Forall (fun c => uri_safe c = true) s -> 47%N ∉ s.
Proof. intros Hs Hin. rewrite Forall_forall in Hs. by apply Hs in Hin. Qed.

(** C12: A visitor address names its tunnel: on one site, two tunnels with the same
    address have the same id and the same token, whatever characters those contain. *)
Theorem visitorURL_inj (origin url : jsstr) (t1 t2 : Tunnel) (k1 k2 : jsstr) :
  tunnel_visitor_token t1 = Some k1 -> tunnel_visitor_token t2 = Some k2 -> k1 <> [] -> k2 <> [] ->
  wf_str (tunnel_id t1) -> wf_str (tunnel_id t2) -> wf_str k1 -> wf_str k2 ->
  visitorURL origin t1 = Ok url -> visitorURL origin t2 = Ok url ->
  tunnel_id t1 = tunnel_id t2 /\ k1 = k2.
Proof.
  intros Ht1 Ht2 Hk1 Hk2 Hw1 Hw2 Hwk1 Hwk2. unfold visitorURL. rewrite Ht1, Ht2.
  destruct k1 as [|c1 k1], k2 as [|c2 k2]; try done. cbn [truthy truthy_list negb].
  destruct (encodeURIComponent (tunnel_id t1)) as [i1|] eqn:Hi1; [|done].
  destruct (encodeURIComponent (c1 :: k1)) as [e1|] eqn:He1; [|done]. intros Hu1.
  destruct (encodeURIComponent (tunnel_id t2)) as [i2|] eqn:Hi2; [|done].
  destruct (encodeURIComponent (c2 :: k2)) as [e2|] eqn:He2; [|done]. intros Hu2.
  assert (origin ++ js "/visitor/" ++ i2 ++ js "/" ++ e2
          = origin ++ js "/visitor/" ++ i1 ++ js "/" ++ e1) as Heq by congruence. clear Hu1 Hu2.
  do 2 apply app_inv_head in Heq.
  change (i2 ++ 47%N :: e2 = i1 ++ 47%N :: e1) in Heq. symmetry in Heq.
  apply split_at_slash in Heq as [-> ->];
    [|eapply uri_safe_no_slash, encodeURIComponent_safe; [|eassumption]; done..].
  split; eapply encodeURIComponent_inj; try eassumption; done.
Qed.

Definition visitor_tunnel (id token : jsstr) : Tunnel :=
  {| tunnel_id := id; tunnel_client_id := js "c1"; tunnel_name := js "web";
     tunnel_protocol := js "visitor_webrtc"; tunnel_visitor_token := Some token;
     tunnel_local_host := js "127.0.0.1"; tunnel_local_port := 8080; tunnel_remote_port := 0;
     tunnel_domain := []; tunnel_status := js "running"; tunnel_ip_allowlist := None;
     tunnel_created_at := []; tunnel_updated_at := [] |}.

Lemma visitorURL_inj_witness :
  let t := visitor_tunnel (js "a/b") (js "k") in tunnel_id t = tunnel_id t /\ js "k" = js "k".
Proof.
  apply (visitorURL_inj (js "https://n") (js "https://n/visitor/a%2Fb/k")
           (visitor_tunnel (js "a/b") (js "k")) (visitor_tunnel (js "a/b") (js "k")));
    try done; by apply (bool_decide_unpack _) || by_evaluation.
Defined.

(** *** Saving *)

(** The request [submit] makes. *)
Definition save_request (s : app TunnelsState) (v : TunnelForm) : jsstr * RequestInit :=
  let b := Some (obj_of (payload_body (normalize v))) in
  match editing (page s) with
  | Some t => if truthy (tunnel_id t) then (js "/api/tunnels/" ++ tunnel_id t, send (js "PUT") b)
              else (js "/api/tunnels", send (js "POST") b)
  | None => (js "/api/tunnels", send (js "POST") b)
  end.

Lemma submit_unfold (s : app TunnelsState) (v : TunnelForm) :
  submit s v = (let* _ := await_fn (request (fst (save_request s v)) (snd (save_request s v))) in
                modify (setPage (setEditing None)) ;;; await_fn reload_tunnels).
Proof. unfold submit, save_request. by repeat case_match. Qed.

Lemma tunnels_loader_frame {X} (proj : app TunnelsState -> X) :
  (forall m s, proj (set_storage m s) = proj s) -> (forall s, proj (on_unauthorized s) = proj s) ->
  preserves proj tunnels_loader.
Proof.
  intros H1 H2. unfold tunnels_loader.
  apply preserves_bind; [by apply preserves_await_fn, preserves_items, preserves_request|intros t].
  apply preserves_bind; [by apply preserves_await_fn, preserves_items, preserves_request|intros c].
  apply preserves_bind; [by apply preserves_await_fn, preserves_request|done].
Qed.

(** C35: Saving a tunnel updates the one being edited when it has an id and creates one
    otherwise. When the server accepts, the editor closes and the list is loaded anew; when
    it does not, the error goes to the caller and the page is exactly as it was - the
    editor still open, with nothing reloaded. *)
Theorem submit_outcome (s s' : app TunnelsState) (v : TunnelForm) tr (r : result thrown unit) :
  evaluates (submit s v) s tr r s' ->
  exists answer tr1 tr2 s1, tr = tr1 ++ tr2
    /\ evaluates (request (fst (save_request s v)) (snd (save_request s v))) s tr1 answer s1
    /\ match answer with
       | Ok _ => r = Ok tt /\ editing (page s') = None /\ loading (tunnels_list (page s')) = false
       | Err e => r = Err e /\ tr2 = [] /\ page s' = page s
       end.
Proof.
  rewrite submit_unfold. intros Hev.
  apply evaluates_bind in Hev as (tr1 & tr2 & s1 & -> & [(a & Ha & Hev)|(e & He & -> & -> & ->)]).
  - rewrite evaluates_await_fn in Ha. exists (Ok a), tr1, tr2, s1. split; [done|]. split; [exact Ha|].
    apply evaluates_bind in Hev as (tr3 & tr4 & s2 & -> & [([] & Hm & Hev)|(? & Hm & _)]);
      [|by destruct Hm as (_ & ? & _)].
    destruct Hm as (-> & _ & ->). rewrite evaluates_await_fn in Hev.
    apply load_evaluates in Hev as (-> & o & s3 & Ho & -> & Hview). split; [done|].
    change (tunnels_list (page (put tunnels_hook (settled o) s3))) with
      (view tunnels_hook (put tunnels_hook (settled o) s3)).
    rewrite Hview. split; [|by destruct o].
    apply (evaluates_preserves (fun s => editing (page s))) in Ho; [exact Ho|].
    by apply tunnels_loader_frame.
  - rewrite evaluates_await_fn in He. exists (Err e), tr1, [], s1. split; [done|]. split; [exact He|].
    split; [done|]. split; [done|].
    apply (evaluates_preserves page) in He; [done|]. by apply preserves_request.
Qed.

Definition tunnels_page (editing : option Tunnel) : app TunnelsState :=
  {| shell := mounted empty_storage; page := {| tunnels_list := not_loaded; editing := editing |} |}.

Lemma submit_outcome_witness :
  let '(tr, r, s') := play (answering denied []) (submit (tunnels_page (Some (sample_tunnel [])))
                        (initial_values (sample_tunnel []))) (tunnels_page (Some (sample_tunnel []))) in
  exists answer tr1 tr2 s1, tr = tr1 ++ tr2
    /\ evaluates (request (js "/api/tunnels/t1")
         (snd (save_request (tunnels_page (Some (sample_tunnel []))) (initial_values (sample_tunnel [])))))
         (tunnels_page (Some (sample_tunnel []))) tr1 answer s1.
Proof.
  destruct (play _ _ _) as [[tr r] s'] eqn:Hp. apply play_evaluates in Hp.
  destruct (submit_outcome _ _ _ _ _ Hp) as (a & tr1 & tr2 & s1 & H1 & H2 & _).
  by exists a, tr1, tr2, s1.
Defined.
