(* ===== verification/TransportSettings.v ===== *)
(** The transport section of the settings page, its requests and its polling:
    web/dashboard/src/settings/TransportSettings.tsx. *)

From S2P Require Import Prelude JsString JsNumber Json JsErrors WebPlatform Async Session ApiClient DashTypes TransportDisplay UseAsync Dashboard.

#[local] Open Scope prog_scope.

(** ** The server's answer, as the code reads it *)

(** The answer is cast to TransportStatus unchecked. These read its members; one of another
    type than the declared one counts as missing. *)
Definition member (v : option json) (k : jsstr) : option json :=
  match v with Some (JObj l) => obj_get k l | _ => None end.
Definition text_member (v : option json) (k : jsstr) : option jsstr :=
  match member v k with Some (JStr s) => Some s | _ => None end.
Definition bool_member (v : option json) (k : jsstr) : bool :=
  match member v k with Some (JBool b) => b | _ => false end.

(** [null] and [undefined] are the same to [?.]. *)
Definition object_member (v : option json) (k : jsstr) : option json :=
  match member v k with Some JNull | None => None | Some o => Some o end.

Definition as_endpoint (v : json) : TransportEndpoint :=
  {| enabled := bool_member (Some v) (js "enabled"); listen := text_member (Some v) (js "listen");
     data_listen := text_member (Some v) (js "data_listen");
     control_url := text_member (Some v) (js "control_url");
     websocket_url := text_member (Some v) (js "websocket_url");
     data_address := text_member (Some v) (js "data_address") |}.

Definition as_certificate (v : json) : TransportCertificate :=
  {| cert_domain := text_member (Some v) (js "domain"); cert_issuer := text_member (Some v) (js "issuer");
     cert_not_after := text_member (Some v) (js "not_after");
     cert_status := text_member (Some v) (js "status"); cert_error := text_member (Some v) (js "error");
     cert_details := text_member (Some v) (js "details") |}.

Definition as_certbot (v : json) : TransportCertbot :=
  {| certbot_available := bool_member (Some v) (js "available");
     certbot_message := text_member (Some v) (js "message");
     certbot_version := text_member (Some v) (js "version") |}.

Definition as_auto (v : json) : TransportAutoSubdomain :=
  {| auto_enabled := bool_member (Some v) (js "enabled");
     auto_base_domain := text_member (Some v) (js "base_domain");
     auto_suffix_example := text_member (Some v) (js "suffix_example") |}.

Definition as_status (v : json) : TransportStatus :=
  {| plain := as_endpoint <$> object_member (Some v) (js "plain");
     compatibility_plain := as_endpoint <$> object_member (Some v) (js "compatibility_plain");
     tls := as_endpoint <$> object_member (Some v) (js "tls");
     certbot := as_certbot <$> object_member (Some v) (js "certbot");
     certificate := as_certificate <$> object_member (Some v) (js "certificate");
     auto_subdomain := as_auto <$> object_member (Some v) (js "auto_subdomain") |}.

(** ** State *)

(** [status] is the section's; [submitting] is that of each of its two forms. *)
Record TransportState := {
  status : option json; loading : bool; busy : option jsstr;
  cert_submitting : bool; auto_submitting : bool
}.

Definition transport_initial : TransportState :=
  {| status := None; loading := true; busy := None; cert_submitting := false; auto_submitting := false |}.

Definition setStatus (v : option json) (s : TransportState) : TransportState :=
  {| status := v; loading := loading s; busy := busy s; cert_submitting := cert_submitting s;
     auto_submitting := auto_submitting s |}.
Definition setLoading (v : bool) (s : TransportState) : TransportState :=
  {| status := status s; loading := v; busy := busy s; cert_submitting := cert_submitting s;
     auto_submitting := auto_submitting s |}.
Definition setBusy (v : option jsstr) (s : TransportState) : TransportState :=
  {| status := status s; loading := loading s; busy := v; cert_submitting := cert_submitting s;
     auto_submitting := auto_submitting s |}.
Definition setCertSubmitting (v : bool) (s : TransportState) : TransportState :=
  {| status := status s; loading := loading s; busy := busy s; cert_submitting := v;
     auto_submitting := auto_submitting s |}.
Definition setAutoSubmitting (v : bool) (s : TransportState) : TransportState :=
  {| status := status s; loading := loading s; busy := busy s; cert_submitting := cert_submitting s;
     auto_submitting := v |}.

(** The status the section renders. *)
Definition typed_status (s : app TransportState) : option TransportStatus := as_status <$> status (page s).

(** ** Handlers *)

Local Abbreviation M := (action TransportState unit).

Definition POLL_MS : Z := 2000.

Definition report (e : thrown) : M := say (Message Failure (toMessage e)).

(** [try { a } catch (error) { message.error(toMessage(error)) } finally { f }] *)
Definition reported (a : M) (f : TransportState -> TransportState) : M :=
  finally (try_catch a report) (modify (setPage f)).

Definition load_status (silent : bool) : M :=
  (if negb silent then modify (setPage (setLoading true)) else skip) ;;;
  reported (let* v := await_fn transport in modify (setPage (setStatus v)))
           (if negb silent then setLoading false else fun s => s).

Definition run (key : jsstr) (call : action TransportState (option json)) (success : jsstr) : M :=
  modify (setPage (setBusy (Some key))) ;;;
  reported (let* v := await_fn call in
            modify (setPage (setStatus v)) ;;; say (Message Success success))
           (setBusy None).

Definition on_off (enabled : bool) : jsstr := if enabled then js "开启" else js "关闭".

(** The state is the one of the render the switch belongs to. *)
Definition toggleTLS (s : app TransportState) : M :=
  let enabled := nextTLSState (typed_status s) in
  await_fn (run (js "tls") (setTransportTLS enabled)
              (js "TLS 已" ++ on_off enabled ++ js "，HTTPS/WSS 配置已热更新")).

Definition togglePlain (s : app TransportState) : M :=
  let enabled := nextPlainState (typed_status s) in
  await_fn (run (js "plain") (setTransportPlain enabled)
              (js "兼容明文访问已" ++ on_off enabled ++ js "，配置已热更新")).

(** [CertificateForm] *)
Definition submit_certificate (domain email : jsstr) : M :=
  modify (setPage (setCertSubmitting true)) ;;;
  reported (let* v := await_fn (requestCertificate (trim domain) (trim email)) in
            modify (setPage (setStatus v)) ;;;
            say (Message Success (js "证书申请已提交，正在等待 Certbot 签发")))
           (setCertSubmitting false).

(** [AutoSubdomainControl] *)
Definition submit_auto (wanted : bool) (base_domain : jsstr) : M :=
  let baseDomain := trim base_domain in
  if wanted && negb (truthy baseDomain) then say (Message Failure (js "请输入隧道根域名"))
  else
    (modify (setPage (setAutoSubmitting true)) ;;;
     reported (let* v := await_fn (setAutoSubdomain wanted baseDomain) in
               modify (setPage (setStatus v)) ;;;
               say (Message Success (js "自动子域名已" ++ on_off wanted ++ js "，配置已热更新")))
              (setAutoSubmitting false)).

Inductive transport_event :=
| Poll
| ToggleTLS
| TogglePlain
| SubmitCertificate (domain email : jsstr)
| SubmitAuto (wanted : bool) (base_domain : jsstr).

(** What the section offers: the timer runs while a certificate is pending, a switch
    that is loading or disabled cannot be clicked, a button that is loading neither. *)
Definition transport_enabled (ev : transport_event) (s : app TransportState) : bool :=
  let st := typed_status s in
  match ev with
  | Poll => certificatePending st
  | ToggleTLS =>
    negb (bool_decide (busy (page s) = Some (js "tls")))
    && (truthy ((st ≫= certificate) ≫= cert_domain) || endpoint_enabled (st ≫= tls))
  | TogglePlain => negb (bool_decide (busy (page s) = Some (js "plain")))
  | SubmitCertificate _ _ =>
    negb (bool_decide (busy (page s) = Some (js "certificate"))) && negb (certificatePending st)
    && negb (cert_submitting (page s))
    && match st ≫= certbot with Some c => certbot_available c | None => true end
  | SubmitAuto _ _ => negb (auto_submitting (page s))
  end.

Definition transport_handler (ev : transport_event) (s : app TransportState) : M :=
  match ev with
  | Poll => load_status true
  | ToggleTLS => toggleTLS s
  | TogglePlain => togglePlain s
  | SubmitCertificate d e => submit_certificate d e
  | SubmitAuto w b => submit_auto w b
  end.

(** ** Properties *)

Local Abbreviation trace := (list (happening api_call ui_effect thrown api_result)).

(** The notices of a trace. *)
Definition notices (tr : trace) : list (notice * jsstr) :=
  omap (fun h => match h with Did (Message k m) => Some (k, m) | _ => None end) tr.

Lemma notices_app (t1 t2 : trace) : notices (t1 ++ t2) = notices t1 ++ notices t2.
Proof. apply omap_app. Qed.

Lemma notices_silent (tr : trace) : (forall m, Did m ∉ tr) -> notices tr = [].
Proof.
  intros Hs. induction tr as [|h tr IH]; [done|]. cbn.
  destruct h as [m|c r]; [exfalso; apply (Hs m); by left|].
  apply IH. intros m Hm. apply (Hs m). by right.
Qed.

(** The common frame of the handlers: it never throws, reports an error once, and undoes
    its flag last. *)
Lemma reported_evaluates (a : M) (f : TransportState -> TransportState) (s s' : app TransportState)
    (tr : trace) (r : result thrown unit) :
  evaluates (reported a f) s tr r s' ->
  r = Ok tt /\ exists tr1 r1 s1, evaluates a s tr1 r1 s1 /\ s' = setPage f s1
    /\ tr = tr1 ++ match r1 with Ok _ => [] | Err e => [Did (Message Failure (toMessage e))] end.
Proof.
  intros Hev. apply evaluates_continue in Hev as (t1 & t2 & s1 & -> & Hev).
  assert (forall t2 s1, evaluates (modify (setPage f) ;;; Ret tt : M) s1 t2 r s' ->
            t2 = [] /\ r = Ok tt /\ s' = setPage f s1) as Hlast.
  { clear. intros t2 s1 Hev. apply evaluates_bind in Hev
      as (ta & tb & s2 & -> & [([] & (-> & _ & ->) & (-> & -> & ->))|(e & (_ & ? & _) & _)]); done. }
  destruct Hev as [([] & Ha & Hf)|(e & Ha & _)].
  - destruct (Hlast _ _ Hf) as (-> & -> & ->). split; [done|].
    apply evaluates_continue in Ha as (ta & tb & s2 & -> & [([] & Ha & -> & _ & ->)|(e & Ha & Hr)]).
    + exists ta, (Ok tt), s2. by rewrite !app_nil_r.
    + destruct Hr as (tb' & -> & -> & _ & ->). exists ta, (Err e), s2. by rewrite app_nil_r.
  - apply evaluates_continue in Ha as (ta & tb & s2 & -> & [([] & _ & (_ & ? & _))|(e' & _ & Hr)]); [done|].
    by destruct Hr as (? & _ & _ & ? & _).
Qed.

(** What an action that stores the answer of a request comes to. *)
Lemma stored_evaluates (path : jsstr) (o : RequestInit) (k : option json -> M) (g : option json -> option (notice * jsstr))
    (s s1 : app TransportState) (tr : trace) (r : result thrown unit) :
  (forall v, k v = (modify (setPage (setStatus v)) ;;; match g v with Some (n, m) => say (Message n m) | None => skip end)) ->
  evaluates (let* v := await_fn (request path o) in k v) s tr r s1 ->
  exists answer s0 tr1, evaluates (request path o) s tr1 answer s0
    /\ match answer with
       | Ok v => r = Ok tt /\ s1 = setPage (setStatus v) s0
                 /\ tr = tr1 ++ match g v with Some (n, m) => [Did (Message n m)] | None => [] end
       | Err e => r = Err e /\ s1 = s0 /\ tr = tr1
       end.
Proof.
  intros Hk Hev. apply evaluates_bind in Hev as (t1 & t2 & s0 & -> & [(v & Hv & Hev)|(e & Hv & -> & -> & ->)]);
    rewrite evaluates_await_fn in Hv.
  - exists (Ok v), s0, t1. split; [done|]. rewrite Hk in Hev.
    apply evaluates_bind in Hev as (t3 & t4 & s2 & -> & [([] & (-> & _ & ->) & Hev)|(? & (_ & ? & _) & _)]); [|done].
    destruct (g v) as [[n m]|].
    + by destruct Hev as (t5 & -> & -> & -> & ->).
    + by destruct Hev as (-> & -> & ->).
  - exists (Err e), s0, t1. by rewrite app_nil_r.
Qed.

Lemma stored_page (path : jsstr) (o : RequestInit) (s s0 : app TransportState) (tr : trace)
    (answer : result thrown (option json)) :
  evaluates (request path o) s tr answer s0 -> page s0 = page s /\ notices tr = [].
Proof.
  intros Hev. split.
  - apply (evaluates_preserves page) in Hev; [done|]. by apply preserves_request.
  - apply notices_silent. intros m. by eapply request_silent.
Qed.

(** A switch's action never throws and says exactly one thing. If the server accepts,
    the page shows the status it answered and the success text; if not, the status on the
    page stays and the error is shown. Either way the switch stops loading. *)
Theorem run_outcome (key success path : jsstr) (o : RequestInit) (s s' : app TransportState)
    (tr : trace) (r : result thrown unit) :
  evaluates (run key (request path o) success) s tr r s' ->
  r = Ok tt /\ busy (page s') = None
  /\ exists answer s0 tr1,
       evaluates (request path o) (setPage (setBusy (Some key)) s) tr1 answer s0
       /\ match answer with
          | Ok v => status (page s') = v /\ notices tr = [(Success, success)]
          | Err e => status (page s') = status (page s) /\ notices tr = [(Failure, toMessage e)]
          end.
Proof.
  intros Hev. apply evaluates_bind in Hev as (t1 & t2 & s1 & -> & [([] & (-> & _ & ->) & Hev)|(? & (_ & ? & _) & _)]); [|done].
  apply reported_evaluates in Hev as (-> & tr1 & r1 & s1 & Ha & -> & ->).
  split; [done|]. split; [done|].
  apply (stored_evaluates path o _ (fun _ => Some (Success, success))) in Ha
    as (answer & s0 & tr2 & Hreq & Ha); [|done].
  exists answer, s0, tr2. split; [done|]. destruct (stored_page _ _ _ _ _ _ Hreq) as [Hp Hn].
  destruct answer as [v|e]; destruct Ha as (-> & -> & ->); cbn [List.app];
    rewrite ?app_nil_r, !notices_app, Hn; (split; [|done]); cbn; [done|by rewrite Hp].
Qed.

(** A TLS switch asks for the opposite of what the page shows: every request it makes
    is a PATCH of /api/transport/tls with [enabled] true exactly when TLS is shown off. *)
Theorem toggleTLS_asks_opposite (s s' : app TransportState) (tr : trace) (r : result thrown unit)
    (p : jsstr) (init : FetchInit) (answer : result thrown Response) :
  evaluates (toggleTLS s) s tr r s' -> Settled (Fetch p init) answer ∈ tr ->
  p = js "/api/transport/tls" /\ fetch_method init = Some (js "PATCH")
  /\ fetch_body init = Some (stringify (obj_of [(js "enabled",
       Some (JBool (negb (endpoint_enabled (typed_status s ≫= tls)))))])).
Proof.
  unfold toggleTLS. rewrite evaluates_await_fn. intros Hev Hin.
  apply evaluates_bind in Hev as (t1 & t2 & s1 & -> & [([] & (-> & _ & ->) & Hev)|(? & (_ & ? & _) & _)]); [|done].
  apply reported_evaluates in Hev as (_ & tr1 & r1 & s1 & Ha & _ & ->).
  apply (stored_evaluates _ _ _ (fun _ => Some (Success,
    js "TLS 已" ++ on_off (nextTLSState (typed_status s)) ++ js "，HTTPS/WSS 配置已热更新"))) in Ha
    as (a & s0 & tr2 & Hreq & Ha); [|done].
  cbn [List.app] in Hin. assert (Settled (Fetch p init) answer ∈ tr2) as Hin2.
  { destruct a as [v|e]; destruct Ha as (-> & _ & ->); rewrite ?app_nil_r in Hin;
      [|apply elem_of_app in Hin as [?|Hin]; [done|by apply list_elem_of_singleton in Hin]].
    apply elem_of_app in Hin as [?|Hin]; [done|by apply list_elem_of_singleton in Hin]. }
  by apply (request_fetched _ _ _ _ _ _ _ _ _ Hreq) in Hin2.
Qed.

(** Turning automatic subdomains on with a blank root domain is refused on the spot:
    one notice, no request, nothing on the page changes. Any other submission sends the
    trimmed domain. *)
Theorem submit_auto_validates (wanted : bool) (base : jsstr) (s s' : app TransportState) (tr : trace)
    (r : result thrown unit) :
  evaluates (submit_auto wanted base) s tr r s' ->
  if wanted && negb (truthy (trim base))
  then tr = [Did (Message Failure (js "请输入隧道根域名"))] /\ r = Ok tt /\ s' = s
  else r = Ok tt /\ auto_submitting (page s') = false
       /\ forall p init answer, Settled (Fetch p init) answer ∈ tr ->
            fetch_body init = Some (stringify (obj_of [(js "enabled", Some (JBool wanted));
                                              (js "base_domain", Some (JStr (trim base)))])).
Proof.
  unfold submit_auto. destruct (wanted && negb (truthy (trim base))).
  { intros (tr' & -> & -> & -> & ->). done. }
  intros Hev.
  apply evaluates_bind in Hev as (t1 & t2 & s1 & -> & [([] & (-> & _ & ->) & Hev)|(? & (_ & ? & _) & _)]); [|done].
  apply reported_evaluates in Hev as (-> & tr1 & r1 & s1 & Ha & -> & ->).
  split; [done|]. split; [done|]. intros p init answer Hin.
  apply (stored_evaluates _ _ _ (fun _ => Some (Success,
    js "自动子域名已" ++ on_off wanted ++ js "，配置已热更新"))) in Ha
    as (a & s0 & tr2 & Hreq & Ha); [|done].
  cbn [List.app] in Hin. assert (Settled (Fetch p init) answer ∈ tr2) as Hin2.
  { destruct a as [v|e]; destruct Ha as (-> & _ & ->); rewrite ?app_nil_r in Hin;
      apply elem_of_app in Hin as [?|Hin]; try done; by apply list_elem_of_singleton in Hin. }
  by apply (request_fetched _ _ _ _ _ _ _ _ _ Hreq) in Hin2 as (_ & _ & ?).
Qed.

(** *** Spinners *)

Definition is_busy (s : app TransportState) : bool := present (busy (page s)).

Lemma stored_frame {X} (proj : app TransportState -> X) (path : jsstr) (o : RequestInit) (k : option json -> M) :
  (forall m s, proj (set_storage m s) = proj s) -> (forall s, proj (on_unauthorized s) = proj s) ->
  (forall v, preserves proj (k v)) -> preserves proj (let* v := await_fn (request path o) in k v).
Proof. intros. apply preserves_bind; [by apply preserves_await_fn, preserves_request|done]. Qed.

Lemma reported_discharges (flag : app TransportState -> bool) (a : M) (f : TransportState -> TransportState) (owes : bool) :
  preserves flag a ->
  (forall s, flag (setPage f s) = false) \/ (owes = false /\ forall s, flag (setPage f s) = flag s) ->
  discharges flag owes (reported a f).
Proof.
  intros Ha Hf. apply discharges_finally; [by apply preserves_continue|].
  destruct Hf as [?|[-> ?]]; [by apply discharges_paid|]. apply discharges_preserves. cbn. auto.
Qed.

Lemma busy_discharges (ev : transport_event) (s : app TransportState) :
  discharges is_busy false (transport_handler ev s).
Proof.
  destruct ev as [| | |d e|w b]; cbn [transport_handler].
  - apply discharges_bind; [done|intros _]. apply reported_discharges; [|by right].
    by apply stored_frame.
  - apply discharges_await_fn, discharges_taken, reported_discharges; [|by left]. by apply stored_frame.
  - apply discharges_await_fn, discharges_taken, reported_discharges; [|by left]. by apply stored_frame.
  - apply discharges_modify_bind; [done|]. apply reported_discharges; [|by right]. by apply stored_frame.
  - unfold submit_auto. case_match; [done|].
    apply discharges_modify_bind; [done|]. apply reported_discharges; [|by right]. by apply stored_frame.
Qed.

(** No switch of the section loads for ever: while one is shown busy, whatever else is
    going on, some action is under way that clears the mark. *)
Theorem busy_ends (s0 : app TransportState)
    (y : sys (app TransportState) api_call ui_effect thrown api_result) :
  busy (page s0) = None -> reachable transport_enabled transport_handler s0 y ->
  busy (page (st y)) <> None ->
  exists t, t ∈ threads y /\ thread_discharges is_busy true t.
Proof.
  intros H0 Hy Hb. apply promise_inv_owed.
  - eapply (promise_invariant transport_enabled transport_handler is_busy); [| |exact Hy].
    + exists []. unfold is_busy. cbn. rewrite H0. split; [constructor|done].
    + intros ev s _. apply busy_discharges.
  - unfold is_busy. by destruct (busy (page (st y))).
Qed.

(** *** Executions *)

Definition transport_page : app TransportState :=
  {| shell := mounted empty_storage; page := transport_initial |}.

(** Every request is refused, with no body. *)
Definition refused (p : action TransportState unit) : trace * result thrown unit * app TransportState :=
  play (answering denied []) p transport_page.

Lemma refused_evaluates (p : action TransportState unit) :
  evaluates p transport_page (fst (fst (refused p))) (snd (fst (refused p))) (snd (refused p)).
Proof. apply (play_evaluates (answering denied [])). unfold refused. by destruct (play _ _ _) as [[? ?] ?]. Qed.

Lemma run_outcome_witness :
  busy (page (snd (refused (run (js "tls") (setTransportTLS true) (js "ok"))))) = None.
Proof.
  refine (proj1 (proj2 (run_outcome _ _ _ _ _ _ _ _ (refused_evaluates (run (js "tls") (setTransportTLS true) (js "ok")))))).
Defined.

Lemma toggleTLS_asks_opposite_witness :
  let init := fetch_patch (stringify (obj_of [(js "enabled", Some (JBool true))])) in
  fetch_body init = Some (stringify (obj_of [(js "enabled", Some (JBool true))])).
Proof.
  intros init. refine (proj2 (proj2 (toggleTLS_asks_opposite transport_page _ _ _
    (js "/api/transport/tls") init (Ok denied) (refused_evaluates (toggleTLS transport_page)) _))).
  apply list_elem_of_lookup_2 with 0%nat. by_evaluation.
Defined.

Lemma submit_auto_validates_witness :
  fst (fst (refused (submit_auto true (js "  ")))) = [Did (Message Failure (js "请输入隧道根域名"))].
Proof.
  refine (proj1 (submit_auto_validates true (js "  ") transport_page _ _ _
    (refused_evaluates (submit_auto true (js "  "))))).
Defined.

Lemma busy_ends_witness :
  let s := {| shell := mounted empty_storage;
              page := setStatus (Some (JObj [(js "tls", JObj [(js "enabled", JBool true)])])) transport_initial |} in
  exists t, t ∈ threads (spawn (toggleTLS s) (initial s)) /\ thread_discharges is_busy true t.
Proof.
  intros s. apply (busy_ends s (spawn (toggleTLS s) (initial s))); [done| |vm_compute; discriminate].
  by apply (reachable_event transport_enabled transport_handler (initial s) (initial s) ToggleTLS (rtc_refl _ _)).
Defined.
