(* ===== verification/Rounded.v ===== *)
(** Arithmetic on doubles as rationals: every operation rounds its exact result to 53
    significant bits, ties to even. Overflow, NaN, the sign of zero and subnormal numbers do
    not occur in the ranges this is used for. *)

From Stdlib Require Import QArith Qround Qpower Lqa.
From S2P Require Import Prelude.

#[local] Open Scope Q_scope.

(** ** Rounding *)

(** To the nearest integer, ties to even. *)
Definition round_even (x : Q) : Z :=
  let f := Qfloor x in
  match Qcompare (x - inject_Z f) (1 # 2) with
  | Lt => f
  | Gt => (f + 1)%Z
  | Eq => if Z.even f then f else (f + 1)%Z
  end.

Definition pow2 (e : Z) : Q := Qpower 2 e.

(** The exponent of the leading bit of a positive number. *)
Definition exponent (x : Q) : Z :=
  let k := (Z.log2 (Qnum x) - Z.log2 (Zpos (Qden x)))%Z in
  if Qle_bool (pow2 k) x then k else (k - 1)%Z.

(** The double nearest to a positive number. *)
Definition round_positive (x : Q) : Q :=
  let u := pow2 (exponent x - 52) in inject_Z (round_even (x / u)) * u.

Definition rnd (x : Q) : Q :=
  match Qcompare x 0 with
  | Eq => 0
  | Gt => Qred (round_positive x)
  | Lt => - Qred (round_positive (- x))
  end.

(** [+ - * /] *)
Definition dadd (x y : Q) : Q := rnd (x + y).
Definition dsub (x y : Q) : Q := rnd (x - y).
Definition dmul (x y : Q) : Q := rnd (x * y).
Definition ddiv (x y : Q) : Q := rnd (x / y).
(** [Math.max(x, y)] *)
Definition dmax (x y : Q) : Q := if Qle_bool x y then y else x.
(** [Math.round(x)] *)
Definition dround (x : Q) : Z := Qfloor (x + (1 # 2)).

(** The doubles of the literals [0.1], [1.15]. *)
Example tenth : rnd (1 # 10) == 3602879701896397 # 36028797018963968. Proof. by_evaluation. Qed.
Example sum_of_tenths : Qle_bool (dadd (rnd (1 # 10)) (rnd (2 # 10))) (rnd (3 # 10)) = false.
Proof. by_evaluation. Qed.

(** ** Properties *)

(** *** To integers *)

Lemma round_even_bounds (x : Q) : (Qfloor x <= round_even x <= Qfloor x + 1)%Z.
Proof. unfold round_even. destruct (Qcompare _ _); [destruct (Z.even _)|..]; lia. Qed.

Lemma round_even_mono (x y : Q) : x <= y -> (round_even x <= round_even y)%Z.
Proof.
  intros Hxy. pose proof (Qfloor_resp_le x y Hxy) as Hf.
  pose proof (round_even_bounds x) as Hx. pose proof (round_even_bounds y) as Hy.
  destruct (Z.eq_dec (Qfloor x) (Qfloor y)) as [He|]; [|lia].
  unfold round_even. rewrite He.
  destruct (Qcompare_spec (x - inject_Z (Qfloor y)) (1 # 2)) as [Hc1|Hc1|Hc1],
    (Qcompare_spec (y - inject_Z (Qfloor y)) (1 # 2)) as [Hc2|Hc2|Hc2];
    try destruct (Z.even _); try lia; exfalso; lra.
Qed.

Lemma round_even_Z (n : Z) : round_even (inject_Z n) = n.
Proof.
  unfold round_even. rewrite Qfloor_Z.
  destruct (Qcompare_spec (inject_Z n - inject_Z n) (1 # 2)) as [Hc|Hc|Hc]; try done; exfalso; lra.
Qed.

#[export] Instance round_even_proper : Proper (Qeq ==> eq) round_even.
Proof.
  intros x y Hxy. apply Z.le_antisymm; apply round_even_mono; rewrite Hxy; apply Qle_refl.
Qed.

(** *** Powers of two *)

Lemma pow2_pos (e : Z) : 0 < pow2 e.
Proof. by apply Qpower_0_lt. Qed.

Lemma pow2_add (a b : Z) : pow2 (a + b) == pow2 a * pow2 b.
Proof. by apply Qpower_plus. Qed.

Lemma pow2_Z (e : Z) : (0 <= e)%Z -> pow2 e == inject_Z (2 ^ e).
Proof. intros He. unfold pow2. change 2 with (inject_Z 2). by rewrite Zpower_Qpower by done. Qed.

Lemma pow2_le (a b : Z) : (a <= b)%Z -> pow2 a <= pow2 b.
Proof.
  intros H. replace b with (a + (b - a))%Z by lia. rewrite pow2_add.
  assert (1 <= pow2 (b - a)) as H1.
  { rewrite pow2_Z by lia. change 1 with (inject_Z 1). rewrite <-Zle_Qle.
    pose proof (Z.pow_pos_nonneg 2 (b - a)). lia. }
  pose proof (pow2_pos a). nra.
Qed.

Lemma pow2_lt_inv (a b : Z) : pow2 a < pow2 b -> (a < b)%Z.
Proof.
  intros H. destruct (Z.lt_ge_cases a b) as [|Hge]; [done|].
  apply pow2_le in Hge. exfalso. lra.
Qed.

Lemma exponent_spec (x : Q) : 0 < x -> pow2 (exponent x) <= x < pow2 (exponent x + 1).
Proof.
  destruct x as [n d]. intros Hx.
  assert (0 < n)%Z as Hn by (unfold Qlt in Hx; cbn in Hx; lia).
  destruct (Z.log2_spec n Hn) as [Hn1 Hn2].
  destruct (Z.log2_spec (Zpos d) eq_refl) as [Hd1 Hd2].
  set (a := Z.log2 n) in *. set (b := Z.log2 (Zpos d)) in *.
  assert (0 <= a)%Z by apply Z.log2_nonneg. assert (0 <= b)%Z by apply Z.log2_nonneg.
  assert (n # d == inject_Z n / inject_Z (Zpos d)) as Hq by (by rewrite <-Qmake_Qdiv).
  assert (0 < inject_Z (Zpos d)) as Hdp by (change 0 with (inject_Z 0); by rewrite <-Zlt_Qlt).
  assert (n # d < pow2 (a - b + 1)) as Hup.
  { rewrite Hq. apply Qlt_shift_div_r; [done|].
    apply Qlt_le_trans with (pow2 (Z.succ a)).
    - rewrite pow2_Z by lia. by rewrite <-Zlt_Qlt.
    - replace (Z.succ a) with ((a - b + 1) + b)%Z by lia. rewrite pow2_add.
      apply Qmult_le_l; [apply pow2_pos|]. rewrite pow2_Z by done. by rewrite <-Zle_Qle. }
  assert (pow2 (a - b - 1) <= n # d) as Hlo.
  { rewrite Hq. apply Qle_shift_div_l; [done|].
    apply Qle_trans with (pow2 a); [|rewrite pow2_Z by done; by rewrite <-Zle_Qle].
    replace a with ((a - b - 1) + Z.succ b)%Z at 2 by lia. rewrite pow2_add.
    apply Qmult_le_l; [apply pow2_pos|]. rewrite pow2_Z by lia. rewrite <-Zle_Qle. lia. }
  unfold exponent. cbn [Qnum Qden]. fold a b.
  destruct (Qle_bool (pow2 (a - b)) (n # d)) eqn:Hb.
  - apply Qle_bool_iff in Hb. by split.
  - replace (a - b - 1 + 1)%Z with (a - b)%Z by lia. split; [done|].
    apply Qnot_le_lt. intros Hc. apply Qle_bool_iff in Hc. congruence.
Qed.

Lemma exponent_unique (x : Q) (e : Z) : pow2 e <= x < pow2 (e + 1) -> exponent x = e.
Proof.
  intros [H1 H2]. assert (0 < x) as Hx by (pose proof (pow2_pos e); lra).
  destruct (exponent_spec x Hx) as [H3 H4].
  assert (e < exponent x + 1)%Z by (apply pow2_lt_inv; lra).
  assert (exponent x < e + 1)%Z by (apply pow2_lt_inv; lra). lia.
Qed.

(** *** To doubles *)

#[local] Hint Resolve pow2_pos : core.

Lemma significand (x : Q) (e : Z) :
  pow2 e <= x < pow2 (e + 1) -> pow2 52 <= x / pow2 (e - 52) /\ x / pow2 (e - 52) <= pow2 53.
Proof.
  intros [H1 H2]. split.
  - apply Qle_shift_div_l; [done|]. rewrite <-pow2_add. by replace (52 + (e - 52))%Z with e by lia.
  - apply Qle_shift_div_r; [done|]. rewrite <-pow2_add.
    replace (53 + (e - 52))%Z with (e + 1)%Z by lia. by apply Qlt_le_weak.
Qed.

Lemma round_positive_range (x : Q) :
  0 < x -> pow2 (exponent x) <= round_positive x /\ round_positive x <= pow2 (exponent x + 1).
Proof.
  intros Hx. destruct (significand x _ (exponent_spec x Hx)) as [Hlo Hhi].
  rewrite (pow2_Z 52) in Hlo by lia. rewrite (pow2_Z 53) in Hhi by lia.
  apply round_even_mono in Hlo, Hhi. rewrite round_even_Z in Hlo, Hhi.
  unfold round_positive. set (m := round_even _) in *. set (e := exponent x) in *.
  replace e with (52 + (e - 52))%Z at 1 by lia. replace (e + 1)%Z with (53 + (e - 52))%Z by lia.
  rewrite !pow2_add, !(pow2_Z 52), !(pow2_Z 53) by lia.
  pose proof (pow2_pos (e - 52)). split; apply Qmult_le_compat_r; try (by apply Qlt_le_weak); by rewrite <-Zle_Qle.
Qed.

Lemma round_positive_mono (x y : Q) : 0 < x -> x <= y -> round_positive x <= round_positive y.
Proof.
  intros Hx Hxy. assert (0 < y) as Hy by lra.
  destruct (exponent_spec x Hx) as [Hx1 Hx2]. destruct (exponent_spec y Hy) as [Hy1 Hy2].
  assert (exponent x < exponent y + 1)%Z by (apply pow2_lt_inv; lra).
  destruct (Z.eq_dec (exponent x) (exponent y)) as [He|Hne].
  - unfold round_positive. rewrite He. apply Qmult_le_compat_r; [|by apply Qlt_le_weak].
    rewrite <-Zle_Qle. apply round_even_mono. unfold Qdiv.
    apply Qmult_le_compat_r; [done|]. apply Qlt_le_weak, Qinv_lt_0_compat, pow2_pos.
  - destruct (round_positive_range x Hx) as [_ H1]. destruct (round_positive_range y Hy) as [H2 _].
    assert (pow2 (exponent x + 1) <= pow2 (exponent y)) by (apply pow2_le; lia). lra.
Qed.

(** A number of at most 53 significant bits is its own double. *)
Lemma round_positive_exact (x : Q) (m : Z) :
  0 < x -> x / pow2 (exponent x - 52) == inject_Z m -> round_positive x == x.
Proof.
  intros Hx Hm. unfold round_positive. rewrite Hm, round_even_Z, <-Hm. field.
  pose proof (pow2_pos (exponent x - 52)). lra.
Qed.

Lemma rnd_positive (x : Q) : 0 < x -> rnd x == round_positive x.
Proof.
  intros Hx. unfold rnd. destruct (Qcompare_spec x 0); [lra|lra|]. apply Qred_correct.
Qed.

Lemma rnd_negative (x : Q) : x < 0 -> rnd x == - round_positive (- x).
Proof.
  intros Hx. unfold rnd. destruct (Qcompare_spec x 0); [lra| |lra]. by rewrite Qred_correct.
Qed.

Lemma rnd_zero (x : Q) : x == 0 -> rnd x == 0.
Proof. intros Hx. unfold rnd. destruct (Qcompare_spec x 0); [done|lra|lra]. Qed.

Lemma rnd_sign (x : Q) : (0 < x -> 0 < rnd x) /\ (x < 0 -> rnd x < 0).
Proof.
  split; intros Hx.
  - rewrite rnd_positive by done. destruct (round_positive_range x Hx) as [H _].
    pose proof (pow2_pos (exponent x)). lra.
  - rewrite rnd_negative by done. destruct (round_positive_range (- x)) as [H _]; [lra|].
    pose proof (pow2_pos (exponent (- x))). lra.
Qed.

(** Rounding keeps the order. *)
Lemma rnd_mono (x y : Q) : x <= y -> rnd x <= rnd y.
Proof.
  intros Hxy.
  destruct (rnd_sign x) as [Hx1 Hx2], (rnd_sign y) as [Hy1 Hy2].
  destruct (Q_dec x 0) as [[Hx|Hx]|Hx], (Q_dec y 0) as [[Hy|Hy]|Hy];
    try specialize (Hx1 Hx); try specialize (Hx2 Hx); try specialize (Hy1 Hy); try specialize (Hy2 Hy);
    try pose proof (rnd_zero x Hx); try pose proof (rnd_zero y Hy); try lra.
  - rewrite (rnd_negative x), (rnd_negative y) by done.
    assert (round_positive (- y) <= round_positive (- x)) by (apply round_positive_mono; lra). lra.
  - rewrite (rnd_positive x), (rnd_positive y) by done. by apply round_positive_mono.
Qed.

#[export] Instance rnd_proper : Proper (Qeq ==> Qeq) rnd.
Proof. intros x y Hxy. apply Qle_antisym; apply rnd_mono; rewrite Hxy; apply Qle_refl. Qed.

(** The doubles. *)
Definition representable (x : Q) : Prop := rnd x == x.

Lemma positive_int_exact (n : Z) : (0 < n <= 2 ^ 53)%Z -> round_positive (inject_Z n) == inject_Z n.
Proof.
  intros Hn. assert (0 < inject_Z n) as Hx by (change 0 with (inject_Z 0); rewrite <-Zlt_Qlt; lia).
  destruct (exponent_spec _ Hx) as [Hlo Hhi].
  assert (exponent (inject_Z n) < 54)%Z as He.
  { apply pow2_lt_inv. eapply Qle_lt_trans; [exact Hlo|]. rewrite pow2_Z by lia. rewrite <-Zlt_Qlt. lia. }
  destruct (Z.eq_dec (exponent (inject_Z n)) 53%Z) as [H53|Hne].
  - apply (round_positive_exact _ (2 ^ 52)%Z); [done|]. rewrite H53 in *.
    assert (n = 2 ^ 53)%Z as ->; [|by_evaluation].
    rewrite pow2_Z, <-Zle_Qle in Hlo by lia. lia.
  - apply (round_positive_exact _ (n * 2 ^ (52 - exponent (inject_Z n)))%Z); [done|].
    rewrite inject_Z_mult, <-pow2_Z by lia. set (e := exponent _) in *.
    assert (pow2 (52 - e) * pow2 (e - 52) == 1) as Hinv.
    { rewrite <-pow2_add. by replace (52 - e + (e - 52))%Z with 0%Z by lia. }
    pose proof (pow2_pos (e - 52)). apply Qmult_inj_r with (pow2 (e - 52)); [lra|].
    rewrite <-Qmult_assoc, Hinv. field. lra.
Qed.

Lemma rnd_int (n : Z) : (Z.abs n <= 2 ^ 53)%Z -> representable (inject_Z n).
Proof.
  intros Hn. unfold representable. destruct (Z.lt_total n 0) as [H|[->|H]].
  - assert (inject_Z n < 0) by (change 0 with (inject_Z 0); by rewrite <-Zlt_Qlt).
    rewrite rnd_negative by done. rewrite <-inject_Z_opp, positive_int_exact by lia.
    rewrite <-inject_Z_opp. by rewrite Z.opp_involutive.
  - done.
  - assert (0 < inject_Z n) by (change 0 with (inject_Z 0); by rewrite <-Zlt_Qlt).
    rewrite rnd_positive by done. apply positive_int_exact. lia.
Qed.

Lemma round_positive_idem (x : Q) : 0 < x -> round_positive (round_positive x) == round_positive x.
Proof.
  intros Hx. destruct (round_positive_range x Hx) as [Hlo Hhi].
  assert (0 < round_positive x) as Hr by (pose proof (pow2_pos (exponent x)); lra).
  destruct (Qlt_le_dec (round_positive x) (pow2 (exponent x + 1))) as [Hlt|Hge].
  - assert (exponent (round_positive x) = exponent x) as He by (by apply exponent_unique).
    apply (round_positive_exact _ (round_even (x / pow2 (exponent x - 52)))); [done|]. rewrite He.
    unfold round_positive at 1. apply Qdiv_mult_l. pose proof (pow2_pos (exponent x - 52)). lra.
  - assert (round_positive x == pow2 (exponent x + 1)) as Heq by (by apply Qle_antisym).
    assert (exponent (round_positive x) = exponent x + 1)%Z as He.
    { apply exponent_unique. rewrite Heq. split; [apply Qle_refl|].
      replace (exponent x + 1 + 1)%Z with (1 + (exponent x + 1))%Z by lia. rewrite (pow2_add 1 (exponent x + 1)).
      change (pow2 1) with 2. pose proof (pow2_pos (exponent x + 1)). lra. }
    apply (round_positive_exact _ (2 ^ 52)%Z); [done|]. rewrite He, Heq.
    rewrite <-pow2_Z by lia. pose proof (pow2_pos (exponent x + 1 - 52)).
    apply Qmult_inj_r with (pow2 (exponent x + 1 - 52)); [lra|]. rewrite <-pow2_add.
    replace (52 + (exponent x + 1 - 52))%Z with (exponent x + 1)%Z by lia. field. lra.
Qed.

(** Rounding a rounded number changes nothing. *)
Lemma rnd_idem (x : Q) : representable (rnd x).
Proof.
  unfold representable. destruct (rnd_sign x) as [H1 H2].
  destruct (Q_dec x 0) as [[Hx|Hx]|Hx].
  - specialize (H2 Hx). pose proof (rnd_negative x Hx) as Hr. rewrite Hr at 1.
    rewrite rnd_negative by lra.
    assert (rnd (- - round_positive (- x)) == rnd (round_positive (- x))) as He by (apply rnd_proper; ring).
    assert (0 < round_positive (- x)) as Hp by lra.
    rewrite !rnd_positive in He by lra. rewrite He, round_positive_idem by lra. by rewrite Hr.
  - specialize (H1 Hx). pose proof (rnd_positive x Hx) as Hr. rewrite Hr at 1.
    rewrite rnd_positive by lra. rewrite round_positive_idem by done. by rewrite Hr.
  - by rewrite (rnd_zero x Hx), rnd_zero.
Qed.

(** Rounding stays between doubles. *)
Lemma rnd_between (a b x : Q) : representable a -> representable b -> a <= x <= b -> a <= rnd x <= b.
Proof.
  intros Ha Hb [H1 H2]. apply rnd_mono in H1, H2. unfold representable in *. lra.
Qed.

Lemma rnd_at_least (a x : Q) : representable a -> a <= x -> a <= rnd x.
Proof. intros Ha H. apply rnd_mono in H. unfold representable in Ha. lra. Qed.

Lemma rnd_at_most (b x : Q) : representable b -> x <= b -> rnd x <= b.
Proof. intros Hb H. apply rnd_mono in H. unfold representable in Hb. lra. Qed.

Lemma dmax_l (x y : Q) : x <= dmax x y.
Proof. unfold dmax. destruct (Qle_bool x y) eqn:H; [by apply Qle_bool_iff|apply Qle_refl]. Qed.

Lemma dmax_r (x y : Q) : y <= dmax x y.
Proof.
  unfold dmax. destruct (Qle_bool x y) eqn:H; [apply Qle_refl|].
  apply Qlt_le_weak, Qnot_le_lt. rewrite <-Qle_bool_iff. congruence.
Qed.

Lemma dmax_cases (x y : Q) : dmax x y = x \/ dmax x y = y.
Proof. unfold dmax. destruct (Qle_bool x y); auto. Qed.

Lemma rnd_opp (x : Q) : rnd (- x) == - rnd x.
Proof.
  assert (forall y, 0 < y -> rnd (- y) == - rnd y) as Hp.
  { intros y Hy. rewrite rnd_negative by lra. assert (rnd (- - y) == rnd y) as <- by (apply rnd_proper; ring).
    rewrite (rnd_positive (- - y)) by lra. ring. }
  destruct (Q_dec x 0) as [[Hx|Hx]|Hx].
  - assert (rnd (- - x) == - rnd (- x)) as H by (apply Hp; lra).
    assert (rnd (- - x) == rnd x) as H' by (apply rnd_proper; ring). rewrite <-H', H. ring.
  - by apply Hp.
  - rewrite (rnd_zero x Hx). rewrite rnd_zero by lra. ring.
Qed.

Lemma representable_opp (x : Q) : representable x -> representable (- x).
Proof. unfold representable. intros Hx. by rewrite rnd_opp, Hx. Qed.
