(* ===== verification/DesktopTypes.v ===== *)
(** The data of the desktop client: the interfaces under desktop/frontend/bindings (models.ts)
    and the views of desktop/frontend/src/App.tsx. A member typed [T | null] or [f?: T] is an
    [option]; numbers are the integers the service sends. *)

From S2P Require Import Prelude JsString Json.

Record AppConfig := {
  serverUrl : jsstr; dataAddress : jsstr; transport : jsstr; quicAddress : jsstr; caFile : jsstr;
  token : jsstr; name : jsstr; deviceId : jsstr; insecureSkipVerify : bool; autoStart : bool
}.

(** [Partial<AppConfig>]: the members that are there. *)
Record PartialConfig := {
  p_serverUrl : option jsstr; p_dataAddress : option jsstr; p_transport : option jsstr;
  p_quicAddress : option jsstr; p_caFile : option jsstr; p_token : option jsstr;
  p_name : option jsstr; p_deviceId : option jsstr; p_insecureSkipVerify : option bool;
  p_autoStart : option bool
}.

Record RuntimeStatus := {
  connected : bool; state : jsstr; message : jsstr; version : jsstr;
  uploadBytes : Z; downloadBytes : Z; lastStartedAt : option jsstr; lastStoppedAt : option jsstr
}.

Record UpdateResult := {
  checked : bool; available : bool; latestVersion : jsstr; downloadURL : jsstr;
  downloadState : jsstr; ready : bool; update_message : jsstr
}.

Record LogEntry := {
  entry_time : jsstr; entry_level : jsstr; entry_message : jsstr;
  entry_fields : option (list (jsstr * json))
}.

Record Tunnel := {
  id : jsstr; tunnel_client_id : jsstr; tunnel_name : jsstr; protocol : jsstr;
  visitor_token : option jsstr; local_host : jsstr; local_port : Z; remote_port : Z;
  domain : jsstr; tunnel_status : jsstr; ip_allowlist : option (list jsstr);
  created_at : jsstr; updated_at : jsstr
}.

Record DesktopSnapshot := {
  config : AppConfig; status : RuntimeStatus; tunnels : option (list Tunnel);
  tunnelPaths : option (list (jsstr * jsstr)); logs : option (list LogEntry);
  update : option UpdateResult
}.

Inductive SettingsSection := General | Network | Connection | Logs | About.

Inductive View :=
| Home
| Settings (section : SettingsSection)
| TunnelView (tunnelId : jsstr).
