(* ===== verification/DesktopFormat.v ===== *)
(** Texts of the desktop client: desktop/frontend/src/format.ts, elapsedTime.ts and the
    labels of HomeView.tsx and TunnelDetailView.tsx. *)

From S2P Require Import Prelude JsString JsNumber Json WebPlatform DashFormat DesktopTypes.

(** ** format.ts *)

(** [value.slice(0, n)] and [value.slice(-n)] *)
Definition redact (value : jsstr) : jsstr :=
  if negb (truthy value) then js ""
  else if (length value <=? 8)%nat then js "********"
  else take 4 value ++ js "..." ++ last_n 4 value.

Section Dates.
Context `{Dates}.

Definition formatTime (value : option jsstr) : jsstr :=
  match value with
  | Some v => if negb (truthy v) then js "-"
              else match parse_date v with
                   | None => v
                   | Some t => toLocaleString None t
                   end
  | None => js "-"
  end.

Definition logLine (entry : LogEntry) : jsstr :=
  let fields := match entry_fields entry with Some f => stringify (JObj f) | None => js "" end in
  trim (js "[" ++ formatTime (Some (entry_time entry)) ++ js "] " ++ entry_level entry ++ js " "
        ++ entry_message entry ++ js " " ++ fields).

(** *** elapsedTime.ts *)

Definition formatElapsedTime (start : option jsstr) (active : bool) (now : Z) : jsstr :=
  let hidden := js "--:--:--" in
  match start with
  | Some s =>
    if negb (truthy s) || negb active then hidden
    else match parse_date s with
         | None => hidden
         | Some startedAt =>
           let seconds := Z.max 0 ((now - startedAt) / 1000) in
           let hours := padStart 2 48 (int_to_string (seconds / 3600)) in
           let minutes := padStart 2 48 (int_to_string ((seconds / 60) mod 60)) in
           hours ++ js ":" ++ minutes ++ js ":" ++ padStart 2 48 (int_to_string (seconds mod 60))
         end
  | None => hidden
  end.

(** [useElapsedTime]: the time of the last render's clock, and whether its timer runs. The
    effect runs when [start] or [active] changes; the timer fires once a second. *)
Record Elapsed := { elapsed_now : Z; ticking : bool }.

Definition elapsed_effect (now : Z) (active : bool) : Elapsed := {| elapsed_now := now; ticking := active |}.
Definition elapsed_timer (e : Elapsed) (now : Z) : Elapsed :=
  if ticking e then {| elapsed_now := now; ticking := true |} else e.
Definition useElapsedTime (start : option jsstr) (active : bool) (e : Elapsed) : jsstr :=
  formatElapsedTime start active (elapsed_now e).
End Dates.

(** The loop over the units: [next] is [value / den]. *)
Fixpoint bytes_loop (us : list jsstr) (value den : Z) : jsstr :=
  match us with
  | [] => toFixed 1 value den ++ js " TiB"
  | unit :: rest =>
    if (value <? 1024 * den)%Z then toFixed 1 value den ++ js " " ++ unit
    else bytes_loop rest value (den * 1024)
  end.

Definition formatBytes (value : Z) : jsstr :=
  if (value <? 1024)%Z then int_to_string value ++ js " B"
  else bytes_loop [js "KiB"; js "MiB"; js "GiB"] value 1024.

(** ** Labels *)

Definition pathLabel (path : option jsstr) : jsstr :=
  match path with
  | Some p => if str_eqb p (js "p2p") then js "P2P"
              else if str_eqb p (js "relay") then js "Relay"
              else if str_eqb p (js "visitor_p2p") then js "访客 P2P"
              else if str_eqb p (js "visitor_relay") then js "访客 Relay"
              else js "未知"
  | None => js "未知"
  end.

(** The detail view has the same table of its own. *)
Definition detailPathLabel (path : option jsstr) : jsstr :=
  match path with
  | Some p => if str_eqb p (js "p2p") then js "P2P"
              else if str_eqb p (js "relay") then js "Relay"
              else if str_eqb p (js "visitor_p2p") then js "访客 P2P"
              else if str_eqb p (js "visitor_relay") then js "访客 Relay"
              else js "未知"
  | None => js "未知"
  end.

(** HomeView's. *)
Definition pathClass (path : option jsstr) : jsstr :=
  match path with
  | Some p => if str_eqb p (js "p2p") then js "p2p"
              else if str_eqb p (js "relay") then js "relay"
              else if str_eqb p (js "visitor_p2p") then js "visitor-p2p"
              else if str_eqb p (js "visitor_relay") then js "visitor-relay"
              else js "unknown"
  | None => js "unknown"
  end.

(** TunnelDetailView's. *)
Definition detailPathClass (path : option jsstr) : jsstr :=
  match path with
  | Some p => if negb (truthy p) then js ""
              else if str_eqb p (js "p2p") then js "path-p2p"
              else if str_eqb p (js "relay") then js "path-relay"
              else if str_eqb p (js "visitor_p2p") then js "path-visitor-p2p"
              else if str_eqb p (js "visitor_relay") then js "path-visitor-relay"
              else js "path-unknown"
  | None => js ""
  end.

Definition statusLabel (status : jsstr) : jsstr :=
  if str_eqb status (js "running") then js "运行中"
  else if str_eqb status (js "error") then js "异常"
  else js "已停止".

Definition sectionTitle (section : SettingsSection) : jsstr :=
  match section with
  | Network => js "网络设置"
  | Connection => js "连接设置"
  | _ => js "常规设置"
  end.

(** ** Properties *)

(** *** Sizes *)

Definition binary_units : list jsstr := [js "B"; js "KiB"; js "MiB"; js "GiB"; js "TiB"].

Lemma toFixed_integer (n : Z) : (0 <= n)%Z -> toFixed 0 n 1 = int_to_string n.
Proof.
  intros Hn. rewrite toFixed_nonneg by done. unfold int_to_string.
  destruct (Z.ltb_spec n 0); [lia|].
  pose proof (round_fixed_closest 0 n 1 eq_refl) as Hc.
  assert (round_fixed 0 n 1 = n) as ->.
  { change (10 ^ Z.of_nat 0)%Z with 1%Z in Hc. lia. }
  unfold fixed_digits, padStart.
  pose proof (nat_to_string_not_nil (Z.to_N n)). by destruct (nat_to_string (Z.to_N n)).
Qed.

(** The loop stops at the unit the logarithm names. *)
Lemma formatBytes_scale (b : Z) :
  (1024 <= b)%Z ->
  formatBytes b = toFixed 1 b (1024 ^ scale b) ++ js " " ++ nth (Z.to_nat (scale b)) binary_units [].
Proof.
  intros Hb. unfold formatBytes. destruct (Z.ltb_spec b 1024); [lia|]. cbn [bytes_loop].
  destruct (Z.ltb_spec b (1024 * 1024)).
  { by rewrite (scale_unique b 1) by lia. }
  destruct (Z.ltb_spec b (1024 * (1024 * 1024))).
  { by rewrite (scale_unique b 2) by lia. }
  destruct (Z.ltb_spec b (1024 * (1024 * 1024 * 1024))).
  { by rewrite (scale_unique b 3) by lia. }
  by rewrite (scale_unique b 4) by lia.
Qed.

(** C10: The desktop client and the dashboard show the same size: one divides in a loop, the
    other takes a logarithm, and for every positive count both print the same number in the
    same unit, written KiB by one and KB by the other. *)
Theorem formatBytes_agree (b : Z) :
  (0 < b)%Z ->
  exists number i, (i < 5)%nat
    /\ formatBytes b = number ++ js " " ++ nth i binary_units []
    /\ DashFormat.formatBytes (Some b) = number ++ js " " ++ nth i units [].
Proof.
  intros Hb. destruct (scale_spec b Hb) as ((H0 & H4) & Hlo & Hhi).
  exists (size_digits b), (Z.to_nat (scale b)). split; [lia|].
  split; [|by apply formatBytes_closed].
  destruct (Z.le_gt_cases 1024 b) as [Hk|Hk].
  - rewrite formatBytes_scale by done. unfold size_digits.
    destruct (Z.eqb_spec (scale b) 0) as [Hs|Hs]; [|done].
    rewrite Hs in Hhi. change (1024 ^ (0 + 1))%Z with 1024%Z in Hhi. lia.
  - unfold size_digits. rewrite (scale_unique b 0) by lia.
    unfold formatBytes. destruct (Z.ltb_spec b 1024); [|lia].
    by rewrite <-toFixed_integer by lia.
Qed.

Lemma formatBytes_agree_witness :
  exists number i, formatBytes 5000000 = number ++ js " " ++ nth i binary_units [].
Proof.
  destruct (formatBytes_agree 5000000 eq_refl) as (n & i & _ & ? & _). by exists n, i.
Defined.

Example formatBytes_sample : formatBytes 5000000 = js "4.8 MiB". Proof. by_evaluation. Qed.
Example formatBytes_carry : formatBytes 1048575 = js "1024.0 KiB". Proof. by_evaluation. Qed.

(** *** Tokens *)

(** A redacted token gives away its length class and, above eight units, its first and
    last four units, nothing else: two long tokens with the same ends look the same, all
    tokens of one to eight units look the same, and what is shown has at most 11 units. *)
Theorem redact_hides (v w : jsstr) :
  (length (redact v) <= 11)%nat
  /\ ((0 < length v <= 8 /\ 0 < length w <= 8)%nat -> redact v = redact w)
  /\ ((8 < length v /\ 8 < length w)%nat -> take 4 v = take 4 w -> last_n 4 v = last_n 4 w ->
      redact v = redact w).
Proof.
  assert (forall u : jsstr, (8 < length u)%nat -> redact u = take 4 u ++ js "..." ++ last_n 4 u) as Hlong.
  { intros [|n u] Hu; [cbn in Hu; lia|]. unfold redact. cbn [truthy truthy_list negb].
    by destruct (Nat.leb_spec (length (n :: u)) 8); [lia|]. }
  assert (forall u : jsstr, (0 < length u <= 8)%nat -> redact u = js "********") as Hshort.
  { intros [|n u] Hu; [cbn in Hu; lia|]. unfold redact. cbn [truthy truthy_list negb].
    by destruct (Nat.leb_spec (length (n :: u)) 8); [|lia]. }
  split; [|split].
  - destruct v as [|c v]; [apply Nat.leb_le; by_evaluation|]. destruct (Nat.le_gt_cases (length (c :: v)) 8).
    + rewrite Hshort by (cbn in *; lia). apply Nat.leb_le. by_evaluation.
    + rewrite Hlong by done. rewrite !length_app, length_take, last_n_length.
      change (length (js "...")) with 3%nat. lia.
  - intros [? ?]. by rewrite !Hshort.
  - intros [? ?] Ht Hl. by rewrite !Hlong, Ht, Hl.
Qed.

Lemma redact_hides_witness : redact (js "abcdXXefgh") = redact (js "abcdYYYefgh").
Proof.
  apply (redact_hides (js "abcdXXefgh") (js "abcdYYYefgh")); [vm_compute; lia|by_evaluation..].
Defined.

(** *** Elapsed time *)

(** The clock reads hours:minutes:seconds of the whole seconds since the start, with
    minutes and seconds below 60 and two digits in each part at least; a start in the
    future reads zero; no start, an unreadable one or no connection reads dashes. *)
Theorem formatElapsedTime_reads `{Dates} (start : option jsstr) (active : bool) (now : Z) :
  (exists t, start ≫= parse_date = Some t /\ start <> Some [] /\ active = true
     /\ exists h m s, (0 <= h /\ 0 <= m < 60 /\ 0 <= s < 60)%Z
        /\ (h * 3600 + m * 60 + s = Z.max 0 ((now - t) / 1000))%Z
        /\ let pad v := padStart 2 48 (int_to_string v) in
           formatElapsedTime start active now = pad h ++ js ":" ++ pad m ++ js ":" ++ pad s)
  \/ ((start = None \/ start = Some [] \/ active = false \/ start ≫= parse_date = None)
      /\ formatElapsedTime start active now = js "--:--:--").
Proof.
  unfold formatElapsedTime. destruct start as [[|c s]|]; [right; auto| |right; auto].
  cbn [truthy truthy_list negb orb]. destruct active; cbn [negb]; [|right; auto].
  destruct (parse_date (c :: s)) as [t|] eqn:Hp; [left|right; cbn; rewrite Hp; auto 6].
  exists t. cbn. rewrite Hp. split; [done|]. split; [done|]. split; [done|].
  set (n := Z.max 0 ((now - t) / 1000)). assert (0 <= n)%Z by lia. clearbody n.
  exists (n / 3600)%Z, ((n / 60) mod 60)%Z, (n mod 60)%Z.
  pose proof (Z.div_mod n 3600 ltac:(lia)). pose proof (Z.mod_pos_bound n 3600 ltac:(lia)).
  pose proof (Z.div_mod n 60 ltac:(lia)). pose proof (Z.mod_pos_bound n 60 ltac:(lia)).
  pose proof (Z.div_mod (n / 60) 60 ltac:(lia)). pose proof (Z.mod_pos_bound (n / 60) 60 ltac:(lia)).
  assert (n / 60 / 60 = n / 3600)%Z as Hq by (rewrite Z.div_div by lia; done).
  split; [split; [apply Z.div_pos; lia|lia]|]. split; [lia|done].
Qed.

Lemma last_default (ts : list Z) (t t0 : Z) : List.last (t :: ts) t0 = List.last ts t.
Proof.
  revert t t0. induction ts as [|u ts IH]; intros t t0; [done|].
  change (List.last (u :: ts) t0 = List.last (u :: ts) t). by rewrite !IH.
Qed.

(** While it runs the clock shows the time of the last tick; one that is not active shows none,
    however often the timer would have fired. *)
Lemma elapsed_follows `{Dates} (start : option jsstr) (active : bool) (t0 : Z) (ts : list Z) :
  useElapsedTime start active (fold_left elapsed_timer ts (elapsed_effect t0 active))
  = formatElapsedTime start active (if active then List.last ts t0 else t0).
Proof.
  unfold useElapsedTime. f_equal. unfold elapsed_effect. destruct active.
  - revert t0. induction ts as [|t ts IH]; intros t0; [done|].
    change (elapsed_now (fold_left elapsed_timer ts {| elapsed_now := t; ticking := true |}) = List.last (t :: ts) t0).
    by rewrite IH, last_default.
  - induction ts as [|t ts IH]; [done|]. exact IH.
Qed.

(** The two views of a tunnel's path agree: they label it alike; where both have a class for
    it they name the same path, and a path has a label of its own exactly when its class is not the one of an
    unknown path. *)
Theorem path_views_agree (path : option jsstr) :
  detailPathLabel path = pathLabel path
  /\ (pathLabel path = js "未知" <-> pathClass path = js "unknown")
  /\ (pathLabel path <> js "未知" -> detailPathClass path = js "path-" ++ pathClass path)
  /\ (pathLabel path = js "未知" -> detailPathClass path = js "" \/ detailPathClass path = js "path-unknown").
Proof.
  split; [done|]. destruct path as [p|]; [|split; [|split]; vm_compute; intuition congruence].
  unfold pathLabel, pathClass, detailPathClass, str_eqb.
  destruct p as [|c p]; [split; [|split]; vm_compute; intuition congruence|].
  cbn [truthy truthy_list negb].
  repeat (case_bool_decide; [split; [|split]; vm_compute; intuition congruence|]).
  split; [|split]; vm_compute; intuition congruence.
Qed.
