(* ===== verification/UserFeedback.v ===== *)
(** What the desktop client tells its user, and the configuration it saves:
    desktop/frontend/src/userFeedback.ts and configDraft.ts. *)

From S2P Require Import Prelude JsString JsNumber Json JsErrors DesktopTypes.

(** ** configDraft.ts *)

Definition emptyConfig : AppConfig :=
  {| serverUrl := js ""; dataAddress := js ""; transport := js "websocket"; quicAddress := js "";
     caFile := js ""; token := js ""; name := js ""; deviceId := js "";
     insecureSkipVerify := false; autoStart := false |}.

(** A configuration as the object it is. *)
Definition whole (c : AppConfig) : PartialConfig :=
  {| p_serverUrl := Some (serverUrl c); p_dataAddress := Some (dataAddress c);
     p_transport := Some (transport c); p_quicAddress := Some (quicAddress c);
     p_caFile := Some (caFile c); p_token := Some (token c); p_name := Some (name c);
     p_deviceId := Some (deviceId c); p_insecureSkipVerify := Some (insecureSkipVerify c);
     p_autoStart := Some (autoStart c) |}.

(** [{ ...base, ...over }] *)
Definition spread (base : AppConfig) (over : PartialConfig) : AppConfig :=
  {| serverUrl := js_nullish (p_serverUrl over) (serverUrl base);
     dataAddress := js_nullish (p_dataAddress over) (dataAddress base);
     transport := js_nullish (p_transport over) (transport base);
     quicAddress := js_nullish (p_quicAddress over) (quicAddress base);
     caFile := js_nullish (p_caFile over) (caFile base);
     token := js_nullish (p_token over) (token base);
     name := js_nullish (p_name over) (name base);
     deviceId := js_nullish (p_deviceId over) (deviceId base);
     insecureSkipVerify := js_nullish (p_insecureSkipVerify over) (insecureSkipVerify base);
     autoStart := js_nullish (p_autoStart over) (autoStart base) |}.

Definition completeConfigForSave (current : option AppConfig) (draft : PartialConfig) : AppConfig :=
  let base := match current with Some c => spread emptyConfig (whole c) | None => emptyConfig end in
  spread base draft.

(** ** userFeedback.ts *)

Inductive FeedbackAction := LoadAction | ConnectAction | SaveAction | UpdateAction.

Record ConfigIssue := { issue_message : jsstr; issue_section : SettingsSection }.

(** [!value?.trim()] *)
Definition blank (value : option jsstr) : bool := negb (truthy (trim <$> value)).

Definition connectionConfigIssue (config : option PartialConfig) : option ConfigIssue :=
  match config with
  | None => Some {| issue_message := js "请先在“网络设置”中填写控制服务器地址。"; issue_section := Network |}
  | Some c =>
    let quic := bool_decide (p_transport c = Some (js "quic")) in
    if blank (p_serverUrl c)
    then Some {| issue_message := js "请先在“网络设置”中填写控制服务器地址。"; issue_section := Network |}
    else if quic && blank (p_quicAddress c)
    then Some {| issue_message := js "已选择 QUIC 传输，请先填写 QUIC 地址。"; issue_section := Network |}
    else if negb quic && blank (p_dataAddress c)
    then Some {| issue_message := js "请先在“网络设置”中填写数据通道地址。"; issue_section := Network |}
    else if blank (p_token c)
    then Some {| issue_message := js "请先在“连接设置”中填写 Agent Token。"; issue_section := Connection |}
    else None
  end.

(** The alternatives of a pattern, in lower case, and the message. *)
Definition errorRules : list (list jsstr * jsstr) :=
  [([js "server_url is required"], js "尚未配置控制服务器，请前往“设置 > 网络设置”填写后重试。");
   ([js "remote agent connections require wss"],
    js "当前核心仍拒绝该控制地址。Nrynet 桌面端支持 ws:// 和 wss://，请确认服务端与核心配置已更新后重试。");
   ([js "data_address is required"], js "尚未配置数据通道，请前往“设置 > 网络设置”填写后重试。");
   ([js "quic_address is required"], js "已选择 QUIC 传输，但尚未填写 QUIC 地址。");
   ([js "token is required"], js "尚未配置 Agent Token，请前往“设置 > 连接设置”填写后重试。");
   ([js "invalid or disabled"; js "invalid agent token"; js "bad handshake"],
    js "服务器拒绝连接，请检查 Agent Token 是否正确且仍然有效。");
   ([js "certificate pin does not match"],
    js "服务器证书已发生变化，请确认服务端安全后在 Dashboard 重新生成 Agent Token。");
   ([js "unknown authority"; js "certificate"],
    js "服务器证书校验失败，请在新版 Nrynet Dashboard 重新生成 Agent Token。");
   ([js "no such host"], js "找不到服务器域名，请检查地址拼写和 DNS 网络设置。");
   ([js "connection refused"; js "actively refused"], js "服务器拒绝连接，请确认服务端已启动且端口可访问。");
   ([js "quic control unavailable"; js "read quic control frame"; js "write quic control frame"],
    js "QUIC 控制连接已断开，客户端正在自动改用 WebSocket 重连。");
   ([js "read control message"; js "send heartbeat"], js "控制连接已断开，客户端正在自动重连。");
   ([js "timeout"; js "deadline exceeded"], js "连接服务器超时，请检查网络、防火墙和服务器端口。");
   ([js "update check is already running"], js "正在检查更新，请稍候。");
   ([js "update settings changed"], js "更新设置已变更，请重启 Nrynet 后再检查更新。")].

Definition fallbackMessages (action : FeedbackAction) : jsstr :=
  match action with
  | LoadAction => js "客户端信息加载失败，请重启 Nrynet；若问题仍然存在，请查看运行日志。"
  | ConnectAction => js "连接失败，请检查服务器地址、网络和服务端状态后重试。"
  | SaveAction => js "设置保存失败，请检查填写内容和系统权限后重试。"
  | UpdateAction => js "检查更新失败，请检查网络连接和 GitHub Release 状态后重试。"
  end.

Definition errorText (error : thrown) : jsstr :=
  match error with
  | TApiError _ m | TError m => m
  | TUndefined | TValue JNull => js ""
  | TValue (JStr s) => s
  | TValue (JObj l) => match obj_get (js "message") l with
                       | Some m => to_String m
                       | None => to_String (JObj l)
                       end
  | TValue v => to_String v
  end.

(** [/[\u3400-\u9fff]/.test(value)] *)
Definition containsChinese (value : jsstr) : bool := has_unit_in 13312 40959 value.

(** [raw.replace(/^error:\s*/i, "")] *)
Definition strip_error_prefix (raw : jsstr) : jsstr :=
  if str_eqb (List.map fold_ascii (take 6 raw)) (js "error:") then trimStart (drop 6 raw) else raw.

Definition userErrorMessage (error : thrown) (action : FeedbackAction) : jsstr :=
  let raw := errorText error in
  if containsChinese raw then strip_error_prefix raw
  else match List.find (fun rule => matches_any_i (fst rule) raw) errorRules with
       | Some rule => snd rule
       | None => fallbackMessages action
       end.

Definition connectionStatusMessage (status : option RuntimeStatus) : option jsstr :=
  match status with
  | None => None
  | Some s =>
    if connected s then None
    else if str_eqb (state s) (js "connecting") then Some (js "正在连接服务器，请稍候...")
    else if negb (truthy (message s)) || includes (js "已由用户断开") (message s) then None
    else Some (userErrorMessage (TValue (JStr (message s))) ConnectAction)
  end.

(** ** Properties *)

(** *** Error texts *)

Lemma containsChinese_cons (c : N) (s : jsstr) :
  containsChinese (c :: s) = ((13312 <=? c) && (c <=? 40959))%N || containsChinese s.
Proof. done. Qed.

Lemma containsChinese_trimStart (s : jsstr) : containsChinese (trimStart s) = containsChinese s.
Proof.
  induction s as [|c s IH]; [done|]. cbn [trimStart]. destruct (is_space c) eqn:Hc; [|done].
  rewrite IH, containsChinese_cons. unfold is_space in Hc.
  destruct ((13312 <=? c) && (c <=? 40959))%N eqn:Hr; [|done]. lia.
Qed.

(** The prefix is ASCII, so nothing Chinese is lost with it. *)
Lemma containsChinese_stripped (raw : jsstr) :
  containsChinese raw = true -> containsChinese (strip_error_prefix raw) = true.
Proof.
  unfold strip_error_prefix. intros Hr.
  destruct (str_eqb _ _) eqn:Hp; [|done]. rewrite containsChinese_trimStart.
  rewrite <-(firstn_skipn 6 raw) in Hr. unfold containsChinese in Hr. rewrite has_unit_in_app in Hr.
  apply orb_true_iff in Hr as [Hr|]; [|done]. exfalso.
  apply bool_decide_eq_true in Hp. unfold has_unit_in in Hr. apply existsb_exists in Hr as (c & Hin & Hc).
  assert (fold_ascii c ∈ List.map fold_ascii (firstn 6 raw)) as Hf.
  { apply list_elem_of_In, in_map. done. }
  assert (fold_ascii c ∈ js "error:") as Hf2 by (rewrite <-Hp; exact Hf).
  assert (Forall (fun d => (d < 200)%N) (js "error:")) as Hall by (repeat constructor).
  rewrite Forall_forall in Hall. specialize (Hall _ Hf2). unfold fold_ascii in Hall.
  destruct ((65 <=? c) && (c <=? 90))%N eqn:Hca; lia.
Qed.

Lemma errorRules_chinese : Forall (fun rule => containsChinese (snd rule) = true) errorRules.
Proof. apply (bool_decide_unpack _). by_evaluation. Qed.

Lemma userErrorMessage_chinese (error : thrown) (action : FeedbackAction) :
  containsChinese (userErrorMessage error action) = true.
Proof.
  unfold userErrorMessage. destruct (containsChinese (errorText error)) eqn:Hc.
  - by apply containsChinese_stripped.
  - destruct (List.find _ errorRules) as [rule|] eqn:Hf; [|by destruct action].
    apply List.find_some in Hf as [Hin _]. pose proof errorRules_chinese as Hall.
    rewrite Forall_forall in Hall. by apply Hall, list_elem_of_In.
Qed.

(** C13: Whatever was thrown - an Error, a string, an object, nothing at all - and whatever
    the user was doing, the message shown contains Chinese text; so does the hint under
    the connection state whenever there is one. *)
Theorem feedback_always_chinese (error : thrown) (action : FeedbackAction) (status : option RuntimeStatus) :
  containsChinese (userErrorMessage error action) = true
  /\ (forall m, connectionStatusMessage status = Some m -> containsChinese m = true).
Proof.
  split; [apply userErrorMessage_chinese|]. intros m. unfold connectionStatusMessage.
  destruct status as [s|]; [|done]. destruct (connected s); [done|].
  destruct (str_eqb _ _); [by intros [= <-]|]. destruct (_ || _); [done|].
  intros [= <-]. apply userErrorMessage_chinese.
Qed.

Lemma feedback_always_chinese_witness :
  containsChinese (js "正在连接服务器，请稍候...") = true.
Proof.
  refine (proj2 (feedback_always_chinese TUndefined LoadAction
    (Some {| connected := false; state := js "connecting"; message := []; version := [];
             uploadBytes := 0; downloadBytes := 0; lastStartedAt := None; lastStoppedAt := None |})) _ eq_refl).
Defined.

(** No rule is hidden by an earlier one: every alternative of every pattern, in an error
    of its own, in lower case or upper, gets its rule's message, whatever was being done. *)
Theorem errorRules_reachable (action : FeedbackAction) :
  Forall (fun rule => Forall (fun p => userErrorMessage (TError p) action = snd rule
                       /\ userErrorMessage (TValue (JStr (toUpperCase p))) action = snd rule) (fst rule)) errorRules.
Proof. destruct action; apply (bool_decide_unpack _); by_evaluation. Qed.

(** *** Configuration *)

(** A field that is there and not blank. *)
Definition filled (value : option jsstr) : Prop := exists v, value = Some v /\ trim v <> [].

Lemma blank_spec (value : option jsstr) : blank value = false <-> filled value.
Proof.
  unfold blank, filled. destruct value as [v|]; cbn.
  - destruct (trim v) eqn:Ht; cbn; split; try done.
    + by intros (v' & [= <-] & Hne).
    + intros _. exists v. by rewrite Ht.
  - split; [done|]. by intros (v & ? & _).
Qed.

(** C11: A connection is attempted exactly with a control server, a token, and the address
    its transport needs - the QUIC address for quic, the data address for any other - all
    of them non-blank; and when it is not, the user is sent to the settings section that
    has the missing field. *)
Theorem connectionConfigIssue_spec (c : PartialConfig) :
  let address := if bool_decide (p_transport c = Some (js "quic")) then p_quicAddress c else p_dataAddress c in
  (connectionConfigIssue (Some c) = None
   <-> filled (p_serverUrl c) /\ filled address /\ filled (p_token c))
  /\ forall issue, connectionConfigIssue (Some c) = Some issue ->
       (issue_section issue = Network <-> ~ (filled (p_serverUrl c) /\ filled address))
       /\ (issue_section issue = Connection <-> filled (p_serverUrl c) /\ filled address /\ ~ filled (p_token c)).
Proof.
  cbn zeta. unfold connectionConfigIssue.
  set (q := bool_decide (p_transport c = Some (js "quic"))). clearbody q.
  pose proof (blank_spec (p_serverUrl c)) as Hs. pose proof (blank_spec (p_token c)) as Ht.
  assert (blank (if q then p_quicAddress c else p_dataAddress c) = false
          <-> filled (if q then p_quicAddress c else p_dataAddress c)) as Ha by apply blank_spec.
  generalize dependent (filled (p_serverUrl c)). generalize dependent (filled (p_token c)).
  destruct q; cbn [negb andb] in *.
  - generalize dependent (filled (p_quicAddress c)). intros A HA T HT U HU.
    destruct (blank (p_serverUrl c)), (blank (p_quicAddress c)), (blank (p_token c));
      (split; [|intros issue [= <-]; cbn]); intuition congruence.
  - generalize dependent (filled (p_dataAddress c)). intros A HA T HT U HU.
    destruct (blank (p_serverUrl c)), (blank (p_dataAddress c)), (blank (p_token c));
      (split; [|intros issue [= <-]; cbn]); intuition congruence.
Qed.

(** A save sends a complete configuration in which every member of the draft wins, every
    other member is the current one, and the default where there is no current
    configuration; saving the same draft again changes nothing. *)
Theorem completeConfigForSave_spec (current : option AppConfig) (draft : PartialConfig) :
  let saved := completeConfigForSave current draft in
  let base := js_nullish current emptyConfig in
  saved = spread base draft
  /\ (forall v, p_token draft = Some v -> token saved = v)
  /\ (p_token draft = None -> token saved = token base)
  /\ (p_serverUrl draft = None -> serverUrl saved = serverUrl base)
  /\ completeConfigForSave (Some saved) draft = saved
  /\ completeConfigForSave (Some saved) (whole saved) = saved.
Proof.
  assert (forall c, spread emptyConfig (whole c) = c) as Hw by by intros [].
  assert (forall c d, spread (spread c d) d = spread c d) as Hi.
  { intros c [d1 d2 d3 d4 d5 d6 d7 d8 d9 d10]. unfold spread. cbn.
    by destruct d1, d2, d3, d4, d5, d6, d7, d8, d9, d10. }
  assert (forall c d, completeConfigForSave c d = spread (js_nullish c emptyConfig) d) as Hc.
  { intros [c|] d; unfold completeConfigForSave; [by rewrite Hw|done]. }
  cbn zeta. rewrite !Hc. cbn [js_nullish]. rewrite Hi.
  split; [done|]. split; [by intros v Hv; unfold spread; cbn; rewrite Hv|].
  split; [by intros Hv; unfold spread; cbn; rewrite Hv|].
  split; [by intros Hv; unfold spread; cbn; rewrite Hv|].
  split; [done|]. by destruct (spread _ draft).
Qed.

Definition sample_draft : PartialConfig :=
  {| p_serverUrl := Some (js "wss://nat.example"); p_dataAddress := Some (js "nat.example:7001");
     p_transport := None; p_quicAddress := None; p_caFile := None; p_token := None; p_name := None;
     p_deviceId := None; p_insecureSkipVerify := None; p_autoStart := None |}.

Lemma connectionConfigIssue_spec_witness :
  filled (p_serverUrl sample_draft) /\ filled (p_dataAddress sample_draft) /\ ~ filled (p_token sample_draft).
Proof.
  destruct (proj2 (connectionConfigIssue_spec sample_draft) _ eq_refl) as [_ Hc].
  apply Hc. by_evaluation.
Defined.

Lemma completeConfigForSave_spec_witness :
  token (completeConfigForSave None sample_draft) = js "".
Proof.
  refine (proj1 (proj2 (proj2 (completeConfigForSave_spec None sample_draft))) eq_refl).
Defined.
