(* ===== verification/TunnelEndpoint.v ===== *)
(** Where a tunnel is reached, on the desktop: desktop/frontend/src/tunnelEndpoint.ts and
    [serverName] of HomeView.tsx. *)

From S2P Require Import Prelude JsString JsNumber Json JsErrors WebPlatform DesktopTypes.

(** ** The URL class of the platform *)

(** Its parser ([None] is the TypeError of the constructor), and the members the code
    reads and assigns. *)
Class UrlApi := {
  URL : Type;
  parse_url : jsstr -> option URL;
  hostname : URL -> jsstr;
  host : URL -> jsstr;
  url_protocol : URL -> jsstr;
  set_protocol : jsstr -> URL -> URL;
  set_pathname : jsstr -> URL -> URL;
  set_search : jsstr -> URL -> URL;
  set_hash : jsstr -> URL -> URL;
  url_toString : URL -> jsstr
}.

Record TunnelEndpoint := { label : jsstr; copyValue : option jsstr }.

Definition endpoint (value : jsstr) : TunnelEndpoint := {| label := value; copyValue := Some value |}.
Definition no_endpoint (text : jsstr) : TunnelEndpoint := {| label := text; copyValue := None |}.

Definition withPort (h : jsstr) (port : Z) : jsstr :=
  let normalized := if includes (js ":") h && negb (startsWith (js "[") h)
                    then js "[" ++ h ++ js "]" else h in
  if truthy port then normalized ++ js ":" ++ int_to_string port else normalized.

Section Endpoints.
Context `{UrlApi}.

Definition addressHost (address : option jsstr) : jsstr :=
  match address with
  | Some a => if negb (truthy a) then js ""
              else match parse_url (js "tcp://" ++ a) with Some u => hostname u | None => js "" end
  | None => js ""
  end.

Definition tunnelPublicHost (config : option AppConfig) : jsstr :=
  let dataHost := addressHost (dataAddress <$> config) in
  if truthy dataHost then dataHost
  else match config with
       | Some c => if negb (truthy (serverUrl c)) then js ""
                   else match parse_url (serverUrl c) with Some u => hostname u | None => js "" end
       | None => js ""
       end.

(** The [try] covers the encoding too. *)
Definition resolveVisitorEndpoint (tunnel : Tunnel) (server : jsstr) : TunnelEndpoint :=
  match visitor_token tunnel with
  | Some tok =>
    if negb (truthy tok) || negb (truthy server) then no_endpoint (js "访客地址尚未生成")
    else match parse_url server with
         | None => no_endpoint (js "访客地址无效")
         | Some u =>
           let u := set_protocol (if str_eqb (url_protocol u) (js "wss:") then js "https:" else js "http:") u in
           match encodeURIComponent (id tunnel), encodeURIComponent tok with
           | Some i, Some t =>
             let u := set_pathname (js "/visitor/" ++ i ++ js "/" ++ t) u in
             endpoint (url_toString (set_hash (js "") (set_search (js "") u)))
           | _, _ => no_endpoint (js "访客地址无效")
           end
         end
  | None => no_endpoint (js "访客地址尚未生成")
  end.

Definition resolveTunnelEndpoint (tunnel : Tunnel) (publicHost : jsstr) (server : jsstr) : TunnelEndpoint :=
  let p := toLowerCase (protocol tunnel) in
  if str_eqb p (js "visitor_webrtc") then resolveVisitorEndpoint tunnel server
  else if truthy (domain tunnel)
  then if str_eqb p (js "http") || str_eqb p (js "https")
       then endpoint (p ++ js "://" ++ domain tunnel)
       else endpoint (withPort (domain tunnel) (remote_port tunnel))
  else if negb (truthy (remote_port tunnel)) || negb (truthy publicHost)
  then no_endpoint (js "未获取到访问地址")
  else endpoint (withPort publicHost (remote_port tunnel)).

Definition serverName (value : option jsstr) : jsstr :=
  match value with
  | Some v => if negb (truthy v) then js "未配置服务器"
              else match parse_url v with Some u => host u | None => v end
  | None => js "未配置服务器"
  end.
End Endpoints.

(** ** Properties *)

Lemma withPort_shown (h : jsstr) (port : Z) : h <> [] -> withPort h port <> [].
Proof.
  intros Hh Heq. apply (f_equal length) in Heq. destruct h as [|c h]; [done|]. unfold withPort in Heq.
  destruct (includes _ _ && _), (truthy port); rewrite ?length_app in Heq; cbn [length] in Heq; lia.
Qed.


(** ** A platform *)

(** A parser of [scheme://host:port/path] addresses, enough to run the code on. *)
Record simple_url := { u_scheme : jsstr; u_host : jsstr; u_path : jsstr }.

Fixpoint split_scheme (s acc : jsstr) : option (jsstr * jsstr) :=
  if startsWith (js "://") s then Some (rev acc, drop 3 s)
  else match s with [] => None | c :: r => split_scheme r (c :: acc) end.

Definition parse_simple (s : jsstr) : option simple_url :=
  match split_scheme s [] with
  | Some (scheme, rest) =>
    match split_on 47 rest with
    | h :: path => if truthy h then Some {| u_scheme := scheme; u_host := h; u_path := join (js "/") path |} else None
    | [] => None
    end
  | None => None
  end.

Definition simple_urls : UrlApi := {|
  URL := simple_url;
  parse_url := parse_simple;
  hostname := fun u => List.hd [] (split_on 58 (u_host u));
  host := u_host;
  url_protocol := fun u => u_scheme u ++ js ":";
  set_protocol := fun p u => {| u_scheme := List.hd [] (split_on 58 p); u_host := u_host u; u_path := u_path u |};
  set_pathname := fun p u => {| u_scheme := u_scheme u; u_host := u_host u; u_path := drop 1 p |};
  set_search := fun _ u => u;
  set_hash := fun _ u => u;
  url_toString := fun u => u_scheme u ++ js "://" ++ u_host u ++ js "/" ++ u_path u
|}.

Definition udp_tunnel : Tunnel :=
  {| id := js "tunnel"; tunnel_client_id := js "client"; tunnel_name := js "test"; protocol := js "udp";
     visitor_token := Some (js "visitor-secret"); local_host := js "127.0.0.1"; local_port := 4246;
     remote_port := 6000; domain := []; tunnel_status := js "running"; ip_allowlist := Some [];
     created_at := []; updated_at := [] |}.

Example public_host_first :
  tunnelPublicHost (H := simple_urls)
    (Some {| serverUrl := js "wss://150.158.46.132:7000/agent/connect"; dataAddress := js "nat.nrytex.com:7001";
             transport := []; quicAddress := []; caFile := []; token := []; name := []; deviceId := [];
             insecureSkipVerify := false; autoStart := false |}) = js "nat.nrytex.com".
Proof. by_evaluation. Qed.

Example visitor_endpoint_sample :
  label (resolveVisitorEndpoint (H := simple_urls) udp_tunnel (js "wss://server.example:7000/agent/connect"))
  = js "https://server.example:7000/visitor/tunnel/visitor-secret".
Proof. by_evaluation. Qed.

