(* ===== verification/TrafficHistory.v ===== *)
(** Transfer rates on the desktop: desktop/frontend/src/useTrafficHistory.ts, [formatRate] of
    HomeView.tsx. Rates are IEEE 754 doubles; times are integer milliseconds and counters
    integers below 2^53, so their differences are exact. *)

From Stdlib Require Import Sorted SpecFloat.
From stdpp Require Import sorting.
From S2P Require Import Prelude JsString JsNumber WebPlatform DesktopTypes.

(** ** Doubles *)

Abbreviation double := spec_float (only parsing).

Definition of_int (z : Z) : double := binary_normalize 53 1024 z 0 false.
Definition div (x y : double) : double := SFdiv 53 1024 x y.

(** [x >= y], [x > y] *)
Definition ge (x y : double) : bool :=
  match SFcompare x y with Some Gt | Some Eq => true | _ => false end.
Definition gt (x y : double) : bool :=
  match SFcompare x y with Some Gt => true | _ => false end.

Definition is_nan (x : double) : bool := match x with S754_nan => true | _ => false end.

(** [Math.max(x, y)] where [x] is [+0] or a positive constant, as in all the calls. *)
Definition max (x y : double) : double := if is_nan y || gt y x then y else x.

(** The exact value of a finite double, as a quotient. *)
Definition rational (x : double) : option (Z * Z) :=
  match x with
  | S754_zero _ => Some (0, 1)%Z
  | S754_finite s m e =>
    let n := if s then Zneg m else Zpos m in
    Some (if (0 <=? e)%Z then (n * 2 ^ e, 1)%Z else (n, 2 ^ (- e))%Z)
  | _ => None
  end.

(** [x.toFixed(1)] *)
Definition toFixed1 (x : double) : jsstr :=
  match rational x with
  | Some (n, d) => toFixed 1 n d
  | None => if is_nan x then js "NaN" else js "Infinity"
  end.

(** [Number(x.toFixed(1))] in tenths: the double nearest to that many tenths. *)
Definition tenths (x : double) : option Z :=
  match rational x with Some (n, d) => Some (round_fixed 1 n d) | None => None end.

(** ** The hook *)

Definition rateWindowMs : Z := 1000.
Definition maxHistoryPoints : nat := 300.

Record TrafficPoint := { point_time : jsstr; point_upload : option Z; point_download : option Z }.
Record TrafficSample := { time : Z; upload : Z; download : Z }.

Record History := {
  points : list TrafficPoint; rate_upload : double; rate_download : double;
  samples : list TrafficSample; previousConnectionState : option bool
}.

Definition no_history : History :=
  {| points := []; rate_upload := S754_zero false; rate_download := S754_zero false;
     samples := []; previousConnectionState := None |}.

Definition rate (connected : bool) (bytes : Z) (seconds : double) : double :=
  if connected then max (S754_zero false) (div (div (of_int bytes) seconds) (of_int 1024))
  else S754_zero false.

Definition quarter : double := div (of_int 1) (of_int 4).

Definition seconds_since (now base : Z) : double := max quarter (div (of_int (now - base)) (of_int 1000)).

(** The samples after a report, the new one last. *)
Definition next_samples (now : Z) (s : RuntimeStatus) (h : History) : list TrafficSample :=
  let sample := {| time := now; upload := uploadBytes s; download := downloadBytes s |} in
  let stateChanged := match previousConnectionState h with
                      | Some c => negb (Bool.eqb c (connected s))
                      | None => false
                      end in
  if stateChanged || (length (samples h) =? 0)%nat then [sample]
  else List.filter (fun item => (now - time item <=? rateWindowMs * 10)%Z) (samples h) ++ [sample].

(** [samples.find(...) ?? samples[0]] *)
Definition baseline_of (now : Z) (l : list TrafficSample) : option TrafficSample :=
  js_nullish_opt (js_find (fun item => (rateWindowMs <=? now - time item)%Z) l) (head l).

Section Effect.
Context `{Dates}.

(** The effect that runs when [status] changes, at the time [now]. *)
Definition traffic_effect (now : Z) (status : option RuntimeStatus) (h : History) : History :=
  match status with
  | None => h
  | Some s =>
    let l := next_samples now s h in
    match baseline_of now l with
    | None => h
    | Some b =>
      let seconds := seconds_since now (time b) in
      let up := rate (connected s) (uploadBytes s - upload b) seconds in
      let down := rate (connected s) (downloadBytes s - download b) seconds in
      {| points := last_n maxHistoryPoints
           (points h ++ [{| point_time := toLocaleTimeString now; point_upload := tenths up;
                            point_download := tenths down |}]);
         rate_upload := up; rate_download := down; samples := l;
         previousConnectionState := Some (connected s) |}
    end
  end.

(** The reports the service made, oldest first, each with the time it arrived. *)
Definition history (reports : list (Z * RuntimeStatus)) : History :=
  fold_left (fun h r => traffic_effect (fst r) (Some (snd r)) h) reports no_history.
End Effect.

(** [formatRate] *)
Definition formatRate (value : double) : jsstr :=
  if ge value (of_int 1024) then toFixed1 (div value (of_int 1024)) ++ js " MB/s"
  else toFixed1 value ++ js " KB/s".

Example formatRate_kb : formatRate (of_int 512) = js "512.0 KB/s". Proof. by_evaluation. Qed.
Example formatRate_mb : formatRate (of_int 1536) = js "1.5 MB/s". Proof. by_evaluation. Qed.

(** ** Properties *)

(** Times in order of arrival. *)
Definition in_order (ts : list Z) : Prop := StronglySorted Z.le ts.

Lemma next_samples_last (now : Z) (s : RuntimeStatus) (h : History) :
  last (next_samples now s h)
  = Some {| time := now; upload := uploadBytes s; download := downloadBytes s |}.
Proof. unfold next_samples. destruct (_ || _); [done|]. by rewrite last_snoc. Qed.

Lemma next_samples_in (now : Z) (s : RuntimeStatus) (h : History) (x : TrafficSample) :
  x ∈ next_samples now s h ->
  x = {| time := now; upload := uploadBytes s; download := downloadBytes s |}
  \/ (x ∈ samples h /\ (now - time x <= 10000)%Z).
Proof.
  unfold next_samples. destruct (_ || _); intros Hx.
  - left. by apply list_elem_of_singleton in Hx.
  - apply elem_of_app in Hx as [Hx|Hx]; [right|left; by apply list_elem_of_singleton in Hx].
    apply list_elem_of_In, filter_In in Hx as [? ?]. split; [by apply list_elem_of_In|].
    unfold rateWindowMs in *. lia.
Qed.

Lemma sorted_filter {A} (p : A -> bool) (f : A -> Z) (l : list A) :
  in_order (f <$> l) -> in_order (f <$> List.filter p l).
Proof.
  unfold in_order. induction l as [|a l IH]; cbn; [done|]. intros Hs.
  apply StronglySorted_inv in Hs as [Hs Ha]. destruct (p a); [|by apply IH].
  cbn. constructor; [by apply IH|].
  apply Forall_fmap, Forall_forall. intros x Hx. apply list_elem_of_In, filter_In in Hx as [Hx _].
  rewrite Forall_fmap, Forall_forall in Ha. by apply Ha, list_elem_of_In.
Qed.

Lemma sorted_snoc (l : list Z) (x : Z) :
  in_order (l ++ [x]) <-> in_order l /\ Forall (fun y => (y <= x)%Z) l.
Proof.
  unfold in_order. rewrite StronglySorted_app, Forall_forall. split.
  - intros (H & Hl & _). split; [done|]. intros y Hy. apply H; [done|by left].
  - intros [Hl H]. split; [|split; [done|repeat constructor]].
    intros y z Hy Hz. apply list_elem_of_singleton in Hz as ->. by apply H.
Qed.

(** What the samples always are: in order of time, none later than the last report, none
    more than ten seconds before it, the last report itself the newest. *)
Definition samples_ok (now : Z) (l : list TrafficSample) : Prop :=
  in_order (time <$> l) /\ Forall (fun x => now - 10000 <= time x <= now)%Z l /\ l <> [].

Lemma next_samples_ok (t now : Z) (s : RuntimeStatus) (h : History) :
  (t <= now)%Z -> samples h = [] \/ samples_ok t (samples h) -> samples_ok now (next_samples now s h).
Proof.
  intros Ht Hh.
  assert (in_order (time <$> samples h) /\ Forall (fun x => time x <= now)%Z (samples h)) as [Hs Hle].
  { destruct Hh as [-> |(? & Hf & _)]; [by repeat constructor|]. split; [done|].
    eapply Forall_impl; [exact Hf|]. cbn. lia. }
  split; [|split].
  - unfold next_samples. destruct (_ || _); [repeat constructor|].
    rewrite fmap_app. apply sorted_snoc. split; [by apply sorted_filter|].
    apply Forall_fmap, Forall_forall. intros x Hx. apply list_elem_of_In, filter_In in Hx as [Hx _].
    rewrite Forall_forall in Hle. by apply Hle, list_elem_of_In.
  - apply Forall_forall. intros x Hx. rewrite Forall_forall in Hle.
    apply next_samples_in in Hx as [-> |[Hx ?]]; [cbn; lia|]. specialize (Hle x Hx). lia.
  - intros Hn. pose proof (next_samples_last now s h) as Hl. by rewrite Hn in Hl.
Qed.

(** In a list in order of time the search for a sample old enough finds the first. *)
Lemma baseline_first (now : Z) (l : list TrafficSample) :
  in_order (time <$> l) -> baseline_of now l = head l.
Proof.
  intros Hs. unfold baseline_of, js_find. destruct l as [|a l]; [done|]. cbn [List.find].
  destruct (rateWindowMs <=? now - time a)%Z eqn:Ha; [done|].
  destruct (List.find _ l) as [b|] eqn:Hb; [|done]. exfalso.
  apply List.find_some in Hb as [Hin Hb]. apply StronglySorted_inv in Hs as [_ Hall].
  rewrite Forall_forall in Hall.
  specialize (Hall (time b)). apply list_elem_of_In in Hin.
  specialize (Hall (list_elem_of_fmap_2 _ _ _ Hin)). lia.
Qed.

(** *** What the hook holds *)

Section HistoryProperties.
Context `{Dates}.

(** The state after the reports so far, the last of them at [now]. *)
Definition history_ok (now : Z) (connected_now : bool) (h : History) : Prop :=
  samples_ok now (samples h)
  /\ (length (points h) <= maxHistoryPoints)%nat
  /\ previousConnectionState h = Some connected_now
  /\ (connected_now = false -> rate_upload h = S754_zero false /\ rate_download h = S754_zero false).

(** A report, the state it finds being either the first or one of the above. *)
Lemma effect_unfold (t now : Z) (s : RuntimeStatus) (h : History) :
  (t <= now)%Z -> samples h = [] \/ samples_ok t (samples h) ->
  exists b, head (next_samples now s h) = Some b
    /\ traffic_effect now (Some s) h
       = {| points := last_n maxHistoryPoints
              (points h ++ [{| point_time := toLocaleTimeString now;
                               point_upload := tenths (rate (connected s) (uploadBytes s - upload b) (seconds_since now (time b)));
                               point_download := tenths (rate (connected s) (downloadBytes s - download b) (seconds_since now (time b))) |}]);
            rate_upload := rate (connected s) (uploadBytes s - upload b) (seconds_since now (time b));
            rate_download := rate (connected s) (downloadBytes s - download b) (seconds_since now (time b));
            samples := next_samples now s h; previousConnectionState := Some (connected s) |}.
Proof.
  intros Ht Hh. destruct (next_samples_ok t now s h Ht Hh) as (Hs & _ & Hne).
  unfold traffic_effect. rewrite (baseline_first now _ Hs).
  destruct (next_samples now s h) as [|b l]; [done|]. by exists b.
Qed.

Lemma effect_ok (t now : Z) (s : RuntimeStatus) (h : History) :
  (t <= now)%Z -> samples h = [] \/ samples_ok t (samples h) ->
  history_ok now (connected s) (traffic_effect now (Some s) h).
Proof.
  intros Ht Hh. destruct (effect_unfold t now s h Ht Hh) as (b & _ & ->).
  split; [by eapply next_samples_ok|]. cbn [points samples previousConnectionState rate_upload rate_download].
  split; [rewrite last_n_length; lia|]. split; [done|]. by intros ->.
Qed.

Lemma history_snoc (rs : list (Z * RuntimeStatus)) (now : Z) (s : RuntimeStatus) :
  history (rs ++ [(now, s)]) = traffic_effect now (Some s) (history rs).
Proof. unfold history. by rewrite fold_left_app. Qed.

(** Before the next report, at [now], the samples are as the effect expects them. *)
Lemma history_before (rs : list (Z * RuntimeStatus)) (now : Z) :
  in_order ((fst <$> rs) ++ [now]) ->
  exists t, (t <= now)%Z /\ (samples (history rs) = [] \/ samples_ok t (samples (history rs))).
Proof.
  revert now. induction rs as [|[t s] rs IH] using rev_ind; intros now Hs.
  - exists now. split; [lia|]. by left.
  - rewrite fmap_app in Hs. cbn [fmap list_fmap fst] in Hs.
    apply sorted_snoc in Hs as [Hs Hle]. exists t. split.
    + rewrite Forall_app in Hle. destruct Hle as [_ Hle]. by inversion_clear Hle.
    + right. destruct (IH t Hs) as (t' & Ht' & Hh). rewrite history_snoc.
      by destruct (effect_ok t' t s _ Ht' Hh) as [? _].
Qed.

(** Whatever the service reports, as long as the clock does not run back: after each
    report the samples kept are in order of time, none older than ten seconds; the chart
    has one point per report, the last 300 at most; and while there is no connection
    both rates are zero. *)
Theorem history_invariant (rs : list (Z * RuntimeStatus)) (now : Z) (s : RuntimeStatus) :
  in_order ((fst <$> rs) ++ [now]) ->
  let h := history (rs ++ [(now, s)]) in
  samples_ok now (samples h)
  /\ length (points h) = Nat.min (length rs + 1) maxHistoryPoints
  /\ (connected s = false -> rate_upload h = S754_zero false /\ rate_download h = S754_zero false).
Proof.
  intros Hs. cbn zeta. split; [|split].
  - rewrite history_snoc. destruct (history_before rs now Hs) as (t & Ht & Hh).
    by destruct (effect_ok t now s _ Ht Hh) as [? _].
  - revert now s Hs. induction rs as [|[t st] rs IH] using rev_ind; intros now s Hs;
      rewrite history_snoc; destruct (history_before _ now Hs) as (t' & Ht' & Hh);
      destruct (effect_unfold t' now s _ Ht' Hh) as (b & _ & ->); cbn [points].
    + done.
    + rewrite fmap_app in Hs. apply sorted_snoc in Hs as [Hs _].
      rewrite last_n_length, length_app, (IH t st Hs), length_app. cbn [length]. lia.
  - rewrite history_snoc. destruct (history_before rs now Hs) as (t & Ht & Hh).
    by destruct (effect_ok t now s _ Ht Hh) as (_ & _ & _ & ?).
Qed.

(** The rate shown is the average since the oldest sample kept, which may be ten
    seconds old: the search for a sample one rate window old never picks another. *)
Theorem rates_average_oldest (rs : list (Z * RuntimeStatus)) (now : Z) (s : RuntimeStatus) :
  in_order ((fst <$> rs) ++ [now]) ->
  let h := history (rs ++ [(now, s)]) in
  baseline_of now (samples h) = head (samples h)
  /\ exists b, head (samples h) = Some b /\ (now - 10000 <= time b <= now)%Z
       /\ rate_upload h = rate (connected s) (uploadBytes s - upload b) (seconds_since now (time b))
       /\ rate_download h = rate (connected s) (downloadBytes s - download b) (seconds_since now (time b)).
Proof.
  intros Hs. cbn zeta. rewrite history_snoc.
  destruct (history_before rs now Hs) as (t & Ht & Hh).
  destruct (effect_ok t now s _ Ht Hh) as [(Hsort & Hage & _) _].
  split; [by apply baseline_first|].
  destruct (effect_unfold t now s _ Ht Hh) as (b & Hb & Heq). rewrite Heq in Hage |- *.
  cbn [samples rate_upload rate_download] in *. exists b. split; [done|]. split; [|done].
  rewrite Forall_forall in Hage. apply (Hage b).
  destruct (next_samples now s (history rs)); [done|]. cbn in Hb. injection Hb as ->. by left.
Qed.
(** *** The samples as a window of the reports *)

(** The reports since the connection was last made or lost, [c] being its state now. *)
Fixpoint take_while {A} (p : A -> bool) (l : list A) : list A :=
  match l with
  | [] => []
  | a :: rest => if p a then a :: take_while p rest else []
  end.
Definition last_run (c : bool) (rs : list (Z * RuntimeStatus)) : list (Z * RuntimeStatus) :=
  reverse (take_while (fun r => Bool.eqb c (connected (snd r))) (reverse rs)).

Definition recent (now : Z) (rs : list (Z * RuntimeStatus)) : list (Z * RuntimeStatus) :=
  List.filter (fun r => (now - fst r <=? 10000)%Z) rs.

Definition sample_of (r : Z * RuntimeStatus) : TrafficSample :=
  {| time := fst r; upload := uploadBytes (snd r); download := downloadBytes (snd r) |}.

Lemma last_run_snoc (c : bool) (rs : list (Z * RuntimeStatus)) (r : Z * RuntimeStatus) :
  last_run c (rs ++ [r]) = if Bool.eqb c (connected (snd r)) then last_run c rs ++ [r] else [].
Proof.
  unfold last_run. rewrite reverse_snoc. cbn [take_while].
  destruct (Bool.eqb c (connected (snd r))); [by rewrite reverse_cons|done].
Qed.

Lemma recent_samples (now : Z) (rs : list (Z * RuntimeStatus)) :
  List.filter (fun item => (now - time item <=? rateWindowMs * 10)%Z) (sample_of <$> rs) = sample_of <$> recent now rs.
Proof.
  induction rs as [|r rs IH]; [done|]. cbn. change (rateWindowMs * 10)%Z with 10000%Z in *.
  rewrite IH. by destruct (now - fst r <=? 10000)%Z.
Qed.

Lemma recent_recent (t now : Z) (rs : list (Z * RuntimeStatus)) :
  (t <= now)%Z -> recent now (recent t rs) = recent now rs.
Proof.
  intros Ht. unfold recent. induction rs as [|r rs IH]; [done|]. cbn.
  destruct (t - fst r <=? 10000)%Z eqn:Hr; cbn; rewrite IH; [done|].
  destruct (now - fst r <=? 10000)%Z eqn:Hn; [lia|done].
Qed.

Lemma recent_snoc (now : Z) (rs : list (Z * RuntimeStatus)) (s : RuntimeStatus) :
  recent now (rs ++ [(now, s)]) = recent now rs ++ [(now, s)].
Proof. unfold recent. rewrite List.filter_app. cbn. by replace (now - now <=? 10000)%Z with true by lia. Qed.

Lemma history_samples (rs : list (Z * RuntimeStatus)) (now : Z) (s : RuntimeStatus) :
  in_order ((fst <$> rs) ++ [now]) ->
  samples (history (rs ++ [(now, s)])) = sample_of <$> recent now (last_run (connected s) (rs ++ [(now, s)])).
Proof.
  intros Hs. rewrite last_run_snoc, eqb_reflx, recent_snoc, fmap_app. revert now s Hs.
  induction rs as [|[t st] rs IH] using rev_ind; intros now s Hs.
  all: rewrite history_snoc; destruct (history_before _ now Hs) as (t' & Ht' & Hh);
    destruct (effect_unfold t' now s _ Ht' Hh) as (b & _ & ->); cbn [samples].
  { done. }
  rewrite fmap_app in Hs. cbn [fmap list_fmap fst] in Hs. apply sorted_snoc in Hs as [Hs Hle].
  assert (t <= now)%Z as Ht by (rewrite Forall_app in Hle; destruct Hle as [_ Hle]; by inversion_clear Hle).
  destruct (history_before _ t Hs) as (t2 & Ht2 & Hh2).
  assert (previousConnectionState (history (rs ++ [(t, st)])) = Some (connected st)) as Hp.
  { rewrite history_snoc. by destruct (effect_unfold t2 t st _ Ht2 Hh2) as (b2 & _ & ->). }
  unfold next_samples. rewrite Hp, (IH t st Hs), last_run_snoc. cbn [snd].
  replace (Bool.eqb (connected st) (connected s)) with (Bool.eqb (connected s) (connected st)) by (by destruct (connected s), (connected st)).
  destruct (Bool.eqb_spec (connected s) (connected st)) as [->|]; cbn [negb orb]; [|done].
  rewrite length_app. cbn [length fmap list_fmap]. rewrite Nat.add_1_r. cbn [Nat.eqb].
  f_equal. rewrite List.filter_app, recent_samples, recent_recent by done.
  rewrite <-recent_samples. change ([sample_of (t, st)]) with (sample_of <$> [(t, st)]).
  rewrite !recent_samples, <-fmap_app. unfold recent. by rewrite <-List.filter_app.
Qed.

(** C37: The hook refines a window over the reports: the samples it keeps are the reports of the
    last ten seconds since the connection was last made or lost, and the rates are the averages
    since the oldest of these - not over one rate window. *)
Theorem history_is_window (rs : list (Z * RuntimeStatus)) (now : Z) (s : RuntimeStatus) :
  in_order ((fst <$> rs) ++ [now]) ->
  let h := history (rs ++ [(now, s)]) in
  let w := recent now (last_run (connected s) (rs ++ [(now, s)])) in
  samples h = sample_of <$> w
  /\ exists b, head w = Some b
       /\ rate_upload h = rate (connected s) (uploadBytes s - uploadBytes (snd b)) (seconds_since now (fst b))
       /\ rate_download h = rate (connected s) (downloadBytes s - downloadBytes (snd b)) (seconds_since now (fst b)).
Proof.
  intros Hs h w. pose proof (history_samples rs now s Hs) as Hw. fold h w in Hw. split; [done|].
  destruct (history_before rs now Hs) as (t & Ht & Hh).
  destruct (effect_unfold t now s _ Ht Hh) as (b & Hb & Heq). subst h. rewrite history_snoc, Heq in *.
  cbn [samples rate_upload rate_download] in *. rewrite Hw in Hb.
  destruct w as [|r w]; [done|]. injection Hb as <-. by exists r.
Qed.
End HistoryProperties.

(** *** An execution *)

#[local] Instance utc_dates : Dates := {|
  parse_date := fun _ => None; toLocaleString := fun _ _ => js "-";
  toLocaleTimeString := fun _ => js "-"; toISOString := fun _ => js "-"
|}.

Definition transferred (bytes : Z) : RuntimeStatus :=
  {| connected := true; state := js "connected"; message := []; version := [];
     uploadBytes := bytes; downloadBytes := 0; lastStartedAt := None; lastStoppedAt := None |}.

(** A report a second; everything was sent in the first. *)
Definition burst : list (Z * RuntimeStatus) :=
  [(0, transferred 0); (1000, transferred 10240); (2000, transferred 10240);
   (3000, transferred 10240); (4000, transferred 10240)]%Z.

(** Three seconds after the burst the rate is still a quarter of it. *)
Example burst_rate : formatRate (rate_upload (history (burst ++ [(5000, transferred 10240)]%Z))) = js "2.0 KB/s".
Proof. by_evaluation. Qed.

Lemma burst_in_order : in_order ((fst <$> burst) ++ [5000%Z]).
Proof. unfold in_order. cbn. repeat constructor; lia. Qed.

Lemma history_invariant_witness :
  length (points (history (burst ++ [(5000%Z, transferred 10240)]))) = 6%nat.
Proof. refine (proj1 (proj2 (history_invariant burst 5000 (transferred 10240) burst_in_order))). Defined.

Lemma history_is_window_witness :
  samples (history (burst ++ [(5000%Z, transferred 10240)]))
  = sample_of <$> recent 5000 (last_run true (burst ++ [(5000%Z, transferred 10240)])).
Proof. apply (history_is_window burst 5000 (transferred 10240) burst_in_order). Defined.

Lemma rates_average_oldest_witness :
  exists b, head (samples (history (burst ++ [(5000%Z, transferred 10240)]))) = Some b
            /\ (5000 - 10000 <= time b <= 5000)%Z.
Proof.
  destruct (rates_average_oldest burst 5000 (transferred 10240) burst_in_order) as (_ & b & ? & ? & _).
  by exists b.
Defined.
