(* ===== verification/TrafficChart.v ===== *)
(** The traffic charts of the desktop client: desktop/frontend/src/TrafficChart.tsx. A drawing
    is the list of the calls made to the canvas; numbers are doubles (Rounded). *)

From Stdlib Require Import QArith Qround Lqa Sorted.
From S2P Require Import Prelude JsString Rounded WebPlatform DesktopTypes TrafficHistory.

#[local] Open Scope Q_scope.

(** ** Drawing *)

Inductive canvas_call :=
| save
| restore
| scale (sx sy : Q)
| clearRect (left top width height : Q)
| set_strokeStyle (color : jsstr)
| set_lineWidth (width : Z)
| set_lineJoin (join : jsstr)
| set_lineCap (cap : jsstr)
| beginPath
| moveTo (px py : Q)
| lineTo (px py : Q)
| stroke.

(** A point of the history, its rates finite. *)
Record ChartPoint := { chart_upload : Q; chart_download : Q }.

Definition number_of_tenths (k : Z) : Q := rnd (Qmake k 10).

Definition chart_point (p : TrafficPoint) : option ChartPoint :=
  match point_upload p, point_download p with
  | Some u, Some d => Some {| chart_upload := number_of_tenths u; chart_download := number_of_tenths d |}
  | _, _ => None
  end.

Definition nat_q (n : nat) : Q := inject_Z (Z.of_nat n).

(** [drawGrid], on integer geometry. *)
Definition drawGrid (left top width height : Z) : list canvas_call :=
  [set_strokeStyle (js "#edf1ef"); set_lineWidth 1]
  ++ flat_map (fun index =>
       let y := dadd (inject_Z top) (ddiv (dmul (inject_Z height) (inject_Z index)) 4) in
       [beginPath; moveTo (inject_Z left) y; lineTo (dadd (inject_Z left) (inject_Z width)) y; stroke])
     [1; 2; 3]%Z.

(** [drawLine]; [key] reads the figure the line shows. *)
Definition drawLine (points : list ChartPoint) (x : nat -> Q) (y : Q -> Q) (color : jsstr)
    (key : ChartPoint -> Q) (lastValue : Q) : list canvas_call :=
  if (length points =? 0)%nat then []
  else
    [set_strokeStyle color; set_lineWidth 2; set_lineJoin (js "round"); set_lineCap (js "round"); beginPath]
    ++ imap (fun index point =>
         let value := if (index =? length points - 1)%nat then lastValue else key point in
         if (index =? 0)%nat then moveTo (x index) (y value) else lineTo (x index) (y value)) points
    ++ [stroke].

Record inset := { inset_top : Z; inset_right : Z; inset_bottom : Z; inset_left : Z }.

Definition inset_of (detailed : bool) : inset :=
  if detailed then {| inset_top := 12; inset_right := 12; inset_bottom := 8; inset_left := 30 |}
  else {| inset_top := 8; inset_right := 2; inset_bottom := 4; inset_left := 2 |}.

(** [l.filter((_, index) => index % 2 === 0)] *)
Fixpoint every_other {A} (l : list A) : list A :=
  match l with
  | a :: _ :: rest => a :: every_other rest
  | _ => l
  end.

(** The figures that set the scale. *)
Definition scale_values (points : list ChartPoint) : list Q :=
  flat_map (fun p => [chart_upload p; chart_download p])
    (if (80 <? length points)%nat then every_other points else points).

Definition peak (points : list ChartPoint) (lastUpload lastDownload : Q) : Q :=
  fold_left dmax (scale_values points ++ [lastUpload; lastDownload]) 1.

Definition maximum (points : list ChartPoint) (lastUpload lastDownload : Q) : Q :=
  dmul (peak points lastUpload lastDownload) (rnd (115 # 100)).

Definition chartWidth (detailed : bool) (width : Z) : Z :=
  Z.max 1 (width - inset_left (inset_of detailed) - inset_right (inset_of detailed)).
Definition chartHeight (detailed : bool) (height : Z) : Z :=
  Z.max 1 (height - inset_top (inset_of detailed) - inset_bottom (inset_of detailed)).

(** The closures [x] and [y] of [drawChart]. *)
Definition chart_x (detailed : bool) (width : Z) (count index : nat) : Q :=
  dadd (inject_Z (inset_left (inset_of detailed)))
    (if (count <=? 1)%nat then inject_Z (chartWidth detailed width)
     else dmul (ddiv (nat_q index) (nat_q (count - 1))) (inject_Z (chartWidth detailed width))).

Definition chart_y (detailed : bool) (height : Z) (top_value value : Q) : Q :=
  dsub (dadd (inject_Z (inset_top (inset_of detailed))) (inject_Z (chartHeight detailed height)))
    (dmul (ddiv value top_value) (inject_Z (chartHeight detailed height))).

Definition drawChart (points : list ChartPoint) (width height : Z) (ratio : Q) (detailed : bool)
    (lastUpload lastDownload : Q) : list canvas_call :=
  let i := inset_of detailed in
  let top_value := maximum points lastUpload lastDownload in
  let x := chart_x detailed width (length points) in
  let y := chart_y detailed height top_value in
  [save; scale ratio ratio; clearRect 0 0 (inject_Z width) (inject_Z height)]
  ++ (if detailed
      then drawGrid (inset_left i) (inset_top i) (chartWidth detailed width) (chartHeight detailed height) else [])
  ++ drawLine points x y (js "#12ad67") chart_upload lastUpload
  ++ (if detailed then drawLine points x y (js "#2f7df6") chart_download lastDownload else [])
  ++ [restore].

(** ** The component *)

(** What the frame that was asked for will draw. *)
Record Frame := {
  frame_points : list ChartPoint; frame_width : Z; frame_height : Z; frame_ratio : Q; frame_detailed : bool;
  frame_start : ChartPoint; frame_last : ChartPoint
}.

(** The refs [previousLast] and [frameRef], the state [size] and the canvas's resolution. *)
Record Canvas := {
  previousLast : ChartPoint; frameRef : option Frame; canvas_size : Z * Z; resolution : Z * Z
}.

Definition no_point : ChartPoint := {| chart_upload := 0; chart_download := 0 |}.
Definition canvas_initial : Canvas :=
  {| previousLast := no_point; frameRef := None; canvas_size := (0, 0)%Z; resolution := (300, 150)%Z |}.

(** [updateSize], of the element's rectangle. *)
Definition updateSize (width height : Q) (c : Canvas) : Canvas :=
  {| previousLast := previousLast c; frameRef := frameRef c; canvas_size := (dround width, dround height);
     resolution := resolution c |}.

(** The effect that follows a change of the points or of the size; [dpr] is
    [window.devicePixelRatio], positive. *)
Definition canvas_effect (dpr : Q) (detailed : bool) (points : list ChartPoint) (c : Canvas) : Canvas :=
  let '(width, height) := canvas_size c in
  if (width <=? 0)%Z || (height <=? 0)%Z then c
  else
    let ratio := if Qle_bool dpr 2 then dpr else 2 in
    let last := List.last points no_point in
    {| previousLast := last;
       frameRef := Some {| frame_points := points; frame_width := width; frame_height := height;
                           frame_ratio := ratio; frame_detailed := detailed;
                           frame_start := previousLast c; frame_last := last |};
       canvas_size := canvas_size c;
       resolution := (dround (dmul (inject_Z width) ratio), dround (dmul (inject_Z height) ratio)) |}.

(** [drawFrame] *)
Definition frame_value (start last : Q) : Q := dadd start (dsub last start).

Definition drawFrame (f : Frame) : list canvas_call :=
  drawChart (frame_points f) (frame_width f) (frame_height f) (frame_ratio f) (frame_detailed f)
    (frame_value (chart_upload (frame_start f)) (chart_upload (frame_last f)))
    (frame_value (chart_download (frame_start f)) (chart_download (frame_last f))).

(** The arithmetic is that of the hook's doubles. *)
Example arithmetic_agrees :
  match rational (TrafficHistory.div (of_int 1) (of_int 3)) with
  | Some (n, d) => Qeq_bool (inject_Z n / inject_Z d) (ddiv 1 3) | None => false end = true.
Proof. by_evaluation. Qed.

(** ** Properties *)

Definition vertex (c : canvas_call) : option (Q * Q) :=
  match c with moveTo px py | lineTo px py => Some (px, py) | _ => None end.

Definition within (l t w h : Z) (v : Q * Q) : Prop :=
  inject_Z l <= fst v <= inject_Z (l + w) /\ inject_Z t <= snd v <= inject_Z (t + h).

(** A figure the hook can have made. *)
Definition figure (v : Q) : Prop := 0 <= v /\ representable v.
Definition good_point (p : ChartPoint) : Prop := figure (chart_upload p) /\ figure (chart_download p).

(** A side of the canvas, in pixels. *)
Definition side (n : Z) : Prop := (n <= 2 ^ 30)%Z.

(** *** The scale *)

Lemma fold_dmax_ge (l : list Q) (a : Q) :
  a <= fold_left dmax l a /\ (forall v, v ∈ l -> v <= fold_left dmax l a).
Proof.
  revert a. induction l as [|b l IH]; intros a; cbn.
  - split; [apply Qle_refl|]. intros v Hv. by apply elem_of_nil in Hv.
  - destruct (IH (dmax a b)) as [H1 H2]. pose proof (dmax_l a b). pose proof (dmax_r a b). split; [lra|].
    intros v Hv. apply elem_of_cons in Hv as [-> |Hv]; [lra|by apply H2].
Qed.

Lemma fold_dmax_in (P : Q -> Prop) (l : list Q) (a : Q) :
  P a -> Forall P l -> P (fold_left dmax l a).
Proof.
  intros Ha Hl. revert a Ha. induction Hl as [|b l Hb _ IH]; intros a Ha; [done|]. cbn.
  apply IH. by destruct (dmax_cases a b) as [-> | ->].
Qed.

Lemma every_other_elem {A} (a : A) (l : list A) : a ∈ every_other l -> exists j, l !! (2 * j)%nat = Some a.
Proof.
  remember (length l) as n eqn:Hn. revert l Hn. induction (lt_wf n) as [n _ IH]. intros [|b [|c l]] Hn Ha; cbn [every_other length] in *.
  - by apply elem_of_nil in Ha.
  - apply list_elem_of_singleton in Ha as ->. by exists 0%nat.
  - apply elem_of_cons in Ha as [-> |Ha]; [by exists 0%nat|].
    destruct (IH (length l) ltac:(lia) l eq_refl Ha) as [j Hj]. exists (S j).
    replace (2 * S j)%nat with (S (S (2 * j))) by lia. exact Hj.
Qed.

Lemma every_other_sub {A} (a : A) (l : list A) : a ∈ every_other l -> a ∈ l.
Proof. intros Ha. destruct (every_other_elem a l Ha) as [j Hj]. by eapply list_elem_of_lookup_2. Qed.

(** The peak is one, or one of the figures. *)
Lemma peak_in (P : Q -> Prop) (points : list ChartPoint) (lu ld : Q) :
  P 1 -> P lu -> P ld ->
  (forall p, p ∈ (if (80 <? length points)%nat then every_other points else points) ->
     P (chart_upload p) /\ P (chart_download p)) ->
  P (peak points lu ld).
Proof.
  intros H1 Hu Hd Hp. unfold peak. apply fold_dmax_in; [done|]. rewrite Forall_app. split; [|by repeat constructor].
  apply Forall_forall. intros v Hv. apply list_elem_of_In, in_flat_map in Hv as (p & Hin & Hv).
  apply list_elem_of_In, Hp in Hin as [? ?]. by destruct Hv as [<-|[<-|[]]].
Qed.

Lemma peak_ge (points : list ChartPoint) (lu ld : Q) :
  1 <= peak points lu ld /\ lu <= peak points lu ld /\ ld <= peak points lu ld.
Proof.
  unfold peak. destruct (fold_dmax_ge (scale_values points ++ [lu; ld]) 1) as [H1 H2].
  split; [done|]. split; apply H2, elem_of_app; right; [by left|right; by left].
Qed.

Lemma peak_ge_point (points : list ChartPoint) (lu ld : Q) (p : ChartPoint) :
  p ∈ (if (80 <? length points)%nat then every_other points else points) ->
  chart_upload p <= peak points lu ld /\ chart_download p <= peak points lu ld.
Proof.
  intros Hp. destruct (fold_dmax_ge (scale_values points ++ [lu; ld]) 1) as [_ H].
  split; apply H, elem_of_app; left; unfold scale_values; apply list_elem_of_In, in_flat_map;
    exists p; (split; [by apply list_elem_of_In|cbn; auto]).
Qed.

Lemma one_representable : representable 1.
Proof. by apply (rnd_int 1). Qed.

Lemma maximum_ge (points : list ChartPoint) (lu ld : Q) :
  representable (peak points lu ld) -> peak points lu ld <= maximum points lu ld.
Proof.
  intros Hr. unfold maximum, dmul. apply rnd_at_least; [done|].
  destruct (peak_ge points lu ld) as [H1 _].
  assert (1 <= rnd (115 # 100)) as H2 by (apply Qle_bool_iff; by_evaluation). nra.
Qed.

(** *** Coordinates *)

Lemma scaled_between (num den : Q) (size : Z) :
  0 <= num <= den -> 0 < den -> (0 <= size <= 2 ^ 31)%Z ->
  0 <= dmul (ddiv num den) (inject_Z size) <= inject_Z size.
Proof.
  intros [H0 H1] Hd Hs.
  assert (0 <= ddiv num den <= 1) as [Hq0 Hq1].
  { apply rnd_between; [done|apply one_representable|]. split.
    - apply Qle_shift_div_l; [done|]. lra.
    - apply Qle_shift_div_r; [done|]. lra. }
  assert (0 <= inject_Z size) by (change 0 with (inject_Z 0); rewrite <-Zle_Qle; lia).
  apply rnd_between; [done|apply rnd_int; lia|]. split; nra.
Qed.

Lemma offset_between (offset size : Z) (d : Q) :
  (0 <= offset <= 2 ^ 31)%Z -> (0 <= size <= 2 ^ 31)%Z -> 0 <= d <= inject_Z size ->
  inject_Z offset <= dadd (inject_Z offset) d <= inject_Z (offset + size).
Proof.
  intros Ho Hs Hd. apply rnd_between; [apply rnd_int; lia..|]. rewrite inject_Z_plus. lra.
Qed.

Lemma sides (detailed : bool) (width height : Z) :
  side width -> side height ->
  (0 <= chartWidth detailed width <= 2 ^ 30 /\ 0 <= chartHeight detailed height <= 2 ^ 30)%Z
  /\ (0 <= inset_left (inset_of detailed) <= 30 /\ 0 <= inset_top (inset_of detailed) <= 12)%Z.
Proof. unfold side, chartWidth, chartHeight. destruct detailed; cbn; lia. Qed.

Lemma chart_x_between (detailed : bool) (width : Z) (count index : nat) :
  side width -> (index < count)%nat ->
  inject_Z (inset_left (inset_of detailed)) <= chart_x detailed width count index
  <= inject_Z (inset_left (inset_of detailed) + chartWidth detailed width).
Proof.
  intros Hw Hi. destruct (sides detailed width 0 Hw) as ((H1 & _) & (H2 & _)); [done|].
  unfold chart_x. apply offset_between; [lia..|].
  destruct (count <=? 1)%nat eqn:Hc.
  - split; [|apply Qle_refl]. change 0 with (inject_Z 0). rewrite <-Zle_Qle. lia.
  - apply Nat.leb_gt in Hc. apply scaled_between; [split|..|lia]; unfold nat_q; try change 0 with (inject_Z 0);
      rewrite <-?Zle_Qle, <-?Zlt_Qlt; lia.
Qed.

Lemma chart_y_between (detailed : bool) (height : Z) (top_value value : Q) :
  side height -> 0 <= value <= top_value -> 0 < top_value ->
  inject_Z (inset_top (inset_of detailed)) <= chart_y detailed height top_value value
  <= inject_Z (inset_top (inset_of detailed) + chartHeight detailed height).
Proof.
  intros Hh Hv Ht. destruct (sides detailed 0 height) as ((_ & H1) & (_ & H2)); [done..|].
  unfold chart_y. set (H := chartHeight detailed height) in *. set (top := inset_top _) in *.
  assert (0 <= dmul (ddiv value top_value) (inject_Z H) <= inject_Z H) as Hd by (apply scaled_between; [done|done|lia]).
  assert (dadd (inject_Z top) (inject_Z H) == inject_Z (top + H)) as Hs.
  { unfold dadd. rewrite <-inject_Z_plus. apply rnd_int. lia. }
  unfold dsub. rewrite Hs. apply rnd_between; [apply rnd_int; lia..|]. rewrite inject_Z_plus in *. lra.
Qed.

(** *** What is drawn *)

Lemma omap_imap {A B C} (f : nat -> A -> B) (g : B -> option C) (h : nat -> A -> C) (l : list A) :
  (forall i a, g (f i a) = Some (h i a)) -> omap g (imap f l) = imap h l.
Proof.
  revert f h. induction l as [|a l IH]; intros f h Hg; [done|]. cbn.
  rewrite Hg. f_equal. apply IH. intros i b. apply Hg.
Qed.

(** A line has a vertex for each point, in order. *)
Lemma drawLine_vertices (points : list ChartPoint) x y (color : jsstr) key (lastValue : Q) :
  omap vertex (drawLine points x y color key lastValue)
  = imap (fun index point =>
      (x index, y (if (index =? length points - 1)%nat then lastValue else key point))) points.
Proof.
  unfold drawLine. destruct points as [|p l]; [done|]. cbn [length Nat.eqb].
  rewrite !omap_app. cbn [omap list_omap vertex List.app]. rewrite app_nil_r.
  apply omap_imap. intros i a. by destruct (i =? 0)%nat.
Qed.

(** The figure of the i-th vertex. *)
Definition drawn_value (points : list ChartPoint) (key : ChartPoint -> Q) (lastValue : Q) (index : nat) (p : ChartPoint) : Q :=
  if (index =? length points - 1)%nat then lastValue else key p.

Lemma drawLine_within (points : list ChartPoint) (width height : Z) (detailed : bool) (top_value lastValue : Q)
    (color : jsstr) (key : ChartPoint -> Q) :
  side width -> side height -> 0 < top_value ->
  (forall i p, points !! i = Some p -> 0 <= drawn_value points key lastValue i p <= top_value) ->
  Forall (within (inset_left (inset_of detailed)) (inset_top (inset_of detailed))
            (chartWidth detailed width) (chartHeight detailed height))
    (omap vertex (drawLine points (chart_x detailed width (length points))
                    (chart_y detailed height top_value) color key lastValue)).
Proof.
  intros Hw Hh Ht Hv. rewrite drawLine_vertices. apply Forall_lookup. intros i v Hi.
  rewrite list_lookup_imap in Hi. destruct (points !! i) as [p|] eqn:Hp; [|done]. injection Hi as <-.
  split; cbn [fst snd].
  - apply chart_x_between; [done|]. by eapply lookup_lt_Some.
  - apply chart_y_between; [done|by apply (Hv i p)|done].
Qed.

Lemma drawGrid_within (l t w h : Z) :
  (0 <= l <= 2 ^ 31 /\ 0 <= t <= 2 ^ 31 /\ 0 <= w <= 2 ^ 31 /\ 0 <= h <= 2 ^ 31)%Z ->
  Forall (within l t w h) (omap vertex (drawGrid l t w h)).
Proof.
  intros (Hl & Ht & Hw & Hh).
  assert (forall i, (1 <= i <= 3)%Z ->
            0 <= ddiv (dmul (inject_Z h) (inject_Z i)) 4 <= inject_Z h) as Hy.
  { intros i Hi. assert (0 <= h * i <= 2 ^ 31 * 3)%Z as Hhi by nia.
    assert (dmul (inject_Z h) (inject_Z i) == inject_Z (h * i)) as Hm.
    { unfold dmul. rewrite <-inject_Z_mult. apply rnd_int. lia. }
    unfold ddiv. rewrite Hm. apply rnd_between; [done|apply rnd_int; lia|].
    assert (inject_Z (h * i) <= inject_Z (h * 4)) as Hle by (rewrite <-Zle_Qle; nia).
    assert (inject_Z 0 <= inject_Z (h * i)) as H0 by (rewrite <-Zle_Qle; nia).
    rewrite (inject_Z_mult h 4) in Hle. change (inject_Z 4) with 4 in Hle. change (inject_Z 0) with 0 in H0.
    split; [apply Qle_shift_div_l|apply Qle_shift_div_r]; lra. }
  assert (dadd (inject_Z l) (inject_Z w) == inject_Z (l + w)) as Hx.
  { unfold dadd. rewrite <-inject_Z_plus. apply rnd_int. lia. }
  assert (inject_Z l <= inject_Z (l + w)) as Hlw by (rewrite <-Zle_Qle; lia).
  assert (forall i, (1 <= i <= 3)%Z ->
    inject_Z t <= dadd (inject_Z t) (ddiv (dmul (inject_Z h) (inject_Z i)) 4) <= inject_Z (t + h)) as Hyi.
  { intros i Hi. apply offset_between; [lia|lia|by apply Hy]. }
  unfold drawGrid. cbn [flat_map List.app omap list_omap vertex].
  repeat (apply Forall_cons; split); try apply Forall_nil; split; cbn [fst snd];
    first [by apply Hyi|rewrite ?Hx; split; lra || apply Qle_refl].
Qed.

(** The chart of figures that all count for the scale, or are zero. *)
Lemma drawChart_within (points : list ChartPoint) (width height : Z) (ratio : Q) (detailed : bool) (lu ld : Q) :
  side width -> side height -> Forall good_point points -> figure lu -> figure ld ->
  (forall i p, points !! i = Some p -> (i =? length points - 1)%nat = false ->
     p ∈ (if (80 <? length points)%nat then every_other points else points)) ->
  Forall (within (inset_left (inset_of detailed)) (inset_top (inset_of detailed))
            (chartWidth detailed width) (chartHeight detailed height))
    (omap vertex (drawChart points width height ratio detailed lu ld)).
Proof.
  intros Hw Hh Hp [Hu0 Hu] [Hd0 Hd] Hin.
  destruct (peak_ge points lu ld) as (H1 & H2 & H3).
  assert (peak points lu ld <= maximum points lu ld) as Hm.
  { apply maximum_ge, peak_in; [apply one_representable|done|done|]. intros p Hpin.
    assert (p ∈ points) as Hpp by (destruct (80 <? _)%nat; [by apply every_other_sub|done]).
    rewrite Forall_forall in Hp. by destruct (Hp p Hpp) as [[_ ?] [_ ?]]. }
  assert (forall key lastValue, 0 <= lastValue <= maximum points lu ld ->
    (forall p, good_point p -> 0 <= key p) ->
    (forall p, p ∈ (if (80 <? length points)%nat then every_other points else points) -> key p <= peak points lu ld) ->
    forall i p, points !! i = Some p -> 0 <= drawn_value points key lastValue i p <= maximum points lu ld) as Hv.
  { intros key lastValue Hl Hk0 Hk i p Hi. unfold drawn_value.
    destruct (i =? length points - 1)%nat eqn:Hlast; [done|].
    specialize (Hk p (Hin i p Hi Hlast)). rewrite Forall_forall in Hp.
    specialize (Hk0 p (Hp p (list_elem_of_lookup_2 _ _ _ Hi))). lra. }
  destruct (sides detailed width height Hw Hh) as ((Hcw & Hch) & Hil & Hit).
  assert (forall color key lastValue, 0 <= lastValue <= maximum points lu ld ->
    (forall p, good_point p -> 0 <= key p) ->
    (forall p, p ∈ (if (80 <? length points)%nat then every_other points else points) -> key p <= peak points lu ld) ->
    Forall (within (inset_left (inset_of detailed)) (inset_top (inset_of detailed))
              (chartWidth detailed width) (chartHeight detailed height))
      (omap vertex (drawLine points (chart_x detailed width (length points))
                      (chart_y detailed height (maximum points lu ld)) color key lastValue))) as Hline.
  { intros color key lastValue Hl Hk0 Hk. apply drawLine_within; [done|done|lra|by apply Hv]. }
  unfold drawChart. rewrite !omap_app, !Forall_app. split; [constructor|]. split; [|split; [|split; [|constructor]]].
  - destruct detailed; [|constructor]. apply drawGrid_within. lia.
  - apply Hline; [lra|by intros p [[? _] _]|]. intros p Hpin. by apply peak_ge_point.
  - destruct detailed; [|constructor].
    apply Hline; [lra|by intros p [_ [? _]]|]. intros p Hpin. by apply peak_ge_point.
Qed.

(** With up to eighty points the whole drawing - the grid and every vertex of the lines -
    lies in the chart's rectangle, whatever the rates, with all the rounding of the
    arithmetic on doubles. *)
Theorem chart_stays_inside (points : list ChartPoint) (width height : Z) (ratio : Q) (detailed : bool) (lu ld : Q) :
  side width -> side height -> (length points <= 80)%nat -> Forall good_point points -> figure lu -> figure ld ->
  Forall (within (inset_left (inset_of detailed)) (inset_top (inset_of detailed))
            (chartWidth detailed width) (chartHeight detailed height))
    (omap vertex (drawChart points width height ratio detailed lu ld)).
Proof.
  intros Hw Hh Hn Hp Hu Hd. apply drawChart_within; [done..|].
  intros i p Hi _. destruct (Nat.ltb_spec 80 (length points)); [lia|]. by eapply list_elem_of_lookup_2.
Qed.

(** With more than eighty points every other one is left out of the scale but still
    drawn: where the others stay below 1 KB/s, a peak of 17 KB/s at an odd position is drawn
    above the top of the canvas. *)
Theorem odd_peak_leaves_canvas (points : list ChartPoint) (height : Z) (detailed : bool) (lu ld : Q) (i : nat)
    (p : ChartPoint) (color : jsstr) (x : nat -> Q) :
  side height -> (80 < length points)%nat -> points !! i = Some p -> (i < length points - 1)%nat ->
  (forall j q, points !! (2 * j)%nat = Some q -> chart_upload q <= 1 /\ chart_download q <= 1) ->
  lu <= 1 -> ld <= 1 -> 17 <= chart_upload p ->
  exists v, omap vertex (drawLine points x (chart_y detailed height (maximum points lu ld)) color chart_upload lu) !! i
            = Some v /\ snd v < 0.
Proof.
  intros Hh Hn Hi Hlast Hq Hu Hd Hp. rewrite drawLine_vertices, list_lookup_imap, Hi. cbn [fmap option_fmap option_map].
  eexists. split; [done|]. cbn [snd]. destruct (Nat.eqb_spec i (length points - 1)); [lia|].
  assert (peak points lu ld <= 1) as Hpk.
  { apply peak_in; [apply Qle_refl|done|done|]. intros q Hin.
    destruct (Nat.ltb_spec 80 (length points)); [|lia].
    destruct (every_other_elem q points Hin) as [j Hj]. by apply (Hq j). }
  destruct (peak_ge points lu ld) as (Hpk1 & _ & _).
  assert (maximum points lu ld == rnd (115 # 100)) as Hm.
  { unfold maximum, dmul. assert (peak points lu ld == 1) as -> by lra. rewrite Qmult_1_l. apply rnd_idem. }
  assert (0 < rnd (115 # 100) /\ 14 * rnd (115 # 100) <= 17) as [Hr0 Hr]
    by (split; [apply Qlt_alt; by_evaluation|apply Qle_bool_iff; by_evaluation]).
  destruct (sides detailed 0 height) as ((_ & HH) & (_ & Ht)); [done..|].
  assert (1 <= chartHeight detailed height)%Z as HH1 by (unfold chartHeight; lia).
  unfold chart_y. set (H := chartHeight detailed height) in *. set (top := inset_top _) in *.
  assert (14 <= ddiv (chart_upload p) (maximum points lu ld)) as Hdiv.
  { apply (rnd_at_least (inject_Z 14)); [by apply rnd_int|]. rewrite Hm. apply Qle_shift_div_l; [done|].
    change (inject_Z 14) with 14. lra. }
  assert (inject_Z 1 <= inject_Z H) as HHq by (by rewrite <-Zle_Qle). change (inject_Z 1) with 1 in HHq.
  assert (inject_Z (14 * H) <= dmul (ddiv (chart_upload p) (maximum points lu ld)) (inject_Z H)) as Hmul.
  { apply rnd_at_least; [apply rnd_int; lia|]. rewrite inject_Z_mult. change (inject_Z 14) with 14. nra. }
  assert (dadd (inject_Z top) (inject_Z H) == inject_Z (top + H)) as Hs.
  { unfold dadd. rewrite <-inject_Z_plus. apply rnd_int. lia. }
  unfold dsub. rewrite Hs. apply Qle_lt_trans with (inject_Z (-1)); [|done].
  apply rnd_at_most; [by apply rnd_int|].
  assert (inject_Z (top + H - 14 * H) <= inject_Z (-1)) as Hz by (rewrite <-Zle_Qle; lia).
  unfold Z.sub in Hz. rewrite inject_Z_plus, inject_Z_opp in Hz. lra.
Qed.

(** *** The component *)

(** The value a frame starts from and ends at is a figure again. *)
Lemma frame_value_figure (start last : Q) : figure start -> figure last -> figure (frame_value start last).
Proof.
  intros [Hs Hrs] [Hl Hrl]. split; [|apply rnd_idem].
  assert (- start <= dsub last start) as Hd by (apply rnd_at_least; [by apply representable_opp|lra]).
  apply (rnd_at_least 0); [done|lra].
Qed.

Inductive canvas_event := Resized (width height : Q) | Changed (dpr : Q) (points : list ChartPoint).

Definition canvas_step (detailed : bool) (c : Canvas) (ev : canvas_event) : Canvas :=
  match ev with
  | Resized width height => updateSize width height c
  | Changed dpr points => canvas_effect dpr detailed points c
  end.

Definition event_ok (ev : canvas_event) : Prop :=
  match ev with
  | Resized width height => side (dround width) /\ side (dround height)
  | Changed _ points => Forall good_point points
  end.

Definition frame_ok (f : Frame) : Prop :=
  side (frame_width f) /\ side (frame_height f)
  /\ Forall good_point (frame_points f) /\ good_point (frame_start f) /\ good_point (frame_last f).

Definition canvas_ok (detailed : bool) (c : Canvas) : Prop :=
  good_point (previousLast c) /\ side (fst (canvas_size c)) /\ side (snd (canvas_size c))
  /\ forall f, frameRef c = Some f -> frame_ok f /\ frame_detailed f = detailed.

Lemma no_point_good : good_point no_point.
Proof. repeat split; try apply Qle_refl; done. Qed.

Lemma canvas_step_ok (detailed : bool) (c : Canvas) (ev : canvas_event) :
  canvas_ok detailed c -> event_ok ev -> canvas_ok detailed (canvas_step detailed c ev).
Proof.
  intros (Hp & Hw & Hh & Hf). destruct ev as [w h|dpr points]; cbn [event_ok canvas_step].
  - by intros [Hw' Hh'].
  - intros Hpts. unfold canvas_effect. destruct (canvas_size c) as [width height] eqn:Hs.
    destruct (_ || _); [by rewrite <-Hs in *|]. cbn [fst snd] in *.
    assert (good_point (List.last points no_point)) as Hlast.
    { destruct points as [|p l]; [apply no_point_good|]. rewrite Forall_forall in Hpts. apply Hpts.
      rewrite list_elem_of_In. destruct (exists_last (l := p :: l) ltac:(done)) as (l' & q & ->).
      rewrite last_last. apply in_app_iff. right. by left. }
    unfold canvas_ok. cbn [previousLast canvas_size frameRef fst snd].
    split; [done|]. split; [done|]. split; [done|]. by intros f [= <-].
Qed.

Lemma canvas_initial_ok (detailed : bool) : canvas_ok detailed canvas_initial.
Proof. split; [apply no_point_good|]. by repeat split. Qed.

(** A frame of at most eighty points is drawn inside. *)
Lemma frame_inside (f : Frame) :
  frame_ok f -> (length (frame_points f) <= 80)%nat ->
  Forall (within (inset_left (inset_of (frame_detailed f))) (inset_top (inset_of (frame_detailed f)))
            (chartWidth (frame_detailed f) (frame_width f)) (chartHeight (frame_detailed f) (frame_height f)))
    (omap vertex (drawFrame f)).
Proof.
  intros (Hw & Hh & Hp & (Hs1 & Hs2) & (Hl1 & Hl2)) Hn. unfold drawFrame.
  apply drawChart_within; [done|done|done|by apply frame_value_figure..|].
  intros i p Hi _. destruct (Nat.ltb_spec 80 (length (frame_points f))); [lia|]. by eapply list_elem_of_lookup_2.
Qed.

(** However the canvas is resized and the points change. *)
Lemma canvas_reached (detailed : bool) (evs : list canvas_event) :
  Forall event_ok evs -> canvas_ok detailed (fold_left (canvas_step detailed) evs canvas_initial).
Proof.
  intros Hevs. pose proof (canvas_initial_ok detailed) as H0. revert H0. generalize canvas_initial.
  induction Hevs as [|ev evs Hev _ IH]; intros c Hc; [done|]. cbn. by apply IH, canvas_step_ok.
Qed.

(** However the canvas is resized and the points change, the frame the component has asked for
    draws inside the chart's rectangle when it has at most eighty points. *)
Theorem frames_stay_inside (detailed : bool) (evs : list canvas_event) (f : Frame) :
  Forall event_ok evs -> frameRef (fold_left (canvas_step detailed) evs canvas_initial) = Some f ->
  (length (frame_points f) <= 80)%nat ->
  Forall (within (inset_left (inset_of detailed)) (inset_top (inset_of detailed))
            (chartWidth detailed (frame_width f)) (chartHeight detailed (frame_height f)))
    (omap vertex (drawFrame f)).
Proof.
  intros Hevs Hf. destruct (canvas_reached detailed evs Hevs) as (_ & _ & _ & Hok).
  destruct (Hok f Hf) as [Hfr <-]. by apply frame_inside.
Qed.

(** *** Examples *)

Definition steady (k : Z) : ChartPoint := {| chart_upload := inject_Z k; chart_download := 0 |}.

Lemma steady_good (k : Z) : (0 <= k <= 2 ^ 53)%Z -> good_point (steady k).
Proof.
  intros Hk. split; split; try done; [|apply rnd_int; lia].
  cbn. change 0 with (inject_Z 0). rewrite <-Zle_Qle. lia.
Qed.

Lemma chart_stays_inside_witness :
  Forall (within 30 12 158 80) (omap vertex (drawChart [steady 3; steady 900; steady 5] 200 100 1 true 5 0)).
Proof.
  apply (chart_stays_inside [steady 3; steady 900; steady 5] 200 100 1 true 5 0).
  - done.
  - done.
  - cbn. lia.
  - repeat apply Forall_cons_2; try apply Forall_nil_2; apply steady_good; lia.
  - by apply (steady_good 5).
  - apply no_point_good.
Defined.

(** Eighty-two seconds of 1 KB/s with one of 17. *)
Definition spiky : list ChartPoint := replicate 41 (steady 1) ++ [steady 17] ++ replicate 40 (steady 1).

Lemma odd_peak_leaves_canvas_witness :
  exists v, omap vertex (drawLine spiky (chart_x false 200 82) (chart_y false 100 (maximum spiky 1 0)) (js "#12ad67")
              chart_upload 1) !! 41%nat = Some v /\ snd v < 0.
Proof.
  apply (odd_peak_leaves_canvas spiky 100 false 1 0 41 (steady 17)).
  - done.
  - cbn. lia.
  - done.
  - cbn. lia.
  - intros j q Hj. unfold spiky in Hj.
    destruct (decide (2 * j < 41)%nat) as [Hlt|Hge].
    + rewrite lookup_app_l in Hj by (rewrite length_replicate; lia).
      apply lookup_replicate in Hj as [-> _]. split; apply Qle_bool_iff; by_evaluation.
    + rewrite lookup_app_r in Hj by (rewrite length_replicate; lia). rewrite length_replicate in Hj.
      rewrite lookup_app_r in Hj by (cbn; lia).
      apply lookup_replicate in Hj as [-> _]. split; apply Qle_bool_iff; by_evaluation.
  - apply Qle_refl.
  - apply Qle_bool_iff; by_evaluation.
  - apply Qle_refl.
Defined.

Lemma frames_stay_inside_witness :
  exists f, frameRef (fold_left (canvas_step false) [Resized 200 60; Changed 1 [steady 3; steady 7]] canvas_initial) = Some f
    /\ Forall (within 2 8 (chartWidth false (frame_width f)) (chartHeight false (frame_height f))) (omap vertex (drawFrame f)).
Proof.
  eexists. split; [done|].
  apply (frames_stay_inside false [Resized 200 60; Changed 1 [steady 3; steady 7]]); [|done|cbn; lia].
  apply Forall_cons_2; [done|]. apply Forall_cons_2; [|apply Forall_nil_2].
  repeat apply Forall_cons_2; try apply Forall_nil_2; apply steady_good; lia.
Defined.
