(* ===== verification/TrafficFigures.v ===== *)
(** The figures the desktop's charts are given: with counters below 2^53 every rate the hook of
    useTrafficHistory.ts computes is finite, so that every point of the history has one. *)

From Stdlib Require Import SpecFloat QArith.
From S2P Require Import Prelude JsString JsNumber Rounded WebPlatform DesktopTypes TrafficHistory TrafficChart.

#[local] Open Scope Z_scope.

(** ** The range of a double *)

(** The bits of a non-negative mantissa. *)
Definition bits (m : Z) : Z := match m with Z0 => 0 | _ => Z.log2 m + 1 end.

(** Zero, or finite and below 2^[b], its unit at most 2^[b]. *)
Definition below (b : Z) (x : double) : Prop :=
  match x with
  | S754_zero _ => True
  | S754_finite _ m e => e <= b /\ bits (Zpos m) + e <= b
  | _ => False
  end.

(** Finite, positive and at least 2^[-b]. *)
Definition above (b : Z) (x : double) : Prop :=
  match x with S754_finite false m e => - b <= e /\ - b <= bits (Zpos m) + e | _ => False end.

Lemma bits_digits (m : Z) : 0 <= m -> Zdigits2 m = bits m.
Proof.
  destruct m as [|p|]; [done| |done]. intros _. unfold Zdigits2, bits. induction p as [p IH|p IH|]; [..|done].
  all: cbn [digits2_pos]; rewrite Pos2Z.inj_succ, IH; rewrite ?(Pos2Z.inj_xI p), ?(Pos2Z.inj_xO p).
  - rewrite Z.log2_succ_double by done. lia.
  - rewrite Z.log2_double by done. lia.
Qed.

Lemma bits_nonneg (m : Z) : 0 <= bits m.
Proof. destruct m; cbn [bits]; try done; pose proof (Z.log2_nonneg (Zpos p)); pose proof (Z.log2_nonneg (Zneg p)); lia. Qed.

Lemma bits_le (m n : Z) : 0 <= m <= n -> bits m <= bits n.
Proof.
  intros [Hm Hn]. destruct m as [|p|]; [apply bits_nonneg| |done]. destruct n as [|q|]; [lia| |lia].
  cbn [bits]. pose proof (Z.log2_le_mono _ _ Hn). lia.
Qed.

Lemma bits_succ (m : Z) : 0 <= m -> bits (m + 1) <= bits m + 1.
Proof.
  destruct m as [|p|]; [done| |done]. intros _. pose proof (Z.log2_succ_le (Zpos p)).
  change (Zpos p + 1) with (Zpos (p + 1)). cbn [bits]. change (Zpos (p + 1)) with (Z.succ (Zpos p)). lia.
Qed.

Lemma bits_bound (m k : Z) : 0 <= m < 2 ^ k -> 0 <= k -> bits m <= k.
Proof.
  intros [Hm Hk] H0. destruct m as [|p|]; [done| |done]. cbn [bits].
  destruct (Z.log2_lt_pow2 (Zpos p) k); lia.
Qed.

(** *** Rounding *)

Lemma shr_1_bits (r : shr_record) :
  0 <= shr_m r -> 0 <= shr_m (shr_1 r) /\ bits (shr_m (shr_1 r)) <= Z.max 0 (bits (shr_m r) - 1).
Proof.
  destruct r as [[|p|] b c]; cbn [shr_m]; [done| |done]. intros _. destruct p as [p|p|]; cbn [shr_m shr_1]; [..|done].
  all: split; [done|]; cbn [bits]; rewrite ?(Pos2Z.inj_xI p), ?(Pos2Z.inj_xO p).
  - rewrite Z.log2_succ_double by done. lia.
  - rewrite Z.log2_double by done. lia.
Qed.

Lemma iter_shr_bits (n : positive) (r : shr_record) :
  0 <= shr_m r ->
  0 <= shr_m (SpecFloat.iter_pos shr_1 n r) /\ bits (shr_m (SpecFloat.iter_pos shr_1 n r)) <= Z.max 0 (bits (shr_m r) - Zpos n).
Proof.
  revert r. induction n as [n IH|n IH|]; intros r Hr; cbn [SpecFloat.iter_pos]; [| |by apply shr_1_bits].
  - destruct (shr_1_bits r Hr) as [H1 B1]. destruct (IH _ H1) as [H2 B2]. destruct (IH _ H2) as [H3 B3].
    split; [done|]. rewrite (Pos2Z.inj_xI n). lia.
  - destruct (IH _ Hr) as [H2 B2]. destruct (IH _ H2) as [H3 B3]. split; [done|]. rewrite (Pos2Z.inj_xO n). lia.
Qed.

Lemma shr_fexp_below (m e b : Z) (l : location) :
  0 <= m -> -1000 <= b -> e <= b -> bits m + e <= b ->
  let r := shr_fexp 53 1024 m e l in
  0 <= shr_m (fst r) /\ snd r <= b /\ bits (shr_m (fst r)) + snd r <= b.
Proof.
  intros Hm Hb He Hd. unfold shr_fexp. rewrite bits_digits by done.
  assert (shr_m (shr_record_of_loc m l) = m) as Hr by (by destruct l as [|[]]).
  unfold fexp, emin. destruct (Z.max (bits m + e - 53) (3 - 1024 - 53) - e) as [|n|n] eqn:Hn; cbn [shr fst snd]; rewrite ?Hr; try lia.
  destruct (iter_shr_bits n (shr_record_of_loc m l)) as [H0 Hbits]; [by rewrite Hr|]. rewrite Hr in Hbits. lia.
Qed.

Lemma round_below (s : bool) (m e b : Z) (l : location) :
  0 <= m -> -1000 <= b <= 900 -> e <= b -> bits m + e <= b -> below (b + 1) (binary_round_aux 53 1024 s m e l).
Proof.
  intros Hm Hb He Hd. unfold binary_round_aux.
  pose proof (shr_fexp_below m e b l Hm ltac:(lia) He Hd) as Hr. destruct (shr_fexp 53 1024 m e l) as [r e'].
  cbn [fst snd] in Hr. destruct Hr as (H0 & He' & Hd').
  set (m' := round_nearest_even (shr_m r) (loc_of_shr_record r)).
  assert (0 <= m' /\ bits m' <= bits (shr_m r) + 1) as [Hm' Hbits].
  { pose proof (bits_succ (shr_m r) H0). unfold m', round_nearest_even.
    destruct (loc_of_shr_record r) as [|[]]; try destruct (Z.even _); lia. }
  pose proof (shr_fexp_below m' e' (b + 1) loc_Exact Hm' ltac:(lia) ltac:(lia) ltac:(lia)) as Hr.
  destruct (shr_fexp 53 1024 m' e' loc_Exact) as [r2 e2]. cbn [fst snd] in Hr. destruct Hr as (H2 & He2 & Hd2).
  destruct (shr_m r2) as [|p|p]; [done| |done]. destruct (Z.leb_spec e2 (1024 - 53)); [done|lia].
Qed.

(** *** Quotients and integers *)

Lemma bits_shift (m s : Z) : 0 < m -> 0 <= s -> bits (m * 2 ^ s) = bits m + s.
Proof.
  intros Hm Hs. assert (0 < m * 2 ^ s) as Hp by (pose proof (Z.pow_pos_nonneg 2 s); nia).
  pose proof (Z.log2_mul_pow2 m s Hm Hs) as Hl. destruct m as [|p|]; [done| |done].
  destruct (Zpos p * 2 ^ s) as [|q|]; [done| |done]. cbn [bits]. lia.
Qed.

Lemma bits_div (a m : Z) : 0 <= a -> 0 < m -> a / m = 0 \/ bits (a / m) <= bits a - bits m + 1.
Proof.
  intros Ha Hm. pose proof (Z.div_pos a m Ha Hm) as Hq. destruct (Z.eq_dec (a / m) 0) as [|Hne]; [by left|right].
  pose proof (Z.log2_mul_below (a / m) m ltac:(lia) Hm) as Hl.
  pose proof (Z.mul_div_le a m Hm) as Hqa. pose proof (Z.log2_le_mono _ _ Hqa) as Hle. rewrite Z.mul_comm in Hle.
  destruct (a / m) as [|q|]; [done| |lia]. destruct m as [|p|]; [done| |done].
  destruct a as [|a|]; [lia| |done]. cbn [bits]. lia.
Qed.

Lemma div_below (b l : Z) (x y : double) :
  below b x -> above l y -> 0 <= b -> 0 <= l -> b + l <= 800 -> below (b + l + 2) (div x y).
Proof.
  intros Hx Hy Hb Hl Hbl. destruct y as [| | |[] m2 e2]; try done. destruct Hy as [He2 Hd2].
  destruct x as [| | |s m1 e1]; try done. destruct Hx as [He1 Hd1].
  unfold div, SFdiv, SFdiv_core_binary. rewrite !bits_digits by done.
  set (e' := Z.min _ _). assert (e' <= e1 - e2) as He' by lia.
  assert (forall k, k = e1 - e2 - e' ->
            match k with Z0 => Zpos m1 | Zpos _ => Z.shiftl (Zpos m1) k | Zneg _ => 0 end = Zpos m1 * 2 ^ (e1 - e2 - e')) as Hm.
  { intros k Hk. rewrite <-Hk. destruct k; [lia|by apply Z.shiftl_mul_pow2|lia]. }
  rewrite (Hm _ eq_refl). clear Hm. set (n := _ * _).
  pose proof (bits_shift (Zpos m1) (e1 - e2 - e') ltac:(done) ltac:(lia)) as Hn. fold n in Hn.
  assert (0 <= n) as Hn0 by (unfold n; pose proof (Z.pow_nonneg 2 (e1 - e2 - e')); lia).
  pose proof (bits_div n (Zpos m2) Hn0 ltac:(done)) as Hq. pose proof (Z.div_pos n (Zpos m2) Hn0 ltac:(done)) as Hq0.
  unfold Z.div in Hq, Hq0. destruct (Z.div_eucl n (Zpos m2)) as [q r].
  replace (b + l + 2) with (b + l + 1 + 1) by lia. apply round_below; [done|lia|lia|].
  destruct Hq as [-> |Hq]; cbn [bits]; lia.
Qed.

Lemma iter_xO (m n : positive) : Zpos (Pos.iter xO m n) = Zpos m * 2 ^ Zpos n.
Proof.
  rewrite <-Z.shiftl_mul_pow2 by done. unfold Z.shiftl.
  by apply (Pos.iter_swap_gen _ _ Zpos xO (Z.mul 2)).
Qed.

Lemma of_int_below (z : Z) : Z.abs z < 2 ^ 53 -> below 54 (of_int z).
Proof.
  intros Hz. assert (forall s p, Zpos p < 2 ^ 53 -> below 54 (binary_round 53 1024 s p 0)) as Hp.
  { intros s p Hlt. unfold binary_round, shl_align. change (Zpos (digits2_pos p)) with (Zdigits2 (Zpos p)).
    rewrite bits_digits by done. pose proof (bits_bound (Zpos p) 53 ltac:(lia) ltac:(done)) as Hb.
    pose proof (bits_nonneg (Zpos p)) as H0. unfold fexp, emin.
    destruct (Z.max (bits (Zpos p) + 0 - 53) (3 - 1024 - 53) - 0) as [|n|n] eqn:Hn; [|lia|].
    - by apply (round_below _ _ _ 53); try lia.
    - apply (round_below _ _ _ 53); [done|lia|lia|]. rewrite iter_xO, bits_shift by done. lia. }
  destruct z as [|p|p]; [done|apply Hp; lia..].
Qed.

(** ** The figures of the hook *)

(** Where a positive double is, read off its exponent. *)
Lemma above_exponent (b : Z) (x : double) :
  match x with S754_finite false _ e => - b <=? e | _ => false end = true -> above b x.
Proof.
  destruct x as [| | |[] m e]; try done. intros He. cbn [above]. pose proof (bits_nonneg (Zpos m)). lia.
Qed.

Lemma quarter_value : quarter = S754_finite false 4503599627370496 (-54).
Proof. by_evaluation. Qed.

Lemma quarter_above : above 54 quarter.
Proof. apply above_exponent. by_evaluation. Qed.

Lemma thousand_above : above 43 (of_int 1000).
Proof. apply above_exponent. by_evaluation. Qed.

Lemma kilo_above : above 42 (of_int 1024).
Proof. apply above_exponent. by_evaluation. Qed.

Lemma seconds_above (now base : Z) : 0 <= now - base < 2 ^ 53 -> above 54 (seconds_since now base).
Proof.
  intros Ht. unfold seconds_since.
  pose proof (div_below 54 43 (of_int (now - base)) (of_int 1000) (of_int_below (now - base) ltac:(lia)) thousand_above
                ltac:(lia) ltac:(lia) ltac:(lia)) as Hy.
  set (y := div (of_int (now - base)) (of_int 1000)) in *. clearbody y.
  pose proof quarter_above as Hq. revert Hq. rewrite quarter_value. intros Hq.
  unfold max. destruct y as [s|s| |s m e]; [by destruct s|destruct Hy..|]. unfold gt, is_nan, orb, SFcompare.
  destruct s; [done|]. pose proof (bits_nonneg (Zpos m)).
  destruct (Z.compare_spec e (-54)) as [->|He|He]; [|done|cbn [above]; lia].
  destruct (Pos.compare_cont _ _ _); [done..|]. cbn [above]. lia.
Qed.

Lemma rate_finite (c : bool) (bytes : Z) (seconds : double) :
  Z.abs bytes < 2 ^ 53 -> above 54 seconds ->
  exists n d, rational (rate c bytes seconds) = Some (n, d) /\ 0 <= n /\ 0 < d.
Proof.
  intros Hb Hs. unfold rate. destruct c; [|by exists 0, 1].
  pose proof (div_below 54 54 (of_int bytes) seconds (of_int_below _ Hb) Hs ltac:(lia) ltac:(lia) ltac:(lia)) as Hy.
  pose proof (div_below _ 42 _ (of_int 1024) Hy kilo_above ltac:(lia) ltac:(lia) ltac:(lia)) as Hx.
  set (x := div (div (of_int bytes) seconds) (of_int 1024)) in *. clearbody x.
  unfold max. destruct x as [| | |[] m e]; cbn [is_nan orb]; try done; [by exists 0, 1..|].
  cbn [gt SFcompare rational]. destruct (0 <=? e) eqn:He; eexists _, _; (split; [done|]).
  - pose proof (Z.pow_nonneg 2 e). lia.
  - pose proof (Z.pow_pos_nonneg 2 (- e)). lia.
Qed.

Lemma rate_tenths (c : bool) (bytes : Z) (seconds : double) :
  Z.abs bytes < 2 ^ 53 -> above 54 seconds -> exists k, tenths (rate c bytes seconds) = Some k /\ 0 <= k.
Proof.
  intros Hb Hs. destruct (rate_finite c bytes seconds Hb Hs) as (n & d & Hr & Hn & Hd).
  unfold tenths. rewrite Hr. eexists. split; [done|]. by apply round_fixed_nonneg.
Qed.

Lemma number_of_tenths_figure (k : Z) : 0 <= k -> figure (number_of_tenths k).
Proof.
  intros Hk. split; [|apply rnd_idem]. apply (rnd_at_least 0); [done|]. unfold Qle. cbn. lia.
Qed.

(** What the service reports: byte counters that a double holds exactly. *)
Definition counters_ok (s : RuntimeStatus) : Prop :=
  0 <= uploadBytes s < 2 ^ 53 /\ 0 <= downloadBytes s < 2 ^ 53.

(** A point of the history has figures for the chart. *)
Definition has_figures (p : TrafficPoint) : Prop := exists q, chart_point p = Some q /\ good_point q.

Section Points.
Context `{Dates}.

Lemma sample_counters (h : History) (now : Z) (s : RuntimeStatus) (x : TrafficSample) :
  counters_ok s -> Forall (fun x => 0 <= upload x < 2 ^ 53 /\ 0 <= download x < 2 ^ 53) (samples h) ->
  x ∈ next_samples now s h -> 0 <= upload x < 2 ^ 53 /\ 0 <= download x < 2 ^ 53.
Proof.
  intros Hs Hh Hx. apply next_samples_in in Hx as [-> |[Hx _]]; [done|]. rewrite Forall_forall in Hh. by apply Hh.
Qed.

(** However the service reports and whenever, every point has its figures. *)
Lemma points_have_figures (rs : list (Z * RuntimeStatus)) :
  in_order (fst <$> rs) -> Forall (fun r => counters_ok (snd r)) rs ->
  Forall has_figures (points (history rs))
  /\ Forall (fun x => 0 <= upload x < 2 ^ 53 /\ 0 <= download x < 2 ^ 53) (samples (history rs)).
Proof.
  induction rs as [|[now s] rs IH] using rev_ind; [by repeat constructor|].
  rewrite fmap_app, Forall_app. cbn [fmap list_fmap fst]. intros Ho [Hc Hs]. rewrite Forall_singleton in Hs. cbn [snd] in Hs.
  destruct (history_before rs now Ho) as (t & Ht & Hh). apply sorted_snoc in Ho as [Ho _].
  destruct (IH Ho Hc) as [Hp Hx]. rewrite history_snoc.
  pose proof (effect_ok t now s _ Ht Hh) as [(_ & Hage & _) _].
  destruct (effect_unfold t now s _ Ht Hh) as (b & Hb & Heq). rewrite Heq in *. cbn [samples points] in *.
  split; [|apply Forall_forall; intros x Hin; by apply (sample_counters (history rs) now s x Hs Hx Hin)].
  assert (b ∈ next_samples now s (history rs)) as Hin.
  { destruct (next_samples now s (history rs)); [done|]. injection Hb as ->. by left. }
  destruct (sample_counters _ _ _ _ Hs Hx Hin) as [Hu Hd]. rewrite Forall_forall in Hage. pose proof (Hage b Hin) as Hbt.
  destruct Hs as [Hsu Hsd]. pose proof (seconds_above now (time b) ltac:(lia)) as Hsec.
  destruct (rate_tenths (connected s) (uploadBytes s - upload b) _ ltac:(lia) Hsec) as (ku & Hku & Hku0).
  destruct (rate_tenths (connected s) (downloadBytes s - download b) _ ltac:(lia) Hsec) as (kd & Hkd & Hkd0).
  apply Forall_drop, Forall_app. split; [done|]. rewrite Forall_singleton. rewrite Hku, Hkd.
  eexists. split; [done|]. split; by apply number_of_tenths_figure.
Qed.

(** The chart loses no point. *)
Lemma chart_points_all (l : list TrafficPoint) : Forall has_figures l -> length (omap chart_point l) = length l.
Proof.
  induction 1 as [|p l (q & Hq & _) _ IH]; [done|]. cbn. rewrite Hq. cbn. by f_equal.
Qed.

Lemma chart_points_good (l : list TrafficPoint) : Forall has_figures l -> Forall good_point (omap chart_point l).
Proof.
  induction 1 as [|p l (q & Hq & Hg) _ IH]; [constructor|]. cbn. rewrite Hq. by constructor.
Qed.

Lemma history_length (rs : list (Z * RuntimeStatus)) :
  in_order (fst <$> rs) -> (length (points (history rs)) <= maxHistoryPoints)%nat.
Proof.
  destruct rs as [|[now s] rs _] using rev_ind; [cbn; lia|]. rewrite fmap_app. intros Ho.
  destruct (history_before rs now Ho) as (t & Ht & Hh). rewrite history_snoc. by destruct (effect_ok t now s _ Ht Hh) as (_ & ? & _).
Qed.
End Points.
