(* ===== verification/DesktopApp.v ===== *)
(** The desktop client's state and actions: desktop/frontend/src/App.tsx and previewData.ts. *)

From S2P Require Import Prelude JsString JsNumber Json JsErrors Async DesktopTypes UserFeedback.

#[local] Open Scope prog_scope.

(** ** The service *)

(** The methods of DesktopService the page calls, and what they resolve to. *)
Inductive service_call :=
| Snapshot
| Status
| Connect
| Disconnect
| SaveConfig (patch : AppConfig)
| CheckForUpdate
| ApplyUpdate.

Definition service_result (c : service_call) : Type :=
  match c with
  | Snapshot | SaveConfig _ => DesktopSnapshot
  | Status | Connect | Disconnect => RuntimeStatus
  | CheckForUpdate => UpdateResult
  | ApplyUpdate => unit
  end.

Inductive notice := Success | Info | Warning | Failure.
Inductive effect := Message (kind : notice) (content : jsstr).

(** ** State *)

(** The states and refs of [DesktopApp], and the values of its form. *)
Record Desktop := {
  snapshot : option DesktopSnapshot;
  view : View;
  loading : bool;
  updateLoading : bool;
  previewTick : Z;
  snapshotRefreshInFlight : bool;
  statusRefreshInFlight : bool;
  form : option AppConfig
}.

Definition desktop_initial : Desktop :=
  {| snapshot := None; view := Home; loading := false; updateLoading := false; previewTick := 0;
     snapshotRefreshInFlight := false; statusRefreshInFlight := false; form := None |}.

Definition setSnapshot (f : option DesktopSnapshot -> option DesktopSnapshot) (s : Desktop) : Desktop :=
  {| snapshot := f (snapshot s); view := view s; loading := loading s; updateLoading := updateLoading s;
     previewTick := previewTick s; snapshotRefreshInFlight := snapshotRefreshInFlight s;
     statusRefreshInFlight := statusRefreshInFlight s; form := form s |}.
Definition setView (v : View) (s : Desktop) : Desktop :=
  {| snapshot := snapshot s; view := v; loading := loading s; updateLoading := updateLoading s;
     previewTick := previewTick s; snapshotRefreshInFlight := snapshotRefreshInFlight s;
     statusRefreshInFlight := statusRefreshInFlight s; form := form s |}.
Definition setLoading (v : bool) (s : Desktop) : Desktop :=
  {| snapshot := snapshot s; view := view s; loading := v; updateLoading := updateLoading s;
     previewTick := previewTick s; snapshotRefreshInFlight := snapshotRefreshInFlight s;
     statusRefreshInFlight := statusRefreshInFlight s; form := form s |}.
Definition setUpdateLoading (v : bool) (s : Desktop) : Desktop :=
  {| snapshot := snapshot s; view := view s; loading := loading s; updateLoading := v;
     previewTick := previewTick s; snapshotRefreshInFlight := snapshotRefreshInFlight s;
     statusRefreshInFlight := statusRefreshInFlight s; form := form s |}.
Definition tick (s : Desktop) : Desktop :=
  {| snapshot := snapshot s; view := view s; loading := loading s; updateLoading := updateLoading s;
     previewTick := previewTick s + 1; snapshotRefreshInFlight := snapshotRefreshInFlight s;
     statusRefreshInFlight := statusRefreshInFlight s; form := form s |}.
Definition setSnapshotInFlight (v : bool) (s : Desktop) : Desktop :=
  {| snapshot := snapshot s; view := view s; loading := loading s; updateLoading := updateLoading s;
     previewTick := previewTick s; snapshotRefreshInFlight := v;
     statusRefreshInFlight := statusRefreshInFlight s; form := form s |}.
Definition setStatusInFlight (v : bool) (s : Desktop) : Desktop :=
  {| snapshot := snapshot s; view := view s; loading := loading s; updateLoading := updateLoading s;
     previewTick := previewTick s; snapshotRefreshInFlight := snapshotRefreshInFlight s;
     statusRefreshInFlight := v; form := form s |}.
Definition setFieldsValue (c : AppConfig) (s : Desktop) : Desktop :=
  {| snapshot := snapshot s; view := view s; loading := loading s; updateLoading := updateLoading s;
     previewTick := previewTick s; snapshotRefreshInFlight := snapshotRefreshInFlight s;
     statusRefreshInFlight := statusRefreshInFlight s; form := Some c |}.

Definition with_status (v : RuntimeStatus) (d : DesktopSnapshot) : DesktopSnapshot :=
  {| config := config d; status := v; tunnels := tunnels d; tunnelPaths := tunnelPaths d;
     logs := logs d; update := update d |}.
Definition with_config (v : AppConfig) (d : DesktopSnapshot) : DesktopSnapshot :=
  {| config := v; status := status d; tunnels := tunnels d; tunnelPaths := tunnelPaths d;
     logs := logs d; update := update d |}.

(** ** previewData.ts *)

Definition preview_tunnel (i n p h : jsstr) (localPort remotePort : Z) (d vt : jsstr) : Tunnel :=
  {| id := i; tunnel_client_id := js "preview-client"; tunnel_name := n; protocol := p;
     visitor_token := Some vt; local_host := h; local_port := localPort; remote_port := remotePort;
     domain := d; tunnel_status := js "running"; ip_allowlist := Some [];
     created_at := js "2026-05-20T14:25:36Z"; updated_at := js "2026-05-20T14:25:36Z" |}.

(** [makePreviewSnapshot(tick)], called at the moment whose ISO text is [now];
    [previewStartedAt] is fixed when the module is loaded. *)
Definition makePreviewSnapshot (previewStartedAt now : jsstr) (tick : Z) : DesktopSnapshot :=
  {| config := {| serverUrl := js "wss://vip1.nrynet.app/agent/connect";
                  dataAddress := js "vip1.nrynet.app:7001"; transport := js "websocket";
                  quicAddress := js "vip1.nrynet.app:7002"; caFile := js ""; token := js "ntk_demo_token";
                  name := js "Studio Client"; deviceId := js "studio-desktop";
                  insecureSkipVerify := false; autoStart := true |};
     status := {| connected := true; state := js "connected";
                  message := js "authenticated session started"; version := js "2.3.4";
                  uploadBytes := 42440000 + tick * 1088000; downloadBytes := 8290000 + tick * 310000;
                  lastStartedAt := Some previewStartedAt; lastStoppedAt := None |};
     tunnels := Some
       [preview_tunnel (js "preview-1") (js "9Router") (js "tcp") (js "192.168.1.1") 80 3007 (js "vip1.nrynet.app") (js "");
        preview_tunnel (js "preview-2") (js "Home NAS") (js "https") (js "192.168.1.20") 443 3008 (js "nas.nrynet.app") (js "");
        preview_tunnel (js "preview-3") (js "Minecraft") (js "tcp") (js "192.168.1.30") 25565 3009 (js "vip1.nrynet.app") (js "");
        preview_tunnel (js "preview-4") (js "Media Lab") (js "udp") (js "192.168.1.40") 1900 3010 (js "vip1.nrynet.app") (js "");
        preview_tunnel (js "preview-5") (js "Visitor API") (js "visitor_webrtc") (js "127.0.0.1") 8080 0 (js "")
          (js "preview-visitor-token")];
     tunnelPaths := Some [(js "preview-1", js "p2p"); (js "preview-2", js "relay"); (js "preview-3", js "p2p");
                          (js "preview-4", js "relay"); (js "preview-5", js "visitor_p2p")];
     logs := Some
       [{| entry_time := now; entry_level := js "INFO"; entry_message := js "authenticated session started";
           entry_fields := None |};
        {| entry_time := previewStartedAt; entry_level := js "INFO"; entry_message := js "configuration loaded";
           entry_fields := None |}];
     update := Some
       {| checked := true; available := true; latestVersion := js "2.5.0";
          downloadURL := js "https://github.com/nrytex/nrynet/releases/download/v2.5.0/nrynet-desktop-windows-amd64.zip";
          downloadState := js "ready"; ready := true;
          update_message := js "新版本 2.5.0 已下载，重启应用即可完成更新。" |} |}.

(** ** Actions *)

Inductive connection := DoConnect | DoDisconnect.

Section Actions.
(** [import.meta.env.DEV]; when the module was loaded; when the n-th preview is made. *)
Context (dev : bool) (previewStartedAt : jsstr) (preview_time : Z -> jsstr).
Local Abbreviation M := (prog Desktop service_call effect thrown service_result).

Definition showError (error : thrown) (action : FeedbackAction) : M unit :=
  say (Message Failure (userErrorMessage error action)).

(** [makePreviewSnapshot(previewTick.current++)] *)
Definition preview : M DesktopSnapshot :=
  let* n := gets previewTick in
  modify tick ;;;
  Ret (makePreviewSnapshot previewStartedAt (preview_time n) n).

Definition refreshSnapshot : M unit :=
  Read (fun s =>
    if snapshotRefreshInFlight s then skip
    else
      (modify (setSnapshotInFlight true) ;;;
       finally
         (let* next := try_catch (call Snapshot) (fun error => if negb dev then Throw error else preview) in
          modify (setSnapshot (fun _ => Some next)))
         (modify (setSnapshotInFlight false)))).

Definition refreshStatus : M unit :=
  Read (fun s =>
    if statusRefreshInFlight s then skip
    else
      (modify (setStatusInFlight true) ;;;
       finally
         (try_catch
            (let* status := call Status in
             modify (setSnapshot (fun current => with_status status <$> current)))
            (fun error =>
               if negb dev then Throw error
               else let* p := preview in
                    modify (setSnapshot (fun current =>
                      match current with
                      | Some c => Some (with_status (status p) c)
                      | None => Some p
                      end))))
         (modify (setStatusInFlight false)))).

(** The effect run when the page is mounted, and its two timers. *)
Definition mount : M unit := try_catch refreshSnapshot (fun error => showError error LoadAction).
Definition snapshot_timer : M unit := ignore_error refreshSnapshot.
Definition status_timer : M unit := ignore_error refreshStatus.

Definition is_connect (a : connection) : bool := match a with DoConnect => true | DoDisconnect => false end.

(** [s] is the state of the render the button belongs to. *)
Definition runConnectionAction (s : Desktop) (action : connection) : M unit :=
  let issue := if is_connect action then connectionConfigIssue ((fun d => whole (config d)) <$> snapshot s)
               else None in
  match issue with
  | Some i => say (Message Warning (issue_message i)) ;;; modify (setView (Settings (issue_section i)))
  | None =>
    modify (setLoading true) ;;;
    finally
      (try_catch
         ((if is_connect action then let* _ := call Connect in skip else let* _ := call Disconnect in skip) ;;;
          await_fn refreshSnapshot)
         (fun error =>
            if dev
            then modify (setSnapshot (fmap (fun current =>
                   with_status {| connected := is_connect action;
                                  state := if is_connect action then js "connected" else js "disconnected";
                                  message := message (status current); version := version (status current);
                                  uploadBytes := uploadBytes (status current);
                                  downloadBytes := downloadBytes (status current);
                                  lastStartedAt := lastStartedAt (status current);
                                  lastStoppedAt := lastStoppedAt (status current) |} current)))
            else (showError error ConnectAction ;;; await_fn (ignore_error refreshSnapshot))))
      (modify (setLoading false))
  end.

Definition saveConfig (s : Desktop) (values : PartialConfig) : M unit :=
  let completeConfig := completeConfigForSave (config <$> snapshot s) values in
  (modify (setLoading true) ;;;
   finally
     (try_catch
        (let* next := call (SaveConfig completeConfig) in
         modify (setSnapshot (fun _ => Some next)) ;;;
         modify (setFieldsValue (config next)) ;;;
         say (Message Success (js "设置已保存")))
        (fun error =>
           if dev
           then (modify (setSnapshot (fmap (with_config completeConfig))) ;;;
                 say (Message Success (js "预览设置已保存")))
           else showError error SaveAction))
     (modify (setLoading false))).

Definition checkUpdate : M unit :=
  modify (setUpdateLoading true) ;;;
  finally
    (try_catch
       (let* result := call CheckForUpdate in
        (if ready result then say (Message Success (update_message result))
         else if available result then say (Message Info (update_message result))
         else say (Message Success (update_message result))) ;;;
        await_fn refreshSnapshot)
       (fun error =>
          if dev then say (Message Info (js "当前已是最新版本")) else showError error UpdateAction))
    (modify (setUpdateLoading false)).

Definition applyUpdate : M unit :=
  modify (setLoading true) ;;;
  try_catch (let* _ := call ApplyUpdate in skip)
            (fun error => showError error UpdateAction ;;; modify (setLoading false)).

Inductive desktop_event :=
| SnapshotTimer
| StatusTimer
| Connection (action : connection)
| Save (values : PartialConfig)
| Check
| Apply
| Navigate (v : View).

Definition desktop_handler (ev : desktop_event) (s : Desktop) : M unit :=
  match ev with
  | SnapshotTimer => snapshot_timer
  | StatusTimer => status_timer
  | Connection a => runConnectionAction s a
  | Save v => saveConfig s v
  | Check => checkUpdate
  | Apply => applyUpdate
  | Navigate v => modify (setView v)
  end.

(** A button that shows a spinner does not take clicks; the timers always run. *)
Definition desktop_enabled (ev : desktop_event) (s : Desktop) : bool :=
  match ev with
  | Connection _ | Save _ => negb (loading s)
  | Check => negb (updateLoading s)
  | _ => true
  end.
End Actions.

(** What is on display: a tunnel's page only while the tunnel is in the snapshot. *)
Inductive screen := HomeScreen | SettingsScreen (section : SettingsSection) | TunnelScreen (tunnel : Tunnel).

Definition current_tunnels (s : Desktop) : list Tunnel :=
  js_nullish (snapshot s ≫= tunnels) [].

Definition display (s : Desktop) : screen :=
  match view s with
  | Settings section => SettingsScreen section
  | TunnelView tunnelId =>
    match js_find (fun item => str_eqb (id item) tunnelId) (current_tunnels s) with
    | Some t => TunnelScreen t
    | None => HomeScreen
    end
  | Home => HomeScreen
  end.

(** ** Properties *)

Section Properties.
Context (dev : bool) (started_at : jsstr) (preview_time : Z -> jsstr).
Local Abbreviation M := (prog Desktop service_call effect thrown service_result).
Local Abbreviation dsys := (sys Desktop service_call effect thrown service_result).
Local Abbreviation trace := (list (happening service_call effect thrown service_result)).
Local Abbreviation handler := (desktop_handler dev started_at preview_time).

(** *** One refresh at a time *)

Definition is_snapshot (c : service_call) : bool := match c with Snapshot => true | _ => false end.
Definition is_status (c : service_call) : bool := match c with Status => true | _ => false end.

Lemma locked_skip (flag : Desktop -> bool) (guarded : service_call -> bool) (s : Desktop) :
  locked flag guarded false (skip : M unit) s.
Proof. done. Qed.

Lemma refreshSnapshot_locked (d : bool) (s : Desktop) :
  locked snapshotRefreshInFlight is_snapshot false (refreshSnapshot d started_at preview_time) s.
Proof.
  cbn. destruct (snapshotRefreshInFlight s) eqn:Hf; [done|]. cbn. right. left.
  split; [done|]. split; [done|]. split; [done|]. split; [done|].
  intros r s' Hs'. specialize (Hs' eq_refl). destruct r as [v|e]; cbn.
  - left. split; [done|]. right. by right.
  - destruct d; cbn; [|right; by right]. left. split; [done|]. left. split; [done|]. right. by right.
Qed.

Lemma refreshStatus_locked (d : bool) (s : Desktop) :
  locked statusRefreshInFlight is_status false (refreshStatus d started_at preview_time) s.
Proof.
  cbn. destruct (statusRefreshInFlight s) eqn:Hf; [done|]. cbn. right. left.
  split; [done|]. split; [done|]. split; [done|]. split; [done|].
  intros r s' Hs'. specialize (Hs' eq_refl). destruct r as [v|e]; cbn.
  - left. split; [done|]. right. by right.
  - destruct d; cbn; [|right; by right]. left. split; [done|]. left. split; [done|]. right. by right.
Qed.

(** The parts of the handlers that leave a lock alone. *)
Lemma refreshSnapshot_leaves_status (d : bool) (s : Desktop) :
  locked statusRefreshInFlight is_status false (refreshSnapshot d started_at preview_time) s.
Proof.
  cbn. destruct (snapshotRefreshInFlight s); [done|]. cbn. left. split; [done|]. split; [done|].
  intros [v|e] s' _; cbn; [|destruct d; cbn]; repeat (left; split; [done|]); done.
Qed.

Lemma refreshStatus_leaves_snapshot (d : bool) (s : Desktop) :
  locked snapshotRefreshInFlight is_snapshot false (refreshStatus d started_at preview_time) s.
Proof.
  cbn. destruct (statusRefreshInFlight s); [done|]. cbn. left. split; [done|]. split; [done|].
  intros [v|e] s' _; cbn; [|destruct d; cbn]; repeat (left; split; [done|]); done.
Qed.

(** One step of the argument that a handler keeps the discipline of a lock. *)
Ltac lock_step :=
  first [ done
        | apply refreshSnapshot_locked | apply refreshStatus_locked
        | apply refreshSnapshot_leaves_status | apply refreshStatus_leaves_snapshot
        | apply locked_bind | apply locked_ignore_error | apply locked_await_fn
        | apply locked_finally | apply locked_try_catch | apply locked_modify | apply locked_call
        | intros ? | case_match ].

Lemma handler_locks (ev : desktop_event) (s : Desktop) :
  locked snapshotRefreshInFlight is_snapshot false (handler ev s) s
  /\ locked statusRefreshInFlight is_status false (handler ev s) s.
Proof.
  split; destruct ev as [| |a|v| | |v]; cbn [desktop_handler];
    unfold snapshot_timer, status_timer, runConnectionAction, saveConfig, checkUpdate, applyUpdate, showError;
    repeat lock_step.
Qed.

(** C1: However the timers, the buttons and the answers interleave, at most one [Snapshot]
    call and one [Status] call are in flight at a time; and a refresh that is marked as
    running is: some suspended function holds the mark and gives it back, so no refresh is
    ever locked out for good. *)
Theorem one_refresh_in_flight (y : dsys) :
  reachable desktop_enabled handler desktop_initial y ->
  (length (List.filter (awaits_guarded is_snapshot) (threads y)) <= Nat.b2n (snapshotRefreshInFlight (st y)))%nat
  /\ (length (List.filter (awaits_guarded is_status) (threads y)) <= Nat.b2n (statusRefreshInFlight (st y)))%nat
  /\ (snapshotRefreshInFlight (st y) = true ->
      exists t, t ∈ threads y /\ thread_locked snapshotRefreshInFlight is_snapshot true t)
  /\ (statusRefreshInFlight (st y) = true ->
      exists t, t ∈ threads y /\ thread_locked statusRefreshInFlight is_status true t).
Proof.
  intros Hy.
  assert (lock_inv snapshotRefreshInFlight is_snapshot y) as H1.
  { eapply lock_invariant; [|intros ev s; apply handler_locks|exact Hy]. done. }
  assert (lock_inv statusRefreshInFlight is_status y) as H2.
  { eapply lock_invariant; [|intros ev s; apply handler_locks|exact Hy]. done. }
  split; [by apply lock_inv_in_flight|]. split; [by apply lock_inv_in_flight|].
  split; by apply lock_inv_holder.
Qed.

(** *** What an action does *)

Lemma handler_safe (ev : desktop_event) (s : Desktop) : safe (handler ev s).
Proof.
  destruct ev as [| |a|v| | |v]; cbn [desktop_handler];
    unfold snapshot_timer, status_timer, runConnectionAction, saveConfig, checkUpdate, applyUpdate,
      showError, ignore_error, try_catch.
  - by apply safe_continue.
  - by apply safe_continue.
  - destruct (if is_connect a then _ else None) as [i|]; [done|].
    apply safe_bind; [done|intros _]. apply safe_finally; [|done].
    apply safe_continue; [done|]. intros e. destruct dev; [done|].
    apply safe_bind; [done|intros _]. apply safe_await_fn. by apply safe_continue.
  - apply safe_bind; [done|intros _]. apply safe_finally; [|done].
    apply safe_continue; [done|]. intros e. by case_match.
  - apply safe_bind; [done|intros _]. apply safe_finally; [|done].
    apply safe_continue; [done|]. intros e. by case_match.
  - apply safe_bind; [done|intros _]. by apply safe_continue.
  - done.
Qed.

(** The events that show a spinner on the connection and save buttons. *)
Definition shows_loading (ev : desktop_event) : bool :=
  match ev with Connection _ | Save _ => true | _ => false end.

(** No action of the desktop leaves an error unhandled: whatever the service answers,
    every handler ends normally - and a connection, a save or an update check leaves its
    button ready to be clicked again. *)
Theorem actions_settle (ev : desktop_event) (s0 s s' : Desktop) (tr : trace) (r : result thrown unit) :
  evaluates (handler ev s0) s tr r s' ->
  r = Ok tt
  /\ (match ev with
      | Connection DoConnect =>
        connectionConfigIssue ((fun d => whole (config d)) <$> snapshot s0) = None -> loading s' = false
      | Connection DoDisconnect | Save _ => loading s' = false
      | Check => updateLoading s' = false
      | _ => True
      end).
Proof.
  intros Hev. destruct (safe_evaluates _ _ _ _ _ (handler_safe ev s0) Hev) as [[] ->].
  split; [done|]. destruct ev as [| |[]|v| | |v]; try done; cbn [desktop_handler] in Hev.
  - intros Hi. unfold runConnectionAction in Hev. cbn [is_connect] in Hev. rewrite Hi in Hev.
    apply evaluates_modify_bind, evaluates_finally in Hev as (s1 & _ & ->). done.
  - apply evaluates_modify_bind, evaluates_finally in Hev as (s1 & _ & ->). done.
  - apply evaluates_modify_bind, evaluates_finally in Hev as (s1 & _ & ->). done.
  - apply evaluates_modify_bind, evaluates_finally in Hev as (s1 & _ & ->). done.
Qed.

(** C32: Connecting is guarded by the configuration on the page: with a field missing there
    is one warning and no call at all, and the user is taken to the section that has the
    field; with none missing the first thing done is the call to [Connect]. *)
Theorem connect_guarded (s0 s s' : Desktop) (tr : trace) (r : result thrown unit) :
  evaluates (runConnectionAction dev started_at preview_time s0 DoConnect) s tr r s' ->
  match connectionConfigIssue ((fun d => whole (config d)) <$> snapshot s0) with
  | Some i => tr = [Did (Message Warning (issue_message i))]
              /\ s' = setView (Settings (issue_section i)) s
  | None => exists answer tr', tr = Settled Connect answer :: tr'
  end.
Proof.
  unfold runConnectionAction. cbn [is_connect]. destruct (connectionConfigIssue _) as [i|].
  - intros (tr' & -> & -> & _ & ->). done.
  - intros (v & tr' & -> & _). by exists v, tr'.
Qed.

(** C38: A save asks the service to store the completed configuration, and does no more than
    that before the answer. When the service accepts, page and form show what it stored;
    in a production build a refused save leaves the page as it was and shows one error. *)
Theorem saveConfig_outcome (s0 s s' : Desktop) (values : PartialConfig) (tr : trace)
    (r : result thrown unit) :
  evaluates (saveConfig dev s0 values) s tr r s' ->
  exists answer notice,
    tr = [Settled (SaveConfig (completeConfigForSave (config <$> snapshot s0) values)) answer; Did notice]
    /\ match answer with
       | Ok next => snapshot s' = Some next /\ form s' = Some (config next)
       | Err e => dev = false ->
                  snapshot s' = snapshot s /\ form s' = form s
                  /\ notice = Message Failure (userErrorMessage e SaveAction)
       end.
Proof.
  intros (answer & tr' & -> & Hev). destruct answer as [next|e]; cbn in Hev.
  - destruct Hev as (tr2 & -> & -> & _ & ->). exists (Ok next). by eexists.
  - destruct dev eqn:Hdev; cbn in Hev; destruct Hev as (tr2 & -> & -> & _ & ->);
      exists (Err e); by eexists.
Qed.

(** The status refresh changes nothing but the status: in a production build it never
    invents a snapshot, and keeps configuration, tunnels, logs and the view on display. *)
Theorem refreshStatus_only_status (s s' : Desktop) (tr : trace) (r : result thrown unit) :
  dev = false ->
  evaluates (refreshStatus dev started_at preview_time) s tr r s' ->
  (snapshot s' = snapshot s \/ exists v, snapshot s' = with_status v <$> snapshot s)
  /\ view s' = view s /\ config <$> snapshot s' = config <$> snapshot s
  /\ current_tunnels s' = current_tunnels s /\ display s' = display s.
Proof.
  intros -> Hev. cbn in Hev.
  assert (snapshot s' = snapshot s \/ exists v, snapshot s' = with_status v <$> snapshot s) as Hs.
  { destruct (statusRefreshInFlight s); [destruct Hev as (_ & _ & ->); by left|].
    destruct Hev as (answer & tr' & _ & Hev). destruct answer as [v|e]; cbn in Hev;
      destruct Hev as (_ & _ & ->); [right; by exists v|by left]. }
  assert (view s' = view s) as Hview.
  { destruct (statusRefreshInFlight s); [by destruct Hev as (_ & _ & ->)|].
    destruct Hev as (answer & tr' & _ & Hev). destruct answer as [v|e]; cbn in Hev;
      by destruct Hev as (_ & _ & ->). }
  assert (current_tunnels s' = current_tunnels s) as Ht.
  { unfold current_tunnels. destruct Hs as [-> |[v ->]]; [done|]. by destruct (snapshot s). }
  split; [done|]. split; [done|]. split; [|split; [done|]].
  - destruct Hs as [-> |[v ->]]; [done|]. by destruct (snapshot s).
  - unfold display. by rewrite Hview, Ht.
Qed.

(** *** Spinners *)

Definition spinning (s : Desktop) : bool * bool := (loading s, updateLoading s).

Lemma refreshSnapshot_frame (d : bool) : preserves spinning (refreshSnapshot d started_at preview_time).
Proof.
  intros s. case_match; [done|]. cbn. split; [done|]. intros [v|e]; cbn; [auto|].
  destruct d; cbn; auto 8.
Qed.

Lemma refreshStatus_frame (d : bool) : preserves spinning (refreshStatus d started_at preview_time).
Proof.
  intros s. case_match; [done|]. cbn. split; [done|]. intros [v|e]; cbn; [auto|].
  destruct d; cbn; auto 8.
Qed.

Lemma frame_first (p : M unit) : preserves spinning p -> preserves loading p.
Proof. intros. by apply (preserves_proj spinning fst). Qed.

Lemma frame_second (p : M unit) : preserves spinning p -> preserves updateLoading p.
Proof. intros. by apply (preserves_proj spinning snd). Qed.

Lemma refreshSnapshot_spinning (flag : Desktop -> bool) (d : bool) :
  (exists f, flag = fun s => f (spinning s)) -> preserves flag (refreshSnapshot d started_at preview_time).
Proof. intros [f ->]. apply preserves_proj, refreshSnapshot_frame. Qed.

Lemma refreshStatus_spinning (flag : Desktop -> bool) (d : bool) :
  (exists f, flag = fun s => f (spinning s)) -> preserves flag (refreshStatus d started_at preview_time).
Proof. intros [f ->]. apply preserves_proj, refreshStatus_frame. Qed.

Lemma loading_spinning : exists f, loading = fun s => f (spinning s).
Proof. by exists fst. Qed.
Lemma updateLoading_spinning : exists f, updateLoading = fun s => f (spinning s).
Proof. by exists snd. Qed.

(** The part of a connection between the two changes of [loading]. *)
Lemma connection_frame (flag : Desktop -> bool) (p : M unit) (h : thrown -> M unit) :
  (exists f, flag = fun s => f (spinning s)) -> preserves flag p -> (forall e, preserves flag (h e)) ->
  preserves flag (try_catch (p ;;; await_fn (refreshSnapshot dev started_at preview_time)) h).
Proof.
  intros Hf Hp Hh. apply preserves_continue; [|done|done].
  apply preserves_bind; [done|intros _]. by apply preserves_await_fn, refreshSnapshot_spinning.
Qed.

Ltac frame_step :=
  first [ done
        | apply refreshSnapshot_spinning; first [apply loading_spinning | apply updateLoading_spinning]
        | apply refreshStatus_spinning; first [apply loading_spinning | apply updateLoading_spinning]
        | apply preserves_call
        | apply preserves_bind | apply preserves_await_fn | apply preserves_continue
        | apply preserves_modify | intros ? | case_match ].

Lemma handler_loading (ev : desktop_event) (s : Desktop) :
  match ev with Apply => True | _ => discharges loading false (handler ev s) end.
Proof.
  destruct ev as [| |a|v| | |v]; try done; cbn [desktop_handler];
    try (apply discharges_preserves; done).
  - apply discharges_preserves. unfold snapshot_timer, ignore_error, try_catch. repeat frame_step.
  - apply discharges_preserves. unfold status_timer, ignore_error, try_catch. repeat frame_step.
  - unfold runConnectionAction. destruct (if is_connect a then _ else None) as [i|]; [by apply discharges_preserves|].
    apply discharges_taken, discharges_finally; [|by apply discharges_paid].
    unfold showError, ignore_error, try_catch. repeat frame_step.
  - unfold saveConfig. apply discharges_taken, discharges_finally; [|by apply discharges_paid].
    unfold showError, try_catch. repeat frame_step.
  - apply discharges_preserves. unfold checkUpdate, showError, finally, try_catch. repeat frame_step.
Qed.

Lemma handler_updateLoading (ev : desktop_event) (s : Desktop) :
  discharges updateLoading false (handler ev s).
Proof.
  destruct ev as [| |a|v| | |v]; try done; cbn [desktop_handler];
    try (apply discharges_preserves; done).
  - apply discharges_preserves. unfold snapshot_timer, ignore_error, try_catch. repeat frame_step.
  - apply discharges_preserves. unfold status_timer, ignore_error, try_catch. repeat frame_step.
  - unfold runConnectionAction. destruct (if is_connect a then _ else None) as [i|]; [by apply discharges_preserves|].
    apply discharges_preserves. unfold showError, finally, ignore_error, try_catch. repeat frame_step.
  - apply discharges_preserves. unfold saveConfig, showError, finally, try_catch. repeat frame_step.
  - unfold checkUpdate. apply discharges_taken, discharges_finally; [|by apply discharges_paid].
    unfold showError, try_catch. repeat frame_step.
  - apply discharges_preserves. unfold applyUpdate, showError, try_catch. repeat frame_step.
Qed.

End Properties.

(** ** Executions *)

Section Executions.
Local Abbreviation trace := (list (happening service_call effect thrown service_result)).
Local Abbreviation handler := (desktop_handler false [] (fun _ => [])).

(** A service that refuses everything. *)
Definition refusing (c : service_call) : result thrown (service_result c) :=
  Err (TError (js "dial tcp: connection refused")).

Definition refused_run (p : prog Desktop service_call effect thrown service_result unit) :
  trace * result thrown unit * Desktop := play refusing p desktop_initial.

Lemma refused_run_evaluates (p : prog Desktop service_call effect thrown service_result unit) :
  evaluates p desktop_initial (fst (fst (refused_run p))) (snd (fst (refused_run p))) (snd (refused_run p)).
Proof. apply (play_evaluates refusing). unfold refused_run. by destruct (play _ _ _) as [[? ?] ?]. Qed.

Lemma actions_settle_witness :
  updateLoading (snd (refused_run (handler Check desktop_initial))) = false.
Proof.
  refine (proj2 (actions_settle false [] (fun _ => []) Check desktop_initial _ _ _ _
    (refused_run_evaluates (handler Check desktop_initial)))).
Defined.

Lemma connect_guarded_witness :
  view (snd (refused_run (handler (Connection DoConnect) desktop_initial))) = Settings Network.
Proof.
  refine (f_equal view (proj2 (connect_guarded false [] (fun _ => []) desktop_initial _ _ _ _
    (refused_run_evaluates (handler (Connection DoConnect) desktop_initial))))).
Defined.

Lemma saveConfig_outcome_witness :
  exists answer notice,
    fst (fst (refused_run (saveConfig false desktop_initial (whole emptyConfig))))
    = [Settled (SaveConfig (completeConfigForSave None (whole emptyConfig))) answer; Did notice].
Proof.
  destruct (saveConfig_outcome false desktop_initial _ _ _ _ _
    (refused_run_evaluates (saveConfig false desktop_initial (whole emptyConfig)))) as (a & n & H & _).
  by exists a, n.
Defined.

Lemma refreshStatus_only_status_witness :
  view (snd (refused_run (refreshStatus false [] (fun _ => [])))) = Home.
Proof.
  refine (proj1 (proj2 (refreshStatus_only_status false [] (fun _ => []) desktop_initial _ _ _ eq_refl
    (refused_run_evaluates (refreshStatus false [] (fun _ => [])))))).
Defined.

(** The page after the first tick of its timer. *)
Definition ticked : sys Desktop service_call effect thrown service_result :=
  spawn (handler SnapshotTimer desktop_initial) (initial desktop_initial).

Lemma ticked_reachable : reachable desktop_enabled handler desktop_initial ticked.
Proof.
  by apply (reachable_event desktop_enabled handler (initial desktop_initial) (initial desktop_initial)
              SnapshotTimer (rtc_refl _ _)).
Qed.

Lemma one_refresh_in_flight_witness :
  exists t, t ∈ threads ticked /\ thread_locked snapshotRefreshInFlight is_snapshot true t.
Proof.
  refine (proj1 (proj2 (proj2 (one_refresh_in_flight false [] (fun _ => []) ticked ticked_reachable))) _).
  by_evaluation.
Defined.

Definition checking : sys Desktop service_call effect thrown service_result :=
  spawn (handler Check desktop_initial) (initial desktop_initial).

End Executions.
