(* ===== verification/DesktopBinding.v ===== *)
(** The desktop's calls to its service as the generated binding makes them:
    desktop/frontend/bindings/github.com/nrytex/nrynet/desktop/desktopservice.ts. *)

From S2P Require Import Prelude JsString Json JsErrors DesktopTypes UserFeedback DesktopApp.

(** [$Call.ByID(id, ...args)] *)
Record remote_call := ByID { method_id : Z; arguments : list json }.

(** The members of [AppConfigPatch]; [None] is [null]. *)
Record AppConfigPatch := {
  patch_serverUrl : option jsstr; patch_dataAddress : option jsstr; patch_transport : option jsstr;
  patch_quicAddress : option jsstr; patch_caFile : option jsstr; patch_token : option jsstr;
  patch_name : option jsstr; patch_deviceId : option jsstr; patch_insecureSkipVerify : option bool;
  patch_autoStart : option bool
}.

Definition or_null {A} (f : A -> json) (v : option A) : json := match v with Some a => f a | None => JNull end.

Definition patch_value (p : AppConfigPatch) : json :=
  let text k v := (k, or_null JStr v) in
  JObj [text (js "serverUrl") (patch_serverUrl p); text (js "dataAddress") (patch_dataAddress p);
        text (js "transport") (patch_transport p); text (js "quicAddress") (patch_quicAddress p);
        text (js "caFile") (patch_caFile p); text (js "token") (patch_token p); text (js "name") (patch_name p);
        text (js "deviceId") (patch_deviceId p);
        (js "insecureSkipVerify", or_null JBool (patch_insecureSkipVerify p));
        (js "autoStart", or_null JBool (patch_autoStart p))].

(** ** The methods *)

Module DesktopService.
Definition ApplyUpdate : remote_call := ByID 1098725114 [].
Definition CheckForUpdate : remote_call := ByID 1073638667 [].
Definition Connect : remote_call := ByID 761302137 [].
Definition Disconnect : remote_call := ByID 3778713963 [].
Definition HideWindow : remote_call := ByID 2947540501 [].
Definition OpenURL (url : jsstr) : remote_call := ByID 3613445466 [JStr url].
Definition Quit : remote_call := ByID 1821349302 [].
Definition SaveConfig (patch : AppConfigPatch) : remote_call := ByID 2379168358 [patch_value patch].
Definition ShowWindow : remote_call := ByID 872464160 [].
Definition Snapshot : remote_call := ByID 431882765 [].
Definition Status : remote_call := ByID 3733088879 [].
End DesktopService.

(** A configuration passed where a patch is wanted: every member is there. *)
Definition as_patch (c : AppConfig) : AppConfigPatch :=
  {| patch_serverUrl := Some (serverUrl c); patch_dataAddress := Some (dataAddress c);
     patch_transport := Some (transport c); patch_quicAddress := Some (quicAddress c);
     patch_caFile := Some (caFile c); patch_token := Some (token c); patch_name := Some (name c);
     patch_deviceId := Some (deviceId c); patch_insecureSkipVerify := Some (insecureSkipVerify c);
     patch_autoStart := Some (autoStart c) |}.

(** The calls of App.tsx. *)
Definition remote (c : service_call) : remote_call :=
  match c with
  | Snapshot => DesktopService.Snapshot
  | Status => DesktopService.Status
  | Connect => DesktopService.Connect
  | Disconnect => DesktopService.Disconnect
  | SaveConfig c => DesktopService.SaveConfig (as_patch c)
  | CheckForUpdate => DesktopService.CheckForUpdate
  | ApplyUpdate => DesktopService.ApplyUpdate
  end.

(** ** Reading a call back *)

Definition member_text (l : list (jsstr * json)) (k : jsstr) : option (option jsstr) :=
  match obj_get k l with Some (JStr s) => Some (Some s) | Some JNull => Some None | _ => None end.
Definition member_flag (l : list (jsstr * json)) (k : jsstr) : option (option bool) :=
  match obj_get k l with Some (JBool b) => Some (Some b) | Some JNull => Some None | _ => None end.

(** The patch an argument is, all its members there. *)
Definition read_patch (v : json) : option AppConfigPatch :=
  match v with
  | JObj l =>
    s ← member_text l (js "serverUrl"); d ← member_text l (js "dataAddress"); t ← member_text l (js "transport");
    q ← member_text l (js "quicAddress"); f ← member_text l (js "caFile"); k ← member_text l (js "token");
    n ← member_text l (js "name"); i ← member_text l (js "deviceId");
    v ← member_flag l (js "insecureSkipVerify"); a ← member_flag l (js "autoStart");
    Some {| patch_serverUrl := s; patch_dataAddress := d; patch_transport := t; patch_quicAddress := q;
            patch_caFile := f; patch_token := k; patch_name := n; patch_deviceId := i;
            patch_insecureSkipVerify := v; patch_autoStart := a |}
  | _ => None
  end.

(** Every method, with what it is called with. *)
Inductive method :=
| MApplyUpdate | MCheckForUpdate | MConnect | MDisconnect | MHideWindow | MOpenURL (url : jsstr) | MQuit
| MSaveConfig (patch : AppConfigPatch) | MShowWindow | MSnapshot | MStatus.

Definition method_call (m : method) : remote_call :=
  match m with
  | MApplyUpdate => DesktopService.ApplyUpdate
  | MCheckForUpdate => DesktopService.CheckForUpdate
  | MConnect => DesktopService.Connect
  | MDisconnect => DesktopService.Disconnect
  | MHideWindow => DesktopService.HideWindow
  | MOpenURL url => DesktopService.OpenURL url
  | MQuit => DesktopService.Quit
  | MSaveConfig patch => DesktopService.SaveConfig patch
  | MShowWindow => DesktopService.ShowWindow
  | MSnapshot => DesktopService.Snapshot
  | MStatus => DesktopService.Status
  end.

(** The methods by their numbers, each with the reading of its arguments. *)
Definition read_none (m : method) (l : list json) : option method := match l with [] => Some m | _ => None end.

Definition readers : list (Z * (list json -> option method)) :=
  [(1098725114%Z, read_none MApplyUpdate); (1073638667%Z, read_none MCheckForUpdate);
   (761302137%Z, read_none MConnect); (3778713963%Z, read_none MDisconnect); (2947540501%Z, read_none MHideWindow);
   (3613445466%Z, fun l => match l with [JStr url] => Some (MOpenURL url) | _ => None end);
   (1821349302%Z, read_none MQuit);
   (2379168358%Z, fun l => match l with [v] => MSaveConfig <$> read_patch v | _ => None end);
   (872464160%Z, read_none MShowWindow); (431882765%Z, read_none MSnapshot); (3733088879%Z, read_none MStatus)].

Definition read_call (c : remote_call) : option method :=
  r ← List.find (fun r => Z.eqb (fst r) (method_id c)) readers; snd r (arguments c).

(** ** Properties *)

(** Which method a call of the page is. *)
Definition page_method (c : service_call) : method :=
  match c with
  | Snapshot => MSnapshot
  | Status => MStatus
  | Connect => MConnect
  | Disconnect => MDisconnect
  | SaveConfig c => MSaveConfig (as_patch c)
  | CheckForUpdate => MCheckForUpdate
  | ApplyUpdate => MApplyUpdate
  end.

Lemma obj_get_tail (k k' : jsstr) (v : json) (l : list (jsstr * json)) :
  str_eqb k' k = false -> obj_get k ((k', v) :: l) = obj_get k l.
Proof. intros Hk. unfold obj_get. cbn [List.find fst]. by rewrite Hk. Qed.

Lemma patch_read_back (p : AppConfigPatch) : read_patch (patch_value p) = Some p.
Proof.
  unfold read_patch, patch_value, member_text, member_flag.
  repeat first [rewrite obj_get_head | rewrite obj_get_tail by by_evaluation].
  destruct p as [[] [] [] [] [] [] [] [] [] []]; done.
Qed.

Lemma call_read_back (m : method) : read_call (method_call m) = Some m.
Proof.
  destruct m; try by_evaluation.
  change (MSaveConfig <$> read_patch (patch_value patch) = Some (MSaveConfig patch)). by rewrite patch_read_back.
Qed.

