(* ===== verification/DesktopViews.v ===== *)
(** What the desktop client displays, and the events it offers:
    desktop/frontend/src/HomeView.tsx, TunnelDetailView.tsx, SettingsView.tsx and the rendering
    half of App.tsx. Decorative attributes (icons, sizes, placeholders of fields) are left out. *)

From S2P Require Import Prelude JsString JsNumber Json View JsErrors WebPlatform Async DesktopTypes DesktopFormat UserFeedback TunnelEndpoint TrafficHistory DesktopApp.

#[export] Instance SettingsSection_eq_dec : EqDecision SettingsSection.
Proof. solve_decision. Defined.

Definition count_text (n : nat) : jsstr := int_to_string (Z.of_nat n).

Local Abbreviation class_attr c := (Named (js "className") c) (only parsing).
Local Abbreviation aria l := (Named (js "aria-label") l) (only parsing).

(** [tunnelPaths[id]] *)
Definition path_of (paths : option (list (jsstr * jsstr))) (i : jsstr) : option jsstr :=
  snd <$> (paths ≫= js_find (fun p => str_eqb (fst p) i)).

(** [new Date(text).toLocaleString()] *)
Definition date_text `{Dates} (text : jsstr) : jsstr :=
  match parse_date text with Some t => toLocaleString None t | None => js "Invalid Date" end.

(** ** HomeView *)

(** [HomeViewProps]: an event in place of each callback. *)
Record HomeViewProps (E : Type) := {
  home_snapshot : option DesktopSnapshot; home_loading : bool; home_update : option UpdateResult;
  onApplyUpdate : E; onConnect : E; onDisconnect : E; onSettings : SettingsSection -> E;
  onTunnel : jsstr -> E; home_serverUrl : jsstr
}.
Arguments home_snapshot {E} h.
Arguments home_loading {E} h.
Arguments home_update {E} h.
Arguments onApplyUpdate {E} h.
Arguments onConnect {E} h.
Arguments onDisconnect {E} h.
Arguments onSettings {E} h section.
Arguments onTunnel {E} h tunnelId.
Arguments home_serverUrl {E} h.

Section Views.
Context `{Dates} `{UrlApi} {E : Type}.
Local Abbreviation node := (element E).

Definition status_dot (on : bool) : node :=
  classed Tag.span (js "status-dot " ++ if on then js "online" else js "offline") [].

Definition Brand : node :=
  classed Tag.div (js "brand-lockup")
    [classed Tag.span (js "brand-mark") [el Tag.img []];
     classed Tag.span (js "brand-text") [el Tag.strong [Text (js "Nrynet")]; el Tag.small [Text (js "私有网络隧道")]]].

Definition Metric (metric_label value : jsstr) (tone : option jsstr) (compact : bool) : node :=
  classed Tag.div (js "metric-item " ++ js_nullish tone (js ""))
    [el Tag.span [Text metric_label];
     classed Tag.strong (if compact then js "compact" else js "") [Text value]].

Definition TrafficSparkline : node :=
  El Tag.canvas [class_attr (js "sparkline"); aria (js "实时上传流量趋势")] [] [].
Definition TrafficTrend : node :=
  El Tag.canvas [class_attr (js "traffic-chart"); aria (js "实时上传和下载流量趋势")] [] [].

(** The button that copies an address, with its tooltip. *)
Definition copy_title (e : TunnelEndpoint) : jsstr :=
  if truthy (copyValue e) then js "复制访问地址" else js "请检查服务器公开地址配置".

Definition TunnelRow (tunnel : Tunnel) (path : option jsstr) (publicHost server : jsstr)
    (onOpen : E) (copy : TunnelEndpoint -> E) : node :=
  let endpoint := resolveTunnelEndpoint tunnel publicHost server in
  El Tag.div [Key (id tunnel); class_attr (js "tunnel-row")] []
    [status_dot (str_eqb (tunnel_status tunnel) (js "running"));
     El Tag.button [class_attr (js "tunnel-open")] [(onClick, always (onOpen))]
       [classed Tag.span (js "tunnel-name")
          [el Tag.strong [Text (tunnel_name tunnel)]; el Tag.small [Text (label endpoint)]]];
     classed Tag.span (js "protocol-badge") [Text (toUpperCase (protocol tunnel))];
     classed Tag.span (js "path-badge " ++ pathClass path) [Text (pathLabel path)];
     El Tag.Tooltip [Named (js "title") (copy_title endpoint)] []
       [Button [aria (js "复制访问地址"); Disabled (negb (truthy (copyValue endpoint)))] (copy endpoint) []]].

(** [history] is what the hook useTrafficHistory holds, [clock] the time useElapsedTime last
    read. *)
Definition HomeView (props : HomeViewProps E) (copy : TunnelEndpoint -> E) (history : History) (clock : Z) : node :=
  let st := status <$> home_snapshot props in
  let cfg := config <$> home_snapshot props in
  let list := js_nullish (home_snapshot props ≫= tunnels) [] in
  let is_connected := match st with Some s => connected s | None => false end in
  let connectionDuration := formatElapsedTime (st ≫= lastStartedAt) is_connected clock in
  let publicHost := tunnelPublicHost cfg in
  let paths := home_snapshot props ≫= tunnelPaths in
  El Tag.main [class_attr (js "desktop-frame home-view")] []
    ([El Tag.header [class_attr (js "brand-header")] []
        [Brand;
         classed Tag.div (js "header-status " ++ if is_connected then js "connected" else js "offline")
           [status_dot is_connected; el Tag.span [Text (if is_connected then js "已连接" else js "未连接")]];
         classed Tag.div (js "header-actions")
           [El Tag.Tooltip [Named (js "title") (js "运行日志")] []
              [Button [aria (js "运行日志")] (onSettings props Logs) [el Tag.span [Text (js "日志")]]];
            El Tag.Tooltip [Named (js "title") (js "设置")] []
              [Button [aria (js "设置")] (onSettings props General) [el Tag.span [Text (js "设置")]]]]]]
     ++ match home_update props with
        | None => []
        | Some notice =>
          [classed Tag.div (js "update-banner")
             ([classed Tag.div (js "update-banner-text")
                 [el Tag.strong [Text (js "发现新版本 "); Text (latestVersion notice)];
                  el Tag.span [Text (update_message notice)]]]
              ++ when (str_eqb (downloadState notice) (js "downloading"))
                   (classed Tag.span (js "update-progress") [Text (js "正在下载")])
              ++ when (ready notice) (Button [] (onApplyUpdate props) [Text (js "立即重启更新")]))]
        end
     ++ [classed Tag.section (js "connection-panel")
           ([classed Tag.div (js "connection-heading")
               [classed Tag.div (js "connection-state")
                  [status_dot is_connected;
                   el Tag.strong [Text (if is_connected then js "已连接" else js "未连接")];
                   classed Tag.span (js "secondary") [Text (js "连接时长 "); Text connectionDuration]];
                Button [class_attr (js "connection-button"); Loading (home_loading props)]
                  (if is_connected then onDisconnect props else onConnect props)
                  [Text (if is_connected then js "断开连接" else js "立即连接")]]]
            ++ when_some (connectionStatusMessage st)
                 (fun statusMessage => classed Tag.div (js "connection-feedback") [el Tag.span [Text statusMessage]])
            ++ [classed Tag.div (js "metric-strip")
                  [Metric (js "隧道数") (count_text (length list)) None false;
                   Metric (js "上传速率") (formatRate (rate_upload history)) (Some (js "green")) false;
                   Metric (js "下载速率") (formatRate (rate_download history)) (Some (js "blue")) false;
                   Metric (js "累计流量")
                     (formatBytes (js_nullish (uploadBytes <$> st) 0 + js_nullish (downloadBytes <$> st) 0)%Z)
                     None true];
                TrafficSparkline]);
         classed Tag.section (js "tunnel-section")
           [classed Tag.div (js "section-heading")
              [el Tag.div [el Tag.Title [Text (js "我的隧道")];
                           el Tag.span [Text (count_text (length list)); Text (js " 条已分配")]];
               El Tag.Tooltip [Named (js "title") (js "隧道由服务端管理员分配")] []
                 [El Tag.Button [aria (js "隧道分配说明")] [] []]];
            if (length list =? 0)%nat
            then El Tag.Empty [Named (js "description") (js "暂无已分配隧道")] [] []
            else classed Tag.div (js "tunnel-list")
                   (map (fun tunnel => TunnelRow tunnel (path_of paths (id tunnel)) publicHost (home_serverUrl props)
                                         (onTunnel props (id tunnel)) copy) list)];
         classed Tag.footer (js "home-footer")
           [classed Tag.div (js "footer-control")
              [el Tag.span [Text (js "开机启动")];
               El Tag.Switch [Checked (match cfg with Some c => autoStart c | None => false end)]
                 [(onChange, always (onSettings props General))] []];
            El Tag.button [class_attr (js "footer-link")] [(onClick, always (onSettings props Network))]
              [Text (if bool_decide ((transport <$> cfg) = Some (js "quic")) then js "QUIC" else js "WebSocket");
               Text (js " "); el Tag.span [Text (js "·")]; Text (js " ");
               Text (serverName (serverUrl <$> cfg))]]]).

(** ** TunnelDetailView *)

Definition DetailCell (cell_label value : jsstr) (badge accent : bool) (path : option jsstr) : node :=
  classed Tag.div (js "detail-cell")
    [el Tag.span [Text cell_label];
     classed Tag.strong ((if badge then js "protocol-value" else js "") ++ js " "
                         ++ (if accent then js "accent" else js "") ++ js " " ++ detailPathClass path)
       [Text value]].

Definition TrafficPanel : node :=
  classed Tag.section (js "trend-section")
    [classed Tag.div (js "trend-heading")
       [el Tag.strong [Text (js "流量趋势（实时）")];
        el Tag.span [classed Tag.em (js "legend upload") []; Text (js "上传（KB/s）");
                     classed Tag.em (js "legend download") []; Text (js "下载（KB/s）")]];
     TrafficTrend].

Definition local_target (tunnel : Tunnel) : jsstr :=
  local_host tunnel ++ js ":" ++ int_to_string (local_port tunnel).

Definition TunnelConfig (tunnel : Tunnel) : node :=
  classed Tag.div (js "config-readonly")
    [DetailCell (js "协议") (toUpperCase (protocol tunnel)) false false None;
     DetailCell (js "本地目标") (local_target tunnel) false false None;
     DetailCell (js "远程端口")
       (if truthy (remote_port tunnel) then int_to_string (remote_port tunnel) else js "-") false false None;
     DetailCell (js "域名") (js_or (domain tunnel) (js "-")) false false None;
     DetailCell (js "IP 白名单") (js_or_def (join (js ", ") <$> ip_allowlist tunnel) (js "允许全部"))
       false false None].

Definition is_up (status : option RuntimeStatus) : bool :=
  match status with Some s => connected s | None => false end.

Definition Overview (tunnel : Tunnel) (status : option RuntimeStatus) (path : option jsstr) (address : jsstr)
    (clock : Z) : list node :=
  [classed Tag.div (js "detail-grid")
     [DetailCell (js "本地地址") (local_target tunnel) false false None;
      DetailCell (js "隧道类型") (toUpperCase (protocol tunnel)) true false None;
      DetailCell (js "当前路径") (detailPathLabel path) true false path;
      DetailCell (js "创建时间") (date_text (created_at tunnel)) false false None;
      DetailCell (js "连接状态") (if is_up status then js "连接中" else js "已断开") false (is_up status) None;
      DetailCell (js "访问地址") address false false None;
      DetailCell (js "运行时长") (formatElapsedTime (status ≫= lastStartedAt) (is_up status) clock)
        false false None];
   TrafficPanel].

Definition TunnelDetailView (tunnel : Tunnel) (status : option RuntimeStatus) (path : option jsstr)
    (publicHost server : jsstr) (onBack : E) (copyEndpoint : TunnelEndpoint -> E) (clock : Z) : node :=
  let endpoint := resolveTunnelEndpoint tunnel publicHost server in
  let running := str_eqb (tunnel_status tunnel) (js "running") in
  let no_copy := Disabled (negb (truthy (copyValue endpoint))) in
  El Tag.main [class_attr (js "desktop-frame detail-view")] []
    [classed Tag.header (js "view-header")
       [Button [] onBack [Text (js "返回")];
        el Tag.strong [Text (js "隧道详情")];
        El Tag.Tooltip [Named (js "title") (copy_title endpoint)] []
          [Button [aria (js "更多操作"); no_copy] (copyEndpoint endpoint) []]];
     classed Tag.section (js "detail-summary")
       [classed Tag.div (js "detail-title-row")
          [el Tag.div [status_dot running; el Tag.Title [Text (tunnel_name tunnel)]];
           classed Tag.span (js "state-pill " ++ if running then js "running" else js "")
             [Text (statusLabel (tunnel_status tunnel))]];
        classed Tag.div (js "endpoint-row")
          [el Tag.span [Text (label endpoint)];
           Button [aria (js "复制访问地址"); no_copy] (copyEndpoint endpoint) []]];
     classed Tag.Tabs (js "detail-tabs")
       [El Tag.Tab [Key (js "overview"); Named (js "label") (js "概览")] []
          (Overview tunnel status path (label endpoint) clock);
        El Tag.Tab [Key (js "traffic"); Named (js "label") (js "流量统计")] [] [TrafficPanel];
        El Tag.Tab [Key (js "config"); Named (js "label") (js "配置")] [] [TunnelConfig tunnel]]].

(** ** SettingsView *)

Definition NavItem (item_label : jsstr) (active : bool) (click : E) : node :=
  El Tag.button [class_attr (js "settings-nav-item " ++ if active then js "active" else js "")]
    [(onClick, always (click))] [el Tag.span [Text item_label]].

(** A field of the form, registered under [name]; what it displays is in the form, not in
    the tree. *)
Definition FormItem (attrs : list attr) (name : jsstr) (input : node) : node :=
  El Tag.FormItem (Named (js "name") name :: attrs) [] [input].
Definition labelled (text : jsstr) : list attr := [Named (js "label") text].

Definition SwitchRow (title detail name : jsstr) : node :=
  classed Tag.div (js "switch-row")
    [el Tag.div [el Tag.strong [Text title]; el Tag.span [Text detail]];
     FormItem [] name (el Tag.Switch [])].

Definition GeneralPanel : node :=
  classed Tag.div (js "settings-group")
    [SwitchRow (js "开机启动") (js "系统启动时自动运行 Nrynet") (js "autoStart");
     classed Tag.div (js "switch-row")
       [el Tag.div [el Tag.strong [Text (js "自动更新")]; el Tag.span [Text (js "后台自动检查并下载，重启后完成更新")]];
        El Tag.Switch [Checked true; Disabled true] [] []]].

Definition NetworkPanel : node :=
  classed Tag.div (js "settings-group")
    [FormItem (labelled (js "控制服务器")) (js "serverUrl") (el Tag.Input []);
     FormItem (labelled (js "数据通道")) (js "dataAddress") (el Tag.Input []);
     FormItem (labelled (js "传输协议")) (js "transport")
       (el Tag.Select [El Tag.Option [Key (js "websocket")] [] [Text (js "WebSocket")];
                       El Tag.Option [Key (js "quic")] [] [Text (js "QUIC")]]);
     FormItem (labelled (js "QUIC 地址")) (js "quicAddress") (el Tag.Input [])].

Definition ConnectionPanel : node :=
  classed Tag.div (js "settings-group")
    [FormItem (labelled (js "设备名称")) (js "name") (el Tag.Input []);
     FormItem (labelled (js "设备 ID")) (js "deviceId") (el Tag.Input []);
     FormItem (labelled (js "Agent Token")) (js "token") (el Tag.Password [])].

Definition LogsPanel (logs : list LogEntry) : list node :=
  [el Tag.Title [Text (js "运行日志")];
   classed Tag.div (js "logs-summary")
     [el Tag.span [Text (js "最近 "); Text (count_text (length logs)); Text (js " 条")];
      el Tag.span [Text (js "日志中的 Token 已自动脱敏")]];
   El Tag.List [class_attr (js "settings-logs"); Named (js "emptyText") (js "暂无运行日志")] []
     (map (fun entry => el Tag.Item
             [classed Tag.span (js "log-level " ++ toLowerCase (entry_level entry)) [Text (entry_level entry)];
              el Tag.code [Text (logLine entry)]]) (rev logs))].

Definition AboutPanel (status : option RuntimeStatus) (update : option UpdateResult) (updateLoading : bool)
    (onCheckUpdate onApplyUpdate : E) : list node :=
  [el Tag.Title [Text (js "关于 Nrynet")];
   classed Tag.div (js "about-lockup")
     [el Tag.img []; el Tag.div [el Tag.strong [Text (js "Nrynet")];
                                 el Tag.span [Text (js "安全、稳定的私有网络隧道客户端")]]];
   classed Tag.div (js "settings-group about-details")
     [el Tag.div [el Tag.span [Text (js "当前版本")];
                  el Tag.strong [Text (js_nullish (version <$> status) (js "1.0.0"))]];
      el Tag.div [el Tag.span [Text (js "连接状态")];
                  el Tag.strong [Text (if is_up status then js "已连接" else js "未连接")]];
      el Tag.div [el Tag.span [Text (js "上次启动")];
                  el Tag.strong [Text (formatTime (status ≫= lastStartedAt))]]];
   classed Tag.div (js "about-update-actions")
     (Button [Loading updateLoading] onCheckUpdate [Text (js "检查更新")]
      :: when (match update with Some u => ready u | None => false end)
           (Button [] onApplyUpdate [Text (js "立即重启更新")]))].

(** [section] is the component's own state; [config] and the touched fields only matter to
    the form. *)
Definition SettingsView (section : SettingsSection) (status : option RuntimeStatus) (logs : list LogEntry)
    (loading : bool) (update : option UpdateResult) (updateLoading : bool) (onBack : E) (onSave : PartialConfig -> E)
    (onCheckUpdate onApplyUpdate : E) (setSection : SettingsSection -> E) : node :=
  let item label target :=
    NavItem label (bool_decide (section = target)) (setSection target) in
  El Tag.main [class_attr (js "desktop-frame settings-view")] []
    [classed Tag.header (js "view-header")
       [Button [] onBack [Text (js "返回")]; el Tag.strong [Text (js "设置")];
        classed Tag.span (js "header-spacer") []];
     classed Tag.div (js "settings-layout")
       [classed Tag.nav (js "settings-nav")
          [item (js "常规设置") General; item (js "网络设置") Network; item (js "连接设置") DesktopTypes.Connection;
           item (js "运行日志") Logs; item (js "关于 Nrynet") About];
        classed Tag.section (js "settings-content")
          match section with
          | Logs => LogsPanel logs
          | About => AboutPanel status update updateLoading onCheckUpdate onApplyUpdate
          | _ =>
            [El Tag.Form [] [(onFinish, Handler onSave)]
               ([el Tag.Title [Text (sectionTitle section)]]
                ++ when (bool_decide (section = General)) GeneralPanel
                ++ when (bool_decide (section = Network)) NetworkPanel
                ++ when (bool_decide (section = DesktopTypes.Connection)) ConnectionPanel
                ++ [classed Tag.div (js "settings-save")
                      [El Tag.Button [Submit; Loading loading] [] [Text (js "保存设置")]]])]
          end]].
End Views.

(** ** The application *)

(** What the user can cause: an event of the page, a change of the settings section on
    display, a copy of an address. *)
Inductive ui_event :=
| Page (ev : desktop_event)
| SetSection (section : SettingsSection)
| Copy (endpoint : TunnelEndpoint).

Local Abbreviation navigate v := (Page (Navigate v)).

(** The page of a state; [section] is the state of the settings view, [history] and [clock]
    those of the hooks of the view on display. *)
Definition render `{Dates} `{UrlApi} (section : SettingsSection) (history : History) (clock : Z) (s : Desktop)
    : element ui_event :=
  let cfg := js_nullish (config <$> snapshot s) emptyConfig in
  let st := status <$> snapshot s in
  match display s with
  | SettingsScreen _ =>
    SettingsView section st (js_nullish (snapshot s ≫= logs) []) (loading s) (snapshot s ≫= update)
      (updateLoading s) (navigate Home) (fun values => Page (Save values)) (Page Check) (Page Apply) SetSection
  | TunnelScreen tunnel =>
    TunnelDetailView tunnel st (path_of (snapshot s ≫= tunnelPaths) (id tunnel)) (tunnelPublicHost (Some cfg))
      (serverUrl cfg) (navigate Home) Copy clock
  | HomeScreen =>
    HomeView {| home_snapshot := snapshot s; home_loading := loading s; home_update := snapshot s ≫= update;
                onApplyUpdate := Page Apply; onConnect := Page (Connection DoConnect);
                onDisconnect := Page (Connection DoDisconnect);
                onSettings := fun section => navigate (Settings section);
                onTunnel := fun tunnelId => navigate (TunnelView tunnelId);
                home_serverUrl := serverUrl cfg |}
      Copy history clock
  end.

(** The settings view is mounted when it comes on display, and then shows the section the
    view names; while it stays, only its own buttons change the section. *)
Definition next_section (before after : screen) (section : SettingsSection) : SettingsSection :=
  match before, after with
  | SettingsScreen _, _ => section
  | _, SettingsScreen initialSection => initialSection
  | _, _ => section
  end.

(** *** Copying an address *)

Inductive clipboard_call := WriteText (text : jsstr).
Definition clipboard_result (_ : clipboard_call) : Type := unit.

Definition copy (e : TunnelEndpoint) : prog unit clipboard_call effect thrown clipboard_result unit :=
  if negb (truthy (copyValue e)) then skip
  else (let* _ := call (WriteText (js_nullish (copyValue e) (js ""))) in
        say (Message Success (js "访问地址已复制")))%prog.

(** ** Properties *)

(** *** The events of each view *)

Section ViewEvents.
Context `{Dates} `{UrlApi} {E : Type}.

Definition can_copy (e : TunnelEndpoint) : bool := truthy (copyValue e).

Lemma TunnelRow_events (t : Tunnel) (path : option jsstr) (h server : jsstr) (onOpen : E) copy :
  let e := resolveTunnelEndpoint t h server in
  events (TunnelRow t path h server onOpen copy : element E)
  = (always (onOpen)) :: when (can_copy e) (always (copy e)).
Proof. unfold TunnelRow, status_dot. compute_events. unfold can_copy. by destruct (truthy _). Qed.

(** The events of the rows, top to bottom. *)
Definition row_events (open : jsstr -> E) (copy : TunnelEndpoint -> E) (address : Tunnel -> TunnelEndpoint)
    (l : list Tunnel) : list (handler E) :=
  flat_map (fun t => (always (open (id t))) :: when (can_copy (address t)) (always (copy (address t)))) l.

Lemma HomeView_events (props : HomeViewProps E) copy history clock :
  let address t := resolveTunnelEndpoint t (tunnelPublicHost (config <$> home_snapshot props)) (home_serverUrl props) in
  events (HomeView props copy history clock : element E)
  = [(always (onSettings props Logs)); (always (onSettings props General))]
    ++ match home_update props with Some n => when (ready n) (always (onApplyUpdate props)) | None => [] end
    ++ when (negb (home_loading props))
         (always (if is_up (status <$> home_snapshot props) then onDisconnect props else onConnect props))
    ++ row_events (onTunnel props) copy address (js_nullish (home_snapshot props ≫= tunnels) [])
    ++ [(always (onSettings props General)); (always (onSettings props Network))].
Proof.
  intros address. unfold HomeView, Brand, Metric, status_dot, TrafficSparkline.
  set (list := js_nullish (home_snapshot props ≫= tunnels) []).
  match goal with |- context[if (length list =? 0)%nat then ?a else ?b] =>
    set (listing := if (length list =? 0)%nat then a else b) end.
  assert (events listing = row_events (onTunnel props) copy address list) as Hrows.
  { unfold listing, row_events, address. destruct list as [|t l]; [done|]. cbn [length Nat.eqb].
    compute_events. rewrite TunnelRow_events. cbn [List.app]. f_equal. f_equal.
    apply flat_map_ext. intros u. by rewrite TunnelRow_events. }
  destruct (home_update props) as [n|]; compute_events; rewrite Hrows;
    destruct (connectionStatusMessage _) as [[|? ?]|], (home_loading props);
    try destruct (str_eqb _ _); done.
Qed.

Lemma TunnelDetailView_events (t : Tunnel) st path h server (back : E) copy clock :
  let e := resolveTunnelEndpoint t h server in
  events (TunnelDetailView t st path h server back copy clock : element E)
  = (always (back)) :: when (can_copy e) (always (copy e)) ++ when (can_copy e) (always (copy e)).
Proof.
  intros e. unfold TunnelDetailView, Overview, TrafficPanel, TrafficTrend, TunnelConfig, DetailCell, status_dot.
  compute_events. unfold can_copy, e. by destruct (truthy _).
Qed.

Lemma SettingsView_events (section : SettingsSection) st logs loading upd updateLoading (back : E) (save : PartialConfig -> E)
    check apply set :
  events (SettingsView section st logs loading upd updateLoading back save check apply set)
  = [(always (back)); (always (set General)); (always (set Network)); (always (set DesktopTypes.Connection));
     (always (set Logs)); (always (set About))]
    ++ match section with
       | Logs => []
       | About => when (negb updateLoading) (always (check))
                  ++ when (match upd with Some u => ready u | None => false end) (always (apply))
       | _ => when (negb loading) (Handler save)
       end.
Proof.
  unfold SettingsView, NavItem, LogsPanel, AboutPanel, GeneralPanel, NetworkPanel, ConnectionPanel, SwitchRow, FormItem.
  destruct section; compute_events.
  1, 2, 3: by destruct loading.
  - by rewrite flat_map_nil.
  - destruct updateLoading, upd as [u|]; compute_events; try destruct (ready u). all: done.
Qed.
End ViewEvents.

(** *** What the user can do *)

Section Interface.
Context `{Toolkit} `{Dates} `{UrlApi}.

(** Where a tunnel is reached, as the views compute it. *)
Definition address_of (s : Desktop) (t : Tunnel) : TunnelEndpoint :=
  resolveTunnelEndpoint t (tunnelPublicHost (config <$> snapshot s)) (js_nullish (serverUrl <$> (config <$> snapshot s)) (js "")).

Definition update_ready (s : Desktop) : bool :=
  match snapshot s ≫= update with Some u => ready u | None => false end.

(** The events of a screen. *)
Definition allowed (section : SettingsSection) (s : Desktop) (e : ui_event) : Prop :=
  match display s with
  | HomeScreen =>
    (exists x, x ∈ [General; Network; Logs] /\ e = navigate (Settings x))
    \/ (update_ready s = true /\ e = Page Apply)
    \/ (loading s = false
        /\ e = Page (Connection (if is_up (status <$> snapshot s) then DoDisconnect else DoConnect)))
    \/ (exists t, t ∈ current_tunnels s
        /\ (e = navigate (TunnelView (id t)) \/ (can_copy (address_of s t) = true /\ e = Copy (address_of s t))))
  | SettingsScreen _ =>
    e = navigate Home \/ (exists x, e = SetSection x)
    \/ match section with
       | Logs => False
       | About => (updateLoading s = false /\ e = Page Check) \/ (update_ready s = true /\ e = Page Apply)
       | _ => loading s = false /\ exists values, e = Page (Save values)
       end
  | TunnelScreen t =>
    e = navigate Home
    \/ exists address, can_copy address = true /\ e = Copy address
       /\ address = resolveTunnelEndpoint t (tunnelPublicHost (Some (js_nullish (config <$> snapshot s) emptyConfig)))
                      (serverUrl (js_nullish (config <$> snapshot s) emptyConfig))
  end.

Lemma row_events_called (e : ui_event) open copy address (l : list Tunnel) :
  called e (row_events open copy address l : list (handler ui_event))
  <-> exists t, t ∈ l /\ (e = open (id t) \/ (can_copy (address t) = true /\ e = copy (address t))).
Proof.
  unfold row_events. rewrite called_flat_map. setoid_rewrite called_const. setoid_rewrite called_when_const. done.
Qed.

Lemma render_offers (section : SettingsSection) history clock (s : Desktop) (e : ui_event) :
  offers e (render section history clock s) <-> allowed section s e.
Proof.
  rewrite offers_called. unfold render, allowed. destruct (display s) as [|initial|t].
  - rewrite HomeView_events. cbn [home_snapshot home_loading home_update onApplyUpdate onConnect onDisconnect
      onSettings onTunnel home_serverUrl].
    rewrite !called_app, !called_const, !called_nil, called_when_const, row_events_called, negb_true_iff.
    assert (called e match snapshot s ≫= update with
                     | Some n => when (ready n) (always (Page Apply)) | None => [] end
            <-> update_ready s = true /\ e = Page Apply) as ->.
    { unfold update_ready. destruct (snapshot s ≫= update); [apply called_when_const|].
      rewrite called_nil. naive_solver. }
    assert (serverUrl (js_nullish (config <$> snapshot s) emptyConfig)
            = js_nullish (serverUrl <$> (config <$> snapshot s)) (js "")) as -> by by destruct (snapshot s).
    assert ((exists x, x ∈ [General; Network; Logs] /\ e = navigate (Settings x))
            <-> e = navigate (Settings Logs) \/ e = navigate (Settings General) \/ e = navigate (Settings Network)) as ->.
    { setoid_rewrite elem_of_cons. setoid_rewrite elem_of_cons. setoid_rewrite list_elem_of_singleton. naive_solver. }
    unfold address_of, current_tunnels.
    destruct (is_up _); tauto.
  - rewrite SettingsView_events, !called_app, !called_const, called_nil.
    assert ((exists x, e = SetSection x)
            <-> e = SetSection General \/ e = SetSection Network \/ e = SetSection DesktopTypes.Connection
                \/ e = SetSection Logs \/ e = SetSection About) as ->.
    { split; [intros [[] ->]; tauto|naive_solver]. }
    destruct section; rewrite ?called_app, ?called_when_const, ?called_when, ?called_nil, ?negb_true_iff;
      try (assert ((exists v, Page (Save v) = e) <-> exists v, e = Page (Save v)) as -> by naive_solver);
      unfold update_ready; tauto.
  - rewrite TunnelDetailView_events. cbn zeta. rewrite called_const, called_app, !called_when_const. naive_solver.
Qed.

(** What a screen offers its state allows. *)
Lemma render_enabled (ev : desktop_event) (section : SettingsSection) history clock (s : Desktop) :
  offers (Page ev) (render section history clock s) -> desktop_enabled ev s = true.
Proof.
  intros Ho. apply render_offers in Ho. unfold allowed in Ho.
  destruct (display s), section; destruct ev; try done; apply negb_true_iff; naive_solver.
Qed.

(** What the interface shows: the timers run whatever is on display. *)
Definition ui_shown (ev : desktop_event) (s : Desktop) : Prop :=
  match ev with
  | SnapshotTimer | StatusTimer => True
  | _ => exists section history clock, offers (Page ev) (render section history clock s)
  end.

(** C28: The screens offer exactly these events: at home, the settings, a ready update, the
    one of connecting and disconnecting that fits the connection's state while neither is
    under way, each tunnel, and the copy of each address there is; in the settings, the way
    back, every section, saving in the three that are forms, the updates in the last; at a
    tunnel, the way back and the copy of its address. *)
Theorem screens_offer (section : SettingsSection) history clock (s : Desktop) (e : ui_event) :
  offers e (render section history clock s) <-> allowed section s e.
Proof. apply render_offers. Qed.

(** The interface refines the system: whatever its user does, the page never leaves the
    states of the transition system, so its invariants hold of every use of the client. *)
Theorem interface_refines (dev : bool) (started_at : jsstr) (preview_time : Z -> jsstr)
    (y : sys Desktop service_call effect thrown service_result) :
  let handler := desktop_handler dev started_at preview_time in
  rtc (presented_step ui_shown handler) (initial desktop_initial) y ->
  reachable desktop_enabled handler desktop_initial y.
Proof.
  intros handler. apply presented_reachable. intros ev s Hs. unfold ui_shown in Hs.
  destruct ev; try done; destruct Hs as (? & ? & ? & ?); eauto using render_enabled.
Qed.
(** *** What is not shown *)

(** The snapshot with another configuration. *)
Definition reconfigured (c : AppConfig) (s : Desktop) : Desktop := setSnapshot (fmap (with_config c)) s.

(** No screen shows the Agent token outside the form that edits it: nothing in the tree depends on the configuration but
    the two addresses, the transport and the start-up switch, so that two configurations that
    differ in the token (or in the device's name and identity) give the same page. *)
Theorem token_not_shown (c : AppConfig) (section : SettingsSection) history clock (s : Desktop) :
  (forall d, snapshot s = Some d ->
     serverUrl (config d) = serverUrl c /\ dataAddress (config d) = dataAddress c
     /\ transport (config d) = transport c /\ autoStart (config d) = autoStart c) ->
  render section history clock (reconfigured c s) = render section history clock s.
Proof.
  intros Hc. unfold reconfigured. destruct s as [[d|] v l ul tk fs ss f]; [|done].
  destruct (Hc d eq_refl) as (Hu & Ha & Ht & Hs). clear Hc.
  assert (tunnelPublicHost (Some c) = tunnelPublicHost (Some (config d))) as Hp.
  { unfold tunnelPublicHost. cbn [fmap option_fmap option_map]. by rewrite Hu, Ha. }
  assert (display (setSnapshot (fmap (with_config c))
            {| snapshot := Some d; view := v; loading := l; updateLoading := ul; previewTick := tk;
               snapshotRefreshInFlight := fs; statusRefreshInFlight := ss; form := f |})
          = display {| snapshot := Some d; view := v; loading := l; updateLoading := ul; previewTick := tk;
                       snapshotRefreshInFlight := fs; statusRefreshInFlight := ss; form := f |}) as Hd by done.
  unfold render. rewrite Hd. destruct (display _).
  - unfold HomeView. cbn -[tunnelPublicHost serverName Brand status_dot Metric bool_decide].
    by rewrite Hp, <-Hu, <-Ht, <-Hs.
  - done.
  - cbn -[tunnelPublicHost TunnelDetailView]. by rewrite Hp, <-Hu.
Qed.

(** The log panel says that tokens in the log are masked, but it shows every message as
    it came: any text without white space at its ends that is in a message is on display,
    a token among them. *)
Theorem log_tokens_shown (logs : list LogEntry) (entry : LogEntry) (secret : jsstr) :
  entry ∈ logs -> secret <> [] -> trimmed secret -> includes secret (entry_message entry) = true ->
  exists line, line ∈ flat_map displayed (LogsPanel logs : list (element ui_event))
               /\ includes secret line = true.
Proof.
  intros He Hne Ht Hi. exists (logLine entry). split.
  - unfold LogsPanel. rewrite list_elem_of_In, in_flat_map.
    eexists. split; [right; right; left; done|]. cbn [displayed]. rewrite flat_map_map, in_flat_map.
    exists entry. split; [by apply in_rev; rewrite rev_involutive; apply list_elem_of_In|].
    cbn. auto.
  - unfold logLine. apply trim_includes; [done|done|].
    eapply includes_trans; [exact Hi|].
    rewrite !(assoc_L (++)). rewrite <-(assoc_L (++) _ (js " ")).
    rewrite <-(assoc_L (++) _ (entry_message entry)). apply includes_infix.
Qed.

(** *** Opening a tunnel *)

(** A click on a row of the home screen opens that tunnel's page, when the tunnels of the
    snapshot have distinct identifiers; and there the same address is shown and copied. *)
Theorem row_opens_its_tunnel (section : SettingsSection) history clock (s : Desktop) (i : jsstr) :
  display s = HomeScreen -> NoDup (id <$> current_tunnels s) ->
  offers (navigate (TunnelView i)) (render section history clock s) ->
  exists t, t ∈ current_tunnels s /\ id t = i /\ display (setView (TunnelView i) s) = TunnelScreen t
    /\ forall section' history' clock', can_copy (address_of s t) = true ->
         offers (Copy (address_of s t)) (render section' history' clock' (setView (TunnelView i) s)).
Proof.
  intros Hd Hn Ho. apply render_offers in Ho. unfold allowed in Ho. rewrite Hd in Ho.
  destruct Ho as [(x & _ & ?)|[[_ ?]|[[_ ?]|(t & Ht & [[= ->]|[_ ?]])]]]; try done.
  assert (display (setView (TunnelView (id t)) s) = TunnelScreen t) as Hdisp.
  { unfold display. cbn [view setView].
    change (current_tunnels (setView (TunnelView (id t)) s)) with (current_tunnels s).
    assert (js_find (fun item => str_eqb (id item) (id t)) (current_tunnels s) = Some t) as ->; [|done].
    apply js_find_split. apply list_elem_of_split in Ht as (l1 & l2 & Hl). exists l1, l2.
    split; [done|]. split; [by apply bool_decide_eq_true|].
    rewrite Hl, fmap_app, fmap_cons, NoDup_app in Hn. destruct Hn as (_ & Hn & _).
    apply Forall_forall. intros u Hu. apply bool_decide_eq_false. intros He.
    apply (Hn (id u)); [by apply list_elem_of_fmap_2|]. rewrite He. by left. }
  exists t. split; [done|]. split; [done|]. split; [done|].
  intros section' history' clock' Hcopy. apply render_offers. unfold allowed. rewrite Hdisp. right.
  exists (address_of s t). split; [done|]. split; [done|].
  unfold address_of. cbn [snapshot setView].
  destruct (snapshot s) as [d|] eqn:Hs; [done|].
  unfold current_tunnels in Ht. rewrite Hs in Ht. by apply elem_of_nil in Ht.
Qed.
End Interface.

(** *** Executions *)

#[local] Existing Instances plain_toolkit utc_dates simple_urls.

(** A client with one tunnel. *)
Definition sample_config (tok : jsstr) : AppConfig :=
  {| serverUrl := js "wss://nat.example/agent"; dataAddress := js "nat.example:7001"; transport := js "websocket";
     quicAddress := js ""; caFile := js ""; token := tok; name := js "pc"; deviceId := js "";
     insecureSkipVerify := false; autoStart := false |}.

Definition one_tunnel : Desktop :=
  setSnapshot (fun _ => Some {| config := sample_config (js "secret"); status := transferred 0;
                                tunnels := Some [udp_tunnel]; tunnelPaths := None; logs := None; update := None |})
    desktop_initial.

Definition settings_open : sys Desktop service_call effect thrown service_result :=
  spawn (modify (setView (Settings About))) (initial desktop_initial).

(** The log section is opened from the home screen. *)
Lemma interface_refines_witness :
  let open : prog Desktop service_call effect thrown service_result unit := modify (setView (Settings Logs)) in
  reachable desktop_enabled (desktop_handler false [] (fun _ => [])) desktop_initial (spawn open (initial desktop_initial)).
Proof.
  intros open. apply (interface_refines (H1 := simple_urls)). apply rtc_once.
  apply (presented_event ui_shown (desktop_handler false [] (fun _ => [])) (Navigate (Settings Logs))).
  exists General, no_history, 0%Z. apply render_offers. left. exists Logs. split; [|done].
  right. right. by left.
Defined.

Lemma screens_offer_witness :
  offers (Page (Connection DoConnect)) (render General no_history 0 desktop_initial).
Proof. apply screens_offer. right. right. left. by split. Defined.

Lemma token_not_shown_witness :
  render General no_history 0 (reconfigured (sample_config (js "other")) one_tunnel)
  = render General no_history 0 one_tunnel.
Proof. apply token_not_shown. by intros d [= <-]. Defined.

Definition leaking_entry : LogEntry :=
  {| entry_time := js "t"; entry_level := js "INFO"; entry_message := js "token ntk_secret accepted";
     entry_fields := None |}.

Lemma log_tokens_shown_witness :
  exists line, line ∈ flat_map displayed (LogsPanel [leaking_entry] : list (element ui_event))
               /\ includes (js "ntk_secret") line = true.
Proof.
  apply (log_tokens_shown [leaking_entry] leaking_entry).
  - by left.
  - vm_compute. discriminate.
  - split; vm_compute; intros ? [= <-]; reflexivity.
  - by_evaluation.
Defined.

Lemma row_opens_its_tunnel_witness :
  exists t, t ∈ [udp_tunnel] /\ id t = js "tunnel".
Proof.
  destruct (row_opens_its_tunnel General no_history 0 one_tunnel (js "tunnel")) as (t & Ht & Hi & _).
  - done.
  - repeat constructor. by apply not_elem_of_nil.
  - apply render_offers. right. right. right. exists udp_tunnel. split; [by left|by left].
  - by exists t.
Defined.
