(* ===== verification/Pages.v ===== *)
(** The other pages that load and change data: web/dashboard/src/pages/TokensPage.tsx,
    LogsPage.tsx, TrafficPage.tsx, RelaysPage.tsx and SettingsPage.tsx. *)

From S2P Require Import Prelude JsString JsNumber Json JsErrors WebPlatform Async Session ApiClient DashTypes DashFormat TransportDisplay UseAsync Dashboard.

#[local] Open Scope prog_scope.

(** ** TrafficPage *)

Record TrafficState := { range : jsstr; traffic_list : AsyncState json }.

Definition set_range (v : jsstr) (s : TrafficState) : TrafficState :=
  {| range := v; traffic_list := traffic_list s |}.
Definition set_traffic (v : AsyncState json) (s : TrafficState) : TrafficState :=
  {| range := range s; traffic_list := v |}.

Definition traffic_hook : lens (app TrafficState) (AsyncState json) :=
  field (Lens traffic_list set_traffic (fun _ _ => eq_refl)).

(** The loader of the render whose range is [r]. *)
Definition reload_traffic (r : jsstr) : action TrafficState unit := load traffic_hook (traffic r).

(** [setRange] re-renders, and the changed dependency starts the new loader. *)
Definition setRange (r : jsstr) (s : app TrafficState) : action TrafficState unit :=
  if str_eqb r (range (page s)) then skip
  else (modify (setPage (set_range r)) ;;; reload_traffic r).

Inductive traffic_event := SetRange (r : jsstr) | ReloadTraffic.
Definition traffic_enabled (ev : traffic_event) (s : app TrafficState) : bool :=
  match ev with
  | SetRange r => existsb (str_eqb r) [js "today"; js "month"]
  | ReloadTraffic => true
  end.
Definition traffic_handler (ev : traffic_event) (s : app TrafficState) : action TrafficState unit :=
  match ev with
  | SetRange r => setRange r s
  | ReloadTraffic => reload_traffic (range (page s))
  end.

(** The three figures at the top: upload, download and their sum. *)
Definition traffic_figures (summary : option TrafficSummary) : list jsstr :=
  let s := js_nullish summary {| traffic_upload := 0; traffic_download := 0 |} in
  [formatBytes (Some (traffic_upload s)); formatBytes (Some (traffic_download s));
   formatBytes (Some (traffic_upload s + traffic_download s)%Z)].

(** ** LogsPage *)

Record LogsState := {
  query : jsstr; search : jsstr; log_level_filter : option jsstr; page_number : Z;
  logs_list : AsyncState json; clear_dialog : option log_filter
}.

Definition logs_initial : LogsState :=
  {| query := js ""; search := js ""; log_level_filter := None; page_number := 1;
     logs_list := not_loaded; clear_dialog := None |}.

Definition set_logs (v : AsyncState json) (s : LogsState) : LogsState :=
  {| query := query s; search := search s; log_level_filter := log_level_filter s;
     page_number := page_number s; logs_list := v; clear_dialog := clear_dialog s |}.
Definition set_query (v : jsstr) (s : LogsState) : LogsState :=
  {| query := v; search := search s; log_level_filter := log_level_filter s;
     page_number := page_number s; logs_list := logs_list s; clear_dialog := clear_dialog s |}.
Definition set_search (v : jsstr) (s : LogsState) : LogsState :=
  {| query := query s; search := v; log_level_filter := log_level_filter s;
     page_number := page_number s; logs_list := logs_list s; clear_dialog := clear_dialog s |}.
Definition set_level (v : option jsstr) (s : LogsState) : LogsState :=
  {| query := query s; search := search s; log_level_filter := v;
     page_number := page_number s; logs_list := logs_list s; clear_dialog := clear_dialog s |}.
Definition set_page_number (v : Z) (s : LogsState) : LogsState :=
  {| query := query s; search := search s; log_level_filter := log_level_filter s;
     page_number := v; logs_list := logs_list s; clear_dialog := clear_dialog s |}.
Definition set_dialog (v : option log_filter) (s : LogsState) : LogsState :=
  {| query := query s; search := search s; log_level_filter := log_level_filter s;
     page_number := page_number s; logs_list := logs_list s; clear_dialog := v |}.

Definition logs_hook : lens (app LogsState) (AsyncState json) :=
  field (Lens logs_list set_logs (fun _ _ => eq_refl)).

(** [{ keyword: query, level, page }] of a render. *)
Definition filter_of (s : LogsState) : log_filter :=
  {| keyword := Some (query s); level := log_level_filter s; ApiClient.page := Some (page_number s);
     limit := None |}.

Definition reload_logs (f : log_filter) : action LogsState unit := load logs_hook (logs f).

Definition same_filter (a b : LogsState) : bool :=
  str_eqb (query a) (query b) && bool_decide (log_level_filter a = log_level_filter b)
  && (page_number a =? page_number b)%Z.

(** State changes made at once, from the state [s]; the page loads anew when a dependency
    changed. *)
Definition change_logs (s : app LogsState) (f : LogsState -> LogsState) : action LogsState unit :=
  modify (setPage f) ;;;
  (if same_filter (page s) (f (page s)) then skip else reload_logs (filter_of (f (page s)))).

Definition applySearch (value : jsstr) (s : LogsState) : LogsState :=
  set_query (trim value) (set_page_number 1 s).

Definition typed (value : jsstr) (s : LogsState) : LogsState :=
  let s := set_search value s in if truthy value then s else applySearch (js "") s.

Definition choose_level (value : option jsstr) (s : LogsState) : LogsState :=
  set_level value (set_page_number 1 s).

Definition download (s : app LogsState) : action LogsState unit :=
  try_catch (await_fn (downloadLogs (Some (query (page s))) (log_level_filter (page s))))
            (fun error => say (Message Failure (toMessage error))).

(** The dialog keeps the reload of the render it was opened from. *)
Definition clear (s : app LogsState) : action LogsState unit :=
  say (Confirm (js "清空所有服务端日志？")) ;;; modify (setPage (set_dialog (Some (filter_of (page s))))).

Definition clear_confirmed (f : log_filter) : action LogsState unit :=
  let* answer := await_fn clearLogs in
  match prop answer (js "deleted") with
  | Ok n => say (Message Success (js "已删除 " ++ template n ++ js " 条日志")) ;;; reload_logs f
  | Err e => Throw e
  end.

Inductive logs_event :=
| ReloadLogs
| TypeText (value : jsstr)
| SearchText (value : jsstr)
| ChooseLevel (value : option jsstr)
| TurnPage (n : Z)
| DownloadLogs
| ClearLogs
| ConfirmClear.

Definition logs_enabled (ev : logs_event) (s : app LogsState) : bool :=
  match ev with
  | TurnPage n => (1 <=? n)%Z
  | ConfirmClear => present (clear_dialog (page s))
  | _ => true
  end.

Definition logs_handler (ev : logs_event) (s : app LogsState) : action LogsState unit :=
  match ev with
  | ReloadLogs => reload_logs (filter_of (page s))
  | TypeText v => change_logs s (typed v)
  | SearchText v => change_logs s (applySearch v)
  | ChooseLevel v => change_logs s (choose_level v)
  | TurnPage n => change_logs s (set_page_number n)
  | DownloadLogs => download s
  | ClearLogs => clear s
  | ConfirmClear => match clear_dialog (page s) with Some f => clear_confirmed f | None => skip end
  end.

Definition levelOptions : list (jsstr * jsstr) :=
  [(js "debug", js "调试"); (js "info", js "信息"); (js "warn", js "警告"); (js "error", js "错误")].

Definition level_label (v : jsstr) : jsstr :=
  match List.find (fun o => str_eqb (fst o) v) levelOptions with Some o => snd o | None => v end.

Definition color (level : jsstr) : jsstr :=
  if str_eqb level (js "error") then js "red"
  else if str_eqb level (js "warn") then js "orange"
  else if str_eqb level (js "info") then js "blue"
  else js "default".

(** ** TokensPage *)

Record TokensState := { tokens_list : AsyncState json; create_open : bool; created : option json;
                        name_field : option jsstr }.

Definition set_tokens (v : AsyncState json) (s : TokensState) : TokensState :=
  {| tokens_list := v; create_open := create_open s; created := created s; name_field := name_field s |}.
Definition setOpen (v : bool) (s : TokensState) : TokensState :=
  {| tokens_list := tokens_list s; create_open := v; created := created s; name_field := name_field s |}.
Definition setCreated (v : option json) (s : TokensState) : TokensState :=
  {| tokens_list := tokens_list s; create_open := create_open s; created := v; name_field := name_field s |}.
Definition setName (v : option jsstr) (s : TokensState) : TokensState :=
  {| tokens_list := tokens_list s; create_open := create_open s; created := created s; name_field := v |}.

Definition tokens_hook : lens (app TokensState) (AsyncState json) :=
  field (Lens tokens_list set_tokens (fun _ _ => eq_refl)).

Definition reload_tokens : action TokensState unit := load tokens_hook listTokens.

(** [form.validateFields()]: the only rule is that the name is required; a rejection
    carries the form's own error object. *)
Definition validateFields : action TokensState jsstr :=
  Read (fun s => match name_field (page s) with
                 | Some n => if truthy n then Ret n else Throw (TValue (JObj []))
                 | None => Throw (TValue (JObj []))
                 end).

Definition create : action TokensState unit :=
  let* name := await_fn validateFields in
  let* answer := await_fn (createToken name) in
  match prop answer (js "value") with
  | Err e => Throw e
  | Ok v =>
    modify (setPage (setCreated v)) ;;;
    modify (setPage (setOpen false)) ;;;
    modify (setPage (setName None)) ;;;
    await_fn reload_tokens
  end.

Definition set_disabled (token : Token) (v : bool) : action TokensState unit :=
  let* _ := await_fn (setTokenDisabled (token_id token) v) in reload_tokens.

Definition remove_token (token : Token) : action TokensState unit :=
  say (Confirm (js "删除 " ++ token_name token ++ js "?")).

Definition remove_token_confirmed (token : Token) : action TokensState unit :=
  let* _ := await_fn (deleteToken (token_id token)) in
  say (Message Success (js "令牌已删除")) ;;;
  await_fn reload_tokens.

(** ** RelaysPage *)

Record RelaysState := { nodes : AsyncState json; assignments : AsyncState json }.

Definition nodes_hook : lens (app RelaysState) (AsyncState json) :=
  field (Lens nodes (fun v s => {| nodes := v; assignments := assignments s |}) (fun _ _ => eq_refl)).
Definition assignments_hook : lens (app RelaysState) (AsyncState json) :=
  field (Lens assignments (fun v s => {| nodes := nodes s; assignments := v |}) (fun _ _ => eq_refl)).

Definition reload_nodes : action RelaysState unit := load nodes_hook relays.
Definition reload_assignments : action RelaysState unit := load assignments_hook relayAssignments.

(** The timer and the button start the two loads side by side, and wait for nothing after. *)
Inductive relays_event := ReloadNodes | ReloadAssignments.
Definition relays_handler (ev : relays_event) (_ : app RelaysState) : action RelaysState unit :=
  match ev with ReloadNodes => reload_nodes | ReloadAssignments => reload_assignments end.

Definition relays_loading (s : RelaysState) : bool := loading (nodes s) || loading (assignments s).
Definition relays_error (s : RelaysState) : option jsstr :=
  match error (nodes s) with
  | Some m => if truthy m then Some m else error (assignments s)
  | None => error (assignments s)
  end.

(** ** SettingsPage *)

Record SettingsState := { settings_list : AsyncState json; password_form : option (jsstr * jsstr) }.

Definition settings_hook : lens (app SettingsState) (AsyncState json) :=
  field (Lens settings_list (fun v s => {| settings_list := v; password_form := password_form s |})
              (fun _ _ => eq_refl)).

Definition reload_settings : action SettingsState unit := load settings_hook settings.

Definition resetFields (s : SettingsState) : SettingsState :=
  {| settings_list := settings_list s; password_form := None |}.

(** [PasswordForm] *)
Definition submit_password (current new : jsstr) : action SettingsState unit :=
  try_catch
    (let* _ := await_fn (changePassword current new) in
     say (Message Success (js "管理员密码已修改")) ;;;
     modify (setPage resetFields))
    (fun error => say (Message Failure (toMessage error))).

(** [ValueEditor]; [onSaved] is not awaited. *)
Definition save_setting (key : jsstr) (value : json) : action SettingsState unit :=
  try_catch
    (let* _ := await_fn (updateSetting key value) in
     say (Message Success (settingSaveMessage key)) ;;;
     reload_settings)
    (fun error => say (Message Failure (toMessage error))).

(** ** Properties *)

(** A server that answers every request with the address it was asked for. *)
Definition echo (c : api_call) : result thrown (api_result c) :=
  match c with
  | Fetch path _ => Ok {| status := 200; ApiClient.statusText := path |}
  | ReadText r => Ok (stringify (obj_of [(js "since", Some (JStr (ApiClient.statusText r)))]))
  | ReadBlob _ => Ok tt
  end.

Definition echoed (path : jsstr) : json := obj_of [(js "since", Some (JStr path))].

Definition traffic_page : app TrafficState :=
  {| shell := mounted empty_storage; page := {| range := js "today"; traffic_list := not_loaded |} |}.

Definition traffic_mounted : sys (app TrafficState) api_call ui_effect thrown api_result :=
  spawn (reload_traffic (js "today")) (initial traffic_page).

(** The month is chosen while today's figures are on their way; the answer for the month
    comes first. *)
Definition overtaken : sys (app TrafficState) api_call ui_effect thrown api_result :=
  schedule [(echo, 1); (echo, 1); (echo, 1); (echo, 1); (echo, 0); (echo, 0); (echo, 0); (echo, 0)]%nat
    (spawn (setRange (js "month") (st traffic_mounted)) traffic_mounted).

(** C34: The traffic page can show the wrong period for good: with nothing left in flight,
    no error and no spinner, the month is selected and the figures are today's, although
    the server answered each request with what it asked for. An answer is stored whatever
    was requested since. *)
Theorem traffic_range_mismatch :
  exists y, reachable_from traffic_enabled traffic_handler traffic_mounted y
    /\ threads y = [] /\ range (page (st y)) = js "month"
    /\ traffic_list (page (st y))
       = {| data := Some (echoed (js "/api/traffic/summary?range=today")); loading := false; error := None |}.
Proof.
  exists overtaken. split; [|split; [|split]; by_evaluation].
  apply schedule_reachable.
  by apply (reachable_event traffic_enabled traffic_handler traffic_mounted traffic_mounted
              (SetRange (js "month")) (rtc_refl _ _)).
Qed.

