(* ===== verification/DashViews.v ===== *)
(** What the dashboard's smaller pages display: components/Page.tsx, the frame of App.tsx,
    pages/LoginPage.tsx, OverviewPage.tsx, TrafficPage.tsx, RelaysPage.tsx, TokensPage.tsx,
    LogsPage.tsx and SettingsPage.tsx under web/dashboard/src. A view takes the data as the
    types of types.ts have it; decorative attributes are left out. *)

From S2P Require Import Prelude JsString JsNumber Json View WebPlatform Async JsErrors Session ApiClient DashTypes DashFormat TransportDisplay UseAsync Dashboard Pages.

Local Abbreviation labelled text := (Named (js "label") text) (only parsing).

(** ** Shared components *)

Section Components.
Context {E : Type}.
Local Abbreviation node := (element E).

(** [Page]; [onReload] may be missing. *)
Definition Page (title : jsstr) (extra : list node) (loading : bool) (error : option jsstr) (onReload : option E)
    (children : list node) : node :=
  classed Tag.section (js "page-shell")
    ([classed Tag.div (js "page-header")
        [el Tag.h1 [Text title];
         classed Tag.div (js "page-actions")
           (match onReload with Some e => [Button [] e [Text (js "刷新")]] | None => [] end ++ extra)]]
     ++ when_some error (fun m => El Tag.Alert [Named (js "type") (js "error")] [] [Text m])
     ++ [El Tag.Spin [Loading loading] [] children]).

(** A label looked up in an object is a text, or a member every object has, which displays
    nothing. *)
Definition property_text (p : property) : list node :=
  match p with Own t => [Text t] | Inherited _ => [] end.

Definition StatusTag_view (value : jsstr) : node :=
  let '(color, text) := StatusTag value in El Tag.Badge [Named (js "color") color] [] (property_text text).

Definition FormItem (name : jsstr) (label : jsstr) (input : node) : node :=
  El Tag.FormItem [Named (js "name") name; labelled label] [] [input].

Definition number_text (n : Z) : node := Text (int_to_string n).

(** *** Metric of the overview *)
Definition Metric (title : jsstr) (value : list node) : node :=
  classed Tag.div (js "metric") [El Tag.Statistic [Named (js "title") title] [] value].

(** ** DashboardApp *)

(** The frame around the login page or the active page. *)
Definition DashboardView (b : browser) (login page : node) (onSelect : jsstr -> E) (onLogout : E) : node :=
  if negb (authenticated b) then login
  else classed Tag.Layout (js "app-layout")
    [classed Tag.Layout (js "sider")
       [classed Tag.div (js "brand") [el Tag.Text [Text (js "Nrynet")]];
        El Tag.Menu [Named (js "selectedKeys") (active b)] []
          (map (fun p => El Tag.MenuItem [Key (fst p)] [(onClick, always (onSelect (fst p)))] [Text (snd p)]) pages)];
     el Tag.Layout
       [classed Tag.Layout (js "topbar") [el Tag.Text [Text (js "运维控制台")]; Button [] onLogout [Text (js "退出登录")]];
        classed Tag.Layout (js "content") [page]]].
End Components.

(** ** LoginPage *)

Definition LoginView (s : LoginState) : element login_event :=
  classed Tag.main (js "login-screen")
    [classed Tag.Card (js "login-card")
       ([el Tag.Title [Text (js "Nrynet")]; el Tag.Text [Text (js "登录本地管理员账号")]]
        ++ when_some (login_error s) (fun m => El Tag.Alert [Named (js "type") (js "error")] [] [Text m])
        ++ [El Tag.Form [] [(onFinish, Handler (fun values => Dashboard.Submit (fst values) (snd values)))]
              [FormItem (js "username") (js "用户名") (el Tag.Input []);
               FormItem (js "password") (js "密码") (el Tag.Password []);
               El Tag.Button [View.Submit; Loading (login_loading s)] [] [Text (js "登录")]]])].

(** ** OverviewPage *)

Section Overview.
Context `{Dates} {E : Type}.
Local Abbreviation node := (element E).

Definition client_status (c : Client) : jsstr := if client_disabled c then js "disabled" else client_status c.

Definition recent_client_cells (c : Client) : list (list node) :=
  [[Text (client_name c)]; [Text (client_ip c)]; [StatusTag_view (client_status c)];
   [Text (formatDate (Some (client_last_online c)))]].

Definition recent_tunnel_cells (t : Tunnel) : list (list node) :=
  [[Text (tunnel_name t)]; [Text (tunnel_protocol t)]; [number_text (tunnel_remote_port t)];
   [StatusTag_view (tunnel_status t)]].

Definition OverviewView (loading : bool) (error : option jsstr) (overview : option Overview) (clients : list Client)
    (tunnels : list Tunnel) (reload : E) : node :=
  let count (f : Overview -> Z) := js_nullish (f <$> overview) 0%Z in
  Page (js "概览") [] loading error (Some reload)
    [classed Tag.div (js "metrics")
       [Metric (js "服务状态") (property_text (statusText (Some (js_nullish (overview_status <$> overview) (js "unknown")))));
        Metric (js "在线客户端") [number_text (count overview_online_clients)];
        Metric (js "运行中隧道") [number_text (count overview_active_tunnels)];
        Metric (js "TCP 连接数") [number_text (count overview_connections)];
        Metric (js "实时带宽") [Text (formatRate (Some (count overview_bandwidth_bps)))];
        Metric (js "今日流量")
          [Text (formatBytes (Some (count overview_today_upload + count overview_today_download)%Z))]];
     el Tag.div
       [el Tag.Title [Text (js "最近客户端")];
        Table client_id [js "名称"; js "IP"; js "状态"; js "最后在线"] recent_client_cells (take 6 clients);
        el Tag.Title [Text (js "最近隧道")];
        Table tunnel_id [js "名称"; js "协议"; js "远端端口"; js "状态"] recent_tunnel_cells (take 6 tunnels)]].

(** ** TrafficPage *)

Definition traffic_cells (row : TrafficTarget) : list (list node) :=
  [[Text (target_name row)]; [Text (formatBytes (Some (target_upload row)))];
   [Text (formatBytes (Some (target_download row)))];
   [Text (formatBytes (Some (target_upload row + target_download row)%Z))]].

Definition TrafficTable (label : jsstr) (rows : list TrafficTarget) : node :=
  Table target_id [label; js "上传"; js "下载"; js "总计"] traffic_cells rows.
End Overview.

Definition TrafficView (s : TrafficState) (data : option TrafficResponse) : element traffic_event :=
  let rows (f : TrafficResponse -> list TrafficTarget) := js_nullish (f <$> data) [] in
  Page (js "流量")
    [El Tag.Segmented [Named (js "value") (range s)] []
       [El Tag.Option [Key (js "today")] [(onChange, always (SetRange (js "today")))] [Text (js "今日")];
        El Tag.Option [Key (js "month")] [(onChange, always (SetRange (js "month")))] [Text (js "本月")]]]
    (loading (traffic_list s)) (error (traffic_list s)) (Some ReloadTraffic)
    (classed Tag.div (js "metrics")
       (map (fun m => Metric (fst m) [Text (snd m)])
          (combine [js "上传"; js "下载"; js "总计"] (traffic_figures (traffic_summary <$> data))))
     :: [el Tag.Tabs
           [El Tag.Tab [Key (js "clients"); labelled (js "按客户端")] []
              [TrafficTable (js "客户端") (rows traffic_clients)];
            El Tag.Tab [Key (js "tunnels"); labelled (js "按隧道")] []
              [TrafficTable (js "隧道") (rows traffic_tunnels)]]]).

(** ** RelaysPage *)

Section Relays.
Context `{Dates}.

(** The button's handler [reload] starts both loads, as the timer does. *)
Inductive relays_click := ReloadBoth.

Definition node_cells (n : RelayNode) : list (list (element relays_click)) :=
  [[Text (node_id n)]; [Text (node_address n)];
   [El Tag.Badge [Named (js "color") (if node_healthy n then js "green" else js "red")] []
      (property_text (statusText (Some (if node_healthy n then js "healthy" else js "offline"))))];
   [number_text (node_connections n)]; [Text (formatDate (Some (node_last_seen n)))]].

Definition assignment_cells (a : RelayAssignment) : list (list (element relays_click)) :=
  [[Text (assignment_tunnel_id a)]; [Text (assignment_node_id a)]; [Text (assignment_address a)]].

Definition RelaysView (s : RelaysState) (relay_nodes : list RelayNode) (relay_assignments : list RelayAssignment)
    : element relays_click :=
  Page (js "中继") [] (relays_loading s) (relays_error s) (Some ReloadBoth)
    [Table node_id [js "节点"; js "公网地址"; js "健康状态"; js "实时连接数"; js "最后心跳"] node_cells relay_nodes;
     El Tag.Descriptions [Named (js "title") (js "隧道分配")] [] [];
     Table assignment_tunnel_id [js "隧道"; js "中继节点"; js "公网地址"] assignment_cells relay_assignments].

(** ** TokensPage *)

(** [ConfirmRemoveToken] is the other button of the dialog [RemoveToken] opens. *)
Inductive tokens_event :=
| ReloadTokens
| OpenCreate
| CloseCreate
| TypeName (name : jsstr)
| CreateToken
| SetTokenDisabled (t : Token) (v : bool)
| RemoveToken (t : Token)
| ConfirmRemoveToken (t : Token)
| CloseCreated.

Definition tokens_handler (ev : tokens_event) : action TokensState unit :=
  match ev with
  | ReloadTokens => reload_tokens
  | OpenCreate => modify (setPage (setOpen true))
  | CloseCreate => modify (setPage (setOpen false))
  | TypeName n => modify (setPage (setName (Some n)))
  | CreateToken => create
  | SetTokenDisabled t v => set_disabled t v
  | RemoveToken t => remove_token t
  | ConfirmRemoveToken t => remove_token_confirmed t
  | CloseCreated => modify (setPage (setCreated None))
  end.

(** A dialog takes input while it is open. *)
Definition tokens_enabled (ev : tokens_event) (s : TokensState) : bool :=
  match ev with
  | CloseCreate | TypeName _ | CreateToken => create_open s
  | CloseCreated => truthy (created s)
  | _ => true
  end.

Definition token_cells (t : Token) : list (list (element tokens_event)) :=
  [[Text (token_name t)]; [Text (token_prefix t)];
   [El Tag.Switch [Checked (token_disabled t)] [(onChange, Handler (SetTokenDisabled t))] []];
   [Text (formatDate (token_last_used t))]; [Text (formatDate (Some (token_created_at t)))];
   [Button [] (RemoveToken t) []]].

(** [created] is shown as the text it is. *)
Definition TokensView (s : TokensState) (tokens : list Token) : element tokens_event :=
  Page (js "令牌") [Button [] OpenCreate [Text (js "创建")]] (loading (tokens_list s)) (error (tokens_list s))
    (Some ReloadTokens)
    [Table token_id [js "名称"; js "前缀"; js "禁用"; js "最后使用"; js "创建时间"; js "操作"] token_cells tokens;
     El Tag.Modal [Named (js "title") (js "创建令牌"); Open (create_open s)]
       [(onOk, always CreateToken); (onCancel, always CloseCreate)]
       [el Tag.Form [FormItem (js "name") (js "名称") (El Tag.Input [] [(onChange, Handler TypeName)] [])]];
     El Tag.Modal [Named (js "title") (js "令牌明文"); Open (truthy (created s))] [(onCancel, always CloseCreated)]
       [el Tag.Text match created s with Some (JStr v) => [Text v] | _ => [] end]].

(** ** LogsPage *)

(** The pages of [total] entries, a hundred each. *)
Definition page_count (total : Z) : Z := ((total + 99) / 100)%Z.

Definition log_cells (row : LogEntry) : list (list (element logs_event)) :=
  [[El Tag.Badge [Named (js "color") (color (log_level row))] [] [Text (level_label (log_level row))]];
   [Text (js_or_def (log_event row) (js "-"))]; [Text (log_message row)]; [Text (formatDate (log_created_at row))]].

Definition log_key (indexed : nat * LogEntry) : jsstr :=
  let '(index, row) := indexed in
  match log_id row with
  | Some v => if truthy v then template (Some v)
              else js_nullish (log_created_at row) (js "undefined") ++ js "-" ++ int_to_string (Z.of_nat index)
  | None => js_nullish (log_created_at row) (js "undefined") ++ js "-" ++ int_to_string (Z.of_nat index)
  end.

Definition LogsView (s : LogsState) (rows : list LogEntry) (total : Z) : element logs_event :=
  Page (js "日志")
    [el Tag.Space
       [El Tag.SearchInput [Named (js "value") (search s)]
          [(onSearch, Handler SearchText); (onChange, Handler TypeText)] [];
        El Tag.Select [Named (js "placeholder") (js "级别")] [(onChange, always (ChooseLevel None))]
          (map (fun o => El Tag.Option [Key (fst o)] [(onChange, always (ChooseLevel (Some (fst o))))] [Text (snd o)])
             levelOptions);
        Button [] DownloadLogs [Text (js "下载")]; Button [] ClearLogs [Text (js "清空")]]]
    (loading (logs_list s)) (error (logs_list s)) (Some ReloadLogs)
    (Table log_key [js "级别"; js "事件"; js "消息"; js "时间"] (fun p => log_cells (snd p)) (imap pair rows)
     :: map (fun n => El Tag.Item [Key (int_to_string n)] [(onClick, always (TurnPage n))] [number_text n])
          (seqZ 1 (page_count total))).

(** ** SettingsPage *)

Inductive settings_event :=
| ReloadSettings
| ChangePassword (current new : jsstr)
| SaveSetting (key : jsstr) (value : json).

Definition settings_handler (ev : settings_event) : action SettingsState unit :=
  match ev with
  | ReloadSettings => reload_settings
  | ChangePassword c n => submit_password c n
  | SaveSetting k v => save_setting k v
  end.

Definition PasswordForm : element settings_event :=
  classed Tag.section (js "password-settings")
    [el Tag.Title [Text (js "管理员密码")];
     El Tag.Form [] [(onFinish, Handler (fun values => ChangePassword (fst values) (snd values)))]
       [FormItem (js "current") (js "") (el Tag.Password []); FormItem (js "password") (js "") (el Tag.Password []);
        El Tag.Button [View.Submit] [] [Text (js "修改")]]].

Definition is_bool (v : json) : bool := match v with JBool _ => true | _ => false end.

Definition ValueEditor (item : SettingItem) : element settings_event :=
  let locked := Disabled (negb (match setting_mutable item with Some b => b | None => false end)) in
  El Tag.Form [] [(onFinish, Handler (SaveSetting (setting_key item)))]
    [FormItem (js "value") (js "")
       (El (if is_bool (setting_value item) then Tag.Switch else Tag.Input) [locked] [] []);
     El Tag.Button [View.Submit; locked] [] [Text (js "保存")]].

Definition setting_cells (item : SettingItem) : list (list (element settings_event)) :=
  [[Text (setting_key item)]; [ValueEditor item]; [Text (js_or_def (setting_description item) (js "-"))]].

(** [transport] is the section of TransportSettings, [on] passes on what is the page's own. *)
Definition SettingsView {E} (on : settings_event -> E) (s : SettingsState) (items : list SettingItem)
    (transport : element E) : element E :=
  Page (js "设置") [] (loading (settings_list s)) (error (settings_list s)) (Some (on ReloadSettings))
    [map_element on PasswordForm; el Tag.Divider []; transport; el Tag.Divider []; el Tag.Title [Text (js "服务端配置")];
     Table setting_key [js "配置项"; js "值"; js "说明"]
       (fun item => map (map (map_element on)) (setting_cells item)) (rows (splitSettingsRows items))].
End Relays.

(** ** Events of the shared components *)

Lemma StatusTag_view_events {E} (v : jsstr) : events (StatusTag_view v : element E) = [].
Proof.
  unfold StatusTag_view. destruct (StatusTag v) as [c p]. unfold property_text. by destruct p.
Qed.

Lemma property_text_events {E} (p : property) : flat_map events (property_text p : list (element E)) = [].
Proof. by destruct p. Qed.

Lemma Page_events {E} (title : jsstr) (extra : list (element E)) (ld : bool) (err : option jsstr)
    (onReload : option E) (children : list (element E)) :
  events (Page title extra ld err onReload children)
  = match onReload with Some e => [always e] | None => [] end
    ++ flat_map events extra ++ flat_map events children.
Proof.
  unfold Page. destruct onReload; compute_events; destruct err as [[|? ?]|]; compute_events; done.
Qed.

Lemma flat_map_silent {A E} (cells : A -> list (list (element E))) (l : list A) :
  (forall a, flat_map (flat_map events) (cells a) = []) ->
  flat_map (fun a => flat_map (flat_map events) (cells a)) l = [].
Proof. intros Hc. by apply flat_map_nil. Qed.

(** ** Signed in or out *)

Lemma dashboard_offered `{Toolkit} {E} (b : browser) (login page : element E) (onSelect : jsstr -> E) (onLogout e : E) :
  offers e (DashboardView b login page onSelect onLogout)
  <-> if authenticated b
      then (exists p, p ∈ pages /\ e = onSelect (fst p)) \/ e = onLogout \/ offers e page
      else offers e login.
Proof.
  unfold DashboardView. destruct (authenticated b); cbn [negb]; [|done].
  rewrite !offers_called. compute_events.
  change (flat_map _ pages) with (flat_map (fun p => [always (onSelect (fst p))]) pages).
  rewrite called_app, called_flat_map, called_const. setoid_rewrite called_const. setoid_rewrite called_nil.
  naive_solver.
Qed.

(** Signed out, the user is offered the login page's events and nothing else; signed in,
    the entries of the menu, signing out and the events of the active page, never the login's. *)
Theorem dashboard_offers `{Toolkit} {E} (b : browser) (login page : element E) (onSelect : jsstr -> E) (onLogout e : E) :
  offers e (DashboardView b login page onSelect onLogout)
  <-> if authenticated b
      then (exists p, p ∈ pages /\ e = onSelect (fst p)) \/ e = onLogout \/ offers e page
      else offers e login.
Proof. apply dashboard_offered. Qed.

(** ** Which settings can be saved *)

Lemma ValueEditor_events (item : SettingItem) :
  events (ValueEditor item)
  = when (bool_decide (setting_mutable item = Some true)) (Handler (SaveSetting (setting_key item))).
Proof.
  unfold ValueEditor, FormItem. destruct (setting_mutable item) as [[]|]; compute_events;
    by destruct (is_bool _).
Qed.

Lemma setting_cells_events (item : SettingItem) :
  flat_map (flat_map events) (setting_cells item)
  = when (bool_decide (setting_mutable item = Some true)) (Handler (SaveSetting (setting_key item))).
Proof. unfold setting_cells. cbn [flat_map]. rewrite ValueEditor_events. cbn [events]. by rewrite !app_nil_r. Qed.

Lemma mapped_cells_events {E} (on : settings_event -> E) (item : SettingItem) :
  flat_map (flat_map events) (map (map (map_element on)) (setting_cells item))
  = when (bool_decide (setting_mutable item = Some true)) (Handler (fun v => on (SaveSetting (setting_key item) v))).
Proof.
  assert (forall l, flat_map (flat_map events) (map (map (map_element on)) l)
                    = map (map_handler on) (flat_map (flat_map events) l)) as ->.
  { intros l. rewrite flat_map_map. induction l as [|c l IH]; [done|]. cbn [flat_map]. rewrite map_app, IH. f_equal.
    rewrite flat_map_map. induction c as [|e c IHc]; [done|]. cbn [flat_map]. by rewrite map_app, events_map, IHc. }
  rewrite setting_cells_events. by destruct (bool_decide _).
Qed.

Lemma settings_offered `{Toolkit} {E} (on : settings_event -> E) (s : SettingsState) (items : list SettingItem)
    (transport : element E) (e : E) :
  offers e (SettingsView on s items transport)
  <-> e = on ReloadSettings \/ (exists current new, e = on (ChangePassword current new)) \/ offers e transport
      \/ (exists item v, item ∈ items /\ (setting_key item ∉ TRANSPORT_SETTING_KEYS)
           /\ setting_mutable item = Some true /\ e = on (SaveSetting (setting_key item) v)).
Proof.
  unfold SettingsView. rewrite !offers_called, Page_events. cbn [flat_map].
  rewrite events_map, events_Table. unfold PasswordForm, FormItem. compute_events.
  rewrite (flat_map_ext _ _ (mapped_cells_events on)). cbn [map map_handler List.app].
  rewrite called_const, called_cons, called_app, called_flat_map. setoid_rewrite called_when.
  setoid_rewrite bool_decide_eq_true. setoid_rewrite split_rows_spec. cbn [causes].
  assert ((exists v : jsstr * jsstr, on (ChangePassword (fst v) (snd v)) = e)
          <-> exists current new, e = on (ChangePassword current new)) as ->.
  { split; [intros [[c n] <-]; eauto|]. intros (c & n & ->). by exists (c, n). }
  naive_solver.
Qed.

(** C26: The settings page lets the user save exactly the settings the server calls mutable whose
    key is not one of the transport section's, each with any value; besides it offers reloading,
    changing the password and what the transport section offers. *)
Theorem settings_page_offers `{Toolkit} {E} (on : settings_event -> E) (s : SettingsState) (items : list SettingItem)
    (transport : element E) (e : E) :
  offers e (SettingsView on s items transport)
  <-> e = on ReloadSettings \/ (exists current new, e = on (ChangePassword current new)) \/ offers e transport
      \/ (exists item v, item ∈ items /\ (setting_key item ∉ TRANSPORT_SETTING_KEYS)
           /\ setting_mutable item = Some true /\ e = on (SaveSetting (setting_key item) v)).
Proof. apply settings_offered. Qed.

(** *** Executions *)

#[local] Existing Instance plain_toolkit.
#[local] Instance no_dates : Dates := {|
  parse_date := fun _ => None; toLocaleString := fun _ _ => js "-";
  toLocaleTimeString := fun _ => js "-"; toISOString := fun _ => js "-" |}.

(** Without a session the button of a page is not there. *)
Lemma dashboard_offers_witness :
  offers true (Button [] true []) /\
  ~ offers true (DashboardView (mounted empty_storage) (Text []) (Button [] true []) (fun _ => false) false).
Proof.
  split; [cbn; split; [done|]; left; left; split; [done|by exists tt]|].
  intros Ho. by apply dashboard_offers in Ho.
Defined.

Lemma settings_page_offers_witness :
  let item := {| setting_key := js "log.level"; setting_value := JStr []; setting_description := None;
                 setting_mutable := Some true |} in
  offers (SaveSetting (js "log.level") (JStr (js "debug")))
    (SettingsView id {| settings_list := not_loaded; password_form := None |} [item] (Text [])).
Proof.
  intros item. apply settings_page_offers. right. right. right. exists item, (JStr (js "debug")).
  split; [by left|]. split; [|done]. apply (bool_decide_unpack _). by_evaluation.
Defined.
