(* ===== verification/PagesViews.v ===== *)
(** What the login form and the tokens, logs and traffic pages let their user do, and that it is
    what their transition systems admit. *)

From stdpp Require Import relations.
From S2P Require Import Prelude JsString Json View WebPlatform Async JsErrors Session ApiClient DashTypes DashFormat TransportDisplay UseAsync Dashboard Pages DashViews.

Section Views.
Context `{Dates}.

Lemma LoginView_events (s : LoginState) :
  events (LoginView s)
  = when (negb (login_loading s)) (Handler (fun values => Dashboard.Submit (fst values) (snd values))).
Proof.
  unfold LoginView, FormItem. compute_events. rewrite ?orb_false_r.
  by destruct (login_loading s), (login_error s) as [[|]|].
Qed.

Lemma login_offered `{Toolkit} (s : app LoginState) (e : login_event) :
  offers e (LoginView (page s)) <-> login_enabled e s = true.
Proof.
  rewrite offers_called, LoginView_events, called_when. unfold login_enabled. cbn [causes].
  split; [by intros [? _]|]. intros Hl. split; [done|]. destruct e as [u p]. by exists (u, p).
Qed.

(** ** TokensPage *)

Lemma token_cells_events (t : Token) :
  flat_map (flat_map events) (token_cells t) = [Handler (SetTokenDisabled t); always (RemoveToken t)].
Proof. done. Qed.

Lemma TokensView_events (s : TokensState) (tokens : list Token) :
  events (TokensView s tokens)
  = [always ReloadTokens; always OpenCreate]
    ++ flat_map (fun t => [Handler (SetTokenDisabled t); always (RemoveToken t)]) tokens
    ++ (if create_open s then [always CreateToken; always CloseCreate; Handler TypeName] else [])
    ++ when (truthy (created s)) (always CloseCreated).
Proof.
  unfold TokensView, FormItem. rewrite Page_events. compute_events.
  rewrite (flat_map_ext _ _ token_cells_events). do 2 f_equal. f_equal.
  destruct (create_open s); cbn [negb orb]; f_equal; try done.
  - destruct (truthy (created s)); cbn [negb orb]; [|done]. by destruct (created s) as [[]|].
  - destruct (truthy (created s)); cbn [negb orb]; [|done]. by destruct (created s) as [[]|].
Qed.
Lemma tokens_offered `{Toolkit} (s : TokensState) (tokens : list Token) (e : tokens_event) :
  offers e (TokensView s tokens)
  <-> e = ReloadTokens \/ e = OpenCreate
      \/ (exists t, t ∈ tokens /\ (e = RemoveToken t \/ exists v, e = SetTokenDisabled t v))
      \/ (create_open s = true /\ (e = CreateToken \/ e = CloseCreate \/ exists n, e = TypeName n))
      \/ (truthy (created s) = true /\ e = CloseCreated).
Proof.
  rewrite offers_called, TokensView_events, !called_app, !called_const, called_nil, called_flat_map, called_when_const.
  setoid_rewrite called_cons. setoid_rewrite called_const. setoid_rewrite called_nil. cbn [causes].
  destruct (create_open s); rewrite ?called_const, ?called_cons, !called_nil; cbn [causes]; naive_solver.
Qed.

(** The tokens page offers reloading and the two dialogs' buttons while each is open, and of
    every listed token its switch and its removal; nothing else. *)
Theorem tokens_page_offers `{Toolkit} (s : TokensState) (tokens : list Token) (e : tokens_event) :
  offers e (TokensView s tokens)
  <-> e = ReloadTokens \/ e = OpenCreate
      \/ (exists t, t ∈ tokens /\ (e = RemoveToken t \/ exists v, e = SetTokenDisabled t v))
      \/ (create_open s = true /\ (e = CreateToken \/ e = CloseCreate \/ exists n, e = TypeName n))
      \/ (truthy (created s) = true /\ e = CloseCreated).
Proof. apply tokens_offered. Qed.

Lemma tokens_offers_enabled `{Toolkit} (s : TokensState) (tokens : list Token) (e : tokens_event) :
  offers e (TokensView s tokens) -> tokens_enabled e s = true.
Proof. rewrite tokens_offered. naive_solver. Qed.

(** ** LogsPage *)

Lemma log_cells_events (p : nat * LogEntry) : flat_map (flat_map events) (log_cells (snd p)) = [].
Proof. done. Qed.

Lemma LogsView_events (s : LogsState) (rows : list LogEntry) (total : Z) :
  events (LogsView s rows total)
  = [always ReloadLogs; Handler SearchText; Handler TypeText; always (ChooseLevel None)]
    ++ map (fun o => always (ChooseLevel (Some (fst o)))) levelOptions
    ++ [always DownloadLogs; always ClearLogs]
    ++ map (fun n => always (TurnPage n)) (seqZ 1 (page_count total)).
Proof.
  assert (forall {A B} (f : A -> B) (l : list A), flat_map (fun a => [f a]) l = map f l) as Hone.
  { intros A B f l. induction l as [|a l IH]; [done|]. cbn. by rewrite IH. }
  unfold LogsView. rewrite Page_events. cbn [flat_map]. rewrite events_Table, (flat_map_ext _ _ log_cells_events), flat_map_nil by done.
  compute_events. rewrite <-(Hone _ _ (fun n => always (TurnPage n))). done.
Qed.

(** The logs page offers reloading, the search, a level or none, downloading, clearing, and the
    pages the total number of entries has. *)
Theorem logs_page_offers `{Toolkit} (s : LogsState) (rows : list LogEntry) (total : Z) (e : logs_event) :
  offers e (LogsView s rows total)
  <-> e = ReloadLogs \/ (exists v, e = SearchText v \/ e = TypeText v) \/ e = ChooseLevel None
      \/ (exists o, o ∈ levelOptions /\ e = ChooseLevel (Some (fst o))) \/ e = DownloadLogs \/ e = ClearLogs
      \/ (exists n, (1 <= n <= page_count total)%Z /\ e = TurnPage n).
Proof.
  assert (forall A (f : A -> logs_event) (l : list A), called e (map (fun a => always (f a)) l) <-> exists a, a ∈ l /\ e = f a) as Hmap.
  { intros A f l. induction l as [|a l IH]; cbn [map].
    - rewrite called_nil. setoid_rewrite elem_of_nil. naive_solver.
    - rewrite called_const, IH. setoid_rewrite elem_of_cons. naive_solver. }
  rewrite offers_called, LogsView_events, !called_app, !Hmap.
  rewrite !called_cons, !called_nil, !causes_always. cbn [causes].
  assert (forall n, n ∈ seqZ 1 (page_count total) <-> (1 <= n <= page_count total)%Z) as Hseq.
  { intros n. rewrite elem_of_seqZ. lia. }
  setoid_rewrite Hseq. naive_solver.
Qed.

Lemma logs_offers_enabled `{Toolkit} (s : app LogsState) (rows : list LogEntry) (total : Z) (e : logs_event) :
  offers e (LogsView (page s) rows total) -> logs_enabled e s = true.
Proof.
  rewrite offers_called, LogsView_events, !called_app.
  assert (only (fun e => logs_enabled e s = true) (map (fun n => always (TurnPage n)) (seqZ 1 (page_count total)))) as Ho.
  { apply Forall_forall. intros f (n & -> & Hn)%list_elem_of_fmap e' [_ <-]. apply elem_of_seqZ in Hn. cbn. lia. }
  unfold only in Ho. rewrite Forall_forall in Ho.
  cbn [map levelOptions]. rewrite !called_cons, !called_nil, !causes_always. cbn [causes].
  intros [Hc|[Hc|[Hc|(f & Hf & Hc)]]]; [naive_solver..|by apply (Ho f)].
Qed.

(** ** TrafficPage *)

Lemma TrafficView_events (s : TrafficState) (data : option TrafficResponse) :
  events (TrafficView s data)
  = [always ReloadTraffic; always (SetRange (js "today")); always (SetRange (js "month"))].
Proof.
  assert (forall label rows, events (TrafficTable label rows : element traffic_event) = []) as Ht.
  { intros label rows. unfold TrafficTable. rewrite events_Table. by apply flat_map_nil. }
  unfold TrafficView. rewrite Page_events. cbn [flat_map]. unfold Metric, traffic_figures. compute_events.
  by rewrite !Ht.
Qed.

Lemma traffic_offered `{Toolkit} (s : app TrafficState) (data : option TrafficResponse) (e : traffic_event) :
  offers e (TrafficView (page s) data) <-> traffic_enabled e s = true.
Proof.
  rewrite offers_called, TrafficView_events, !called_const, called_nil. unfold traffic_enabled. destruct e as [r|]; [|naive_solver].
  cbn [existsb]. rewrite !orb_true_iff. unfold str_eqb. rewrite !bool_decide_eq_true. naive_solver.
Qed.

(** The traffic page offers its two ranges and reloading: exactly its transition system. *)
Theorem traffic_page_offers `{Toolkit} (s : app TrafficState) (data : option TrafficResponse) (e : traffic_event) :
  offers e (TrafficView (page s) data) <-> traffic_enabled e s = true.
Proof. apply traffic_offered. Qed.
End Views.
