(* ===== verification/ClientsView.v ===== *)
(** What the clients page displays: the rendering half of
    web/dashboard/src/pages/ClientsPage.tsx. *)

From S2P Require Import Prelude JsString JsNumber Json View WebPlatform Async JsErrors Session ApiClient DashTypes DashFormat UseAsync Dashboard ClientsPage Pages DashViews.

Local Abbreviation node := (element clients_event) (only parsing).

Section View.
Context `{Dates}.

Definition RowActions (c : Client) : list node :=
  [Button [] (ViewClient c) []; Button [] (EditClient c) [Text (js "编辑")]; Button [] (ResetToken c) [];
   Button [] (Remove c) []].

Definition client_cells (c : Client) : list (list node) :=
  [[Text (client_name c)]; [StatusTag_view (client_status c)]; [Text (client_ip c)]; [Text (client_os c)];
   [Text (client_version c)]; [Text (formatDate (Some (client_last_online c)))]; RowActions c].

Definition trafficTotal (value : TrafficSummary) : jsstr :=
  formatBytes (Some (traffic_upload value + traffic_download value)%Z).

Definition detail_tunnel_cells (t : Tunnel) : list (list node) :=
  [[Text (tunnel_name t)]; [Text (tunnel_protocol t)];
   [Text (tunnel_local_host t ++ js ":" ++ int_to_string (tunnel_local_port t))]; [StatusTag_view (tunnel_status t)]].

(** The drawer is open when there is a detail; [d] is that answer as a ClientDetail. *)
Definition ClientDrawer (isOpen : bool) (d : option ClientDetail) : node :=
  El Tag.Drawer [Named (js "title") (js "客户端详情"); Open isOpen] [(onClose, always CloseDetail)]
    match d with
    | None => []
    | Some d =>
      let c := detail_client d in
      [el Tag.Descriptions
         [Description (js "id") (js "ID") [Text (client_id c)];
          Description (js "device") (js "设备 ID") [Text (client_device_id c)];
          Description (js "status") (js "状态") [StatusTag_view (client_status c)];
          Description (js "system") (js "系统")
            [Text (js_or (client_os c) (js "-") ++ js " / " ++ js_or (client_version c) (js "-"))];
          Description (js "ip") (js "IP") [Text (js_or (client_ip c) (js "-"))];
          Description (js "connected") (js "已连接时长")
            [Text (if truthy (detail_connected_at d) then formatDuration (Some (detail_connected_seconds d)) else js "离线")];
          Description (js "today") (js "今日流量") [Text (trafficTotal (detail_today d))];
          Description (js "month") (js "本月流量") [Text (trafficTotal (detail_month d))];
          Description (js "last") (js "最后在线") [Text (formatDate (Some (client_last_online c)))]];
       el Tag.Title [Text (js "隧道")];
       Table tunnel_id [js "名称"; js "协议"; js "本地地址"; js "状态"] detail_tunnel_cells (detail_tunnels d)]
    end.

(** The dialog's own button clicks the hidden one, which submits the form. *)
Definition ClientEditor (client : option Client) : node :=
  El Tag.Modal [Named (js "title") (js "编辑客户端"); Open (present client)] [(onCancel, always CancelEdit)]
    [El Tag.Form [] [(onFinish, Handler (fun values => SaveEdit (fst values) (snd values)))]
       [FormItem (js "name") (js "名称") (el Tag.Input []); FormItem (js "disabled") (js "禁用") (el Tag.Switch []);
        El Tag.button [Named (js "id") (js "client-save"); View.Submit] [] []]].

Definition ClientsView (s : ClientsState) (clients : list Client) (d : option ClientDetail) : node :=
  Page (js "客户端") [] (loading (clients_list s)) (error (clients_list s)) (Some Reload)
    [Table client_id [js "名称"; js "状态"; js "IP"; js "系统"; js "版本"; js "最后在线"; js "操作"] client_cells clients;
     ClientDrawer (truthy (detail s)) d;
     ClientEditor (editing s);
     El Tag.Modal [Named (js "title") (js "新令牌"); Open (truthy (tokenValue s))] [(onCancel, always CloseToken)]
       [el Tag.Text match tokenValue s with Some (JStr v) => [Text v] | _ => [] end]].

(** ** Properties *)

Lemma client_cells_events (c : Client) :
  flat_map (flat_map events) (client_cells c)
  = [always (ViewClient c); always (EditClient c); always (ResetToken c); always (Remove c)].
Proof. unfold client_cells, RowActions. compute_events. by rewrite StatusTag_view_events. Qed.

Lemma ClientDrawer_events (isOpen : bool) (d : option ClientDetail) :
  events (ClientDrawer isOpen d) = when isOpen (always CloseDetail).
Proof.
  unfold ClientDrawer. destruct isOpen, d; compute_events; rewrite ?StatusTag_view_events; try done.
  rewrite flat_map_silent; [done|]. intros t. unfold detail_tunnel_cells. compute_events.
  by rewrite StatusTag_view_events.
Qed.

Lemma ClientsView_events (s : ClientsState) (clients : list Client) (d : option ClientDetail) :
  events (ClientsView s clients d)
  = always Reload
    :: flat_map (fun c => [always (ViewClient c); always (EditClient c); always (ResetToken c); always (Remove c)]) clients
    ++ when (truthy (detail s)) (always CloseDetail)
    ++ (if present (editing s)
        then [always CancelEdit; Handler (fun values => SaveEdit (fst values) (snd values))] else [])
    ++ when (truthy (tokenValue s)) (always CloseToken).
Proof.
  unfold ClientsView. rewrite Page_events. compute_events. rewrite ClientDrawer_events.
  rewrite (flat_map_ext _ _ client_cells_events). unfold ClientEditor, FormItem.
  destruct (present (editing s)), (truthy (tokenValue s)); compute_events; try done;
    destruct (tokenValue s) as [[]|]; done.
Qed.

(** The clients page offers exactly these events: reloading; for each client its details,
    its editor, a new token and its removal; closing the drawer, the editor and the token
    while they are open, and saving while the editor is. *)
Theorem clients_page_offers `{Toolkit} (s : ClientsState) (clients : list Client) (d : option ClientDetail) (e : clients_event) :
  offers e (ClientsView s clients d)
  <-> e = Reload
      \/ (exists c, c ∈ clients /\ (e = ViewClient c \/ e = EditClient c \/ e = ResetToken c \/ e = Remove c))
      \/ (truthy (detail s) = true /\ e = CloseDetail)
      \/ (present (editing s) = true /\ (e = CancelEdit \/ exists n dis, e = SaveEdit n dis))
      \/ (truthy (tokenValue s) = true /\ e = CloseToken).
Proof.
  rewrite offers_called, ClientsView_events, called_const, !called_app, called_flat_map, !called_when_const.
  setoid_rewrite called_const. setoid_rewrite called_const. setoid_rewrite called_const. setoid_rewrite called_const.
  setoid_rewrite called_nil.
  assert (called e (if present (editing s)
                    then [always CancelEdit; Handler (fun values => SaveEdit (fst values) (snd values))] else [])
          <-> present (editing s) = true /\ (e = CancelEdit \/ exists n dis, e = SaveEdit n dis)) as ->.
  { destruct (present (editing s)); rewrite ?called_const, ?called_cons, called_nil; [|naive_solver].
    assert (causes (Handler (fun values => SaveEdit (fst values) (snd values))) e <-> exists n dis, e = SaveEdit n dis) as ->; [|tauto].
    cbn. split; [intros [[n dis] <-]; eauto|]. intros (n & dis & ->). by exists (n, dis). }
  naive_solver.
Qed.
End View.

(** What the page shows its user: the events of its tree, and the dialogs of removals. *)
Definition clients_shown `{Toolkit} `{Dates} (ev : clients_event) (s : app ClientsState) : Prop :=
  match ev with
  | ConfirmRemove _ => True
  | _ => exists clients d, offers ev (ClientsView (page s) clients d)
  end.

Lemma clients_offers_enabled `{Toolkit} `{Dates} (s : app ClientsState) (clients : list Client) (d : option ClientDetail)
    (ev : clients_event) :
  offers ev (ClientsView (page s) clients d) -> clients_enabled ev s = true.
Proof.
  rewrite offers_called, ClientsView_events, called_const, !called_app, called_flat_map, !called_when_const. intros Ho.
  assert (forall A (o : option A) `{Truthy A}, truthy o = true -> present o = true) as Hp by (by intros ? [] ?).
  destruct Ho as [-> |[(c & _ & Hc)|[[Hd ->]|[He|[Ht ->]]]]]; [done|..|done].
  - rewrite !called_const, called_nil in Hc. by destruct Hc as [-> |[-> |[-> |[-> |[]]]]].
  - by apply Hp in Hd.
  - destruct (present (editing (page s))) eqn:Hpe; [|by rewrite called_nil in He].
    rewrite called_const, called_cons, called_nil in He. destruct He as [-> |[[v <-]|[]]]; done.
Qed.

(** The clients page refines its transition system: whatever its user does, the page stays
    within the reachable states, where late answers never fill the drawer. *)
Theorem clients_interface_refines `{Toolkit} `{Dates} (y0 y : sys (app ClientsState) api_call ui_effect thrown api_result) :
  rtc (presented_step clients_shown clients_handler) y0 y -> reachable_from clients_enabled clients_handler y0 y.
Proof.
  apply presented_reachable. intros ev s Hs. unfold clients_shown in Hs.
  destruct ev; try done; destruct Hs as (? & ? & ?); by eapply clients_offers_enabled.
Qed.

(** *** An execution *)

#[local] Existing Instance plain_toolkit.
#[local] Instance no_dates : Dates := {|
  parse_date := fun _ => None; toLocaleString := fun _ _ => js "-";
  toLocaleTimeString := fun _ => js "-"; toISOString := fun _ => js "-" |}.

Lemma clients_interface_refines_witness :
  let y := idle_clients in
  reachable_from clients_enabled clients_handler y (spawn (clients_handler (EditClient (sample_client (js "b"))) (st y)) y).
Proof.
  intros y. apply clients_interface_refines, rtc_once.
  apply (presented_event clients_shown clients_handler (EditClient (sample_client (js "b")))).
  exists [sample_client (js "b")], None. apply offers_called. rewrite ClientsView_events.
  exists (always (EditClient (sample_client (js "b")))). split; [|by exists tt].
  right. right. by left.
Defined.
