(* ===== verification/TransportView.v ===== *)
(** What the transport section of the settings displays: the rendering half of
    web/dashboard/src/settings/TransportSettings.tsx, and CertificateError.tsx. *)

From S2P Require Import Prelude JsString Json View WebPlatform Async JsErrors Session ApiClient DashTypes TransportDisplay UseAsync Dashboard TransportSettings Pages DashViews.

Local Abbreviation node := (element transport_event) (only parsing).

Section View.
Context `{Dates}.

Definition note (kind text : jsstr) : node := El Tag.Alert [Named (js "type") kind] [] [Text text].

(** [CertificateError] *)
Definition CertificateError (message details : option jsstr) : list node :=
  when_some message (fun m =>
    El Tag.Alert [Named (js "type") (js "error")] []
      (Text m :: when_some details (fun d => classed Tag.Text (js "certificate-error-details") [Text d]))).

Definition EndpointSummary (status : option TransportStatus) (loading : bool) : node :=
  let rows := if loading && negb (present status)
              then [row (js "loading") (js "加载中") (js "正在读取访问地址...")] else endpointRows status in
  El Tag.Descriptions [Named (js "title") (js "当前访问地址")] []
    (map (fun r => Description (row_key r) (row_label r) [Text (row_value r)]) rows).

Definition caption (title detail : jsstr) : node :=
  el Tag.Space [el Tag.Text [Text title]; el Tag.Text [Text detail]].

Definition busy_with (key : jsstr) (s : TransportState) : bool := bool_decide (busy s = Some key).

Definition TLSControls (status : option TransportStatus) (s : TransportState) : node :=
  let certReady := truthy ((status ≫= certificate) ≫= cert_domain) in
  let on := endpoint_enabled (status ≫= tls) in
  classed Tag.div (js "transport-row")
    [caption (js "TLS / HTTPS / WSS") (js "启用后立即热更新监听与访问方式；如未绑定域名，请先申请证书。");
     El Tag.Switch [Checked on; Loading (busy_with (js "tls") s); Disabled (negb certReady && negb on)]
       [(onChange, always ToggleTLS)] []].

(** [status?.certbot && !status.certbot.available], as a condition. *)
Definition certbot_unavailable (status : option TransportStatus) : bool :=
  match status ≫= certbot with Some c => negb (certbot_available c) | None => false end.

Definition CertificateForm (status : option TransportStatus) (s : TransportState) : node :=
  let cert := status ≫= certificate in
  let unavailable := certbot_unavailable status in
  let pending := certificatePending status in
  let available := match status ≫= certbot with Some c => certbot_available c | None => false end in
  let text f := js_or_def (cert ≫= f) (js "-") in
  classed Tag.div (js "transport-certificate")
    ([classed Tag.Space (js "transport-status-line")
        [el Tag.Text [Text (js "域名证书")];
         El Tag.Badge [Named (js "color") (certificateTagColor (cert ≫= cert_status))] []
           [Text (certificateStateLabel (cert ≫= cert_status))];
         El Tag.Badge [Named (js "color") (if available then js "green" else js "orange")] []
           [Text (if available then js "Certbot 可用" else js "Certbot 不可用")]]]
     ++ when unavailable
          (note (js "warning") (js_or_def ((status ≫= certbot) ≫= certbot_message)
             (js "服务器未检测到 Certbot，无法自动申请 Let's Encrypt 证书。")))
     ++ CertificateError (cert ≫= cert_error) (cert ≫= cert_details)
     ++ [el Tag.Descriptions
           [Description (js "domain") (js "绑定域名") [Text (text cert_domain)];
            Description (js "issuer") (js "签发者") [Text (text cert_issuer)];
            Description (js "notAfter") (js "到期时间")
              [Text match cert ≫= cert_not_after with
                    | Some t => if negb (truthy t) then js "-"
                                else match parse_date t with
                                     | Some d => toLocaleString (Some (js "zh-CN")) d
                                     | None => js "Invalid Date"
                                     end
                    | None => js "-"
                    end]];
         El Tag.Form [] [(onFinish, Handler (fun values => SubmitCertificate (fst values) (snd values)))]
           [FormItem (js "domain") (js "") (El Tag.Input [Disabled (unavailable || pending)] [] []);
            FormItem (js "email") (js "") (El Tag.Input [Disabled (unavailable || pending)] [] []);
            El Tag.Button
              [View.Submit; Loading (busy_with (js "certificate") s || pending || cert_submitting s); Disabled unavailable]
              [] [Text (js "申请 Let's Encrypt")]]]).

Definition AutoSubdomainControl (status : option TransportStatus) (s : TransportState) : node :=
  let cfg := status ≫= auto_subdomain in
  classed Tag.div (js "transport-auto-subdomain")
    ([classed Tag.Space (js "transport-status-line")
        [el Tag.Text [Text (js "自动子域名分配")];
         El Tag.Badge [Named (js "color") (if auto_on cfg then js "green" else js "default")] []
           [Text (autoSubdomainStatusText cfg)]];
      note (js "info") (js "只需一次配置通配符 DNS：*.根域名 指向这台服务器。开启后，新建 HTTP/HTTPS 隧道且域名留空时会自动分配；已有域名不会被修改，手动填写的显式域名优先生效。");
      El Tag.Form [] [(onFinish, Handler (fun values => SubmitAuto (fst values) (snd values)))]
        [FormItem (js "enabled") (js "")
           (El Tag.Switch [Loading (busy_with (js "auto-subdomain") s || auto_submitting s)] [] []);
         FormItem (js "base_domain") (js "") (el Tag.Input []);
         El Tag.Button [View.Submit; Loading (auto_submitting s)] [] [Text (js "保存")]]]
     ++ when_some (cfg ≫= auto_suffix_example)
          (fun example => el Tag.Text [Text (js "示例："); Text example])).

Definition PlainCompatControl (status : option TransportStatus) (s : TransportState) : node :=
  classed Tag.div (js "transport-row")
    [caption (js "兼容明文访问") (js "主 HTTP 控制台和 WS 通道会保留；此开关用于兼容额外明文监听，适合内网或旧客户端。");
     El Tag.Switch [Checked (endpoint_enabled (status ≫= compatibility_plain)); Loading (busy_with (js "plain") s)]
       [(onChange, always TogglePlain)] []].

Definition TransportView (s : app TransportState) : node :=
  let st := typed_status s in
  classed Tag.section (js "transport-settings")
    [el Tag.Title [Text (js "访问与证书")];
     note (js "info") (js "默认提供 HTTP 控制台、WS Agent 通道和明文数据通道。绑定域名并启用 TLS 后，会同时提供 HTTPS、WSS 和 TLS 数据通道。申请证书前请确认 DNS 已指向本机，公网 TCP 80 端口可访问。");
     EndpointSummary st (loading (page s)); TLSControls st (page s); CertificateForm st (page s);
     AutoSubdomainControl st (page s); PlainCompatControl st (page s)].

(** The values the forms of the section open with, and again whenever the server's change. *)
Definition auto_form_values (status : option TransportStatus) : bool * jsstr :=
  let cfg := status ≫= auto_subdomain in (auto_on cfg, js_or_def (auto_base cfg) (js "")).

(** ** Properties *)

Lemma silent_if {E} (b : bool) : (if b then [] else [] : list (handler E)) = [].
Proof. by destruct b. Qed.

Lemma silent_some {E} (o : option jsstr) :
  match o with Some a => if truthy a then [] else [] | None => [] end = ([] : list (handler E)).
Proof. by destruct o as [[|? ?]|]. Qed.

Lemma TransportView_events (s : app TransportState) :
  let st := typed_status s in
  events (TransportView s)
  = when (transport_enabled ToggleTLS s) (always ToggleTLS)
    ++ when (transport_enabled (SubmitCertificate [] []) s)
         (Handler (fun values => SubmitCertificate (fst values) (snd values)))
    ++ when (transport_enabled (SubmitAuto true []) s) (Handler (fun values => SubmitAuto (fst values) (snd values)))
    ++ when (transport_enabled TogglePlain s) (always TogglePlain).
Proof.
  intros st. unfold TransportView, EndpointSummary, TLSControls, CertificateForm, AutoSubdomainControl,
    PlainCompatControl, CertificateError, caption, note, FormItem, transport_enabled, certbot_unavailable, busy_with.
  fold st. compute_events. rewrite flat_map_nil by done.
  setoid_rewrite silent_some. rewrite silent_some, !silent_if, !app_nil_l, !app_nil_r, !orb_false_r.
  unfold is_live. cbn [disabled loading_shown existsb spins andb orb]. rewrite !orb_false_r.
  f_equal; [|f_equal].
  - by destruct (bool_decide _), (truthy _), (endpoint_enabled _).
  - rewrite ?silent_some, ?app_nil_l. destruct (st ≫= certbot) as [c|]; [destruct (certbot_available c)|];
    by destruct (bool_decide _), (certificatePending st), (cert_submitting (page s)).
Qed.

Lemma transport_offered `{Toolkit} (s : app TransportState) (e : transport_event) :
  offers e (TransportView s) <-> e <> Poll /\ transport_enabled e s = true.
Proof.
  rewrite offers_called, TransportView_events, !called_app, !called_when_const, !called_when. cbn [causes].
  destruct e as [| | |d m|w b]; split; try naive_solver; intros [_ He].
  - right. left. split; [exact He|]. by exists (d, m).
  - right. right. left. split; [exact He|]. by exists (w, b).
Qed.

(** The section offers exactly what its transition system admits, the timer apart: the TLS
    switch with a certificate or while TLS is on and no TLS request runs, the plain switch while
    none of its own runs, the certificate form while none is pending or submitted and Certbot
    is not known to be missing, the subdomain form while it is not being submitted. *)
Theorem transport_page_offers `{Toolkit} (s : app TransportState) (e : transport_event) :
  offers e (TransportView s) <-> e <> Poll /\ transport_enabled e s = true.
Proof. apply transport_offered. Qed.
End View.

(** What happens to the section: its user's events, and the timer's while a certificate is
    pending. *)
Definition transport_shown `{Toolkit} `{Dates} (ev : transport_event) (s : app TransportState) : Prop :=
  match ev with
  | Poll => certificatePending (typed_status s) = true
  | _ => offers ev (TransportView s)
  end.


(** ** Two switches, one mark *)

Definition tls_on : app TransportState :=
  {| shell := mounted empty_storage;
     page := setStatus (Some (JObj [(js "tls", JObj [(js "enabled", JBool true)])])) transport_initial |}.

(** The calls under way to a path. *)
Definition under_way (path : jsstr) (y : sys (app TransportState) api_call ui_effect thrown api_result) : nat :=
  length (List.filter (fun t => match t with TWaiting (Fetch p _) _ => str_eqb p path | _ => false end) (threads y)).

(** TLS is switched, then plain access; the TLS request is refused, and plain access is
    switched again. *)
Definition switched_twice : sys (app TransportState) api_call ui_effect thrown api_result :=
  let click ev y := spawn (transport_handler ev (st y)) y in
  let refusal n := (answering denied [] : forall c, result thrown (api_result c), n) in
  let y := click TogglePlain (click ToggleTLS (initial tls_on)) in
  click TogglePlain (schedule (map refusal [0; 1; 1; 1; 1; 1]%nat) y).

(** The switches share one mark, which whoever ends first clears: a switch can be free
    again while its own request is still under way, and be switched once more. *)
Theorem switches_share_one_mark :
  exists y, reachable transport_enabled transport_handler tls_on y
            /\ under_way (js "/api/transport/plain") y = 2%nat.
Proof.
  exists switched_twice. split; [|by_evaluation]. unfold switched_twice.
  apply (reachable_event transport_enabled transport_handler _ _ TogglePlain); [|by_evaluation].
  apply schedule_reachable.
  apply (reachable_event transport_enabled transport_handler _ _ TogglePlain); [|by_evaluation].
  apply (reachable_event transport_enabled transport_handler _ _ ToggleTLS); [|by_evaluation].
  apply rtc_refl.
Qed.

(** *** An execution *)

#[local] Existing Instance plain_toolkit.
#[local] Instance no_dates : Dates := {|
  parse_date := fun _ => None; toLocaleString := fun _ _ => js "-";
  toLocaleTimeString := fun _ => js "-"; toISOString := fun _ => js "-" |}.

