(* ===== verification/TunnelsView.v ===== *)
(** What the tunnels page displays: the rendering half of
    web/dashboard/src/pages/TunnelsPage.tsx. *)

From S2P Require Import Prelude JsString JsNumber Json View WebPlatform Async JsErrors Session ApiClient DashTypes DashFormat TransportDisplay UseAsync Dashboard TunnelsPage Pages DashViews.

#[local] Open Scope prog_scope.

(** ** What the page reacts to *)

(** [CreateTunnel] carries the ISO text of its moment and the first client's id;
    [ConfirmRemoval] is the other button of the dialog [RemoveTunnel] opens. *)
Inductive tunnels_event :=
| ReloadTunnels
| CreateTunnel (now : jsstr) (clientID : option jsstr)
| ToggleTunnel (t : Tunnel)
| EditTunnel (t : Tunnel)
| RemoveTunnel (t : Tunnel)
| ConfirmRemoval (t : Tunnel)
| CancelEditor
| SaveTunnel (values : TunnelForm).

Definition tunnels_enabled (ev : tunnels_event) (s : app TunnelsState) : bool :=
  match ev with
  | CancelEditor | SaveTunnel _ => present (editing (page s))
  | _ => true
  end.

Definition tunnels_handler (ev : tunnels_event) (s : app TunnelsState) : action TunnelsState unit :=
  match ev with
  | ReloadTunnels => reload_tunnels
  | CreateTunnel now clientID => modify (setPage (setEditing (Some (emptyTunnel now clientID))))
  | ToggleTunnel t => toggle t
  | EditTunnel t => modify (setPage (setEditing (Some t)))
  | RemoveTunnel t => remove t
  | ConfirmRemoval t => remove_confirmed t
  | CancelEditor => modify (setPage (setEditing None))
  | SaveTunnel values => submit s values
  end.

(** ** The tree *)

Local Abbreviation node := (element tunnels_event) (only parsing).

(** A rendering that may throw, item by item. *)
Fixpoint each {A B} (f : A -> result thrown B) (l : list A) : result thrown (list B) :=
  match l with
  | [] => Ok []
  | a :: rest => match f a, each f rest with
                 | Ok b, Ok bs => Ok (b :: bs)
                 | Err e, _ => Err e
                 | _, Err e => Err e
                 end
  end.

Section View.
Context (origin : jsstr).

Definition endpoint_view (c : endpoint_cell) : node :=
  match c with
  | PlainText text => Text text
  | Link url => El Tag.a [Named (js "href") url; Named (js "target") (js "_blank"); Named (js "rel") (js "noreferrer")]
                  [] [Text url]
  end.

Definition Actions (t : Tunnel) : list node :=
  [Button [] (ToggleTunnel t) []; Button [] (EditTunnel t) [Text (js "编辑")]; Button [] (RemoveTunnel t) []].

Definition tunnel_cells (row : Tunnel * endpoint_cell) : list (list node) :=
  let '(t, remote) := row in
  [[Text (tunnel_name t)]; [Text (toUpperCase (tunnel_protocol t))]; [Text (tunnel_client_id t)];
   [Text (tunnel_local_host t ++ js ":" ++ int_to_string (tunnel_local_port t))]; [endpoint_view remote];
   [StatusTag_view (tunnel_status t)]; Actions t].

Definition tunnelProtocols : list jsstr :=
  [js "tcp"; js "p2p"; js "http"; js "https"; js "udp"; js "visitor_webrtc"].

Definition protocol_label (value : jsstr) : jsstr :=
  if str_eqb value (js "p2p") then js "P2P"
  else if str_eqb value (js "visitor_webrtc") then js "访客 WebRTC" else toUpperCase value.

Definition Select (options : list (jsstr * list node)) : node :=
  el Tag.Select (map (fun o => El Tag.Option [Key (fst o)] [] (snd o)) options).

Definition InputNumber (off : bool) (min max : Z) : node :=
  El Tag.InputNumber [Disabled off; Named (js "min") (int_to_string min); Named (js "max") (int_to_string max)] [] [].

Definition TunnelFields (clients : list Client) (autoSubdomain : option TransportAutoSubdomain)
    (protocol : option jsstr) (suggestAutoDomain : bool) : list node :=
  let visitor := bool_decide (protocol = Some (js "visitor_webrtc")) in
  let info text := El Tag.Alert [Named (js "type") (js "info")] [] [Text text] in
  [FormItem (js "name") (js "名称") (el Tag.Input []);
   FormItem (js "client_id") (js "客户端") (Select (map (fun c => (client_id c, [Text (client_name c)])) clients));
   FormItem (js "protocol") (js "协议") (Select (map (fun p => (p, [Text (protocol_label p)])) tunnelProtocols))]
  ++ when (bool_decide (protocol = Some (js "p2p")))
       (info (js "P2P 优先通过公网 UDP 打洞直连 Agent，失败后自动回退 Relay。"))
  ++ when visitor
       (info (js "浏览器打开访客地址后，通过 WebRTC DataChannel 直连 Agent，加载本地完整网页及其资源和 API 请求。"))
  ++ [FormItem (js "status") (js "状态")
        (Select (map (fun v => (v, property_text (statusText (Some v)))) [js "stopped"; js "running"]));
      FormItem (js "local_host") (js "本地地址") (el Tag.Input []);
      FormItem (js "local_port") (js "本地端口") (InputNumber false 1 65535);
      FormItem (js "remote_port") (js "远端端口")
        (InputNumber visitor (if needsRemotePort protocol then 1 else 0)%Z 65535);
      FormItem (js "domain") (js "域名")
        (El Tag.Input (when suggestAutoDomain (Named (js "placeholder") (js "留空自动生成，填写则优先生效"))) [] []);
      el Tag.Text (when suggestAutoDomain (Text (autoSubdomainHint autoSubdomain)))].

(** [watched] is the protocol field of the form, [undefined] before the form is there. The
    dialog's own button clicks the hidden one. *)
Definition TunnelEditor (tunnel : option Tunnel) (clients : list Client) (autoSubdomain : option TransportAutoSubdomain)
    (watched : option jsstr) : node :=
  let protocol := js_or watched (tunnel_protocol <$> tunnel) in
  let existing := truthy (tunnel_id <$> tunnel) in
  let suggestAutoDomain := negb existing && shouldSuggestAutoDomain protocol autoSubdomain in
  El Tag.Modal [Named (js "title") (if existing then js "编辑隧道" else js "创建隧道"); Open (present tunnel)]
    [(onCancel, always CancelEditor)]
    [El Tag.Form [] [(onFinish, Handler SaveTunnel)]
       [classed Tag.div (js "form-grid") (TunnelFields clients autoSubdomain protocol suggestAutoDomain);
        FormItem (js "ip_allowlist_text") (js "IP 白名单")
          (El Tag.Input [Named (js "placeholder") (js "逗号分隔，留空为不限")] [] []);
        El Tag.button [Named (js "id") (js "tunnel-save"); View.Submit] [] []]].

(** A tunnel whose visitor address cannot be written makes the whole page throw. *)
Definition TunnelsView (s : TunnelsState) (tunnels : list Tunnel) (clients : list Client)
    (autoSubdomain : option TransportAutoSubdomain) (watched : option jsstr) : result thrown node :=
  result_bind (each (TunnelEndpoint origin) tunnels) (fun remotes => Ok
    (Page (js "隧道")
       [El Tag.Button [] [(onClick, Handler (fun now => CreateTunnel now (client_id <$> head clients)))] [Text (js "创建")]]
       (loading (tunnels_list s)) (error (tunnels_list s)) (Some ReloadTunnels)
       [Table (fun row => tunnel_id (fst row))
          [js "名称"; js "协议"; js "客户端"; js "本地地址"; js "远端地址"; js "状态"; js "操作"] tunnel_cells
          (combine tunnels remotes);
        TunnelEditor (editing s) clients autoSubdomain watched])).
End View.

(** ** Properties *)

Lemma each_length {A B} (f : A -> result thrown B) (l : list A) (bs : list B) :
  each f l = Ok bs -> length bs = length l.
Proof.
  revert bs. induction l as [|a l IH]; cbn; intros bs; [by intros [= <-]|].
  destruct (f a), (each f l); intros [= <-]. cbn. by rewrite (IH _ eq_refl).
Qed.

Lemma each_ok {A B} (f : A -> result thrown B) (l : list A) :
  (exists bs, each f l = Ok bs) <-> Forall (fun a => exists b, f a = Ok b) l.
Proof.
  induction l as [|a l IH]; cbn.
  - split; [by constructor|by exists []].
  - rewrite Forall_cons, <-IH. destruct (f a) as [b|e], (each f l) as [bs|e']; naive_solver.
Qed.

Lemma each_err {A B} (f : A -> result thrown B) (l : list A) (e : thrown) :
  each f l = Err e -> exists a, a ∈ l /\ f a = Err e.
Proof.
  induction l as [|a l IH]; [done|]. cbn. destruct (f a) as [b|e'] eqn:Ha, (each f l) as [bs|e''];
    intros [= <-]; try (exists a; split; [by left|done]).
  destruct (IH eq_refl) as (a' & ? & ?). exists a'. split; [by right|done].
Qed.

Lemma tunnel_cells_events (row : Tunnel * endpoint_cell) :
  flat_map (flat_map events) (tunnel_cells row)
  = [always (ToggleTunnel (fst row)); always (EditTunnel (fst row)); always (RemoveTunnel (fst row))].
Proof.
  destruct row as [t remote]. unfold tunnel_cells, Actions. compute_events. rewrite StatusTag_view_events.
  by destruct remote.
Qed.

Lemma combine_events {A B C} (f : A -> list C) (l : list A) (l' : list B) :
  length l' = length l -> flat_map (fun p => f (fst p)) (combine l l') = flat_map f l.
Proof.
  revert l'. induction l as [|a l IH]; intros [|b l'] Hl; cbn in *; try done. by rewrite IH by lia.
Qed.

Lemma FormItem_events {E} (name label : jsstr) (input : element E) :
  events (FormItem name label input) = events input.
Proof. unfold FormItem. by compute_events. Qed.

Lemma Select_events {A} (f : A -> jsstr * list (element tunnels_event)) (l : list A) :
  (forall a, flat_map events (snd (f a)) = []) -> events (Select (map f l)) = [].
Proof. intros Hf. unfold Select. compute_events. by apply flat_map_nil. Qed.

Lemma TunnelFields_events (clients : list Client) (auto : option TransportAutoSubdomain) (protocol : option jsstr)
    (suggest : bool) :
  flat_map events (TunnelFields clients auto protocol suggest) = [].
Proof.
  unfold TunnelFields. rewrite !flat_map_app, !flat_map_when. cbn [flat_map]. rewrite !FormItem_events.
  rewrite !Select_events by (intros; done || apply property_text_events).
  by destruct (bool_decide _), (bool_decide _), suggest.
Qed.

Lemma TunnelEditor_events (tunnel : option Tunnel) (clients : list Client) (auto : option TransportAutoSubdomain)
    (watched : option jsstr) :
  events (TunnelEditor tunnel clients auto watched)
  = if present tunnel then [always CancelEditor; Handler SaveTunnel] else [].
Proof.
  unfold TunnelEditor. destruct tunnel as [t|]; [|done]. cbv zeta. cbn [present].
  generalize (js_or watched (tunnel_protocol <$> Some t)). intros protocol.
  compute_events. rewrite TunnelFields_events. compute_events. by rewrite !orb_true_r.
Qed.

Lemma TunnelsView_events (origin : jsstr) (s : TunnelsState) (tunnels : list Tunnel) (clients : list Client)
    (auto : option TransportAutoSubdomain) (watched : option jsstr) (v : element tunnels_event) :
  TunnelsView origin s tunnels clients auto watched = Ok v ->
  events v
  = always ReloadTunnels :: Handler (fun now => CreateTunnel now (client_id <$> head clients))
    :: flat_map (fun t => [always (ToggleTunnel t); always (EditTunnel t); always (RemoveTunnel t)]) tunnels
    ++ (if present (editing s) then [always CancelEditor; Handler SaveTunnel] else []).
Proof.
  unfold TunnelsView. destruct (each _ _) as [remotes|e] eqn:He; [|done]. cbn [result_bind]. intros [= <-].
  apply each_length in He. rewrite Page_events. compute_events. rewrite TunnelEditor_events.
  rewrite (flat_map_ext _ _ tunnel_cells_events).
  by rewrite (combine_events (fun t => [always (ToggleTunnel t); always (EditTunnel t); always (RemoveTunnel t)])).
Qed.

Lemma tunnels_offered `{Toolkit} (origin : jsstr) (s : TunnelsState) (tunnels : list Tunnel) (clients : list Client)
    (auto : option TransportAutoSubdomain) (watched : option jsstr) (v : element tunnels_event) (e : tunnels_event) :
  TunnelsView origin s tunnels clients auto watched = Ok v ->
  offers e v
  <-> e = ReloadTunnels \/ (exists now, e = CreateTunnel now (client_id <$> head clients))
      \/ (exists t, t ∈ tunnels /\ (e = ToggleTunnel t \/ e = EditTunnel t \/ e = RemoveTunnel t))
      \/ (present (editing s) = true /\ (e = CancelEditor \/ exists values, e = SaveTunnel values)).
Proof.
  intros Hv. rewrite offers_called, (TunnelsView_events _ _ _ _ _ _ _ Hv), called_const, called_cons, called_app,
    called_flat_map. cbn [causes].
  setoid_rewrite called_const. setoid_rewrite called_const. setoid_rewrite called_const. setoid_rewrite called_nil.
  assert (called e (if present (editing s) then [always CancelEditor; Handler SaveTunnel] else [])
          <-> present (editing s) = true /\ (e = CancelEditor \/ exists values, e = SaveTunnel values)) as ->.
  { destruct (present (editing s)); rewrite ?called_const, ?called_cons, called_nil; cbn [causes]; naive_solver. }
  naive_solver.
Qed.

(** Whether a visitor tunnel's address can be written: its id and its token are texts a URL
    can hold. *)
Definition addressable (t : Tunnel) : Prop :=
  tunnel_protocol t = js "visitor_webrtc" -> truthy (tunnel_visitor_token t) = true ->
  is_Some (encodeURIComponent (tunnel_id t)) /\ is_Some (tunnel_visitor_token t ≫= encodeURIComponent).

Lemma endpoint_ok (origin : jsstr) (t : Tunnel) :
  (exists c, TunnelEndpoint origin t = Ok c) <-> addressable t.
Proof.
  unfold TunnelEndpoint, visitorURL, addressable, str_eqb.
  destruct (bool_decide_reflect (tunnel_protocol t = js "visitor_webrtc")) as [Hp|Hp]; cbn [negb]; [|naive_solver].
  destruct (tunnel_visitor_token t) as [[|k ks]|]; cbn -[encodeURIComponent].
  1, 3: by split; [intros _ ? ?|intros _; eexists].
  destruct (encodeURIComponent (tunnel_id t)) as [i|].
  - destruct (encodeURIComponent (k :: ks)) as [u|]; [|split; [by intros []|]].
    + split; [done|]. intros _. destruct (truthy _); eauto.
    + intros Ha. destruct (Ha Hp eq_refl) as [_ [? ?]]. done.
  - split; [by intros []|]. intros Ha. destruct (Ha Hp eq_refl) as [[? ?] _]. done.
Qed.

Lemma endpoint_err (origin : jsstr) (t : Tunnel) (e : thrown) :
  TunnelEndpoint origin t = Err e -> e = TError (js "URI malformed").
Proof. unfold TunnelEndpoint, visitorURL. intros H. by repeat case_match; simplify_eq. Qed.


(** ** The page as its user meets it *)

Local Abbreviation tunnels_sys := (sys (app TunnelsState) api_call ui_effect thrown api_result) (only parsing).

(** The events of its tree, for whatever data it was given, and the dialogs of removals. *)
Definition tunnels_shown `{Toolkit} (ev : tunnels_event) (s : app TunnelsState) : Prop :=
  match ev with
  | ConfirmRemoval _ => True
  | _ => exists origin tunnels clients auto watched v,
           TunnelsView origin (page s) tunnels clients auto watched = Ok v /\ offers ev v
  end.

Lemma tunnels_shown_enabled `{Toolkit} (ev : tunnels_event) (s : app TunnelsState) :
  tunnels_shown ev s -> tunnels_enabled ev s = true.
Proof.
  intros Hs. destruct ev; try done; destruct Hs as (o & ts & cs & a & w & v & Hv & Ho);
    apply (tunnels_offered _ _ _ _ _ _ _ _ Hv) in Ho; naive_solver.
Qed.

Definition tunnels_loading (s : app TunnelsState) : bool := loading (view tunnels_hook s).

Lemma reload_tunnels_discharges (owes : bool) : discharges tunnels_loading owes reload_tunnels.
Proof. apply load_discharges. by apply tunnels_loader_frame. Qed.

Lemma then_reload_discharges {A} (call : action TunnelsState A) (f : A -> action TunnelsState unit) :
  preserves tunnels_loading call -> (forall a, discharges tunnels_loading false (f a)) ->
  discharges tunnels_loading false (let* a := await_fn call in f a).
Proof. intros Hc Hf. apply discharges_bind; [|done]. by apply discharges_preserves, preserves_await_fn. Qed.

Lemma tunnels_discharges (ev : tunnels_event) (s : app TunnelsState) :
  discharges tunnels_loading false (tunnels_handler ev s).
Proof.
  pose proof (discharges_await_fn _ _ _ (reload_tunnels_discharges false)) as Hload.
  destruct ev as [|now c|t|t|t|t| |v]; cbn [tunnels_handler]; try (apply discharges_preserves; done).
  - apply reload_tunnels_discharges.
  - unfold toggle. case_match; apply then_reload_discharges; by (apply preserves_request || intros _).
  - apply then_reload_discharges; [by apply preserves_request|intros _]. by apply discharges_bind.
  - rewrite submit_unfold. apply then_reload_discharges; [by apply preserves_request|intros _].
    by apply discharges_modify_bind.
Qed.

(** The page as mounting leaves it: the lists are being loaded. *)
Definition tunnels_mounted (b : browser) : tunnels_sys :=
  spawn reload_tunnels (initial {| shell := b; page := {| tunnels_list := not_loaded; editing := None |} |}).

(** Whatever its user does, the page stays within its transition system, and it is never stuck
    loading: while it shows the spinner some load is under way that takes it away. *)
Theorem tunnels_interface_settles `{Toolkit} (b : browser) (y : tunnels_sys) :
  rtc (presented_step tunnels_shown tunnels_handler) (tunnels_mounted b) y ->
  reachable_from tunnels_enabled tunnels_handler (tunnels_mounted b) y
  /\ (tunnels_loading (st y) = true -> exists t, t ∈ threads y /\ thread_discharges tunnels_loading true t).
Proof.
  intros Hy. apply (presented_reachable _ tunnels_enabled) in Hy; [|apply tunnels_shown_enabled].
  split; [done|]. apply promise_inv_owed.
  eapply (promise_invariant tunnels_enabled tunnels_handler); [| |exact Hy].
  - eapply (exec_discharges _ _ true); [|constructor|by right]. apply reload_tunnels_discharges.
  - intros ev s _. apply tunnels_discharges.
Qed.

(** *** An overtaken save *)

Definition edited (t : Tunnel) : app TunnelsState := tunnels_page (Some t).

(** Saving is on its way, the editor was closed and opened on another tunnel. *)
Definition saving_elsewhere : tunnels_sys :=
  let click ev y := spawn (tunnels_handler ev (st y)) y in
  let t := sample_tunnel [] in
  click (EditTunnel (visitor_tunnel (js "t2") (js "k")))
    (click CancelEditor (click (SaveTunnel (initial_values t)) (initial (edited t)))).

Definition accepting : forall c, result thrown (api_result c) := answering (response 204 (js "No Content")) [].

(** A save that was overtaken closes the editor of another tunnel: when its answer
    arrives, whatever editor is open by then goes, with what was typed in it. *)
Theorem late_save_closes_editor :
  exists y other answer, reachable tunnels_enabled tunnels_handler (edited (sample_tunnel [])) y
    /\ editing (page (st y)) = Some other /\ tunnel_id other <> tunnel_id (sample_tunnel [])
    /\ editing (page (st (advance answer 0 y))) = None.
Proof.
  exists (schedule [(accepting, 0%nat)] saving_elsewhere), (visitor_tunnel (js "t2") (js "k")), accepting.
  split; [|split; [by_evaluation|split; [vm_compute; discriminate|by_evaluation]]].
  apply schedule_reachable. unfold saving_elsewhere.
  apply (reachable_event tunnels_enabled tunnels_handler _ _ (EditTunnel _)); [|done].
  apply (reachable_event tunnels_enabled tunnels_handler _ _ CancelEditor); [|by_evaluation].
  apply (reachable_event tunnels_enabled tunnels_handler _ _ (SaveTunnel _)); [|by_evaluation].
  apply rtc_refl.
Qed.

(** *** An execution *)

#[local] Existing Instance plain_toolkit.

Lemma tunnels_interface_settles_witness :
  let y := tunnels_mounted (mounted empty_storage) in
  tunnels_loading (st y) = true /\ exists t, t ∈ threads y /\ thread_discharges tunnels_loading true t.
Proof.
  intros y. split; [by_evaluation|].
  apply (tunnels_interface_settles (mounted empty_storage) y); [apply rtc_refl|by_evaluation].
Defined.

