(* ===== verification/Forms.v ===== *)
(** The forms: the rules their fields have in the pages, and the editor of a tunnel as its user
    meets it (the editor of web/dashboard/src/pages/TunnelsPage.tsx, the fields of LoginPage.tsx,
    SettingsPage.tsx, TransportSettings.tsx and of the desktop's SettingsView.tsx). *)

From stdpp Require Import relations.
From S2P Require Import Prelude JsString WebPlatform DashTypes TunnelsPage TunnelsView.

(** ** The library's rules *)

(** What a field holds: a text, or the number of an InputNumber; [None] when it was cleared or
    never filled. *)
Inductive value := Entry (text : option jsstr) | Figure (n : option Z).

(** The members of a rule the pages use, and the rules of a field. *)
Record rule := { required : bool; min_length : nat; email : bool }.

Definition needed : rule := {| required := true; min_length := 0; email := false |}.
Definition optional : rule := {| required := false; min_length := 0; email := false |}.

Definition filled (v : value) : bool :=
  match v with Entry (Some s) => truthy s | Figure (Some _) => true | _ => false end.

(** The documented behaviour of the form library the pages rely on: a required field must be
    filled, a text has its least length, an address has its sign, and an InputNumber changes to
    nothing or to a number within its bounds. *)
Class FormLibrary := {
  accepts : rule -> value -> bool;
  typed : Z -> Z -> option Z -> bool;
  accepts_required : forall r v, required r = true -> accepts r v = true -> filled v = true;
  accepts_length : forall r s, accepts r (Entry (Some s)) = true -> s <> [] -> (min_length r <= length s)%nat;
  accepts_email : forall r s, email r = true -> accepts r (Entry (Some s)) = true -> s <> [] -> 64%N ∈ s;
  typed_bounds : forall l h n, typed l h (Some n) = true -> (l <= n <= h)%Z
}.

(** A form calls [onFinish] when every field is accepted. *)
Definition finishes `{FormLibrary} (fields : list (rule * value)) : bool :=
  forallb (fun p => accepts (fst p) (snd p)) fields.

(** ** The fields of the forms *)

Definition login_fields (username password : jsstr) : list (rule * value) :=
  [(needed, Entry (Some username)); (needed, Entry (Some password))].

Definition long_password : rule := {| required := true; min_length := 12; email := false |}.
Definition password_fields (current password : jsstr) : list (rule * value) :=
  [(needed, Entry (Some current));
   (long_password, Entry (Some password))].

Definition address_rule : rule := {| required := true; min_length := 0; email := true |}.
Definition certificate_fields (domain address : jsstr) : list (rule * value) :=
  [(needed, Entry (Some domain)); (address_rule, Entry (Some address))].

(** The name of a token, and the one of a client. *)
Definition name_fields (name : jsstr) : list (rule * value) := [(needed, Entry (Some name))].

(** The network and the connection panel of the desktop's settings. *)
Definition network_fields (serverUrl dataAddress transport quicAddress : option jsstr) : list (rule * value) :=
  [(needed, Entry serverUrl); (needed, Entry dataAddress); (optional, Entry transport); (optional, Entry quicAddress)].
Definition connection_fields (name deviceId token : option jsstr) : list (rule * value) :=
  [(optional, Entry name); (optional, Entry deviceId); (needed, Entry token)].

Definition remote_port_rule (protocol : jsstr) : rule :=
  {| required := needsRemotePort (Some protocol); min_length := 0; email := false |}.

Definition tunnel_fields (f : TunnelForm) : list (rule * value) :=
  [(needed, Entry (Some (form_name f))); (needed, Entry (Some (form_client_id f)));
   (needed, Entry (Some (form_protocol f))); (optional, Entry (form_status f));
   (needed, Entry (Some (form_local_host f))); (needed, Figure (form_local_port f));
   (remote_port_rule (form_protocol f), Figure (form_remote_port f));
   (optional, Entry (form_domain f)); (optional, Entry (form_ip_allowlist_text f))].

(** ** The editor of a tunnel *)

(** What its user can change. *)
Inductive edit :=
| EditName (v : jsstr)
| EditClient (v : jsstr)
| EditProtocol (v : jsstr)
| EditStatus (v : jsstr)
| EditLocalHost (v : jsstr)
| EditLocalPort (v : option Z)
| EditRemotePort (v : option Z)
| EditDomain (v : jsstr)
| EditAllowlist (v : jsstr).

Definition with_fields (n c p : jsstr) (s : option jsstr) (h : jsstr) (l r : option Z) (d a : option jsstr) : TunnelForm :=
  {| form_name := n; form_client_id := c; form_protocol := p; form_status := s; form_local_host := h;
     form_local_port := l; form_remote_port := r; form_domain := d; form_ip_allowlist_text := a |}.

(** A changed field; the effect follows a change of the protocol. *)
Definition edit_step (e : edit) (f : TunnelForm) : TunnelForm :=
  let '{| form_name := n; form_client_id := c; form_protocol := p; form_status := s; form_local_host := h;
          form_local_port := l; form_remote_port := r; form_domain := d; form_ip_allowlist_text := a |} := f in
  match e with
  | EditName v => with_fields v c p s h l r d a
  | EditClient v => with_fields n v p s h l r d a
  | EditProtocol v =>
    if str_eqb v p then f else editor_effect (Some v) (with_fields n c v s h l r d a)
  | EditStatus v => with_fields n c p (Some v) h l r d a
  | EditLocalHost v => with_fields n c p s v l r d a
  | EditLocalPort v => with_fields n c p s h v r d a
  | EditRemotePort v => with_fields n c p s h l v d a
  | EditDomain v => with_fields n c p s h l r (Some v) a
  | EditAllowlist v => with_fields n c p s h l r d (Some v)
  end.

(** The editor opens with the tunnel's values, and its effect runs. *)
Definition opened (t : Tunnel) : TunnelForm := editor_effect (Some (tunnel_protocol t)) (initial_values t).

Section Editor.
Context `{FormLibrary} (clients : list Client).

(** The selects offer their options, the ports are InputNumbers, and a visitor tunnel's remote
    port cannot be changed. *)
Definition edit_offered (f : TunnelForm) (e : edit) : bool :=
  match e with
  | EditClient v => bool_decide (v ∈ client_id <$> clients)
  | EditProtocol v => bool_decide (v ∈ tunnelProtocols)
  | EditStatus v => bool_decide (v ∈ [js "stopped"; js "running"])
  | EditLocalPort v => typed 1 65535 v
  | EditRemotePort v =>
    negb (str_eqb (form_protocol f) (js "visitor_webrtc"))
    && typed (if needsRemotePort (Some (form_protocol f)) then 1 else 0) 65535 v
  | _ => true
  end.

Inductive edited_step (f : TunnelForm) : TunnelForm -> Prop :=
| edited_by e : edit_offered f e = true -> edited_step f (edit_step e f).

(** ** Properties *)

(** A field is among those of its form. *)
Ltac in_fields := first [apply list_elem_of_here | apply list_elem_of_further; in_fields | done].

Lemma finishes_accepts (fields : list (rule * value)) (r : rule) (v : value) :
  finishes fields = true -> (r, v) ∈ fields -> accepts r v = true.
Proof.
  intros Hf Hin. unfold finishes in Hf. rewrite forallb_forall in Hf. by apply (Hf (r, v)), list_elem_of_In.
Qed.

Lemma finishes_filled (fields : list (rule * value)) (r : rule) (v : value) :
  finishes fields = true -> (r, v) ∈ fields -> required r = true -> filled v = true.
Proof. intros Hf Hin Hr. apply (accepts_required r); [done|]. by eapply finishes_accepts. Qed.

Lemma finishes_text (fields : list (rule * value)) (r : rule) (s : jsstr) :
  finishes fields = true -> (r, Entry (Some s)) ∈ fields -> required r = true -> s <> [].
Proof. intros Hf Hin Hr ->. by pose proof (finishes_filled _ _ _ Hf Hin Hr). Qed.

(** What the short forms let through: a login has both its texts; a password is changed for one of
    at least twelve characters; a certificate is asked for a domain, with an address; tokens and
    clients have names; and the desktop saves no empty server, data address or token. *)
Theorem short_forms_filled :
  (forall u p, finishes (login_fields u p) = true -> u <> [] /\ p <> [])
  /\ (forall c p, finishes (password_fields c p) = true -> c <> [] /\ (12 <= length p)%nat)
  /\ (forall d a, finishes (certificate_fields d a) = true -> d <> [] /\ 64%N ∈ a)
  /\ (forall n, finishes (name_fields n) = true -> n <> [])
  /\ (forall u a t q, finishes (network_fields u a t q) = true -> filled (Entry u) = true /\ filled (Entry a) = true)
  /\ (forall n i t, finishes (connection_fields n i t) = true -> filled (Entry t) = true).
Proof.
  split; [|split; [|split; [|split; [|split]]]].
  - intros u p Hf. split; eapply (finishes_text _ needed); try exact Hf; in_fields.
  - intros c p Hf. split; [eapply (finishes_text _ needed); try exact Hf; in_fields|].
    apply (accepts_length long_password); [|eapply (finishes_text _ long_password); try exact Hf; in_fields].
    eapply finishes_accepts; [exact Hf|in_fields].
  - intros d a Hf. split; [eapply (finishes_text _ needed); try exact Hf; in_fields|].
    apply (accepts_email address_rule); [done| |eapply (finishes_text _ address_rule); try exact Hf; in_fields].
    eapply finishes_accepts; [exact Hf|in_fields].
  - intros n Hf. eapply (finishes_text _ needed); try exact Hf; in_fields.
  - intros u a t q Hf. split; eapply (finishes_filled _ needed); try exact Hf; in_fields.
  - intros n i t Hf. eapply (finishes_filled _ needed); try exact Hf; in_fields.
Qed.

(** *** The ports of the editor *)

Definition port (l : Z) (v : option Z) : Prop := forall n, v = Some n -> (l <= n <= 65535)%Z.

Definition is_visitor (p : jsstr) : bool := str_eqb p (js "visitor_webrtc").

Definition lowest (p : jsstr) : Z := if needsRemotePort (Some p) then 1 else 0.

(** What the form holds at any time. *)
Record form_ok (t : Tunnel) (f : TunnelForm) : Prop := {
  form_local : port 1 (form_local_port f);
  form_remote : port (lowest (form_protocol f)) (form_remote_port f);
  form_visitor : is_visitor (form_protocol f) = true -> form_remote_port f = Some 0%Z;
  form_known : form_protocol f = tunnel_protocol t \/ form_protocol f ∈ tunnelProtocols
}.

(** A tunnel the server may have sent. *)
Definition ports_sane (t : Tunnel) : Prop := (1 <= tunnel_local_port t <= 65535 /\ 0 <= tunnel_remote_port t <= 65535)%Z.

Lemma visitor_lowest (p : jsstr) : is_visitor p = true -> lowest p = 0%Z.
Proof. intros Hp. apply bool_decide_eq_true in Hp as ->. by_evaluation. Qed.

Lemma effect_fields (p : option jsstr) (f : TunnelForm) :
  form_protocol (editor_effect p f) = form_protocol f /\ form_local_port (editor_effect p f) = form_local_port f.
Proof. unfold editor_effect. by repeat case_bool_decide. Qed.

(** After the effect the remote port fits the protocol, whatever it was for the one before. *)
Lemma effect_remote (f : TunnelForm) :
  port 0 (form_remote_port f) ->
  let g := editor_effect (Some (form_protocol f)) f in
  port (lowest (form_protocol f)) (form_remote_port g)
  /\ (is_visitor (form_protocol f) = true -> form_remote_port g = Some 0%Z).
Proof.
  intros Hr. unfold editor_effect. cbv zeta. case_bool_decide as Hv.
  - injection Hv as Hv. rewrite Hv. split; [|done]. intros n [= <-]. by vm_compute.
  - assert (is_visitor (form_protocol f) = false) as Hn by (apply bool_decide_eq_false; congruence).
    rewrite Hn. split; [|done]. case_bool_decide as Hz.
    + intros n [= <-]. unfold lowest. destruct (needsRemotePort _); lia.
    + intros n Hnr. pose proof (Hr n Hnr). assert (n <> 0%Z) by congruence. unfold lowest. destruct (needsRemotePort _); lia.
Qed.

Lemma opened_ok (t : Tunnel) : ports_sane t -> form_ok t (opened t).
Proof.
  intros [Hl Hr]. destruct (effect_fields (Some (tunnel_protocol t)) (initial_values t)) as [Hp Hlp].
  destruct (effect_remote (initial_values t)) as [Hre Hv]; [by intros n [= <-]|].
  split; unfold opened; rewrite ?Hp, ?Hlp; [by intros n [= <-]|done|done|by left].
Qed.

Lemma edit_keeps (t : Tunnel) (f : TunnelForm) (e : edit) :
  form_ok t f -> edit_offered f e = true -> form_ok t (edit_step e f).
Proof.
  destruct f as [n c p s h l r d a]. intros [Hl Hr Hv Hk] He. cbn [form_local_port form_remote_port form_protocol] in *.
  destruct e as [v|v|v|v|v|v|v|v|v]; cbn [edit_step edit_offered] in *; try by split.
  - destruct (str_eqb v p); [by split|]. apply bool_decide_eq_true in He.
    destruct (effect_fields (Some v) (with_fields n c v s h l r d a)) as [Hp Hlp].
    destruct (effect_remote (with_fields n c v s h l r d a)) as [Hre Hvi].
    { intros m Hm. pose proof (Hr m Hm). unfold lowest in *. destruct (needsRemotePort _); lia. }
    split; rewrite ?Hp, ?Hlp; [done|exact Hre|exact Hvi|by right].
  - split; [|done..]. intros m [= ->]. by apply typed_bounds in He.
  - cbn [form_protocol] in He. apply andb_true_iff in He as [Hnv Ht]. apply negb_true_iff in Hnv.
    split; [done| |by unfold is_visitor; cbn; rewrite Hnv|done]. intros m [= ->]. by apply typed_bounds in Ht.
Qed.

Lemma edited_ok (t : Tunnel) (f : TunnelForm) : ports_sane t -> rtc edited_step (opened t) f -> form_ok t f.
Proof.
  intros Ht Hf. pose proof (opened_ok t Ht) as H0. revert H0. induction Hf as [|f g k [e He] _ IH]; [done|].
  intros Hok. by apply IH, edit_keeps.
Qed.

End Editor.

(** *** An edit *)

(** A library that does no more than it must. *)
Definition plain_forms : FormLibrary.
Proof.
  refine {| accepts := fun r v => implb (required r) (filled v)
              && match v with
                 | Entry (Some s) => implb (truthy s) ((min_length r <=? length s)%nat && implb (email r) (bool_decide (64%N ∈ s)))
                 | _ => true
                 end;
            typed := fun l h v => match v with Some n => (l <=? n)%Z && (n <=? h)%Z | None => true end |}.
  - intros r v Hr. rewrite Hr. by intros [? _]%andb_true_iff.
  - intros r [|c s] [_ Ha]%andb_true_iff Hs; [done|]. apply andb_true_iff in Ha as [Ha _]. by apply Nat.leb_le.
  - intros r [|c s] Hr [_ Ha]%andb_true_iff Hs; [done|]. apply andb_true_iff in Ha as [_ Ha]. rewrite Hr in Ha.
    by apply bool_decide_eq_true in Ha.
  - intros l h n [? ?]%andb_true_iff. lia.
Defined.

#[local] Existing Instance plain_forms.

(** A web tunnel without a remote port becomes a UDP one. *)
Definition made_udp : TunnelForm := edit_step (EditProtocol (js "udp")) (opened (sample_tunnel [])).

