(* ===== verification/Runs.v ===== *)
(** What holds of whole runs: the desktop client and the pages of the dashboard come to rest
    when they are left alone, and what a page displays is data, an error or neither, never both. *)

From stdpp Require Import relations.
From S2P Require Import DesktopTypes UserFeedback DesktopApp.
From S2P Require Import Prelude JsString Json WebPlatform Async Disciplines JsErrors Session ApiClient DashTypes UseAsync Dashboard ClientsPage TunnelsPage Pages DashViews TunnelsView.

#[local] Open Scope prog_scope.

#[local] Instance thrown_inhabited : Inhabited thrown := populate TUndefined.

(** ** The desktop client *)

Section Desktop.
Context (dev : bool) (started_at : jsstr) (preview_time : Z -> jsstr).
Local Abbreviation dsys := (sys Desktop service_call effect thrown service_result).
Local Abbreviation handler := (desktop_handler dev started_at preview_time).

Lemma refreshSnapshot_ends (d : bool) : ends_within 1 (refreshSnapshot d started_at preview_time).
Proof. intros s. case_match; [done|]. intros [v|e]; [done|]. by destruct d. Qed.

Lemma refreshStatus_ends (d : bool) : ends_within 1 (refreshStatus d started_at preview_time).
Proof. intros s. case_match; [done|]. intros [v|e]; [done|]. by destruct d. Qed.

Lemma desktop_handler_ends (ev : desktop_event) (s : Desktop) : ends_within 5 (handler ev s).
Proof.
  destruct ev as [| |a|v| | |v]; cbn [desktop_handler].
  - apply (ends_try_catch _ _ 1 4); [apply refreshSnapshot_ends|done].
  - apply (ends_try_catch _ _ 1 4); [apply refreshStatus_ends|done].
  - unfold runConnectionAction. case_match; [done|]. apply (ends_bind _ _ 0 5); [done|intros _].
    apply (ends_finally _ _ 5 0); [|done]. apply (ends_try_catch _ _ 3 2).
    + apply (ends_bind _ _ 1 2); [destruct a; apply (ends_bind _ _ 1 0); by try apply ends_call|intros _].
      apply (ends_await_fn _ 1), refreshSnapshot_ends.
    + intros e. destruct dev; [done|]. apply (ends_bind _ _ 0 2); [done|intros _].
      apply (ends_await_fn _ 1), (ends_try_catch _ _ 1 0); [apply refreshSnapshot_ends|done].
  - by intros [v'|e]; [|destruct dev].
  - apply (ends_bind _ _ 0 5); [done|intros _]. apply (ends_finally _ _ 5 0); [|done].
    apply (ends_try_catch _ _ 5 0); [|intros e; by destruct dev].
    apply (ends_bind _ _ 1 4); [apply ends_call|intros r]. apply (ends_bind _ _ 0 4).
    + by repeat case_match.
    + intros _. apply (ends_mono _ 2); [lia|]. apply (ends_await_fn _ 1), refreshSnapshot_ends.
  - by intros [v'|e].
  - done.
Qed.

Lemma mount_ends : ends_within 5 (mount dev started_at preview_time).
Proof. apply (ends_try_catch _ _ 1 4); [apply refreshSnapshot_ends|done]. Qed.

(** The page as mounting leaves it: the snapshot is on its way. *)
Definition desktop_mounted : dsys := spawn (mount dev started_at preview_time) (initial desktop_initial).

(** C23: Left alone, the desktop client comes to rest: from every state its user and its timers can
    bring about, at most five continuations per suspended action are left, whatever the
    service answers and in whatever order; and it rests only when every action has ended. *)
Theorem desktop_comes_to_rest (y : dsys) :
  reachable_from desktop_enabled handler desktop_mounted y ->
  (forall n y', nsteps quiet n y y' -> (n <= 5 * length (threads y))%nat)
  /\ ((forall y', ~ quiet y y') -> threads y = []).
Proof.
  intros Hy. apply quiet_bounded. eapply reachable_ends; [|apply desktop_handler_ends|exact Hy].
  unfold desktop_mounted, spawn, exec. destruct (run _ _) as [[s' os'] o] eqn:Hr.
  destruct (run_ends _ 5 _ _ _ _ mount_ends Hr) as [-> |(t & -> & Ht)]; cbn; [constructor|by apply Forall_cons_2].
Qed.
End Desktop.

(** ** The pages of the dashboard *)

Section Requests.
Context {S : Type} `{Window S}.
Local Abbreviation M := (prog S api_call ui_effect thrown api_result).

Lemma ends_set_all (h : Headers) (l : list (jsstr * jsstr)) : ends_within 0 (set_all h l : M Headers).
Proof.
  revert h. induction l as [|[n v] l IH]; intros h; [done|].
  apply (ends_bind _ _ 0 0); [|done]. unfold or_throw. by case_match.
Qed.

Lemma ends_requestHeaders (o : RequestInit) : ends_within 0 (requestHeaders o : M Headers).
Proof.
  unfold requestHeaders. apply (ends_bind _ _ 0 0); [apply ends_set_all|intros h0].
  apply (ends_bind _ _ 0 0); [apply ends_set_all|intros h1].
  apply (ends_bind _ _ 0 0); [case_match; [apply ends_set_all|done]|intros h2].
  apply (ends_bind _ _ 0 0); [|intros; apply ends_set_all].
  intros s. by destruct (authHeader _).
Qed.

Lemma ends_request (path : jsstr) (o : RequestInit) : ends_within 3 (request path o : M (option json)).
Proof.
  unfold request. apply (ends_bind _ _ 0 3); [apply ends_requestHeaders|intros h].
  apply (ends_bind _ _ 1 2); [apply ends_call|intros r].
  apply (ends_bind _ _ 0 2); [done|intros _]. case_match; [done|].
  apply (ends_bind _ _ 2 0); [|intros; by case_match].
  apply (ends_await_fn _ 1), (ends_bind _ _ 1 0); [apply ends_call|done].
Qed.

Lemma ends_awaited (path : jsstr) (o : RequestInit) : ends_within 4 (await_fn (request path o : M (option json))).
Proof. apply (ends_await_fn _ 3), ends_request. Qed.

Lemma ends_then_prop (path : jsstr) (o : RequestInit) (k : jsstr) :
  ends_within 4 (then_prop (request path o : M (option json)) k).
Proof. apply (ends_bind _ _ 4 0); [apply ends_awaited|]. intros. by case_match. Qed.

Lemma ends_load {T} (hook : lens S (AsyncState T)) (loader : M (option T)) (n : nat) :
  ends_within n loader -> ends_within (n + 1) (load hook loader).
Proof.
  intros Hl. apply (ends_bind _ _ 0 (n + 1)); [done|intros _]. rewrite <-(Nat.add_0_r (n + 1)).
  apply ends_try_catch; [|done]. rewrite <-(Nat.add_0_r (n + 1)). apply ends_bind; [by apply ends_await_fn|done].
Qed.
End Requests.

Lemma tunnels_loader_ends : ends_within 14 tunnels_loader.
Proof.
  unfold tunnels_loader. apply (ends_bind _ _ 5 9); [apply (ends_await_fn _ 4), ends_then_prop|intros t].
  apply (ends_bind _ _ 5 4); [apply (ends_await_fn _ 4), ends_then_prop|intros c].
  apply (ends_bind _ _ 4 0); [apply ends_awaited|done].
Qed.

Lemma reload_tunnels_ends : ends_within 15 reload_tunnels.
Proof. apply (ends_load _ _ 14), tunnels_loader_ends. Qed.

Lemma tunnels_handler_ends (ev : tunnels_event) (s : app TunnelsState) : ends_within 20 (tunnels_handler ev s).
Proof.
  pose proof (ends_await_fn _ _ reload_tunnels_ends) as Hload.
  destruct ev as [|now c|t|t|t|t| |v]; cbn [tunnels_handler]; try done.
  - apply (ends_mono _ 15); [lia|]. apply reload_tunnels_ends.
  - unfold toggle. by case_match; apply (ends_bind _ _ 4 16); [apply ends_awaited| |apply ends_awaited|].
  - apply (ends_bind _ _ 4 16); [apply ends_awaited|intros _]. by apply (ends_bind _ _ 0 16).
  - rewrite submit_unfold. apply (ends_bind _ _ 4 16); [apply ends_awaited|intros _]. by apply (ends_bind _ _ 0 16).
Qed.

(** The tunnels page comes to rest as well, within twenty continuations per action. *)
Lemma tunnels_page_comes_to_rest (b : browser) (y : sys (app TunnelsState) api_call ui_effect thrown api_result) :
  reachable_from tunnels_enabled tunnels_handler (tunnels_mounted b) y ->
  (forall n y', nsteps quiet n y y' -> (n <= 20 * length (threads y))%nat)
  /\ ((forall y', ~ quiet y y') -> threads y = []).
Proof.
  intros Hy. apply quiet_bounded. eapply reachable_ends; [|apply tunnels_handler_ends|exact Hy].
  unfold tunnels_mounted, spawn, exec.
  destruct (run reload_tunnels _) as [[s' os'] o] eqn:Hr.
  destruct (run_ends _ 20 _ _ _ _ (ends_mono _ 15 20 ltac:(lia) reload_tunnels_ends) Hr) as [-> |(t & -> & Ht)]; cbn;
    [constructor|by apply Forall_cons_2].
Qed.

(** ** What a page holds *)

(** An error comes without data, and not while something is being loaded. *)
Definition well_typed {T} (a : AsyncState T) : Prop :=
  error a = None \/ (data a = None /\ loading a = false).

Lemma settled_well_typed {T} (r : result thrown (option T)) : well_typed (settled r).
Proof. destruct r; [by left|by right]. Qed.

Lemma load_maintains {S C O T} {R : C -> Type} (hook : lens S (AsyncState T))
    (loader : prog S C O thrown R (option T)) :
  preserves (view hook) loader -> maintains (fun s => well_typed (view hook s)) (load hook loader).
Proof.
  intros Hl. apply maintains_bind.
  - apply maintains_modify. intros s _. rewrite view_over. by left.
  - intros _. apply maintains_continue; [|done|].
    + apply maintains_bind; [by apply maintains_await_fn, (preserves_maintains _ well_typed)|].
      intros d. apply maintains_modify. intros s _. rewrite view_put. apply (settled_well_typed (Ok d)).
    + intros e. apply maintains_modify. intros s _. rewrite view_put. apply (settled_well_typed (Err e)).
Qed.

(** Every state that can be reached from one whose hook is well typed is such a state. *)
Definition stays_well_typed {X T Ev} (hook : lens (app X) (AsyncState T)) (enabled : Ev -> app X -> bool)
    (handler : Ev -> app X -> action X unit) : Prop :=
  forall s0 y, well_typed (view hook s0) -> reachable enabled handler s0 y -> well_typed (view hook (st y)).

Lemma stays_well_typed_intro {X T Ev} (hook : lens (app X) (AsyncState T)) (enabled : Ev -> app X -> bool)
    (handler : Ev -> app X -> action X unit) :
  (forall ev s, maintains (fun s => well_typed (view hook s)) (handler ev s)) -> stays_well_typed hook enabled handler.
Proof.
  intros Hh s0 y H0 Hy.
  eapply (reachable_maintains (fun s => well_typed (view hook s))); [| |exact Hh|exact Hy]; [exact H0|constructor].
Qed.

Lemma request_maintains {X T} (hook : lens (app X) (AsyncState T)) (path : jsstr) (o : RequestInit) :
  (forall m s, view hook (set_storage m s) = view hook s) -> (forall s, view hook (on_unauthorized s) = view hook s) ->
  maintains (fun s => well_typed (view hook s)) (request path o : action X (option json)).
Proof. intros. apply (preserves_maintains _ well_typed). by apply preserves_request. Qed.

Lemma updateSetting_maintains {X T} (hook : lens (app X) (AsyncState T)) (k : jsstr) (v : json) :
  (forall m s, view hook (set_storage m s) = view hook s) -> (forall s, view hook (on_unauthorized s) = view hook s) ->
  maintains (fun s => well_typed (view hook s)) (updateSetting k v : action X (option json)).
Proof. intros. apply (preserves_maintains _ well_typed). by apply preserves_updateSetting. Qed.

Lemma downloadLogs_maintains {X T} (hook : lens (app X) (AsyncState T)) (k l : option jsstr) :
  (forall m s, view hook (set_storage m s) = view hook s) -> (forall s, view hook (on_unauthorized s) = view hook s) ->
  maintains (fun s => well_typed (view hook s)) (downloadLogs k l : action X unit).
Proof. intros. apply (preserves_maintains _ well_typed). by apply preserves_downloadLogs. Qed.

(** The parts of a handler: a request leaves the page alone, a reload is a load, and what is
    left changes other members. *)
Ltac keeps_page :=
  repeat lazymatch goal with
    | |- forall _, _ => intros ?
    | |- maintains _ (Ret _) => exact Logic.I
    | |- maintains _ (Throw _) => exact Logic.I
    | |- maintains _ skip => exact Logic.I
    | |- maintains _ (say _) => exact Logic.I
    | |- maintains _ (bind _ _) => apply maintains_bind
    | |- maintains _ (await_fn _) => apply maintains_await_fn
    | |- maintains _ (try_catch _ _) => apply maintains_continue
    | |- maintains _ (modify _) => apply maintains_modify; intros ? ?; first [done | cbn; by case_match]
    | |- maintains _ (gets _) => intros ?; exact Logic.I
    | |- maintains _ (Read _) => intros ?; cbv beta
    | |- maintains _ (load _ _) =>
      apply load_maintains;
      first [ by apply preserves_items, preserves_request | by apply preserves_then_prop, preserves_request
            | by apply preserves_request | by apply tunnels_loader_frame ]
    | |- maintains _ (updateSetting _ _) => by apply updateSetting_maintains
    | |- maintains _ (downloadLogs _ _) => by apply downloadLogs_maintains
    | |- maintains _ (if ?b then _ else _) => destruct b
    | |- maintains _ match ?x with _ => _ end => destruct x
    | |- maintains _ _ => by apply request_maintains
    end.

Lemma clients_maintains (ev : clients_event) (s : app ClientsState) :
  maintains (fun s => well_typed (view clients_hook s)) (clients_handler ev s).
Proof.
  destruct ev; cbn [clients_handler];
    unfold loadDetail, saveEdit, resetToken, closeDetail, ClientsPage.remove, ClientsPage.remove_confirmed,
      acceptDetail, reload_clients; keeps_page.
Qed.

Lemma tunnels_maintains (ev : tunnels_event) (s : app TunnelsState) :
  maintains (fun s => well_typed (view tunnels_hook s)) (tunnels_handler ev s).
Proof.
  destruct ev; cbn [tunnels_handler]; rewrite ?submit_unfold; unfold toggle, remove, remove_confirmed, reload_tunnels; keeps_page.
Qed.

Lemma traffic_maintains (ev : traffic_event) (s : app TrafficState) :
  maintains (fun s => well_typed (view traffic_hook s)) (traffic_handler ev s).
Proof. destruct ev; cbn [traffic_handler]; unfold setRange, reload_traffic; keeps_page. Qed.

Lemma logs_maintains (ev : logs_event) (s : app LogsState) :
  maintains (fun s => well_typed (view logs_hook s)) (logs_handler ev s).
Proof.
  destruct ev as [|v|v|v|n| | |]; cbn [logs_handler]; unfold change_logs, typed, download, clear, clear_confirmed, reload_logs;
    keeps_page.
Qed.

Lemma tokens_maintains (ev : tokens_event) (s : app TokensState) :
  maintains (fun s => well_typed (view tokens_hook s)) (tokens_handler ev).
Proof.
  destruct ev; cbn [tokens_handler]; unfold create, validateFields, set_disabled, remove_token, remove_token_confirmed, reload_tokens; keeps_page.
Qed.

Lemma settings_maintains (ev : settings_event) (s : app SettingsState) :
  maintains (fun s => well_typed (view settings_hook s)) (settings_handler ev).
Proof.
  destruct ev; cbn [settings_handler]; unfold submit_password, save_setting, reload_settings; keeps_page.
Qed.

(** Each of the two loads of the relays page leaves what the other holds alone. *)
Lemma relays_nodes_maintain (ev : relays_event) (s : app RelaysState) :
  maintains (fun s => well_typed (view nodes_hook s)) (relays_handler ev s).
Proof.
  destruct ev; cbn [relays_handler]; unfold reload_nodes, reload_assignments; [keeps_page|].
  apply (preserves_maintains (view nodes_hook) well_typed), preserves_load; [done|].
  by apply preserves_then_prop, preserves_request.
Qed.

Lemma relays_assignments_maintain (ev : relays_event) (s : app RelaysState) :
  maintains (fun s => well_typed (view assignments_hook s)) (relays_handler ev s).
Proof.
  destruct ev; cbn [relays_handler]; unfold reload_nodes, reload_assignments; [|keeps_page].
  apply (preserves_maintains (view assignments_hook) well_typed), preserves_load; [done|].
  by apply preserves_then_prop, preserves_request.
Qed.

Definition always_enabled {Ev S} (_ : Ev) (_ : S) : bool := true.


(** *** Executions *)

Lemma desktop_comes_to_rest_witness :
  let y := desktop_mounted false [] (fun _ => []) in
  exists y', nsteps quiet 1 y y' /\ (1 <= 5 * length (threads y))%nat.
Proof.
  intros y. assert (exists y', nsteps quiet 1 y y') as [y' Hy'].
  { eexists. eapply nsteps_once, (quiet_settle y [] Snapshot _ [] (Err TUndefined)). reflexivity. }
  exists y'. split; [exact Hy'|].
  exact (proj1 (desktop_comes_to_rest false [] (fun _ => []) y (rtc_refl _ _)) 1%nat y' Hy').
Defined.

