(* ===== verification/DesktopClient.v ===== *)
(** The whole desktop client: the page of desktop/frontend/src/App.tsx with the view it displays and
    that view's hooks - the traffic history of useTrafficHistory.ts, the clock of elapsedTime.ts
    and the canvases of TrafficChart.tsx. *)

From Stdlib Require Import QArith Sorted.
From stdpp Require Import relations.
From S2P Require Import Prelude JsString Rounded View WebPlatform JsErrors Async DesktopTypes DesktopFormat UserFeedback TunnelEndpoint TrafficHistory TrafficChart TrafficFigures DesktopApp DesktopViews Runs.

#[local] Open Scope nat_scope.
#[local] Open Scope prog_scope.

(** ** The hooks of the view on display *)

(** What HomeView and TunnelDetailView keep: the hook of the traffic, the clock, and a canvas for
    each of their charts. *)
Record view_hooks := { meter : History; elapsed : Elapsed; charts : nat -> Canvas }.

(** As [useState] and [useRef] start them, at the time [now]. *)
Definition hooks_initial (now : Z) : view_hooks :=
  {| meter := no_history; elapsed := {| elapsed_now := now; ticking := false |}; charts := fun _ => canvas_initial |}.

(** The charts of a view: a sparkline at home; at a tunnel, the trend of the overview and the one
    of the traffic tab. *)
Definition charts_of (v : screen) : nat :=
  match v with HomeScreen => 1 | TunnelScreen _ => 2 | SettingsScreen _ => 0 end.
Definition detailed_view (v : screen) : bool := match v with TunnelScreen _ => true | _ => false end.

(** React keeps a view that is replaced by one of the same component. *)
Definition same_view (before after : screen) : bool :=
  match before, after with
  | HomeScreen, HomeScreen | TunnelScreen _, TunnelScreen _ | SettingsScreen _, SettingsScreen _ => true
  | _, _ => false
  end.

(** The effects of the view and its timers: [StatusChanged] is the effect of useTrafficHistory,
    [ClockStarted] and [ClockTicked] the effect and the timer of useElapsedTime, [Measured] the
    [updateSize] of a chart and [Redrawn] its effect that asks for a frame. They may run at any
    time while the view is there, more often than their dependencies change. *)
Inductive hook_event :=
| StatusChanged
| ClockStarted
| ClockTicked
| Measured (i : nat) (width height : Q)
| Redrawn (i : nat) (dpr : Q).

Definition set_chart (i : nat) (c : Canvas) (l : nat -> Canvas) (j : nat) : Canvas :=
  if (j =? i)%nat then c else l j.

Section Hooks.
Context `{Dates}.

Definition hook_step (now : Z) (s : Desktop) (ev : hook_event) (h : view_hooks) : view_hooks :=
  let current := status <$> snapshot s in
  match ev with
  | StatusChanged => {| meter := traffic_effect now current (meter h); elapsed := elapsed h; charts := charts h |}
  | ClockStarted => {| meter := meter h; elapsed := elapsed_effect now (is_up current); charts := charts h |}
  | ClockTicked => {| meter := meter h; elapsed := elapsed_timer (elapsed h) now; charts := charts h |}
  | Measured i width height =>
    {| meter := meter h; elapsed := elapsed h; charts := set_chart i (updateSize width height (charts h i)) (charts h) |}
  | Redrawn i dpr =>
    {| meter := meter h; elapsed := elapsed h;
       charts := set_chart i (canvas_effect dpr (detailed_view (display s)) (omap chart_point (points (meter h))) (charts h i))
                   (charts h) |}
  end.

(** A view has its own charts; their sides are those of a canvas. *)
Definition hook_enabled (v : screen) (ev : hook_event) : Prop :=
  match ev with
  | Measured i width height => (i < charts_of v)%nat /\ side (dround width) /\ side (dround height)
  | Redrawn i _ => (i < charts_of v)%nat
  | _ => (0 < charts_of v)%nat
  end.
End Hooks.

(** ** The client *)

Local Abbreviation dsys := (sys Desktop service_call effect thrown service_result).

(** [wall] is the clock of the machine, [open_section] the state of the settings view. *)
Record client := { desk : dsys; open_section : SettingsSection; hooks : view_hooks; wall : Z }.

(** After the page went on to [y]: the view it returns stays when it is of the same component,
    and is mounted anew when not. *)
Definition shows (y : dsys) (c : client) : client :=
  let before := display (st (desk c)) in
  let after := display (st y) in
  {| desk := y; open_section := next_section before after (open_section c);
     hooks := if same_view before after then hooks c else hooks_initial (wall c); wall := wall c |}.

(** The counters of a snapshot are those of the service. *)
Definition counters_sane (s : Desktop) : Prop := forall d, snapshot s = Some d -> counters_ok (status d).

Section Client.
Context (dev : bool) (started_at : jsstr) (preview_time : Z -> jsstr).
Context `{Toolkit} `{Dates} `{UrlApi}.
Local Abbreviation handler := (desktop_handler dev started_at preview_time).

(** What is on display. *)
Definition client_view (c : client) : element ui_event :=
  render (open_section c) (meter (hooks c)) (elapsed_now (elapsed (hooks c))) (st (desk c)).

Definition client_shown (c : client) (ev : desktop_event) (_ : Desktop) : Prop :=
  match ev with
  | SnapshotTimer | StatusTimer => True
  | _ => offers (Page ev) (client_view c)
  end.

Definition client_mounted (now : Z) : client :=
  {| desk := desktop_mounted dev started_at preview_time; open_section := General; hooks := hooks_initial now; wall := now |}.

(** The page acts - on what is on display, by its timers, by an answer of the service -; the user
    picks a section; time passes; an effect or a timer of the view runs. *)
Inductive client_step (c : client) : client -> Prop :=
| client_acts y : presented_step (client_shown c) handler (desk c) y -> counters_sane (st y) -> client_step c (shows y c)
| client_picks x : offers (SetSection x) (client_view c) ->
    client_step c {| desk := desk c; open_section := x; hooks := hooks c; wall := wall c |}
| client_waits t : (wall c <= t)%Z ->
    client_step c {| desk := desk c; open_section := open_section c; hooks := hooks c; wall := t |}
| client_hooks ev : hook_enabled (display (st (desk c))) ev ->
    client_step c {| desk := desk c; open_section := open_section c;
                     hooks := hook_step (wall c) (st (desk c)) ev (hooks c); wall := wall c |}.

(** ** Properties *)

Lemma client_shown_enabled (c : client) (ev : desktop_event) (s : Desktop) :
  s = st (desk c) -> client_shown c ev s -> desktop_enabled ev s = true.
Proof. intros ->. destruct ev; try done; apply render_enabled. Qed.

Lemma acts_step (c : client) (y : dsys) :
  presented_step (client_shown c) handler (desk c) y -> step desktop_enabled handler (desk c) y.
Proof.
  intros Hy. inversion Hy; subst; [|by eapply step_resume|by eapply step_settle].
  apply step_event. by eapply client_shown_enabled.
Qed.

(** The parts of the client, each in a state of its own system. *)
Definition meter_ok (now : Z) (h : History) : Prop :=
  exists rs, h = history rs /\ in_order ((fst <$> rs) ++ [now]) /\ Forall (fun r => counters_ok (snd r)) rs.
Definition chart_ok (detailed : bool) (c : Canvas) : Prop :=
  exists evs, c = fold_left (canvas_step detailed) evs canvas_initial /\ Forall event_ok evs.

Record parts (c : client) : Prop := {
  parts_page : reachable_from desktop_enabled handler (desktop_mounted dev started_at preview_time) (desk c);
  parts_sane : counters_sane (st (desk c));
  parts_meter : meter_ok (wall c) (meter (hooks c));
  parts_charts : forall i, chart_ok (detailed_view (display (st (desk c)))) (charts (hooks c) i)
}.

Lemma meter_ok_initial (now : Z) : meter_ok now no_history.
Proof. exists []. split; [done|]. split; [|constructor]. cbn. repeat constructor. Qed.

Lemma meter_ok_later (t now : Z) (h : History) : (t <= now)%Z -> meter_ok t h -> meter_ok now h.
Proof.
  intros Ht (rs & -> & Ho & Hc). exists rs. split; [done|]. split; [|done]. apply sorted_snoc in Ho as [Ho Hle].
  apply sorted_snoc. split; [done|]. eapply Forall_impl; [exact Hle|]. cbn. lia.
Qed.

Lemma meter_ok_effect (now : Z) (s : Desktop) (h : History) :
  counters_sane s -> meter_ok now h -> meter_ok now (traffic_effect now (status <$> snapshot s) h).
Proof.
  intros Hs (rs & -> & Ho & Hc). destruct (snapshot s) as [d|] eqn:Hd; [|by exists rs].
  exists (rs ++ [(now, status d)]). split; [by rewrite history_snoc|]. rewrite fmap_app. cbn [fmap list_fmap fst].
  split; [|apply Forall_app; split; [done|apply Forall_cons_2; [by apply Hs|constructor]]].
  apply sorted_snoc. split; [done|]. apply sorted_snoc in Ho as [_ Ho]. apply Forall_app. split; [done|].
  apply Forall_cons_2; [apply Z.le_refl|constructor].
Qed.

Lemma meter_figures (now : Z) (h : History) :
  meter_ok now h -> Forall has_figures (points h) /\ (length (points h) <= maxHistoryPoints)%nat.
Proof.
  intros (rs & -> & Ho & Hc). apply sorted_snoc in Ho as [Ho _].
  split; [by apply points_have_figures|by apply history_length].
Qed.

Lemma chart_ok_step (detailed : bool) (c : Canvas) (ev : canvas_event) :
  event_ok ev -> chart_ok detailed c -> chart_ok detailed (canvas_step detailed c ev).
Proof.
  intros Hev (evs & -> & Hevs). exists (evs ++ [ev]). split; [by rewrite fold_left_app|].
  apply Forall_app. by split; [|repeat constructor].
Qed.

Lemma parts_mounted (now : Z) : parts (client_mounted now).
Proof.
  split; [apply rtc_refl| |apply meter_ok_initial|].
  - intros d Hd. unfold client_mounted, desktop_mounted in Hd. by vm_compute in Hd.
  - intros i. by exists [].
Qed.

Lemma parts_hooks (c : client) (ev : hook_event) :
  parts c -> hook_enabled (display (st (desk c))) ev ->
  let h := hook_step (wall c) (st (desk c)) ev (hooks c) in
  meter_ok (wall c) (meter h) /\ forall i, chart_ok (detailed_view (display (st (desk c)))) (charts h i).
Proof.
  intros [_ Hs Hm Hc] He. destruct ev as [| | |j w h|j dpr]; cbn [hook_step meter charts].
  - split; [by apply meter_ok_effect|done].
  - done.
  - done.
  - split; [done|]. intros i. unfold set_chart. destruct (i =? j)%nat; [|done].
    apply (chart_ok_step _ _ (Resized w h)); [by destruct He|done].
  - split; [done|]. intros i. unfold set_chart. destruct (i =? j)%nat; [|done].
    apply (chart_ok_step _ _ (Changed dpr (omap chart_point (points (meter (hooks c)))))); [|done].
    apply chart_points_good. by apply meter_figures in Hm as [? _].
Qed.

Lemma parts_step (c c' : client) : parts c -> client_step c c' -> parts c'.
Proof.
  intros Hp Hstep. pose proof Hp as [Hpage Hs Hm Hc]. destruct Hstep as [y Hy Hsane|x _|t Ht|ev He].
  - split; cbn [shows desk hooks wall]; [|done|..].
    + eapply rtc_r; [exact Hpage|]. by apply acts_step.
    + destruct (same_view _ _); [done|]. apply meter_ok_initial.
    + destruct (display (st (desk c))), (display (st y)); cbn [same_view detailed_view] in *; try done; intros i; by exists [].
  - by split.
  - split; [done..| |done]. by eapply meter_ok_later.
  - destruct (parts_hooks c ev Hp He) as [Hm' Hc']. by split.
Qed.

Lemma client_parts (now : Z) (c : client) : rtc client_step (client_mounted now) c -> parts c.
Proof.
  intros Hc. remember (client_mounted now) as c0 eqn:Hc0. assert (parts c0) as Hp by (subst; apply parts_mounted).
  clear Hc0. induction Hc as [|c1 c2 c3 H12 _ IH]; [done|]. eapply IH, parts_step; done.
Qed.

(** C17: The whole client refines its parts: in every execution the page is in a state of its own
    transition system, the traffic history of the view on display is the one of a sequence of
    reports that arrived in order, and every canvas has gone through measurements and histories. *)
Theorem client_refines_parts (now : Z) (c : client) :
  rtc client_step (client_mounted now) c ->
  reachable_from desktop_enabled handler (desktop_mounted dev started_at preview_time) (desk c)
  /\ (exists rs, meter (hooks c) = history rs /\ in_order ((fst <$> rs) ++ [wall c])
        /\ Forall (fun r => counters_ok (snd r)) rs)
  /\ forall i, exists evs, charts (hooks c) i
        = fold_left (canvas_step (detailed_view (display (st (desk c))))) evs canvas_initial
        /\ Forall event_ok evs.
Proof. by intros [? _ ? ?]%client_parts. Qed.

(** C27: Whatever the service answers and whatever happens in the window, every point of the traffic on
    display has finite figures, at most 300 are kept, and the frame any chart asks for is drawn
    inside that chart, as long as it has at most eighty points. *)
Theorem client_charts_inside (now : Z) (c : client) :
  rtc client_step (client_mounted now) c ->
  Forall has_figures (points (meter (hooks c))) /\ (length (points (meter (hooks c))) <= maxHistoryPoints)%nat
  /\ forall i f, frameRef (charts (hooks c) i) = Some f -> (length (frame_points f) <= 80)%nat ->
       let detailed := detailed_view (display (st (desk c))) in
       Forall (within (inset_left (inset_of detailed)) (inset_top (inset_of detailed))
                 (chartWidth detailed (frame_width f)) (chartHeight detailed (frame_height f)))
         (omap vertex (drawFrame f)).
Proof.
  intros [_ _ Hm Hc]%client_parts. destruct (meter_figures _ _ Hm) as [Hf Hn]. split; [done|]. split; [done|].
  intros i f Hi H80. destruct (Hc i) as (evs & Heq & Hevs). rewrite Heq in Hi. cbv zeta.
  destruct (canvas_reached (detailed_view (display (st (desk c)))) evs Hevs) as (_ & _ & _ & Hok). destruct (Hok f Hi) as [Hfr <-]. by apply frame_inside.
Qed.

(** ** A connection lost after a burst *)

(** What the service answers while [s] is its status and [d] its snapshot. *)
Definition answers (s : RuntimeStatus) (d : DesktopSnapshot) (c : service_call) : result thrown (service_result c) :=
  match c with
  | Snapshot | SaveConfig _ => Ok d
  | Status | Connect | Disconnect => Ok s
  | CheckForUpdate => Err TUndefined
  | ApplyUpdate => Ok tt
  end.

(** The page at home, everything answered. *)
Definition at_rest (d : DesktopSnapshot) : dsys :=
  {| st := setSnapshot (fun _ => Some d) desktop_initial; threads := []; log := [] |}.
Definition at_home (d : DesktopSnapshot) (h : view_hooks) (now : Z) : client :=
  {| desk := at_rest d; open_section := General; hooks := h; wall := now |}.

(** The hooks of the home view once a report has arrived and its effects have run. *)
Definition after_report (h : view_hooks) (r : Z * RuntimeStatus) : view_hooks :=
  let m := traffic_effect (fst r) (Some (snd r)) (meter h) in
  {| meter := m; elapsed := elapsed h;
     charts := set_chart 0 (canvas_effect 1 false (omap chart_point (points m)) (charts h 0%nat)) (charts h) |}.

Lemma opens_at_home (d : DesktopSnapshot) (now : Z) :
  counters_ok (status d) -> client_step (client_mounted now) (at_home d (hooks_initial now) now).
Proof.
  intros Hd. apply (client_acts (client_mounted now) (at_rest d)).
  - by apply (presented_advance _ _ (answers (status d) d) 0 (desk (client_mounted now))).
  - by intros d' [= <-].
Qed.

(** One turn of the status timer: the call, its answer, and the effects that follow. *)
Lemma report_arrives (d : DesktopSnapshot) (h : view_hooks) (now t : Z) (s : RuntimeStatus) :
  counters_ok (status d) -> counters_ok s -> (now <= t)%Z ->
  rtc client_step (at_home d h now) (at_home (with_status s d) (after_report h (t, s)) t).
Proof.
  intros Hd Hs Ht. eapply rtc_l; [by apply (client_waits (at_home d h now) t)|].
  eapply rtc_l; [apply (client_acts (at_home d h t) (spawn (handler StatusTimer (st (at_rest d))) (at_rest d)))|].
  { by apply presented_event. }
  { by intros d' [= <-]. }
  eapply rtc_l; [apply (client_acts _ (at_rest (with_status s d)))|].
  { by apply (presented_advance _ _ (answers s d) 0 (spawn (handler StatusTimer (st (at_rest d))) (at_rest d))). }
  { by intros d' [= <-]. }
  eapply rtc_l; [by apply (client_hooks _ StatusChanged), le_n|].
  eapply rtc_l; [by apply (client_hooks _ (Redrawn 0 1)), le_n|]. apply rtc_refl.
Qed.

Lemma reports_arrive (rs : list (Z * RuntimeStatus)) (d : DesktopSnapshot) (h : view_hooks) (now : Z) :
  counters_ok (status d) -> Forall (fun r => counters_ok (snd r)) rs -> in_order (now :: (fst <$> rs)) ->
  exists d' now', rtc client_step (at_home d h now) (at_home d' (fold_left after_report rs h) now').
Proof.
  revert d h now. induction rs as [|[t s] rs IH]; intros d h now Hd Hrs Ho; [by exists d, now; apply rtc_refl|].
  apply Forall_cons in Hrs as [Hs Hrs]. apply StronglySorted_inv in Ho as [Ho Hle]. apply Forall_cons in Hle as [Hle _].
  destruct (IH (with_status s d) (after_report h (t, s)) t Hs Hrs Ho) as (d' & now' & Hd').
  exists d', now'. etrans; [by apply report_arrives|exact Hd'].
Qed.

(** Forty-one seconds without traffic, 200 KB, and forty seconds without a connection. *)
Definition seconds (from : Z) (n : nat) (s : RuntimeStatus) : list (Z * RuntimeStatus) :=
  imap (fun i s => ((from + Z.of_nat i) * 1000, s)%Z) (replicate n s).
Definition lost (bytes : Z) : RuntimeStatus :=
  {| connected := false; state := js "disconnected"; message := []; version := [];
     uploadBytes := bytes; downloadBytes := 0; lastStartedAt := None; lastStoppedAt := None |}.
Definition drop_after_burst : list (Z * RuntimeStatus) :=
  seconds 0 41 (transferred 0) ++ seconds 41 1 (transferred 204800) ++ seconds 42 40 (lost 204800).

Definition one_snapshot : DesktopSnapshot :=
  {| config := emptyConfig; status := transferred 0; tunnels := None; tunnelPaths := None; logs := None; update := None |}.
Definition measured_home : view_hooks :=
  {| meter := no_history; elapsed := {| elapsed_now := 0; ticking := false |};
     charts := set_chart 0 (updateSize 200 60 canvas_initial) (fun _ => canvas_initial) |}.

Definition above_canvas (f : Frame) (i : nat) : bool :=
  match omap vertex (drawFrame f) !! i with Some v => Qle_bool (snd v) (-1) | None => false end.

Lemma drop_drawn_above :
  match frameRef (charts (fold_left after_report drop_after_burst measured_home) 0%nat) with
  | Some f => above_canvas f 41
  | None => false
  end = true.
Proof. by_evaluation. Qed.

Lemma seconds_reported (from : Z) (n : nat) (s : RuntimeStatus) :
  counters_ok s -> Forall (fun r => counters_ok (snd r)) (seconds from n s).
Proof.
  intros Hs. apply Forall_lookup. intros i r Hi. unfold seconds in Hi. rewrite list_lookup_imap in Hi.
  destruct (replicate n s !! i) as [x|] eqn:Hx; [|done]. injection Hi as <-. by apply lookup_replicate in Hx as [-> _].
Qed.

Lemma drop_reported : Forall (fun r => counters_ok (snd r)) drop_after_burst /\ in_order (0%Z :: (fst <$> drop_after_burst)).
Proof.
  split; [unfold drop_after_burst; rewrite !Forall_app; repeat split; by apply seconds_reported|].
  apply Sorted_StronglySorted; [intros x y z; apply Z.le_trans|].
  match goal with |- Sorted _ ?l => let l' := eval vm_compute in l in change (Sorted Z.le l') end.
  repeat first [apply Sorted_nil|apply Sorted_cons|apply HdRel_nil|apply HdRel_cons; by apply Z.leb_le].
Qed.


End Client.

(** *** Executions *)

#[local] Existing Instances plain_toolkit utc_dates simple_urls.

(** The first report, five kilobytes after a second. *)
Definition first_report : client :=
  at_home (with_status (transferred 5000) one_snapshot) (after_report measured_home (1000%Z, transferred 5000)) 1000.

Lemma first_report_reached : rtc (client_step false [] (fun _ => [])) (client_mounted false [] (fun _ => []) 0) first_report.
Proof.
  eapply rtc_l; [by apply (opens_at_home _ _ _ one_snapshot 0)|].
  eapply rtc_l; [|by apply (report_arrives _ _ _ one_snapshot measured_home 0 1000 (transferred 5000))].
  apply (client_hooks _ _ _ (at_home one_snapshot (hooks_initial 0) 0) (Measured 0 200 60)).
  split; [apply le_n|by vm_compute].
Qed.

Lemma client_refines_parts_witness :
  reachable_from desktop_enabled (desktop_handler false [] (fun _ => [])) (desktop_mounted false [] (fun _ => [])) (desk first_report).
Proof. apply (client_refines_parts false [] (fun _ => []) 0 first_report first_report_reached). Defined.

Lemma client_charts_inside_witness :
  Forall has_figures (points (meter (hooks first_report)))
  /\ exists f, frameRef (charts (hooks first_report) 0%nat) = Some f
       /\ Forall (within 2 8 (chartWidth false (frame_width f)) (chartHeight false (frame_height f))) (omap vertex (drawFrame f)).
Proof.
  destruct (client_charts_inside false [] (fun _ => []) 0 first_report first_report_reached) as (Hp & _ & Hf).
  split; [exact Hp|]. eexists. split; [by vm_compute|]. eapply (Hf 0%nat); [by vm_compute|]. apply Nat.leb_le. by vm_compute.
Defined.

