(* ===== verification/OverviewPage.v ===== *)
(** The overview page: web/dashboard/src/pages/OverviewPage.tsx. Its loader starts three requests
    at once and waits for all of them. *)

From stdpp Require Import relations.
From S2P Require Import Prelude JsString Json View WebPlatform Async Disciplines Joins JsErrors Session ApiClient DashTypes UseAsync Dashboard ClientsPage Pages DashViews Runs.

#[local] Open Scope prog_scope.

Record overview_data := { loaded_overview : option json; loaded_clients : option json;
                          loaded_tunnels : option json }.

Record OverviewState := { overview_list : AsyncState overview_data }.

Definition overview_hook : lens (app OverviewState) (AsyncState overview_data) :=
  field (Lens overview_list (fun v _ => {| overview_list := v |}) (fun _ _ => eq_refl)).

Local Abbreviation J := (prog (app OverviewState) (joint api_call) ui_effect thrown (answer thrown api_result)).
Local Abbreviation overview_sys := (sys (app OverviewState) (joint api_call) ui_effect thrown (answer thrown api_result)).

(** What follows once all three are there, or one has failed: the loader returns, and the hook
    that awaited it stores the outcome. *)
Definition store (outcome : result thrown (option overview_data)) : J unit :=
  turn (turn (modify (put overview_hook (settled outcome)))).

(** [load] of the hook with this loader. *)
Definition reload_overview : J unit :=
  modify (over overview_hook started) ;;;
  all (lift (await_fn overview)) (lift (await_fn listClients)) (lift (await_fn listTunnels))
    (fun o c t => store (Ok (Some {| loaded_overview := o; loaded_clients := c; loaded_tunnels := t |})))
    (fun e => store (Err e)).

Inductive overview_event := ReloadOverview.
Definition overview_handler (ev : overview_event) (_ : app OverviewState) : J unit :=
  match ev with ReloadOverview => reload_overview end.

(** The page as mounting leaves it: the first load is under way. *)
Definition overview_mounted (b : browser) : overview_sys :=
  spawn reload_overview (initial {| shell := b; page := {| overview_list := not_loaded |} |}).

(** ** Properties *)

Definition overview_loading (s : app OverviewState) : bool := loading (view overview_hook s).

(** The requests leave the hook's state alone. *)
Lemma parts_preserve {X} (proj : AsyncState overview_data -> X) :
  preserves (fun s => proj (view overview_hook s)) (lift (await_fn overview : action OverviewState _))
  /\ preserves (fun s => proj (view overview_hook s)) (lift (await_fn listClients : action OverviewState _))
  /\ preserves (fun s => proj (view overview_hook s)) (lift (await_fn listTunnels : action OverviewState _)).
Proof.
  split; [|split]; apply preserves_lift, preserves_await_fn;
    by first [apply preserves_items, preserves_request | apply preserves_request].
Qed.

Lemma reload_overview_discharges (owes : bool) : discharges overview_loading owes reload_overview.
Proof.
  apply discharges_taken. destruct (parts_preserve loading) as (H1 & H2 & H3).
  apply (all_whole overview_loading _ (discharges_indifferent overview_loading true) _ _ _ _ _ H1 H2 H3); cbn;
    intros; left; split; done.
Qed.

Lemma reload_overview_maintains : maintains (fun s => well_typed (view overview_hook s)) reload_overview.
Proof.
  apply maintains_bind; [apply maintains_modify; intros s _; rewrite view_over; by left|intros _].
  destruct (parts_preserve id) as (H1 & H2 & H3).
  apply (all_whole (view overview_hook) _ (maintains_indifferent (view overview_hook) well_typed) _ _ _ _ _ H1 H2 H3); cbn;
    intros; split; try done; intros s _; [by left|by right].
Qed.

(** The page offers reloading and nothing else. *)
Lemma OverviewView_events `{Dates} {E} (ld : bool) (err : option jsstr) (ov : option Overview) (clients : list Client)
    (tunnels : list Tunnel) (reload : E) :
  events (OverviewView ld err ov clients tunnels reload) = [always reload].
Proof.
  unfold OverviewView. rewrite Page_events. unfold DashViews.Metric. cbn [flat_map]. compute_events.
  rewrite property_text_events. by rewrite !flat_map_silent by
    (intros ?; unfold recent_client_cells, recent_tunnel_cells; compute_events; by rewrite StatusTag_view_events).
Qed.

(** What the user is offered, with any data. *)
Definition overview_shown `{Toolkit} `{Dates} (ev : overview_event) (s : app OverviewState) : Prop :=
  exists ov clients tunnels,
    offers ev (OverviewView (loading (overview_list (page s))) (error (overview_list (page s))) ov clients tunnels ReloadOverview).

(** Whatever the user reloads and however the answers of the joined requests interleave, the
    overview shows an error only without data and only when nothing is loading, and while it
    shows the spinner some load is under way that takes it away. *)
Theorem overview_settles `{Toolkit} `{Dates} (b : browser) (y : overview_sys) :
  rtc (presented_step overview_shown overview_handler) (overview_mounted b) y ->
  well_typed (overview_list (page (st y)))
  /\ (overview_loading (st y) = true -> exists t, t ∈ threads y /\ thread_discharges overview_loading true t).
Proof.
  intros Hy. apply (presented_reachable _ always_enabled) in Hy; [|done]. split.
  - apply (reachable_maintains (fun s => well_typed (view overview_hook s)) always_enabled overview_handler
             (initial {| shell := b; page := {| overview_list := not_loaded |} |}) y);
      [by left|constructor|intros [] s; apply reload_overview_maintains|].
    eapply rtc_l; [|exact Hy]. by apply (step_event always_enabled overview_handler ReloadOverview).
  - apply promise_inv_owed. eapply (promise_invariant always_enabled overview_handler); [| |exact Hy].
    + eapply (exec_discharges _ _ true); [|constructor|by right]. apply reload_overview_discharges.
    + intros [] s _. apply reload_overview_discharges.
Qed.

(** C25: One load settles once: as soon as it stopped the spinner - with the three answers, or with
    the first failure - the answers still to come change nothing of what the page shows. *)
Theorem overview_settles_once (b : browser) (y y' : overview_sys) :
  rtc quiet (overview_mounted b) y -> overview_loading (st y) = false -> rtc quiet y y' ->
  overview_list (page (st y')) = overview_list (page (st y)).
Proof.
  intros Hy Hl Hy'.
  set (y0 := initial {| shell := b; page := {| overview_list := @started overview_data not_loaded |} |} : overview_sys).
  assert (writes_once (view overview_hook) loading
            (all (lift (await_fn overview)) (lift (await_fn listClients)) (lift (await_fn listTunnels))
               (fun o c t => store (Ok (Some {| loaded_overview := o; loaded_clients := c; loaded_tunnels := t |})))
               (fun e => store (Err e)))) as Hw.
  { destruct (parts_preserve id) as (H1 & H2 & H3).
    apply (all_whole (view overview_hook) _ (once_indifferent (view overview_hook) loading) _ _ _ _ _ H1 H2 H3);
      cbn; intros; right; split; done. }
  destruct (alone_quiet (view overview_hook) loading _ y0 y Hw eq_refl Hy) as [Heq|Hc].
  - exfalso. unfold overview_loading in Hl. by rewrite Heq in Hl.
  - by apply (closed_quiet (view overview_hook) loading y y' Hc).
Qed.

(** *** Executions *)

#[local] Existing Instance plain_toolkit.
#[local] Instance no_dates : Dates := {|
  parse_date := fun _ => None; toLocaleString := fun _ _ => js "-";
  toLocaleTimeString := fun _ => js "-"; toISOString := fun _ => js "-" |}.

Lemma overview_settles_witness :
  let y := overview_mounted (mounted empty_storage) in
  overview_loading (st y) = true /\ exists t, t ∈ threads y /\ thread_discharges overview_loading true t.
Proof.
  intros y. split; [by_evaluation|].
  apply (overview_settles (mounted empty_storage) y); [apply rtc_refl|by_evaluation].
Defined.

(** The first call a function waits for fails. *)
Fixpoint failing (j : joint api_call) : result thrown (answer thrown api_result j) :=
  match j with
  | Turn => Ok tt
  | One c => Err (TError (js "offline"))
  | Both a b => Ok (inl (failing a))
  end.

Definition fails_first (n : nat) : list ((forall j, result thrown (answer thrown api_result j)) * nat) :=
  repeat (failing : forall j, result thrown (answer thrown api_result j), 0%nat) n.

(** The first request fails; the other two are answered later. *)
Lemma overview_settles_once_witness :
  let y := schedule (fails_first 5) (overview_mounted (mounted empty_storage)) in
  error (overview_list (page (st y))) = Some (js "offline") /\ length (threads y) = 1%nat
  /\ overview_list (page (st (schedule (fails_first 5) y))) = overview_list (page (st y)).
Proof.
  intros y. split; [by_evaluation|]. split; [by_evaluation|].
  apply (overview_settles_once (mounted empty_storage) y); [apply schedule_quiet|by_evaluation|apply schedule_quiet].
Defined.
