(* ===== verification/PagesRuns.v ===== *)
(** Whole runs of each page of the dashboard: every handler comes to an end within twenty
    suspensions, pays for the spinners it starts, and only the login form signs in. *)

From stdpp Require Import relations.
From S2P Require Import Prelude JsString Json WebPlatform Async Disciplines Joins JsErrors Session ApiClient DashTypes UseAsync Dashboard ClientsPage TunnelsPage TransportSettings Pages DashViews TunnelsView Runs OverviewPage.

#[local] Open Scope prog_scope.

(** The two loads of the relays page, started one after the other. *)
Definition reload_both : prog (app RelaysState) (joint api_call) ui_effect thrown (answer thrown api_result) unit :=
  both (lift (await_fn reload_nodes)) (lift (await_fn reload_assignments)) (fun _ _ => skip) (fun e => Throw e).

(** ** Ends *)

Section Ends.
Context {S : Type} `{Window S}.
Local Abbreviation M := (prog S api_call ui_effect thrown api_result).

Lemma ends_login (u p : jsstr) : ends_within 4 (login u p : M unit).
Proof. apply (ends_bind _ _ 4 0); [apply ends_awaited|]. intros v. by repeat case_match. Qed.

Lemma ends_updateSetting (k : jsstr) (v : json) : ends_within 3 (updateSetting k v : M (option json)).
Proof. apply (ends_bind _ _ 0 3); [|intros; apply ends_request]. unfold or_throw. by case_match. Qed.

Lemma ends_downloadLogs (k l : option jsstr) : ends_within 3 (downloadLogs k l : M unit).
Proof.
  unfold downloadLogs. apply (ends_bind _ _ 0 3); [apply ends_requestHeaders|intros h].
  apply (ends_bind _ _ 1 2); [apply ends_call|intros r]. apply (ends_bind _ _ 0 2); [done|intros _]. case_match.
  - apply (ends_bind _ _ 2 0); [|done]. apply (ends_await_fn _ 1), (ends_bind _ _ 1 0); [apply ends_call|done].
  - apply (ends_mono _ (1 + 0)); [lia|]. apply ends_bind; [apply ends_call|done].
Qed.
End Ends.

Lemma ends_load_request {X} (hook : lens (app X) (AsyncState json)) (path : jsstr) (o : RequestInit) :
  ends_within 4 (load hook (request path o) : action X unit).
Proof. apply (ends_load _ _ 3), ends_request. Qed.

Lemma ends_load_prop {X} (hook : lens (app X) (AsyncState json)) (path : jsstr) (o : RequestInit) (k : jsstr) :
  ends_within 5 (load hook (then_prop (request path o) k) : action X unit).
Proof. apply (ends_load _ _ 4), ends_then_prop. Qed.

(** A request, and then what takes [n] more suspensions. *)
Lemma ends_after_request {X A} (path : jsstr) (o : RequestInit) (k : option json -> action X A) (n : nat) :
  (forall v, ends_within n (k v)) -> ends_within (4 + n) (let* v := await_fn (request path o) in k v).
Proof. intros. apply ends_bind; [apply ends_awaited|done]. Qed.

Lemma login_ends (u p : jsstr) : ends_within 20 (Dashboard.submit u p).
Proof.
  do 2 (apply (ends_bind _ _ 0 20); [done|intros _]). apply (ends_finally _ _ 20 0); [|done].
  apply (ends_try_catch _ _ 20 0); [|done]. apply (ends_bind _ _ 20 0); [|done].
  apply (ends_mono _ (4 + 1)); [lia|]. apply ends_await_fn, ends_login.
Qed.

Lemma clients_ends (ev : clients_event) (s : app ClientsState) : ends_within 20 (clients_handler ev s).
Proof.
  assert (ends_within 6 (await_fn reload_clients)) as Hload by (apply (ends_await_fn _ 5), ends_load_prop).
  destruct ev as [|c| |c| |n d|c| |c|c]; cbn [clients_handler]; try done.
  - apply (ends_mono _ 5); [lia|]. apply ends_load_prop.
  - apply (ends_bind _ _ 0 20); [done|intros _]. apply (ends_bind _ _ 0 20); [done|intros v].
    apply (ends_after_request _ _ _ 16). intros x s'. by case_match.
  - unfold saveEdit. case_match; [|done]. apply (ends_after_request _ _ _ 16). intros _.
    apply (ends_bind _ _ 0 16); [done|intros _]. by apply (ends_mono _ 6); [lia|].
  - apply (ends_after_request _ _ _ 16). intros v. by case_match.
  - apply (ends_after_request _ _ _ 16). intros _.
    apply (ends_bind _ _ 0 16); [done|intros _]. by apply (ends_mono _ 6); [lia|].
Qed.

Lemma traffic_ends (ev : traffic_event) (s : app TrafficState) : ends_within 20 (traffic_handler ev s).
Proof.
  assert (forall r, ends_within 20 (reload_traffic r)) as Hload.
  { intros r. apply (ends_mono _ 4); [lia|]. apply ends_load_request. }
  destruct ev as [r|]; cbn [traffic_handler]; [|apply Hload]. unfold setRange. case_match; [done|].
  apply (ends_bind _ _ 0 20); [done|intros _; apply Hload].
Qed.

Lemma logs_ends (ev : logs_event) (s : app LogsState) : ends_within 20 (logs_handler ev s).
Proof.
  assert (forall f, ends_within 16 (reload_logs f)) as Hload.
  { intros f. apply (ends_mono _ 4); [lia|]. apply ends_load_request. }
  assert (forall f, ends_within 20 (change_logs s f)) as Hchange.
  { intros f. apply (ends_bind _ _ 0 20); [done|intros _]. case_match; [done|]. by apply (ends_mono _ 16); [lia|]. }
  destruct ev as [|v|v|v|n| | |]; cbn [logs_handler]; try apply Hchange; try done.
  - by apply (ends_mono _ 16); [lia|].
  - unfold download. apply (ends_try_catch _ _ 20 0); [|done].
    apply (ends_mono _ (3 + 1)); [lia|]. apply ends_await_fn, ends_downloadLogs.
  - case_match; [|done]. apply (ends_after_request _ _ _ 16). intros v. case_match; [|done].
    by apply (ends_bind _ _ 0 16).
Qed.

Lemma tokens_ends (ev : tokens_event) : ends_within 20 (tokens_handler ev).
Proof.
  assert (ends_within 16 reload_tokens) as Hload by (apply (ends_mono _ 5); [lia|]; apply ends_load_prop).
  assert (ends_within 15 (await_fn reload_tokens)) as Hawait.
  { apply (ends_mono _ (5 + 1)); [lia|]. apply ends_await_fn, ends_load_prop. }
  destruct ev as [| | |n| |t v|t|t|]; cbn [tokens_handler]; try done.
  - by apply (ends_mono _ 16); [lia|].
  - unfold create. apply (ends_bind _ _ 1 19).
    { apply (ends_await_fn _ 0). intros s. repeat case_match; done. }
    intros n. apply (ends_after_request _ _ _ 15). intros v. case_match; [|done].
    do 3 (apply (ends_bind _ _ 0 15); [done|intros _]). done.
  - by apply (ends_after_request _ _ _ 16).
  - apply (ends_after_request _ _ _ 16). intros _. apply (ends_bind _ _ 0 16); [done|intros _].
    by apply (ends_mono _ 15); [lia|].
Qed.

Lemma reload_both_ends : ends_within 20 reload_both.
Proof.
  apply (ends_mono _ (6 + 6 + 0)); [lia|].
  apply ends_both; try done; by apply ends_lift, (ends_await_fn _ 5), ends_load_prop.
Qed.

Lemma settings_ends (ev : settings_event) : ends_within 20 (settings_handler ev).
Proof.
  assert (ends_within 16 reload_settings) as Hload by (apply (ends_mono _ 5); [lia|]; apply ends_load_prop).
  destruct ev as [|c n|k v]; cbn [settings_handler].
  - by apply (ends_mono _ 16); [lia|].
  - apply (ends_try_catch _ _ 20 0); [|done]. by apply (ends_after_request _ _ _ 16).
  - apply (ends_try_catch _ _ 20 0); [|done]. apply (ends_bind _ _ 4 16).
    { apply (ends_await_fn _ 3), ends_updateSetting. }
    intros _. by apply (ends_bind _ _ 0 16).
Qed.

Lemma reported_ends (a : action TransportState unit) (f : TransportState -> TransportState) (n : nat) :
  ends_within n a -> ends_within n (reported a f).
Proof.
  intros Ha. rewrite <-(Nat.add_0_r n). apply ends_finally; [|done].
  rewrite <-(Nat.add_0_r n). by apply ends_try_catch.
Qed.

Lemma load_status_ends (silent : bool) : ends_within 5 (load_status silent).
Proof.
  apply (ends_bind _ _ 0 5); [by destruct silent|intros _]. apply reported_ends.
  by apply (ends_after_request _ _ _ 1).
Qed.

Lemma transport_ends (ev : transport_event) (s : app TransportState) : ends_within 20 (transport_handler ev s).
Proof.
  assert (forall key path o success, ends_within 20 (await_fn (TransportSettings.run key (request path o) success))) as Hrun.
  { intros. apply (ends_await_fn _ 19), (ends_bind _ _ 0 19); [done|intros _]. apply reported_ends.
    by apply (ends_after_request _ _ _ 15). }
  destruct ev as [| | |d e|w b]; cbn [transport_handler]; try apply Hrun.
  - apply (ends_mono _ 5); [lia|]. apply load_status_ends.
  - apply (ends_bind _ _ 0 20); [done|intros _]. apply reported_ends. by apply (ends_after_request _ _ _ 16).
  - unfold submit_auto. case_match; [done|]. apply (ends_bind _ _ 0 20); [done|intros _].
    apply reported_ends. by apply (ends_after_request _ _ _ 16).
Qed.

Lemma reload_overview_ends : ends_within 20 reload_overview.
Proof.
  apply (ends_bind _ _ 0 20); [done|intros _]. apply (ends_mono _ (4 + 5 + 5 + 2)); [lia|].
  apply ends_all; try done; apply ends_lift.
  - apply ends_awaited.
  - apply (ends_await_fn _ 4), ends_then_prop.
  - apply (ends_await_fn _ 4), ends_then_prop.
Qed.

(** ** Spinners *)

Lemma load_request_discharges {X T} (hook : lens (app X) (AsyncState T)) (owes : bool)
    (loader : action X (option T)) :
  preserves (fun s => UseAsync.loading (view hook s)) loader ->
  discharges (fun s => UseAsync.loading (view hook s)) owes (load hook loader).
Proof. apply load_discharges. Qed.

(** The parts of a handler that owes nothing: a load pays for itself, a request leaves the
    spinner alone. *)
Ltac keeps_promise :=
  repeat lazymatch goal with
    | |- forall _, _ => intros ?
    | |- discharges _ _ (Ret _) => reflexivity
    | |- discharges _ _ (Throw _) => reflexivity
    | |- discharges _ _ skip => reflexivity
    | |- discharges _ _ (say _) => reflexivity
    | |- discharges _ _ (gets _) => intros ?; reflexivity
    | |- discharges _ _ (Read _) => intros ?; cbv beta
    | |- discharges _ _ (bind _ _) => apply discharges_bind
    | |- discharges _ _ (await_fn _) => apply discharges_await_fn
    | |- discharges _ _ (try_catch _ _) => apply discharges_then
    | |- discharges _ _ (load _ _) =>
      apply load_request_discharges;
      first [ by apply preserves_items, preserves_request | by apply preserves_then_prop, preserves_request
            | by apply preserves_request ]
    | |- discharges _ _ (modify _) =>
      apply discharges_preserves, preserves_modify; intros ?; first [done | cbn; by case_match]
    | |- discharges _ _ (updateSetting _ _) => by apply discharges_preserves, preserves_updateSetting
    | |- discharges _ _ (downloadLogs _ _) => by apply discharges_preserves, preserves_downloadLogs
    | |- discharges _ _ (if ?b then _ else _) => destruct b
    | |- discharges _ _ match ?x with _ => _ end => destruct x
    | |- discharges _ _ _ => by apply discharges_preserves, preserves_request
    end.

Lemma traffic_discharges (ev : traffic_event) (s : app TrafficState) :
  discharges (fun s => UseAsync.loading (view traffic_hook s)) false (traffic_handler ev s).
Proof. destruct ev; cbn [traffic_handler]; unfold setRange, reload_traffic; keeps_promise. Qed.

Lemma logs_discharges (ev : logs_event) (s : app LogsState) :
  discharges (fun s => UseAsync.loading (view logs_hook s)) false (logs_handler ev s).
Proof.
  destruct ev as [|v|v|v|n| | |]; cbn [logs_handler];
    unfold change_logs, typed, download, clear, clear_confirmed, reload_logs; keeps_promise.
Qed.

Lemma tokens_discharges (ev : tokens_event) :
  discharges (fun s => UseAsync.loading (view tokens_hook s)) false (tokens_handler ev).
Proof.
  destruct ev; cbn [tokens_handler];
    unfold create, validateFields, set_disabled, remove_token, remove_token_confirmed, reload_tokens; keeps_promise.
Qed.

Lemma settings_discharges (ev : settings_event) :
  discharges (fun s => UseAsync.loading (view settings_hook s)) false (settings_handler ev).
Proof. destruct ev; cbn [settings_handler]; unfold submit_password, save_setting, reload_settings; keeps_promise. Qed.

Lemma relays_discharges (ev : relays_event) (s : app RelaysState) :
  discharges (fun s => UseAsync.loading (view nodes_hook s)) false (relays_handler ev s)
  /\ discharges (fun s => UseAsync.loading (view assignments_hook s)) false (relays_handler ev s).
Proof.
  assert (forall p k (h1 h2 : lens (app RelaysState) (AsyncState json)), (forall a s, view h1 (put h2 a s) = view h1 s) ->
            (forall m s, view h1 (set_storage m s) = view h1 s) -> (forall s, view h1 (on_unauthorized s) = view h1 s) ->
            discharges (fun s => UseAsync.loading (view h1 s)) false
              (load h2 (then_prop (request p no_options) k) : action RelaysState unit)) as Hother.
  { intros p k h1 h2 Hv Hm Ho. apply discharges_preserves, preserves_load; [intros a s1; by rewrite Hv|].
    by apply preserves_then_prop, preserves_request; intros; rewrite ?Hm, ?Ho. }
  destruct ev; cbn [relays_handler]; unfold reload_nodes, reload_assignments; split;
    first [by apply Hother | keeps_promise].
Qed.

Lemma reload_both_discharges (owes : bool) :
  discharges (fun s => UseAsync.loading (view nodes_hook s)) owes reload_both
  /\ discharges (fun s => UseAsync.loading (view assignments_hook s)) owes reload_both.
Proof.
  assert (forall (h : lens (app RelaysState) (AsyncState json)) o path k,
            (forall m s, view h (set_storage m s) = view h s) -> (forall s, view h (on_unauthorized s) = view h s) ->
            discharges (fun s => UseAsync.loading (view h s)) o
              (lift (await_fn (load h (then_prop (request path no_options) k) : action RelaysState unit)))) as Hown.
  { intros h o path k Hm Ho. apply discharges_lift, discharges_await_fn, load_request_discharges.
    by apply preserves_then_prop, preserves_request; intros; rewrite ?Hm, ?Ho. }
  split.
  - rewrite <-(orb_false_r owes). apply discharges_both; [by apply Hown| |done|done].
    apply discharges_lift, discharges_await_fn, (proj1 (relays_discharges ReloadAssignments
      {| shell := mounted empty_storage; page := {| nodes := not_loaded; assignments := not_loaded |} |})).
  - rewrite <-(orb_false_l owes). apply discharges_both; [|by apply Hown|done|done].
    apply discharges_lift, discharges_await_fn, (proj2 (relays_discharges ReloadNodes
      {| shell := mounted empty_storage; page := {| nodes := not_loaded; assignments := not_loaded |} |})).
Qed.

(** The section's own spinner is started by its first load only. *)
Definition section_loading (s : app TransportState) : bool := TransportSettings.loading (page s).

Lemma load_status_discharges (owes : bool) : discharges section_loading owes (load_status false).
Proof. apply discharges_taken, reported_discharges; [by apply stored_frame|by left]. Qed.

Lemma transport_discharges (ev : transport_event) (s : app TransportState) :
  discharges section_loading false (transport_handler ev s).
Proof.
  assert (forall key path o success, discharges section_loading false
            (await_fn (TransportSettings.run key (request path o) success))) as Hrun.
  { intros. apply discharges_await_fn, discharges_modify_bind; [done|].
    apply reported_discharges; [by apply stored_frame|by right]. }
  destruct ev as [| | |d e|w b]; cbn [transport_handler]; try apply Hrun.
  - apply discharges_bind; [done|intros _]. apply reported_discharges; [by apply stored_frame|by right].
  - apply discharges_modify_bind; [done|]. apply reported_discharges; [by apply stored_frame|by right].
  - unfold submit_auto. case_match; [done|]. apply discharges_modify_bind; [done|].
    apply reported_discharges; [by apply stored_frame|by right].
Qed.

(** ** Invariants that requests keep *)

Section RequestInvariant.
Context {S : Type} `{Window S} (I : S -> Prop).
Context (I_storage : forall m s, I s -> I (set_storage m s)) (I_out : forall s, I s -> I (on_unauthorized s)).
Local Abbreviation M := (prog S api_call ui_effect thrown api_result).

Lemma set_all_keeps (h : Headers) (l : list (jsstr * jsstr)) : maintains I (set_all h l : M Headers).
Proof.
  revert h. induction l as [|[n v] l IH]; intros h; [done|].
  apply maintains_bind; [|done]. unfold or_throw. by case_match.
Qed.

Lemma requestHeaders_keeps (o : RequestInit) : maintains I (requestHeaders o : M Headers).
Proof.
  unfold requestHeaders. apply maintains_bind; [apply set_all_keeps|intros h0].
  apply maintains_bind; [apply set_all_keeps|intros h1].
  apply maintains_bind; [case_match; [apply set_all_keeps|done]|intros h2].
  apply maintains_bind; [|intros; apply set_all_keeps]. cbn. intros s. destruct (authHeader (storage s)). cbn. auto.
Qed.

Lemma handleUnauthorized_keeps (r : Response) : maintains I (handleUnauthorized r : M unit).
Proof. apply maintains_modify. intros s Hs. unfold signed_out. case_match; auto. Qed.

Lemma call_keeps (c : api_call) : maintains I (call c : M _).
Proof. by intros [v|e]. Qed.

Lemma request_keeps (path : jsstr) (o : RequestInit) : maintains I (request path o : M (option json)).
Proof.
  unfold request. apply maintains_bind; [apply requestHeaders_keeps|intros h].
  apply maintains_bind; [apply call_keeps|intros r].
  apply maintains_bind; [apply handleUnauthorized_keeps|intros _]. case_match; [done|].
  apply maintains_bind; [|intros; by case_match]. apply maintains_await_fn, maintains_bind; [apply call_keeps|done].
Qed.

Lemma then_prop_keeps (path : jsstr) (o : RequestInit) (k : jsstr) :
  maintains I (then_prop (request path o : M (option json)) k).
Proof. apply maintains_bind; [apply maintains_await_fn, request_keeps|]. intros v. by case_match. Qed.

Lemma updateSetting_keeps (k : jsstr) (v : json) : maintains I (updateSetting k v : M (option json)).
Proof. apply maintains_bind; [|intros; apply request_keeps]. unfold or_throw. by case_match. Qed.

Lemma downloadLogs_keeps (k l : option jsstr) : maintains I (downloadLogs k l : M unit).
Proof.
  unfold downloadLogs. apply maintains_bind; [apply requestHeaders_keeps|intros h].
  apply maintains_bind; [apply call_keeps|intros r].
  apply maintains_bind; [apply handleUnauthorized_keeps|intros _]. case_match.
  - apply maintains_bind; [|done]. apply maintains_await_fn, maintains_bind; [apply call_keeps|done].
  - apply maintains_bind; [apply call_keeps|done].
Qed.
End RequestInvariant.

(** ** Only the login form signs in *)

(** No page is on display that a session is needed for. *)
Definition signed_out_page {X} (s : app X) : Prop := authenticated (shell s) = false.

(** The parts of a handler: a request can only sign out, and what is left changes the page. *)
Ltac keeps_out :=
  repeat lazymatch goal with
    | |- forall _, _ => intros ?
    | |- maintains _ (Ret _) => exact Logic.I
    | |- maintains _ (Throw _) => exact Logic.I
    | |- maintains _ skip => exact Logic.I
    | |- maintains _ (say _) => exact Logic.I
    | |- maintains _ (gets _) => intros ?; exact Logic.I
    | |- maintains _ (Read _) => intros ?; cbv beta
    | |- maintains _ (bind _ _) => apply maintains_bind
    | |- maintains _ (await_fn _) => apply maintains_await_fn
    | |- maintains _ (try_catch _ _) => apply maintains_continue
    | |- maintains _ (continue _ _ _) => apply maintains_continue
    | |- maintains _ (finally _ _) => apply maintains_continue
    | |- maintains _ (reported _ _) => apply maintains_continue
    | |- maintains _ (report _) => exact Logic.I
    | |- maintains _ (load _ _) => apply maintains_bind
    | |- maintains _ (modify _) => apply maintains_modify; intros ? ?; assumption
    | |- maintains _ (updateSetting _ _) => by apply updateSetting_keeps
    | |- maintains _ (downloadLogs _ _) => by apply downloadLogs_keeps
    | |- maintains _ (then_prop _ _) => by apply then_prop_keeps
    | |- maintains _ (items _) => by apply then_prop_keeps
    | |- maintains _ (if ?b then _ else _) => destruct b
    | |- maintains _ match ?x with _ => _ end => destruct x
    | |- maintains _ _ => by apply request_keeps
    end.

Lemma clients_keep_out (ev : clients_event) (s : app ClientsState) : maintains signed_out_page (clients_handler ev s).
Proof.
  destruct ev; cbn [clients_handler];
    unfold loadDetail, saveEdit, resetToken, closeDetail, ClientsPage.remove, ClientsPage.remove_confirmed,
      acceptDetail, reload_clients, listClients; keeps_out.
Qed.

Lemma traffic_keep_out (ev : traffic_event) (s : app TrafficState) : maintains signed_out_page (traffic_handler ev s).
Proof. destruct ev; cbn [traffic_handler]; unfold setRange, reload_traffic; keeps_out. Qed.

Lemma logs_keep_out (ev : logs_event) (s : app LogsState) : maintains signed_out_page (logs_handler ev s).
Proof.
  destruct ev as [|v|v|v|n| | |]; cbn [logs_handler]; unfold change_logs, download, clear, clear_confirmed, reload_logs;
    keeps_out.
Qed.

Lemma tokens_keep_out (ev : tokens_event) : maintains signed_out_page (tokens_handler ev).
Proof.
  destruct ev; cbn [tokens_handler];
    unfold create, validateFields, set_disabled, remove_token, remove_token_confirmed, reload_tokens, listTokens; keeps_out.
Qed.

Lemma tunnels_keep_out (ev : tunnels_event) (s : app TunnelsState) : maintains signed_out_page (tunnels_handler ev s).
Proof.
  destruct ev; cbn [tunnels_handler]; rewrite ?submit_unfold;
    unfold toggle, TunnelsPage.remove, TunnelsPage.remove_confirmed, reload_tunnels, tunnels_loader, listTunnels, listClients; keeps_out.
Qed.

Lemma settings_keep_out (ev : settings_event) : maintains signed_out_page (settings_handler ev).
Proof.
  destruct ev; cbn [settings_handler]; unfold submit_password, save_setting, reload_settings, ApiClient.settings; keeps_out.
Qed.

Lemma load_status_keeps_out (silent : bool) : maintains signed_out_page (load_status silent).
Proof. unfold load_status. keeps_out. Qed.

Lemma transport_keep_out (ev : transport_event) (s : app TransportState) : maintains signed_out_page (transport_handler ev s).
Proof.
  destruct ev; cbn [transport_handler]; [apply load_status_keeps_out|..];
    unfold toggleTLS, togglePlain, submit_certificate, submit_auto, TransportSettings.run; keeps_out.
Qed.

Lemma reload_both_keeps_out : maintains signed_out_page reload_both.
Proof.
  apply maintains_both; try done; apply maintains_lift; unfold reload_nodes, reload_assignments, relays, relayAssignments; keeps_out.
Qed.

Lemma reload_overview_keeps_out : maintains signed_out_page reload_overview.
Proof.
  apply maintains_bind; [by apply maintains_modify|intros _].
  apply maintains_all; try done; apply maintains_lift; unfold listClients, listTunnels; keeps_out.
Qed.
