(* ===== verification/Compose.v ===== *)
(** Components that share a part of their state: the functions of each run on the whole, where
    they see and change its own state and the shared one. *)

From stdpp Require Import relations.
From S2P Require Import Prelude Async Disciplines.

(** ** A component's function on the whole *)

Section Embed.
Context {G S C O E : Type} {R : C -> Type} (at_ : G -> S) (put : S -> G -> G).

Fixpoint embed {A} (p : prog S C O E R A) : prog G C O E R A :=
  match p with
  | Ret a => Ret a
  | Throw e => Throw e
  | Read k => Read (fun g => embed (k (at_ g)))
  | Upd f k => Upd (fun g => put (f (at_ g)) g) (embed k)
  | Say o k => Say o (embed k)
  | Yield k => Yield (embed k)
  | Await c k => Await c (fun r => embed (k r))
  end.

Lemma ends_embed {A} (p : prog S C O E R A) (n : nat) : ends_within n p -> ends_within n (embed p).
Proof.
  revert n. induction p as [a|e|k IH|f k IH|o k IH|k IH|c k IH]; cbn; intros n Hp; eauto; (destruct n; [done|eauto]).
Qed.

(** A part of the whole that is not the component's. *)
Lemma preserves_embed {X A} (proj : G -> X) (p : prog S C O E R A) :
  (forall s g, proj (put s g) = proj g) -> preserves proj (embed p).
Proof. intros Hput. induction p; cbn; eauto. Qed.

(** A flag of the whole that follows the component's. *)
Lemma discharges_embed {A} (flag : S -> bool) (whole : G -> bool) (owes : bool) (p : prog S C O E R A) :
  (forall s g, flag s = false -> whole (put s g) = false) ->
  (forall s g, flag s = flag (at_ g) -> whole (put s g) = whole g) ->
  discharges flag owes p -> discharges whole owes (embed p).
Proof.
  intros Hoff Hsame. revert owes. induction p as [a|e|k IH|f k IH|o k IH|k IH|c k IH]; cbn; intros owes Hp; eauto.
  destruct Hp as [[Hf Hk]|[[Hf Hk]|Hk]]; eauto 7.
Qed.

(** An invariant of the whole that the component's keeps. *)
Lemma maintains_embed {A} (I : S -> Prop) (J : G -> Prop) (p : prog S C O E R A) :
  (forall g, J g -> I (at_ g)) -> (forall s g, J g -> I s -> J (put s g)) -> maintains I p -> maintains J (embed p).
Proof.
  intros Hat Hput. induction p as [a|e|k IH|f k IH|o k IH|k IH|c k IH]; cbn; intros Hp; eauto.
  destruct Hp as [Hf Hk]. split; [|by apply IH]. intros g Hg. by apply Hput, Hf, Hat.
Qed.
End Embed.

(** ** Running on the whole and on one's own *)

Section Runs.
Context {G S C O E : Type} {R : C -> Type} (at_ : G -> S) (put : S -> G -> G).
Context (at_put : forall s g, at_ (put s g) = s).
Local Abbreviation embedded := (embed at_ put).

Definition embed_thread (t : thread S C O E R) : thread G C O E R :=
  match t with TPaused k => TPaused (embedded k) | TWaiting c k => TWaiting c (fun r => embedded (k r)) end.

Definition embed_outcome (o : outcome S C O E R) : outcome G C O E R :=
  match o with
  | Done => Done
  | Failed e => Failed e
  | Paused k => Paused (embedded k)
  | Waiting c k => Waiting c (fun r => embedded (k r))
  end.

(** What a component's function does on the whole is what it does on the component. *)
Lemma run_embed (p : prog S C O E R unit) (g : G) (s : S) (os : list O) (o : outcome S C O E R) :
  run p (at_ g) = (s, os, o) ->
  exists g', run (embedded p) g = (g', os, embed_outcome o) /\ at_ g' = s.
Proof.
  revert g s os o. induction p as [a|e|k IH|f k IH|x k IH|k IH|c k IH]; cbn; intros g s os o Hr.
  - simplify_eq. eauto.
  - simplify_eq. eauto.
  - by apply IH.
  - apply IH. by rewrite at_put.
  - destruct (run k (at_ g)) as [[s1 os1] o1] eqn:Hk. simplify_eq. destruct (IH _ _ _ _ Hk) as (g' & Hg & Hs).
    exists g'. by rewrite Hg.
  - simplify_eq. eauto.
  - simplify_eq. eauto.
Qed.

Lemma suspended_embed (o : outcome S C O E R) : suspended (embed_outcome o) = map embed_thread (suspended o).
Proof. by destruct o. Qed.
(** Two more properties that follow the component's. *)
Lemma preserves_embed_own {X A} (proj : S -> X) (p : prog S C O E R A) :
  preserves proj p -> preserves (fun g => proj (at_ g)) (embedded p).
Proof.
  induction p as [a|e|k IH|f k IH|x k IH|k IH|c k IH]; cbn; intros Hp; eauto.
  destruct Hp as [Hf Hk]. split; [|auto]. intros g. by rewrite at_put.
Qed.

Lemma stable_embed {X A} (version : S -> Z) (proj : S -> X) (m : Z) (p : prog S C O E R A) (g : G) :
  stable version proj m p (at_ g) -> stable (fun g => version (at_ g)) (fun g => proj (at_ g)) m (embedded p) g.
Proof.
  revert g. induction p as [a|e|k IH|f k IH|x k IH|k IH|c k IH]; cbn; intros g Hp; eauto.
  rewrite at_put. destruct Hp as (Hle & Hsame & Hk). split; [done|]. split; [done|]. apply IH. by rewrite at_put.
Qed.
End Runs.
