(* ===== verification/Console.v ===== *)
(** The whole dashboard: the frame of web/dashboard/src/App.tsx around the pages it mounts, each
    with its state, its effects and its asynchronous functions, over one browser. *)

From stdpp Require Import relations.
From S2P Require Import Prelude JsString Json View WebPlatform Async Disciplines Joins JsErrors Session ApiClient DashTypes TransportDisplay UseAsync Dashboard ClientsPage TunnelsPage TransportSettings Pages DashViews PagesViews ClientsView TransportView TunnelsView Runs OverviewPage PagesRuns Compose.

#[local] Open Scope prog_scope.

(** ** The components the frame displays *)

Inductive component :=
| CLogin | COverview | CClients | CTokens | CTunnels | CRelays | CTraffic | CLogs | CSettings.

#[export] Instance component_eq_dec : EqDecision component.
Proof. solve_decision. Defined.

(** The settings page has the transport section inside it, with a state of its own. *)
Definition component_state (k : component) : Type :=
  match k with
  | CLogin => LoginState
  | COverview => OverviewState
  | CClients => ClientsState
  | CTokens => TokensState
  | CTunnels => TunnelsState
  | CRelays => RelaysState
  | CTraffic => TrafficState
  | CLogs => LogsState
  | CSettings => SettingsState * TransportState
  end.

(** What [useState] is called with. *)
Definition component_initial (k : component) : component_state k :=
  match k with
  | CLogin => {| login_loading := false; login_error := None |}
  | COverview => {| overview_list := not_loaded |}
  | CClients => clients_initial
  | CTokens => {| tokens_list := not_loaded; create_open := false; created := None; name_field := None |}
  | CTunnels => {| tunnels_list := not_loaded; TunnelsPage.editing := None |}
  | CRelays => {| nodes := not_loaded; assignments := not_loaded |}
  | CTraffic => {| range := js "today"; traffic_list := not_loaded |}
  | CLogs => logs_initial
  | CSettings => ({| settings_list := not_loaded; password_form := None |}, transport_initial)
  end.

Inductive settings_page_event := OfRows (ev : settings_event) | OfSection (ev : transport_event).

Definition component_event (k : component) : Type :=
  match k with
  | CLogin => login_event
  | COverview => overview_event
  | CClients => clients_event
  | CTokens => tokens_event
  | CTunnels => tunnels_event
  | CRelays => relays_click
  | CTraffic => traffic_event
  | CLogs => logs_event
  | CSettings => settings_page_event
  end.

(** A function of a component, beside which others wait for answers. *)
Abbreviation deed S := (prog S (joint api_call) ui_effect thrown (answer thrown api_result) unit) (only parsing).

Definition rows_at (s : app (SettingsState * TransportState)) : app SettingsState :=
  {| shell := shell s; page := fst (page s) |}.
Definition rows_put (r : app SettingsState) (s : app (SettingsState * TransportState)) :=
  {| shell := shell r; page := (page r, snd (page s)) |}.
Definition section_at (s : app (SettingsState * TransportState)) : app TransportState :=
  {| shell := shell s; page := snd (page s) |}.
Definition section_put (t : app TransportState) (s : app (SettingsState * TransportState)) :=
  {| shell := shell t; page := (fst (page s), page t) |}.

Definition component_handler (k : component) :
    component_event k -> app (component_state k) -> deed (app (component_state k)) :=
  match k with
  | CLogin => fun ev s => lift (login_handler ev s)
  | COverview => fun ev s => overview_handler ev s
  | CClients => fun ev s => lift (clients_handler ev s)
  | CTokens => fun ev _ => lift (tokens_handler ev)
  | CTunnels => fun ev s => lift (tunnels_handler ev s)
  | CRelays => fun _ _ => reload_both
  | CTraffic => fun ev s => lift (traffic_handler ev s)
  | CLogs => fun ev s => lift (logs_handler ev s)
  | CSettings => fun ev s =>
      match ev with
      | OfRows ev => embed rows_at rows_put (lift (settings_handler ev))
      | OfSection ev => embed section_at section_put (lift (transport_handler ev (section_at s)))
      end
  end.

(** What its effects start when it is mounted: the first load. The effects of the transport
    section run before those of the page around it. *)
Definition component_mount (k : component) : option (deed (app (component_state k))) :=
  match k with
  | CLogin => None
  | COverview => Some reload_overview
  | CClients => Some (lift reload_clients)
  | CTokens => Some (lift reload_tokens)
  | CTunnels => Some (lift reload_tunnels)
  | CRelays => Some reload_both
  | CTraffic => Some (lift (reload_traffic (range (component_initial CTraffic))))
  | CLogs => Some (lift (reload_logs (filter_of (component_initial CLogs))))
  | CSettings => Some (both (embed section_at section_put (lift (load_status false)))
                            (embed rows_at rows_put (lift reload_settings)) (fun _ _ => skip) (fun e => Throw e))
  end.

(** The column [component] of the table of pages. *)
Definition page_components : list (jsstr * component) :=
  [(js "overview", COverview); (js "clients", CClients); (js "tokens", CTokens); (js "tunnels", CTunnels);
   (js "relays", CRelays); (js "traffic", CTraffic); (js "logs", CLogs); (js "settings", CSettings)].

Definition component_of (key : jsstr) : component :=
  match js_find (fun p => str_eqb (fst p) key) page_components with Some p => snd p | None => COverview end.

(** What [DashboardApp] returns around: the login page, or the active one. *)
Definition displayed (b : browser) : component :=
  if authenticated b then component_of (js_nullish (fst <$> activePage b) (js "overview")) else CLogin.

(** ** The state of the whole *)

(** A component has a state for every time it is mounted. [lives] are the components mounted so
    far, the one on display last; [due] the effects still to run. *)
Record console := {
  frame : browser;
  lives : list component;
  due : list (component * nat);
  store : forall k : component, nat -> component_state k
}.

Definition set_store (k : component) (n : nat) (v : component_state k)
    (st : forall k : component, nat -> component_state k) (k' : component) (n' : nat) : component_state k' :=
  match decide (k = k') with
  | left e => if (n =? n')%nat then eq_rect k component_state v k' e else st k' n'
  | right _ => st k' n'
  end.

(** After a change of the frame's state React displays what the frame returns now: another
    component is mounted anew, the same one stays. *)
Definition commit (b : browser) (c : console) : console :=
  if decide (displayed b = displayed (frame c))
  then {| frame := b; lives := lives c; due := due c; store := store c |}
  else {| frame := b; lives := lives c ++ [displayed b];
          due := due c ++ when (present (component_mount (displayed b))) (displayed b, length (lives c));
          store := store c |}.

(** A component as it sees itself, and the whole after it changed. *)
Definition life_at (k : component) (n : nat) (c : console) : app (component_state k) :=
  {| shell := frame c; page := store c k n |}.

Definition life_put (k : component) (n : nat) (s : app (component_state k)) (c : console) : console :=
  commit (shell s) {| frame := frame c; lives := lives c; due := due c; store := set_store k n (page s) (store c) |}.

Definition alive (k : component) (n : nat) (p : deed (app (component_state k))) : deed console :=
  embed (life_at k n) (life_put k n) p.

(** The number of the life on display. *)
Definition current (c : console) : nat := pred (length (lives c)).

Definition console_mounted (m : Storage) : console :=
  let b := mounted m in
  {| frame := b; lives := [displayed b]; due := when (present (component_mount (displayed b))) (displayed b, 0%nat);
     store := fun k _ => component_initial k |}.

(** ** What happens *)

(** [On k n ev] is an event of the component [k] mounted as the [n]-th. *)
Inductive console_event :=
| Effects
| Select (key : jsstr)
| SignOut
| On (k : component) (n : nat) (ev : component_event k).

Definition effects_run (i : component * nat) (c : console) : console :=
  {| frame := frame c; lives := lives c; due := List.filter (fun j => negb (bool_decide (j = i))) (due c);
     store := store c |}.

(** The effects that are due run in order, those of one component at a time. *)
Definition run_effects (c : console) : deed console :=
  match due c with
  | (k, n) :: _ =>
    match component_mount k with
    | Some p => modify (effects_run (k, n)) ;;; alive k n p
    | None => skip
    end
  | [] => skip
  end.

Definition console_handler (ev : console_event) (c : console) : deed console :=
  match ev with
  | Effects => run_effects c
  | Select key => modify (fun c => commit (setActive key (frame c)) c)
  | SignOut => modify (fun c => commit (logout (frame c)) c)
  | On k n ev => alive k n (component_handler k ev (life_at k n c))
  end.

(** The answer to a confirmation dialog, which is the library's and stays when its page goes. *)
Definition dialog (k : component) : component_event k -> bool :=
  match k with
  | CClients => fun ev => match ev with ConfirmRemove _ => true | _ => false end
  | CTokens => fun ev => match ev with ConfirmRemoveToken _ => true | _ => false end
  | CTunnels => fun ev => match ev with ConfirmRemoval _ => true | _ => false end
  | CLogs => fun ev => match ev with ConfirmClear => true | _ => false end
  | _ => fun _ => false
  end.

Definition component_enabled (k : component) : component_event k -> app (component_state k) -> bool :=
  match k with
  | CLogin => login_enabled
  | CClients => clients_enabled
  | CTokens => fun ev s => tokens_enabled ev (page s)
  | CTunnels => tunnels_enabled
  | CTraffic => traffic_enabled
  | CLogs => logs_enabled
  | CSettings => fun ev s => match ev with OfRows _ => true | OfSection ev => transport_enabled ev (section_at s) end
  | _ => fun _ _ => true
  end.

Definition console_enabled (ev : console_event) (c : console) : bool :=
  match ev with
  | Effects => truthy (due c)
  | Select key => authenticated (frame c) && present (js_find (fun p => str_eqb (fst p) key) pages)
  | SignOut => authenticated (frame c)
  | On k n ev =>
    component_enabled k ev (life_at k n c)
    && (bool_decide (k = displayed (frame c) /\ n = current c)
        || dialog k ev && bool_decide (lives c !! n = Some k))
  end.

(** ** What is on display *)

Section View.
Context `{Dates}.

(** The trees a component may return in a state, for what its data can be read as; a page that
    throws while it renders returns none. *)
Definition component_view (k : component) :
    app (component_state k) -> result thrown (element (component_event k)) -> Prop :=
  match k return app (component_state k) -> result thrown (element (component_event k)) -> Prop with
  | CLogin => fun s v => v = Ok (LoginView (page s))
  | COverview => fun s v =>
      exists ov clients tunnels,
        v = Ok (OverviewView (UseAsync.loading (overview_list (page s))) (UseAsync.error (overview_list (page s))) ov clients tunnels ReloadOverview)
  | CClients => fun s v => exists clients d, v = Ok (ClientsView (page s) clients d)
  | CTokens => fun s v => exists tokens, v = Ok (TokensView (page s) tokens)
  | CTunnels => fun s v =>
      exists origin tunnels clients auto watched, v = TunnelsView origin (page s) tunnels clients auto watched
  | CRelays => fun s v => exists relay_nodes relay_assignments, v = Ok (RelaysView (page s) relay_nodes relay_assignments)
  | CTraffic => fun s v => exists figures, v = Ok (TrafficView (page s) figures)
  | CLogs => fun s v => exists rows total, v = Ok (LogsView (page s) rows total)
  | CSettings => fun s v =>
      exists items, v = Ok (SettingsView OfRows (fst (page s)) items (map_element OfSection (TransportView (section_at s))))
  end.

(** Without a tree of its page the frame has none either: nothing is on display. *)
Definition console_view (c : console) (v : result thrown (element console_event)) : Prop :=
  let k := displayed (frame c) in
  let n := current c in
  exists r, component_view k (life_at k n c) r
    /\ v = match r with
           | Ok tree => Ok (let inner := map_element (On k n) tree in
                            DashboardView (frame c) inner inner Select SignOut)
           | Err e => Err e
           end.

(** The timers that run while a component is mounted. *)
Definition timer (k : component) : component_event k -> app (component_state k) -> bool :=
  match k return component_event k -> app (component_state k) -> bool with
  | CRelays => fun _ _ => true
  | CSettings => fun ev s =>
      match ev with OfSection Poll => certificatePending (typed_status (section_at s)) | _ => false end
  | _ => fun _ _ => false
  end.

(** What can happen next: an effect that is due, what the trees on display offer, a timer, and
    the answer to a dialog. *)
Definition console_shown `{Toolkit} (ev : console_event) (c : console) : Prop :=
  match ev with
  | Effects => truthy (due c) = true
  | On k n e =>
    (exists v, console_view c (Ok v) /\ offers ev v)
    \/ (k = displayed (frame c) /\ n = current c /\ timer k e (life_at k n c) = true)
    \/ (dialog k e = true /\ lives c !! n = Some k /\ component_enabled k e (life_at k n c) = true)
  | _ => exists v, console_view c (Ok v) /\ offers ev v
  end.
End View.

(** ** The laws of the state *)

Lemma set_store_same (k : component) (n : nat) (v : component_state k) st : set_store k n v st k n = v.
Proof.
  unfold set_store. destruct (decide (k = k)) as [e|]; [|done].
  rewrite Nat.eqb_refl. by rewrite (Eqdep_dec.UIP_dec component_eq_dec e eq_refl).
Qed.

Lemma set_store_other (k k' : component) (n n' : nat) (v : component_state k) st :
  (k, n) <> (k', n') -> set_store k n v st k' n' = st k' n'.
Proof.
  intros Hne. unfold set_store. destruct (decide (k = k')) as [<-|]; [|done].
  destruct (Nat.eqb_spec n n') as [<-|]; [done|done].
Qed.

Lemma frame_commit (b : browser) (c : console) : frame (commit b c) = b.
Proof. unfold commit. by case_decide. Qed.

Lemma store_commit (b : browser) (c : console) : store (commit b c) = store c.
Proof. unfold commit. by case_decide. Qed.

Lemma life_at_put (k : component) (n : nat) (s : app (component_state k)) (c : console) :
  life_at k n (life_put k n s c) = s.
Proof.
  unfold life_at, life_put. rewrite frame_commit, store_commit. cbn [store]. rewrite set_store_same. by destruct s.
Qed.

Lemma store_put_other (k k' : component) (n n' : nat) (s : app (component_state k)) (c : console) :
  (k, n) <> (k', n') -> store (life_put k n s c) k' n' = store c k' n'.
Proof. intros Hne. unfold life_put. rewrite store_commit. by apply set_store_other. Qed.

Lemma frame_put (k : component) (n : nat) (s : app (component_state k)) (c : console) :
  frame (life_put k n s c) = shell s.
Proof. apply frame_commit. Qed.

(** The component a menu entry leads to is the one of its row. *)
Lemma component_of_pages : map fst page_components = map fst pages.
Proof. by_evaluation. Qed.

(** The life on display is the last, and of the component the frame returns. *)
Definition on_display (c : console) : Prop := lives c !! current c = Some (displayed (frame c)).

Lemma on_display_commit (b : browser) (c : console) : on_display c -> on_display (commit b c).
Proof.
  unfold on_display, commit, current. intros Hc. case_decide as Hd; cbn [lives frame]; [by rewrite Hd|].
  rewrite length_app. cbn [length]. rewrite Nat.add_comm. cbn [Nat.add pred].
  by rewrite lookup_app_r, Nat.sub_diag by lia.
Qed.

(** ** The interface and the system *)

Lemma ok_inj {A E} (a b : A) : (Ok a : result E A) = Ok b -> a = b.
Proof. congruence. Qed.

Lemma component_offers_enabled `{Toolkit} `{Dates} (k : component) (s : app (component_state k))
    (tree : element (component_event k)) (e : component_event k) :
  component_view k s (Ok tree) -> offers e tree -> component_enabled k e s = true.
Proof.
  destruct k; cbn [component_view component_enabled component_state component_event] in *; intros Hv Ho.
  - apply ok_inj in Hv as ->. by apply login_offered.
  - done.
  - destruct Hv as (cs & d & Hv). apply ok_inj in Hv as ->. by eapply clients_offers_enabled.
  - destruct Hv as (ts & Hv). apply ok_inj in Hv as ->. by eapply tokens_offers_enabled.
  - apply tunnels_shown_enabled. destruct Hv as (o & ts & cs & a & w & Hv). destruct e; try done; by exists o, ts, cs, a, w, tree.
  - done.
  - destruct Hv as (d & Hv). apply ok_inj in Hv as ->. by eapply traffic_offered.
  - destruct Hv as (rows & total & Hv). apply ok_inj in Hv as ->. by eapply logs_offers_enabled.
  - destruct Hv as (items & Hv). apply ok_inj in Hv as ->. destruct e as [e|e]; [done|]. apply settings_offered in Ho.
    destruct Ho as [?|[(? & ? & ?)|[Ho|(? & ? & _ & _ & _ & ?)]]]; try done.
    apply offers_map in Ho as (e' & [= <-] & Ho). by apply transport_offered in Ho as [_ ?].
Qed.

(** What the whole offers: without a session the login form; with one the menu, signing out and
    the page it names. *)
Lemma console_offered `{Toolkit} `{Dates} (c : console) (v : element console_event) (ev : console_event) :
  console_view c (Ok v) ->
  exists tree, component_view (displayed (frame c)) (life_at (displayed (frame c)) (current c) c) (Ok tree)
    /\ (offers ev v
        <-> (exists e, ev = On (displayed (frame c)) (current c) e /\ offers e tree)
            \/ (authenticated (frame c) = true
                /\ (ev = SignOut \/ exists p, p ∈ pages /\ ev = Select (fst p)))).
Proof.
  intros (r & Hr & Hv). destruct r as [tree|e]; [|done]. injection Hv as ->. exists tree. split; [done|].
  cbv zeta. etrans; [apply dashboard_offered|].
  destruct (authenticated (frame c)); rewrite offers_map; naive_solver.
Qed.

Lemma console_shown_enabled `{Toolkit} `{Dates} (ev : console_event) (c : console) :
  console_shown ev c -> console_enabled ev c = true.
Proof.
  assert (forall v, console_view c (Ok v) -> offers ev v -> console_enabled ev c = true) as Hoffer.
  { intros v Hv Ho. destruct (console_offered c v ev Hv) as (tree & Ht & Hiff). apply Hiff in Ho.
    destruct Ho as [(e & -> & Ho)|[Ha [-> |(p & Hp & ->)]]]; cbn [console_enabled]; [|done|].
    - rewrite (component_offers_enabled _ _ _ _ Ht Ho). by rewrite bool_decide_eq_true_2.
    - rewrite Ha. unfold pages in Hp. set_unfold in Hp.
      repeat (destruct Hp as [-> |Hp]; [by_evaluation|]). done. }
  destruct ev as [|key| |k n e]; cbn [console_shown]; [done|by intros (? & ? & ?); eauto..|].
  intros [(v & Hv & Ho)|[(-> & -> & Ht)|(Hd & Hl & He)]]; [by eauto|..]; cbn [console_enabled].
  - rewrite (bool_decide_eq_true_2 (_ /\ _)) by done. rewrite orb_true_l, andb_true_r.
    destruct (displayed (frame c)); try done. destruct e as [e|e]; [done|]. by destruct e.
  - rewrite He, Hd, (bool_decide_eq_true_2 (lives c !! n = Some k)) by done. by rewrite orb_true_r.
Qed.

Local Abbreviation console_sys := (sys console (joint api_call) ui_effect thrown (answer thrown api_result)) (only parsing).

(** C20: The whole refines its transition system: whatever the user does in the browser, with every
    timer, effect and open dialog, is an execution of it. *)
Theorem console_interface_refines `{Toolkit} `{Dates} (y0 y : console_sys) :
  rtc (presented_step console_shown console_handler) y0 y -> reachable_from console_enabled console_handler y0 y.
Proof. apply presented_reachable, console_shown_enabled. Qed.
