(* ===== verification/ConsoleRuns.v ===== *)
(** What holds of the whole dashboard in every execution: it comes to rest when it is left alone,
    the page on display is never stuck loading and holds well typed data, a session ends for good
    until somebody signs in, and a page that is opened again starts afresh. *)

From stdpp Require Import relations.
From S2P Require Import Prelude JsString Json View WebPlatform Async Disciplines Joins JsErrors Session ApiClient DashTypes TransportDisplay UseAsync Dashboard ClientsPage TunnelsPage TransportSettings Pages DashViews ClientsView TransportView TunnelsView Runs OverviewPage PagesRuns Compose Console.

#[local] Open Scope prog_scope.

Local Abbreviation console_sys := (sys console (joint api_call) ui_effect thrown (answer thrown api_result)).

(** ** Coming to rest *)

Lemma component_handler_ends (k : component) (ev : component_event k) (s : app (component_state k)) :
  ends_within 20 (component_handler k ev s).
Proof.
  destruct k; cbn [component_handler component_event component_state] in *.
  - destruct ev. apply ends_lift, login_ends.
  - destruct ev. apply reload_overview_ends.
  - apply ends_lift, clients_ends.
  - apply ends_lift, tokens_ends.
  - apply ends_lift, tunnels_handler_ends.
  - apply reload_both_ends.
  - apply ends_lift, traffic_ends.
  - apply ends_lift, logs_ends.
  - destruct ev as [e|e]; apply ends_embed, ends_lift; [apply settings_ends|apply transport_ends].
Qed.

Lemma component_mount_ends (k : component) (p : deed (app (component_state k))) :
  component_mount k = Some p -> ends_within 20 p.
Proof.
  destruct k; cbn [component_mount]; intros Hp; first [done|apply (inj Some) in Hp as <-].
  - apply reload_overview_ends.
  - apply ends_lift, (clients_ends Reload {| shell := mounted empty_storage; page := component_initial CClients |}).
  - apply ends_lift, (tokens_ends ReloadTokens).
  - apply ends_lift, (tunnels_handler_ends ReloadTunnels {| shell := mounted empty_storage; page := component_initial CTunnels |}).
  - apply reload_both_ends.
  - apply ends_lift, (traffic_ends ReloadTraffic {| shell := mounted empty_storage; page := component_initial CTraffic |}).
  - apply ends_lift, (logs_ends ReloadLogs {| shell := mounted empty_storage; page := component_initial CLogs |}).
  - apply (ends_mono _ (5 + 5 + 0)); [lia|]. apply ends_both; try done; apply ends_embed, ends_lift.
    + apply load_status_ends.
    + apply ends_load_prop.
Qed.

Lemma console_handler_ends (ev : console_event) (c : console) : ends_within 20 (console_handler ev c).
Proof.
  destruct ev as [|key| |k n e]; cbn [console_handler]; [|done..|apply ends_embed, component_handler_ends].
  unfold run_effects. destruct (due c) as [|[k n] rest]; [done|]. destruct (component_mount k) as [p|] eqn:Hp; [|done].
  apply (ends_bind _ _ 0 20); [done|intros _]. by apply ends_embed, component_mount_ends.
Qed.

(** C18: Left alone, the whole dashboard comes to rest: with no more clicks, timers and effects, at
    most twenty continuations per suspended function are left - those of pages already left
    included -, whatever the server answers and in whatever order. *)
Theorem console_comes_to_rest (m : Storage) (y : console_sys) :
  reachable console_enabled console_handler (console_mounted m) y ->
  (forall n y', nsteps quiet n y y' -> (n <= 20 * length (threads y))%nat)
  /\ ((forall y', ~ quiet y y') -> threads y = []).
Proof.
  intros Hy. apply (quiet_bounded (H := populate TUndefined)).
  apply (reachable_ends console_enabled console_handler 20 (initial (console_mounted m)) y);
    [constructor|apply console_handler_ends|exact Hy].
Qed.

(** ** Spinners *)

Definition component_spinners (k : component) : list (component_state k -> bool) :=
  match k return list (component_state k -> bool) with
  | CLogin => [login_loading]
  | COverview => [fun s => UseAsync.loading (overview_list s)]
  | CClients => [fun s => UseAsync.loading (clients_list s)]
  | CTokens => [fun s => UseAsync.loading (tokens_list s)]
  | CTunnels => [fun s => UseAsync.loading (tunnels_list s)]
  | CRelays => [fun s => UseAsync.loading (nodes s); fun s => UseAsync.loading (assignments s)]
  | CTraffic => [fun s => UseAsync.loading (traffic_list s)]
  | CLogs => [fun s => UseAsync.loading (logs_list s)]
  | CSettings => [fun s => UseAsync.loading (settings_list (fst s)); fun s => TransportSettings.loading (snd s)]
  end.

Lemma rows_put_section (s : app SettingsState) (g : app (SettingsState * TransportState)) :
  snd (page (rows_put s g)) = snd (page g).
Proof. done. Qed.

Lemma component_discharges (k : component) (f : component_state k -> bool) (ev : component_event k)
    (s : app (component_state k)) :
  f ∈ component_spinners k -> discharges (fun s => f (page s)) false (component_handler k ev s).
Proof.
  destruct k; cbn [component_handler component_event component_state component_spinners] in *; intros Hf;
    repeat (apply elem_of_cons in Hf as [-> |Hf]); try by apply elem_of_nil in Hf.
  - destruct ev. apply discharges_lift, submit_discharges.
  - destruct ev. apply reload_overview_discharges.
  - apply discharges_lift, clients_discharges.
  - apply discharges_lift, tokens_discharges.
  - apply discharges_lift, tunnels_discharges.
  - apply (reload_both_discharges false).
  - apply (reload_both_discharges false).
  - apply discharges_lift, traffic_discharges.
  - apply discharges_lift, logs_discharges.
  - destruct ev as [e|e].
    + eapply (discharges_embed rows_at rows_put (fun s => UseAsync.loading (settings_list (page s)))); [done..|].
      apply discharges_lift, settings_discharges.
    + by apply discharges_preserves, preserves_embed.
  - destruct ev as [e|e].
    + by apply discharges_preserves, preserves_embed.
    + eapply (discharges_embed section_at section_put section_loading); [done..|].
      apply discharges_lift, transport_discharges.
Qed.

Lemma mount_discharges (k : component) (f : component_state k -> bool) (p : deed (app (component_state k))) :
  f ∈ component_spinners k -> component_mount k = Some p -> discharges (fun s => f (page s)) true p.
Proof.
  destruct k; cbn [component_mount component_event component_state component_spinners] in *; intros Hf Hp;
    first [done|apply (inj Some) in Hp as <-]; repeat (apply elem_of_cons in Hf as [-> |Hf]); try by apply elem_of_nil in Hf.
  - apply reload_overview_discharges.
  - apply discharges_lift. by apply (load_discharges clients_hook), preserves_items, preserves_request.
  - apply discharges_lift. by apply (load_discharges tokens_hook), preserves_items, preserves_request.
  - apply discharges_lift, reload_tunnels_discharges.
  - apply (reload_both_discharges true).
  - apply (reload_both_discharges true).
  - apply discharges_lift. by apply (load_discharges traffic_hook), preserves_request.
  - apply discharges_lift. by apply (load_discharges logs_hook), preserves_request.
  - apply (discharges_both _ false true); [by apply discharges_preserves, preserves_embed| |done|done].
    eapply (discharges_embed rows_at rows_put (fun s => UseAsync.loading (settings_list (page s)))); [done..|].
    apply discharges_lift. by apply (load_discharges settings_hook), preserves_items, preserves_request.
  - apply (discharges_both _ true false); [|by apply discharges_preserves, preserves_embed|done|done].
    eapply (discharges_embed section_at section_put section_loading); [done..|].
    apply discharges_lift, load_status_discharges.
Qed.

(** A life has started once it was mounted and its effects have run; a component without effects
    needs no start. *)
Definition started_life (k : component) (n : nat) (c : console) : bool :=
  negb (present (component_mount k))
  || bool_decide (lives c !! n = Some k) && negb (bool_decide ((k, n) ∈ due c)).

(** The spinner [f] of a life that has started is on. *)
Definition spinning (k : component) (n : nat) (f : component_state k -> bool) (c : console) : bool :=
  f (store c k n) && started_life k n c.

Lemma started_commit (k : component) (n : nat) (b : browser) (c : console) :
  started_life k n (commit b c) = started_life k n c.
Proof.
  unfold started_life. destruct (present (component_mount k)) eqn:Hk; [cbn [negb orb]|done].
  unfold commit. case_decide as Hd; [done|]. cbn [lives due]. destruct (decide (n < length (lives c))%nat) as [Hn|Hn].
  - rewrite lookup_app_l by done. f_equal. f_equal. apply bool_decide_ext. rewrite elem_of_app.
    destruct (present (component_mount (displayed b))); cbn [when]; set_unfold; [|naive_solver].
    split; [intros [?|[[= _ ->]|[]]]; [done|lia]|by left].
  - rewrite (bool_decide_eq_false_2 (lives c !! n = Some k)) by (rewrite lookup_ge_None_2 by lia; done).
    destruct (bool_decide ((lives c ++ [displayed b]) !! n = Some k)) eqn:Hl; [|done].
    apply bool_decide_eq_true in Hl. rewrite lookup_app_r in Hl by lia.
    destruct (n - length (lives c))%nat as [|j] eqn:Hj; [|by destruct j]. injection Hl as ->.
    rewrite Hk, bool_decide_eq_true_2; [done|]. apply elem_of_app. right. cbn [when].
    apply list_elem_of_singleton. f_equal. lia.
Qed.

Lemma spinning_put_other (k k' : component) (n n' : nat) (f : component_state k -> bool) (s : app (component_state k')) (c : console) :
  (k', n') <> (k, n) -> spinning k n f (life_put k' n' s c) = spinning k n f c.
Proof.
  intros Hne. unfold spinning. rewrite store_put_other by done. f_equal. unfold life_put. by rewrite started_commit.
Qed.

Lemma spinning_put_own (k : component) (n : nat) (f : component_state k -> bool) (s : app (component_state k)) (c : console) :
  spinning k n f (life_put k n s c) = f (page s) && started_life k n c.
Proof.
  unfold spinning, life_put. rewrite started_commit, store_commit. cbn [store]. by rewrite set_store_same.
Qed.

Lemma alive_discharges (k k' : component) (n n' : nat) (f : component_state k -> bool) (owes : bool)
    (p : deed (app (component_state k'))) :
  ((k', n') <> (k, n) -> owes = false) ->
  (forall e : k' = k, discharges (fun s => f (page s)) owes (eq_rect k' (fun k => deed (app (component_state k))) p k e)) ->
  discharges (spinning k n f) owes (alive k' n' p).
Proof.
  intros Hother Hown. destruct (decide ((k', n') = (k, n))) as [[= -> ->]|Hne].
  - apply (discharges_embed _ _ (fun s => f (page s))).
    + intros s g Hs. by rewrite spinning_put_own, Hs.
    + intros s g Hs. by rewrite spinning_put_own, Hs.
    + exact (Hown eq_refl).
  - rewrite (Hother Hne). apply discharges_preserves, preserves_embed. intros s g. by apply spinning_put_other.
Qed.

Lemma spinning_effects_other (k : component) (n : nat) (f : component_state k -> bool) (i : component * nat) (c : console) :
  i <> (k, n) -> spinning k n f (effects_run i c) = spinning k n f c.
Proof.
  intros Hne. unfold spinning, started_life. cbn [store lives due effects_run]. do 4 f_equal. apply bool_decide_ext.
  rewrite !list_elem_of_In, List.filter_In, negb_true_iff, bool_decide_eq_false. naive_solver.
Qed.

Lemma console_discharges (k : component) (n : nat) (f : component_state k -> bool) (ev : console_event) (c : console) :
  f ∈ component_spinners k -> discharges (spinning k n f) false (console_handler ev c).
Proof.
  intros Hf. destruct ev as [|key| |k' n' e]; cbn [console_handler].
  - unfold run_effects. destruct (due c) as [|[k' n'] rest]; [done|].
    destruct (component_mount k') as [p|] eqn:Hp; [|done].
    destruct (decide ((k', n') = (k, n))) as [[= -> ->]|Hne].
    + apply discharges_taken, alive_discharges; [done|]. intros e.
      rewrite (Eqdep_dec.UIP_dec component_eq_dec e eq_refl). by apply mount_discharges.
    + apply discharges_modify_bind; [intros s; by apply spinning_effects_other|].
      by apply discharges_preserves, preserves_embed; intros; apply spinning_put_other.
  - apply discharges_preserves, preserves_modify. intros s. unfold spinning. by rewrite started_commit, store_commit.
  - apply discharges_preserves, preserves_modify. intros s. unfold spinning. by rewrite started_commit, store_commit.
  - apply alive_discharges; [done|]. intros <-. by apply component_discharges.
Qed.

Lemma spinners_start_off (f : component_state CLogin -> bool) :
  f ∈ component_spinners CLogin -> f (component_initial CLogin) = false.
Proof. intros Hf. apply list_elem_of_singleton in Hf as ->. done. Qed.

Lemma not_spinning_at_first (m : Storage) (k : component) (n : nat) (f : component_state k -> bool) :
  f ∈ component_spinners k -> spinning k n f (console_mounted m) = false.
Proof.
  intros Hf. unfold spinning, started_life. destruct (present (component_mount k)) eqn:Hp; cbn [negb orb].
  - destruct (bool_decide (lives (console_mounted m) !! n = Some k)) eqn:Hl; [|by rewrite andb_false_r].
    apply bool_decide_eq_true in Hl. destruct n as [|n]; [|done]. injection Hl as Hk.
    rewrite (bool_decide_eq_true_2 ((k, 0%nat) ∈ due (console_mounted m))); [by rewrite andb_false_r|].
    cbn [console_mounted due]. rewrite Hk, Hp. by left.
  - rewrite andb_true_r. destruct k; try done. by apply spinners_start_off.
Qed.

Lemma console_spinner_ends (m : Storage) (y : console_sys) (k : component) (n : nat) (f : component_state k -> bool) :
  reachable console_enabled console_handler (console_mounted m) y -> f ∈ component_spinners k ->
  spinning k n f (st y) = true -> exists t, t ∈ threads y /\ thread_discharges (spinning k n f) true t.
Proof.
  intros Hy Hf. apply promise_inv_owed.
  eapply (promise_invariant console_enabled console_handler (spinning k n f)); [| |exact Hy].
  - exists []. cbn [initial st threads]. rewrite not_spinning_at_first by done. split; [constructor|done].
  - intros ev s _. by apply console_discharges.
Qed.

(** ** What a page holds *)

(** The hooks' states of a component are well typed. *)
Definition holds_well (k : component) : component_state k -> Prop :=
  match k return component_state k -> Prop with
  | CLogin => fun _ => True
  | COverview => fun s => well_typed (overview_list s)
  | CClients => fun s => well_typed (clients_list s)
  | CTokens => fun s => well_typed (tokens_list s)
  | CTunnels => fun s => well_typed (tunnels_list s)
  | CRelays => fun s => well_typed (nodes s) /\ well_typed (assignments s)
  | CTraffic => fun s => well_typed (traffic_list s)
  | CLogs => fun s => well_typed (logs_list s)
  | CSettings => fun s => well_typed (settings_list (fst s))
  end.

Lemma reload_both_maintains :
  maintains (fun s : app RelaysState => well_typed (nodes (page s)) /\ well_typed (assignments (page s))) reload_both.
Proof.
  assert (forall I1 I2 (p : deed (app RelaysState)), maintains I1 p -> maintains I2 p -> maintains (fun s => I1 s /\ I2 s) p) as Hand.
  { intros I1 I2 p. induction p; cbn; eauto. intros [H1 ?] [H2 ?]. split; [|eauto]. intros s []. auto. }
  set (any := {| shell := mounted empty_storage; page := component_initial CRelays |}).
  apply Hand; apply maintains_both; try done; apply maintains_lift, maintains_await_fn.
  - apply (relays_nodes_maintain ReloadNodes any).
  - apply (relays_nodes_maintain ReloadAssignments any).
  - apply (relays_assignments_maintain ReloadNodes any).
  - apply (relays_assignments_maintain ReloadAssignments any).
Qed.

Lemma component_maintains (k : component) (ev : component_event k) (s : app (component_state k)) :
  maintains (fun s => holds_well k (page s)) (component_handler k ev s).
Proof.
  destruct k; cbn [component_handler component_event component_state holds_well] in *.
  - by apply maintains_trivial.
  - destruct ev. apply reload_overview_maintains.
  - apply maintains_lift, clients_maintains.
  - apply maintains_lift. by apply tokens_maintains.
  - apply maintains_lift, tunnels_maintains.
  - apply reload_both_maintains.
  - apply maintains_lift, traffic_maintains.
  - apply maintains_lift, logs_maintains.
  - destruct ev as [e|e].
    + eapply (maintains_embed rows_at rows_put (fun s => well_typed (settings_list (page s)))); [done..|].
      by apply maintains_lift, (settings_maintains e (rows_at s)).
    + apply (preserves_maintains (fun s => fst (page s)) (fun r => well_typed (settings_list r))).
      by apply preserves_embed.
Qed.

Lemma mount_maintains (k : component) (p : deed (app (component_state k))) :
  component_mount k = Some p -> maintains (fun s => holds_well k (page s)) p.
Proof.
  set (any := fun X (x : X) => {| shell := mounted empty_storage; page := x |}).
  destruct k; cbn [component_mount]; intros Hp; first [done|apply (inj Some) in Hp as <-].
  - apply reload_overview_maintains.
  - apply (component_maintains CClients Reload (any _ (component_initial CClients))).
  - apply (component_maintains CTokens ReloadTokens (any _ (component_initial CTokens))).
  - apply (component_maintains CTunnels ReloadTunnels (any _ (component_initial CTunnels))).
  - apply reload_both_maintains.
  - apply (component_maintains CTraffic ReloadTraffic (any _ (component_initial CTraffic))).
  - apply (component_maintains CLogs ReloadLogs (any _ (component_initial CLogs))).
  - apply maintains_both; try done.
    + apply (preserves_maintains (fun s => fst (page s)) (fun r => well_typed (settings_list r))).
      by apply preserves_embed.
    + apply (component_maintains CSettings (OfRows ReloadSettings) (any _ (component_initial CSettings))).
Qed.

Lemma holds_well_at_first (k : component) : holds_well k (component_initial k).
Proof. destruct k; cbn; try done; try by left. split; by left. Qed.

Definition all_hold_well (c : console) : Prop := forall k n, holds_well k (store c k n).

Lemma alive_maintains (k : component) (n : nat) (p : deed (app (component_state k))) :
  maintains (fun s => holds_well k (page s)) p -> maintains all_hold_well (alive k n p).
Proof.
  apply maintains_embed; [intros g Hg; apply Hg|]. intros s g Hg Hs k' n'.
  destruct (decide ((k, n) = (k', n'))) as [[= <- <-]|Hne].
  - unfold life_put. rewrite store_commit. cbn [store]. by rewrite set_store_same.
  - by rewrite store_put_other.
Qed.

Lemma console_maintains (ev : console_event) (c : console) : maintains all_hold_well (console_handler ev c).
Proof.
  assert (forall b s, all_hold_well s -> all_hold_well (commit b s)) as Hcommit.
  { intros b s Hs k n. rewrite store_commit. apply Hs. }
  destruct ev as [|key| |k n e]; cbn [console_handler]; [|apply maintains_modify; auto..|apply alive_maintains, component_maintains].
  unfold run_effects. destruct (due c) as [|[k n] rest]; [done|]. destruct (component_mount k) as [p|] eqn:Hp; [|done].
  apply maintains_bind; [by apply maintains_modify|intros _]. by apply alive_maintains, mount_maintains.
Qed.

(** ** The life on display *)

(** What every change of the state keeps every function of the whole keeps. *)
Lemma commits_maintain (I : console -> Prop) (ev : console_event) (c : console) :
  (forall b s, I s -> I (commit b s)) -> (forall k n v s, I s -> I {| frame := frame s; lives := lives s; due := due s; store := set_store k n v (store s) |}) ->
  (forall i s, I s -> I (effects_run i s)) -> maintains I (console_handler ev c).
Proof.
  intros Hc Hv He.
  assert (forall k n (p : deed (app (component_state k))), maintains I (alive k n p)) as Halive.
  { intros k n p. apply (maintains_embed _ _ (fun _ => True)); [done|intros s g Hg _; by apply Hc, Hv|].
    by apply maintains_trivial. }
  destruct ev as [|key| |k n e]; cbn [console_handler]; [|apply maintains_modify; intros; by apply Hc..|apply Halive].
  unfold run_effects. destruct (due c) as [|[k n] rest]; [done|]. destruct (component_mount k) as [p|] eqn:Hp; [|done].
  apply maintains_bind; [apply maintains_modify; auto|intros _; apply Halive].
Qed.

Lemma console_keeps_display (ev : console_event) (c : console) : maintains on_display (console_handler ev c).
Proof. apply commits_maintain; [intros; by apply on_display_commit|done|done]. Qed.

Lemma console_invariant (I : console -> Prop) (m : Storage) (y : console_sys) :
  I (console_mounted m) -> (forall ev c, maintains I (console_handler ev c)) ->
  reachable console_enabled console_handler (console_mounted m) y -> I (st y).
Proof.
  intros H0 Hh Hy. by eapply (reachable_maintains I console_enabled console_handler (initial (console_mounted m)) y);
    [exact H0|constructor|exact Hh|exact Hy].
Qed.

(** C3: Whatever the user does in the whole dashboard - between pages, signing out and in -, and
    whatever the server answers and when: the page on display holds data, an error or neither,
    never an error beside data or while it loads; and while one of its spinners is on, its first
    load is due, or some function under way will switch it off. *)
Theorem console_settles `{Toolkit} `{Dates} (m : Storage) (y : console_sys) :
  rtc (presented_step console_shown console_handler) (initial (console_mounted m)) y ->
  let k := displayed (frame (st y)) in
  let n := current (st y) in
  holds_well k (store (st y) k n)
  /\ forall f, f ∈ component_spinners k -> f (store (st y) k n) = true ->
       (k, n) ∈ due (st y) \/ exists t, t ∈ threads y /\ thread_discharges (spinning k n f) true t.
Proof.
  intros Hy%(presented_reachable _ _ _ _ _ console_shown_enabled) k n. split.
  - apply (console_invariant all_hold_well m y); [intros k' n'; apply holds_well_at_first|apply console_maintains|done].
  - intros f Hf Hon. assert (on_display (st y)) as Hd.
    { apply (console_invariant on_display m y); [done|apply console_keeps_display|done]. }
    destruct (decide ((k, n) ∈ due (st y))) as [?|Hdue]; [by left|right].
    apply (console_spinner_ends m y k n f Hy Hf). unfold spinning, started_life.
    rewrite Hon, (bool_decide_eq_true_2 (lives (st y) !! n = Some k)) by exact Hd.
    rewrite (bool_decide_eq_false_2 ((k, n) ∈ due (st y))) by done. by rewrite orb_true_r.
Qed.

(** ** Signed out until somebody signs in *)

Definition signed_out_frame (c : console) : Prop := authenticated (frame c) = false.

Lemma component_keeps_out (k : component) (ev : component_event k) (s : app (component_state k)) :
  k <> CLogin -> maintains signed_out_page (component_handler k ev s).
Proof.
  intros Hk. destruct k; cbn [component_handler component_event component_state] in *.
  - done.
  - destruct ev. apply reload_overview_keeps_out.
  - apply maintains_lift, clients_keep_out.
  - apply maintains_lift, tokens_keep_out.
  - apply maintains_lift, tunnels_keep_out.
  - apply reload_both_keeps_out.
  - apply maintains_lift, traffic_keep_out.
  - apply maintains_lift, logs_keep_out.
  - destruct ev as [e|e].
    + by apply (maintains_embed _ _ signed_out_page), maintains_lift, settings_keep_out.
    + by apply (maintains_embed _ _ signed_out_page), maintains_lift, transport_keep_out.
Qed.

Lemma mount_keeps_out (k : component) (p : deed (app (component_state k))) :
  component_mount k = Some p -> maintains signed_out_page p.
Proof.
  set (any := fun X (x : X) => {| shell := mounted empty_storage; page := x |}).
  destruct k; cbn [component_mount]; intros Hp; first [done|apply (inj Some) in Hp as <-].
  - apply reload_overview_keeps_out.
  - by apply (component_keeps_out CClients Reload (any _ (component_initial CClients))).
  - by apply (component_keeps_out CTokens ReloadTokens (any _ (component_initial CTokens))).
  - by apply (component_keeps_out CTunnels ReloadTunnels (any _ (component_initial CTunnels))).
  - apply reload_both_keeps_out.
  - by apply (component_keeps_out CTraffic ReloadTraffic (any _ (component_initial CTraffic))).
  - by apply (component_keeps_out CLogs ReloadLogs (any _ (component_initial CLogs))).
  - apply maintains_both; try done; apply (maintains_embed _ _ signed_out_page); try done; apply maintains_lift.
    + apply load_status_keeps_out.
    + apply (settings_keep_out ReloadSettings).
Qed.

(** The login form is submitted. *)
Definition signs_in (ev : console_event) : bool :=
  match ev with On CLogin _ _ => true | _ => false end.

Lemma alive_keeps_out (k : component) (n : nat) (p : deed (app (component_state k))) :
  maintains signed_out_page p -> maintains signed_out_frame (alive k n p).
Proof.
  apply maintains_embed; [done|]. intros s g _ Hs. unfold signed_out_frame. by rewrite frame_put.
Qed.

Lemma console_keeps_out (ev : console_event) (c : console) :
  signs_in ev = false -> maintains signed_out_frame (console_handler ev c).
Proof.
  intros Hev. destruct ev as [|key| |k n e]; cbn [console_handler].
  - unfold run_effects. destruct (due c) as [|[k n] rest]; [done|]. destruct (component_mount k) as [p|] eqn:Hp; [|done].
    apply maintains_bind; [by apply maintains_modify|intros _]. by apply alive_keeps_out, mount_keeps_out.
  - apply maintains_modify. intros s Hs. unfold signed_out_frame. by rewrite frame_commit.
  - apply maintains_modify. intros s Hs. unfold signed_out_frame. by rewrite frame_commit.
  - apply alive_keeps_out, component_keeps_out. by intros ->.
Qed.

(** What happens while nobody submits the login form. *)
Definition shown_without_login `{Toolkit} `{Dates} (ev : console_event) (c : console) : Prop :=
  console_shown ev c /\ signs_in ev = false.

(** No suspended function signs in: none of them is a submission of the login form. *)
Definition no_login_under_way (y : console_sys) : Prop := Forall (thread_maintains signed_out_frame) (threads y).

Lemma exec_keeps_out (p : deed console) (y : console_sys) (l : list (thread _ _ _ _ _)) :
  signed_out_frame (st y) -> maintains signed_out_frame p -> Forall (thread_maintains signed_out_frame) l ->
  no_login_under_way (exec p (st y) l (log y)) /\ signed_out_frame (st (exec p (st y) l (log y))).
Proof.
  intros Hs Hp Hl. unfold exec. destruct (Async.run p (st y)) as [[s' os'] o] eqn:Hr.
  destruct (run_maintains signed_out_frame _ _ _ _ _ Hp Hs Hr) as [? ?]. split; [|done]. by apply Forall_app_2.
Qed.

Lemma without_login_step `{Toolkit} `{Dates} (y y' : console_sys) :
  presented_step shown_without_login console_handler y y' ->
  no_login_under_way y /\ signed_out_frame (st y) -> no_login_under_way y' /\ signed_out_frame (st y').
Proof.
  intros Hstep [Hn Hs]. destruct Hstep as [ev y [_ Hev]|y l1 k l2 Ht|y l1 c k l2 r Ht].
  - apply exec_keeps_out; [done|by apply console_keeps_out|done].
  - unfold no_login_under_way in Hn. rewrite Ht in Hn. apply Forall_app in Hn as [H1 [Hk H2]%Forall_cons].
    apply exec_keeps_out; [done|exact Hk|by apply Forall_app_2].
  - unfold no_login_under_way in Hn. rewrite Ht in Hn. apply Forall_app in Hn as [H1 [Hk H2]%Forall_cons].
    apply exec_keeps_out; [done|apply Hk|by apply Forall_app_2].
Qed.


(** ** A session ended by a request of another *)

(** Joined calls answered the first first, each as [f] says. *)
Fixpoint joint_answer (f : forall c, result thrown (api_result c)) (j : joint api_call) :
    result thrown (answer thrown api_result j) :=
  match j with
  | Turn => Ok tt
  | One c => f c
  | Both a b => Ok (inl (joint_answer f a))
  end.

Definition session_of (c : console) : option json := fst (getSession (local_storage (frame c))).

(** A browser that holds the session of [jwt], its overview loading; the user signs out and
    submits the login form, which the server accepts with the token [next]. *)
Definition signed_in_again : console_sys :=
  let click ev y := spawn (console_handler ev (st y)) y in
  let y := click (On CLogin 1 (Dashboard.Submit (js "root") (js "pw")))
             (click SignOut (click Effects (initial (console_mounted signed_in)))) in
  schedule (repeat (joint_answer (answering (response 200 (js "OK")) (stringify (login_answer (js "next") None))), 1%nat) 5) y.

(** The Authorization header of the call a function waits for first. *)
Fixpoint first_authorization (j : joint api_call) : option jsstr :=
  match j with
  | Turn => None
  | One (Fetch _ init) => headers_get (fetch_headers init) (js "Authorization")
  | One _ => None
  | Both a _ => first_authorization a
  end.

Definition sent_with (t : thread console (joint api_call) ui_effect thrown (answer thrown api_result)) : option jsstr :=
  match t with TWaiting j _ => first_authorization j | TPaused _ => None end.

(** C19: A late refusal ends a session it is not about: with the user signed in again under a new
    token, the answer 401 to a request sent with the old one takes the new session away. *)
Theorem late_refusal_ends_session :
  exists (y : console_sys) refusal,
    reachable console_enabled console_handler (console_mounted signed_in) y
    /\ map sent_with (threads y) = [Some (js "Bearer jwt")]
    /\ authenticated (frame (st y)) = true
    /\ session_of (st y) = Some (session_json {| token := js "next"; tokenType := js "Bearer" |})
    /\ authenticated (frame (st (advance refusal 0 y))) = false /\ session_of (st (advance refusal 0 y)) = None.
Proof.
  exists signed_in_again, (joint_answer (answering denied [])).
  split; [|split; [by_evaluation|split; [by_evaluation|split; [by_evaluation|split; by_evaluation]]]].
  unfold signed_in_again. apply schedule_reachable.
  apply (reachable_event console_enabled console_handler _ _ (On CLogin 1 _)); [|by_evaluation].
  apply (reachable_event console_enabled console_handler _ _ SignOut); [|by_evaluation].
  apply (reachable_event console_enabled console_handler _ _ Effects); [|by_evaluation].
  apply rtc_refl.
Qed.

(** ** Pages start afresh *)

(** Every life whose effects are due has begun. *)
Definition due_alive (c : console) : Prop := forall k n, (k, n) ∈ due c -> (n < length (lives c))%nat.
Definition begun (n : nat) (c : console) : Prop := (n < length (lives c))%nat.

Lemma lives_commit (b : browser) (c : console) : exists l, lives (commit b c) = lives c ++ l.
Proof. unfold commit. case_decide; [by exists []; rewrite app_nil_r|by eexists]. Qed.

Lemma begun_commit (n : nat) (b : browser) (c : console) : begun n c -> begun n (commit b c).
Proof. unfold begun. destruct (lives_commit b c) as [l ->]. rewrite length_app. lia. Qed.

Lemma due_alive_commit (b : browser) (c : console) : due_alive c -> due_alive (commit b c).
Proof.
  intros Hd k n. unfold commit. case_decide; [apply Hd|]. cbn [due lives]. rewrite elem_of_app, length_app. cbn [length].
  intros [Hi|Hi]; [specialize (Hd _ _ Hi); lia|].
  destruct (present (component_mount (displayed b))); cbn [when] in Hi; set_unfold in Hi; naive_solver lia.
Qed.

Lemma console_keeps_due (ev : console_event) (c : console) : maintains due_alive (console_handler ev c).
Proof.
  apply commits_maintain; [intros; by apply due_alive_commit|done|].
  intros i s Hs k n. cbn. rewrite list_elem_of_In, List.filter_In, <-list_elem_of_In.
  intros [Hi _]. exact (Hs k n Hi).
Qed.

Lemma console_keeps_begun (n : nat) (ev : console_event) (c : console) : maintains (begun n) (console_handler ev c).
Proof. apply commits_maintain; [intros; by apply begun_commit|done|done]. Qed.

(** Only the functions of a life change its state. *)
Lemma alive_elsewhere (k k' : component) (n n' : nat) (p : deed (app (component_state k))) :
  (k, n) <> (k', n') -> preserves (fun c => store c k' n') (alive k n p).
Proof. intros Hne. apply preserves_embed. intros s g. by apply store_put_other. Qed.

Lemma handler_elsewhere (k : component) (n : nat) (ev : console_event) (c : console) :
  console_enabled ev c = true -> on_display c -> due_alive c -> ~ begun n c ->
  preserves (fun c => store c k n) (console_handler ev c).
Proof.
  intros He Hd Hdue Hn.
  assert (forall b, preserves (C := joint api_call) (O := ui_effect) (E := thrown) (R := answer thrown api_result)
            (fun c => store c k n) (modify (fun c => commit (b c) c))) as Hcommit.
  { intros b. apply preserves_modify. intros s. by rewrite store_commit. }
  destruct ev as [|key| |k' n' e]; cbn [console_handler console_enabled] in *; [|apply Hcommit..|].
  - unfold run_effects. destruct (due c) as [|[k' n'] rest] eqn:Hc; [done|].
    destruct (component_mount k') as [p|]; [|done]. apply preserves_bind; [by apply preserves_modify|intros _].
    apply alive_elsewhere. intros [= -> ->]. apply Hn, (Hdue k). rewrite Hc. by left.
  - apply alive_elsewhere. intros [= -> ->]. apply Hn. unfold begun. apply andb_prop in He as [_ He].
    apply orb_prop in He as [He|He]; [|apply andb_prop in He as [_ He]]; apply bool_decide_eq_true in He.
    + destruct He as [-> ->]. by apply lookup_lt_Some in Hd.
    + by apply lookup_lt_Some in He.
Qed.

(** A life either has begun, or its state is the initial one and nothing under way changes it. *)
Definition untouched (k : component) (n : nat) (y : console_sys) : Prop :=
  begun n (st y) \/ (store (st y) k n = component_initial k /\ Forall (thread_preserves (fun c => store c k n)) (threads y)).

Lemma exec_untouched (k : component) (n : nat) (p : deed console) (c : console) (l : list (thread _ _ _ _ _)) (os : list ui_effect) :
  (begun n c -> maintains (begun n) p) -> (~ begun n c -> preserves (fun c => store c k n) p) ->
  begun n c \/ (store c k n = component_initial k /\ Forall (thread_preserves (fun c => store c k n)) l) ->
  untouched k n (exec p c l os).
Proof.
  intros Hm Hp Hc. unfold untouched, exec. destruct (Async.run p c) as [[s' os'] o] eqn:Hr. cbn [st threads].
  destruct (decide (n < length (lives c))%nat) as [Hn|Hn].
  - left. by apply (run_maintains (begun n) _ _ _ _ _ (Hm Hn) Hn Hr).
  - right. destruct Hc as [?|[Hs Hl]]; [done|].
    destruct (run_preserves (fun c => store c k n) _ _ _ _ _ (Hp Hn) Hr) as [-> ?]. split; [done|]. by apply Forall_app_2.
Qed.

Local Abbreviation console_step := (step console_enabled console_handler) (only parsing).

Lemma console_display (m : Storage) (y : console_sys) :
  reachable console_enabled console_handler (console_mounted m) y -> on_display (st y) /\ due_alive (st y).
Proof.
  intros Hy. split; [by apply (console_invariant on_display m y); [|apply console_keeps_display|]|].
  apply (console_invariant due_alive m y); [|apply console_keeps_due|done].
  intros k n. unfold console_mounted. cbn [due lives length].
  destruct (present (component_mount (displayed (mounted m)))); cbn [when]; set_unfold; naive_solver lia.
Qed.

(** A step runs one function on the state. *)
Lemma step_runs (y y' : console_sys) :
  console_step y y' -> exists p l, y' = exec p (st y) l (log y)
    /\ (forall P, Forall P (threads y) -> Forall P l)
    /\ ((exists ev, console_enabled ev (st y) = true /\ p = console_handler ev (st y))
        \/ (forall I, Forall (thread_maintains I) (threads y) -> maintains I p)
           /\ (forall X (proj : console -> X), Forall (thread_preserves proj) (threads y) -> preserves proj p)).
Proof.
  intros [ev z He|z l1 k l2 Ht|z l1 c k l2 r Ht].
  - eexists _, _. split; [done|]. split; [done|]. left. eauto.
  - eexists _, _. split; [done|]. rewrite Ht. split; [|right; split].
    + intros P [? [_ ?]%Forall_cons]%Forall_app. by apply Forall_app_2.
    + by intros I [_ [? _]%Forall_cons]%Forall_app.
    + by intros X proj [_ [? _]%Forall_cons]%Forall_app.
  - eexists _, _. split; [done|]. rewrite Ht. split; [|right; split].
    + intros P [? [_ ?]%Forall_cons]%Forall_app. by apply Forall_app_2.
    + intros I [_ [Hk _]%Forall_cons]%Forall_app. apply Hk.
    + intros X proj [_ [Hk _]%Forall_cons]%Forall_app. apply Hk.
Qed.

Lemma threads_keep (I : console -> Prop) (m : Storage) (y : console_sys) :
  (forall ev c, maintains I (console_handler ev c)) ->
  reachable console_enabled console_handler (console_mounted m) y -> Forall (thread_maintains I) (threads y).
Proof. intros Hh. apply (reachable_threads I console_enabled console_handler); [constructor|done]. Qed.

Lemma step_untouched (m : Storage) (k : component) (n : nat) (y y' : console_sys) :
  reachable console_enabled console_handler (console_mounted m) y -> console_step y y' ->
  untouched k n y -> untouched k n y'.
Proof.
  intros Hy Hstep Hu. destruct (console_display m y Hy) as [Hd Hdue].
  pose proof (threads_keep (begun n) m y (console_keeps_begun n) Hy) as Hb.
  destruct (step_runs y y' Hstep) as (p & l & -> & Hl & Hp).
  assert (maintains (begun n) p) as Hm.
  { destruct Hp as [(ev & _ & ->)|[Hp _]]; [apply console_keeps_begun|by apply Hp]. }
  destruct Hu as [Hn|[Hs Hts]]; (apply exec_untouched; [done|intros Hn'|]).
  - done.
  - by left.
  - destruct Hp as [(ev & He & ->)|[_ Hp]]; [by apply handler_elsewhere|by apply Hp].
  - right. split; [done|by apply Hl].
Qed.

Lemma untouched_reachable (m : Storage) (k : component) (n : nat) (y : console_sys) :
  reachable console_enabled console_handler (console_mounted m) y -> untouched k n y.
Proof.
  apply (reachable_invariant_strong console_enabled console_handler (untouched k n)).
  - right. split; [done|constructor].
  - intros y1 y2 Hy1 Hu Hstep. by eapply step_untouched.
Qed.

(** The lives of a step's start are those of its end, up to the new ones. *)
Lemma step_extends (m : Storage) (y y' : console_sys) :
  reachable console_enabled console_handler (console_mounted m) y -> console_step y y' ->
  lives (st y) `prefix_of` lives (st y').
Proof.
  intros Hy Hstep. set (I := fun c => lives (st y) `prefix_of` lives c).
  assert (forall ev c, maintains I (console_handler ev c)) as Hh.
  { intros ev c. apply commits_maintain; [|done|done]. intros b s Hs. unfold I. destruct (lives_commit b s) as [l ->].
    by apply prefix_app_r. }
  pose proof (threads_keep I m y Hh Hy) as Ht. destruct (step_runs y y' Hstep) as (p & l & -> & _ & Hp).
  unfold exec. destruct (Async.run p (st y)) as [[s' os'] o] eqn:Hr. cbn [st].
  refine (proj1 (run_maintains I p (st y) s' os' o _ (reflexivity _) Hr)).
  destruct Hp as [(ev & _ & ->)|[Hp _]]; [apply Hh|by apply Hp].
Qed.


(** *** Executions *)

#[local] Existing Instance plain_toolkit.
#[local] Instance no_dates : Dates := {|
  parse_date := fun _ => None; toLocaleString := fun _ _ => js "-";
  toLocaleTimeString := fun _ => js "-"; toISOString := fun _ => js "-" |}.

Definition click (ev : console_event) (y : console_sys) : console_sys := spawn (console_handler ev (st y)) y.

(** A browser with a session, its overview loading. *)
Definition overview_loading_first : console_sys := click Effects (initial (console_mounted signed_in)).

Lemma click_presented (ev : console_event) (y0 y : console_sys) :
  rtc (presented_step console_shown console_handler) y0 y -> console_shown ev (st y) ->
  rtc (presented_step console_shown console_handler) y0 (click ev y).
Proof. intros Hy Hs. eapply rtc_r; [exact Hy|]. by apply presented_event. Qed.

Lemma overview_loading_presented :
  rtc (presented_step console_shown console_handler) (initial (console_mounted signed_in)) overview_loading_first.
Proof. apply click_presented; [apply rtc_refl|by_evaluation]. Qed.

Lemma overview_loading_reachable : reachable console_enabled console_handler (console_mounted signed_in) overview_loading_first.
Proof. apply (presented_reachable console_shown); [apply console_shown_enabled|apply overview_loading_presented]. Qed.

Lemma console_settles_witness :
  let f : component_state COverview -> bool := fun s => UseAsync.loading (overview_list s) in
  (COverview, 0%nat) ∈ due (st overview_loading_first)
  \/ exists t, t ∈ threads overview_loading_first /\ thread_discharges (spinning COverview 0 f) true t.
Proof.
  intros f. refine (proj2 (console_settles signed_in overview_loading_first overview_loading_presented) f _ _);
    [by left|by_evaluation].
Defined.

Lemma console_comes_to_rest_witness :
  exists y', nsteps quiet 1 overview_loading_first y' /\ (1 <= 20 * length (threads overview_loading_first))%nat.
Proof.
  assert (exists y', nsteps quiet 1 overview_loading_first y') as [y' Hy'].
  { destruct (quiet_progress (H := populate TUndefined) overview_loading_first) as [y' Hy'].
    - intros Ht. assert (length (threads overview_loading_first) = 1%nat) as Hl by by_evaluation.
      rewrite Ht in Hl. discriminate Hl.
    - exists y'. by apply nsteps_once. }
  exists y'. split; [exact Hy'|].
  exact (proj1 (console_comes_to_rest signed_in overview_loading_first overview_loading_reachable) 1%nat y' Hy').
Defined.


Lemma click_keeps_out (ev : console_event) (y : console_sys) :
  signs_in ev = false -> no_login_under_way y -> no_login_under_way (click ev y).
Proof.
  intros Hev Hy. unfold no_login_under_way, click, spawn, exec in *.
  destruct (Async.run (console_handler ev (st y)) (st y)) as [[s' os'] o] eqn:Hr. cbn [threads].
  apply Forall_app_2; [done|]. eapply run_suspends; [by apply console_keeps_out|exact Hr].
Qed.


(** Without data every component renders. *)
Lemma component_renders (k : component) (s : app (component_state k)) : exists tree, component_view k s (Ok tree).
Proof.
  destruct k; eexists; cbn [component_view].
  - done.
  - by exists None, [], [].
  - by exists [], None.
  - by exists [].
  - by exists [], [], [], None, None.
  - by exists [], [].
  - by exists None.
  - by exists [], 0%Z.
  - by exists [].
Qed.

Lemma menu_shown (c : console) (p : jsstr * jsstr) :
  authenticated (frame c) = true -> p ∈ pages -> console_shown (Select (fst p)) c.
Proof.
  intros Ha Hp. destruct (component_renders (displayed (frame c)) (life_at (displayed (frame c)) (current c) c)) as [tree Ht].
  eexists. split; [by exists (Ok tree)|]. apply dashboard_offered. rewrite Ha. left. by exists p.
Qed.

Lemma console_interface_refines_witness :
  reachable console_enabled console_handler (console_mounted signed_in) (click (Select (js "logs")) overview_loading_first).
Proof.
  apply console_interface_refines, click_presented; [exact overview_loading_presented|].
  apply (menu_shown _ (js "logs", js "日志")); [by_evaluation|]. apply list_elem_of_In. vm_compute. tauto.
Defined.
