(* ===== verification/ConsoleParts.v ===== *)
(** The whole dashboard seen by one of its components: every page, each time it is mounted, runs as
    its own transition system does, the browser it shares with the others changing at any time. *)

From stdpp Require Import relations.
From S2P Require Import Prelude JsString Json View WebPlatform Async Disciplines Joins JsErrors Session ApiClient DashTypes TransportDisplay UseAsync Dashboard ClientsPage TunnelsPage TransportSettings Pages DashViews ClientsView TransportView TunnelsView Runs OverviewPage PagesRuns Compose Console ConsoleRuns.

#[local] Open Scope prog_scope.

Local Abbreviation console_sys := (sys console (joint api_call) ui_effect thrown (answer thrown api_result)).

Section Part.
Context (k : component) (n : nat).
Local Abbreviation part_state := (app (component_state k)).
Local Abbreviation part_thread := (thread part_state (joint api_call) ui_effect thrown (answer thrown api_result)).
Local Abbreviation part_sys := (sys part_state (joint api_call) ui_effect thrown (answer thrown api_result)).

(** ** The component's own system *)

(** Its events, the run of its effects, and what others make of the browser: its storage, the
    session and the page chosen. *)
Inductive part_event := Acts (ev : component_event k) | Mounts | Browser (b : browser).

Definition part_enabled (ev : part_event) (s : part_state) : bool :=
  match ev with Acts e => component_enabled k e s | _ => true end.

Definition part_handler (ev : part_event) (s : part_state) : deed part_state :=
  match ev with
  | Acts e => component_handler k e s
  | Mounts => match component_mount k with Some p => p | None => skip end
  | Browser b => modify (fun s => {| shell := b; page := page s |})
  end.

(** ** Its functions among those of the whole *)

(** A suspended function of the whole is one of the component's, or leaves its state alone. *)
Definition is_part (o : option part_thread) (t : thread console (joint api_call) ui_effect thrown (answer thrown api_result)) : Prop :=
  match o with
  | Some l => t = embed_thread (life_at k n) (life_put k n) l
  | None => thread_preserves (fun c => store c k n) t
  end.

Local Abbreviation split_into ts l := (Forall2 is_part ts l).

Lemma split_some (ts : list part_thread) :
  split_into (map Some ts) (map (embed_thread (life_at k n) (life_put k n)) ts).
Proof. induction ts; by constructor. Qed.

Lemma split_none (l : list (thread _ _ _ _ _)) :
  Forall (thread_preserves (fun c => store c k n)) l -> split_into (map (fun _ => None) l) l.
Proof. induction 1; by constructor. Qed.

Lemma omap_some (ts : list part_thread) : omap id (map Some ts) = ts.
Proof. induction ts as [|t ts IH]; [done|]. cbn. by f_equal. Qed.

Lemma omap_none {A B} (l : list A) : omap id (map (fun _ => @None B) l) = [].
Proof. by induction l. Qed.

(** A function of the component's, run on the whole. *)
Lemma exec_own (p : deed part_state) (c : console) ts l os zs :
  split_into ts l ->
  exists ts', split_into ts' (threads (exec (alive k n p) c l os))
    /\ threads (exec p (life_at k n c) (omap id ts) zs) = omap id ts'
    /\ st (exec p (life_at k n c) (omap id ts) zs) = life_at k n (st (exec (alive k n p) c l os)).
Proof.
  intros Hts. unfold exec. destruct (Async.run p (life_at k n c)) as [[s' os'] o] eqn:Hr.
  destruct (run_embed _ _ (life_at_put k n) p c s' os' o Hr) as (c' & Hc & Hs). unfold alive. rewrite Hc. cbn [st threads].
  exists (ts ++ map Some (suspended o)). rewrite suspended_embed, omap_app, omap_some.
  split; [by apply Forall2_app; [|apply split_some]|]. done.
Qed.

(** Any other. *)
Lemma exec_other (p : deed console) (c : console) ts l os :
  preserves (fun c => store c k n) p -> split_into ts l ->
  exists ts', split_into ts' (threads (exec p c l os)) /\ omap id ts' = omap id ts
    /\ store (st (exec p c l os)) k n = store c k n.
Proof.
  intros Hp Hts. unfold exec. destruct (Async.run p c) as [[c' os'] o] eqn:Hr. cbn [st threads].
  destruct (run_preserves (fun c => store c k n) p c c' os' o Hp Hr) as [Hs Ho].
  exists (ts ++ map (fun _ => None) (suspended o)). rewrite omap_app, omap_none, app_nil_r.
  split; [by apply Forall2_app; [|apply split_none]|]. done.
Qed.

(** ** The simulation *)

(** The whole [y] as the component's system [z] sees it. *)
Definition seen (y : console_sys) (z : part_sys) : Prop :=
  st z = life_at k n (st y) /\ exists ts, split_into ts (threads y) /\ threads z = omap id ts.

Local Abbreviation part_reachable m := (reachable part_enabled part_handler {| shell := mounted m; page := component_initial k |}).

(** A step of the component's system ends in [z'], and the whole is seen as that. *)
Definition follows (z : part_sys) (y' : console_sys) : Prop :=
  exists z', rtc (step part_enabled part_handler) z z' /\ seen y' z'.

Lemma follows_own (p : deed part_state) (c : console) ts l os zs z :
  (let z' := exec p (life_at k n c) (omap id ts) zs in step part_enabled part_handler z z') ->
  split_into ts l -> follows z (exec (alive k n p) c l os).
Proof.
  intros Hstep Hts. destruct (exec_own p c ts l os zs Hts) as (ts' & Hts' & Hz & Hs).
  eexists. split; [by apply rtc_once|]. split; [done|]. by exists ts'.
Qed.

Lemma follows_other (p : deed console) (c : console) ts l os z :
  preserves (fun c => store c k n) p -> st z = life_at k n c -> threads z = omap id ts ->
  split_into ts l -> follows z (exec p c l os).
Proof.
  intros Hp Hz Htz Hts. destruct (exec_other p c ts l os Hp Hts) as (ts' & Hts' & Heq & Hs).
  set (b := frame (st (exec p c l os))).
  exists (exec (part_handler (Browser b) (st z)) (st z) (threads z) (log z)). split.
  - by apply rtc_once, (step_event part_enabled part_handler (Browser b)).
  - split.
    + cbn. rewrite Hz. unfold life_at. cbn. by rewrite Hs.
    + exists ts'. split; [done|]. cbn. by rewrite app_nil_r, Htz, Heq.
Qed.
Lemma follows_event (ev : console_event) (y : console_sys) ts z :
  console_enabled ev (st y) = true -> st z = life_at k n (st y) -> threads z = omap id ts ->
  split_into ts (threads y) -> follows z (exec (console_handler ev (st y)) (st y) (threads y) (log y)).
Proof.
  intros He Hz Htz Hts. destruct ev as [|key| |k' n' e]; cbn [console_handler].
  - unfold run_effects. destruct (due (st y)) as [|[k' n'] rest]; [by eapply follows_other|].
    destruct (component_mount k') as [p|] eqn:Hp; [|by eapply follows_other].
    destruct (decide ((k', n') = (k, n))) as [[= -> ->]|Hne].
    + apply (follows_own p (effects_run (k, n) (st y)) ts (threads y) (log y) (log z)); [|done]. cbn zeta.
      pose proof (step_event part_enabled part_handler Mounts z eq_refl) as Hstep. cbn [part_handler] in Hstep.
      by rewrite Hp, Hz, Htz in Hstep.
    + apply (follows_other _ _ ts); [|done..]. apply preserves_bind; [by apply preserves_modify|intros _].
      by apply alive_elsewhere.
  - apply (follows_other _ _ ts); [|done..]. apply preserves_modify. intros s. by rewrite store_commit.
  - apply (follows_other _ _ ts); [|done..]. apply preserves_modify. intros s. by rewrite store_commit.
  - destruct (decide ((k', n') = (k, n))) as [[= -> ->]|Hne].
    + apply (follows_own (component_handler k e (life_at k n (st y))) (st y) ts (threads y) (log y) (log z)); [|done].
      cbn zeta. cbn [console_enabled] in He. apply andb_prop in He as [He _]. rewrite <-Hz in He.
      pose proof (step_event part_enabled part_handler (Acts e) z He) as Hstep. cbn [part_handler] in Hstep.
      by rewrite Hz, Htz in Hstep.
    + apply (follows_other _ _ ts); [|done..]. by apply alive_elsewhere.
Qed.

(** One suspended function out of many, and what the component's system has of them. *)
Lemma split_at ts l1 t l2 :
  split_into ts (l1 ++ t :: l2) ->
  exists t1 o t2, split_into (t1 ++ t2) (l1 ++ l2) /\ is_part o t
    /\ omap id ts = omap id t1 ++ match o with Some q => [q] | None => [] end ++ omap id t2.
Proof.
  intros (t1 & t2' & H1 & H2' & ->)%Forall2_app_inv_r. inversion H2' as [|o t' t2 l2' Ho H2]; subst.
  exists t1, o, t2. split; [by apply Forall2_app|]. split; [done|]. rewrite omap_app. by destruct o.
Qed.

Lemma follows_settled (c : console) ts l os z j (q' : result thrown (answer thrown api_result j) -> deed part_state) t :
  t = embed_thread (life_at k n) (life_put k n) (TWaiting j q') ->
  (forall r, let z' := exec (q' r) (life_at k n c) (omap id ts) (log z) in step part_enabled part_handler z z') ->
  split_into ts l ->
  match t with TWaiting _ q => forall r, follows z (exec (q r) c l os) | TPaused _ => True end.
Proof. intros -> Hstep Hts r. apply (follows_own (q' r) c ts l os (log z)); [apply Hstep|done]. Qed.

Lemma follows_step (y y' : console_sys) (z : part_sys) :
  step console_enabled console_handler y y' -> seen y z -> follows z y'.
Proof.
  intros Hstep [Hz (ts & Hts & Htz)].
  destruct Hstep as [ev y He|y l1 q l2 Ht|y l1 c q l2 r Ht]; [by apply (follows_event ev y ts)|..];
    rewrite Ht in Hts; apply split_at in Hts as (t1 & o & t2 & Hts & Ho & Hid); rewrite Hid in Htz.
  - destruct o as [[q'|? ?]|]; cbn [is_part embed_thread] in Ho; [|done|].
    + injection Ho as ->. apply (follows_own q' (st y) (t1 ++ t2) (l1 ++ l2) (log y) (log z)); [|done].
      cbn zeta. pose proof (step_resume part_enabled part_handler z _ _ _ Htz) as Hs. by rewrite Hz, <-omap_app in Hs.
    + apply (follows_other _ _ (t1 ++ t2)); [exact Ho|done| |done]. by rewrite omap_app.
  - destruct o as [[?|c' q']|]; cbn [is_part embed_thread] in Ho; [done| |].
    + apply (follows_settled (st y) (t1 ++ t2) (l1 ++ l2) (log y) z c' q' (TWaiting c q) Ho); [|done].
      intros r'. cbn zeta. pose proof (step_settle part_enabled part_handler z _ _ _ _ r' Htz) as Hs. by rewrite Hz, <-omap_app in Hs.
    + apply (follows_other _ _ (t1 ++ t2)); [exact (Ho r)|done| |done]. by rewrite omap_app.
Qed.
End Part.



(** *** An execution *)

#[local] Existing Instance plain_toolkit.
#[local] Instance no_dates : Dates := {|
  parse_date := fun _ => None; toLocaleString := fun _ _ => js "-";
  toLocaleTimeString := fun _ => js "-"; toISOString := fun _ => js "-" |}.

