(* ===== verification/ConsoleDrawer.v ===== *)
(** The drawer of the clients page inside the dashboard: what ClientsPage.v proves of late answers
    holds there too, across pages, sign-outs and everything else that goes on. *)

From stdpp Require Import relations.
From S2P Require Import Prelude JsString Json View WebPlatform Async Disciplines Joins JsErrors Session ApiClient DashTypes UseAsync Dashboard ClientsPage Compose Console ConsoleRuns.

#[local] Open Scope prog_scope.

Local Abbreviation console_sys := (sys console (joint api_call) ui_effect thrown (answer thrown api_result)).

Section Drawer.
Context (n : nat).

(** The number of the latest request and the drawer of the [n]-th life, a clients page. *)
Definition drawer_version (c : console) : Z := version (life_at CClients n c).
Definition drawer_shown (c : console) : option json := drawer (life_at CClients n c).
Definition drawer_state (c : console) : Z * option json := shown (life_at CClients n c).

(** The events that open or close it. *)
Definition moves_drawer (ev : console_event) : bool :=
  match ev with
  | On CClients i (ViewClient _) | On CClients i CloseDetail => (i =? n)%nat
  | _ => false
  end.

Lemma alive_keeps_drawer (k : component) (i : nat) (p : deed (app (component_state k))) :
  (k, i) <> (CClients, n) -> preserves drawer_state (alive k i p).
Proof.
  intros Hne. apply preserves_embed. intros s g. unfold drawer_state, life_at. by rewrite (store_put_other k CClients i n).
Qed.

Lemma drawer_state_commit (b : browser) (c : console) : drawer_state (commit b c) = drawer_state c.
Proof. unfold drawer_state, life_at. by rewrite store_commit. Qed.

Lemma handler_keeps_drawer (ev : console_event) (c : console) :
  moves_drawer ev = false -> preserves drawer_state (console_handler ev c).
Proof.
  intros Hev. destruct ev as [|key| |k i e]; cbn [console_handler].
  - unfold run_effects. destruct (due c) as [|[k i] rest]; [done|]. destruct (component_mount k) as [p|] eqn:Hp; [|done].
    apply preserves_bind; [by apply preserves_modify|intros _].
    destruct (decide ((k, i) = (CClients, n))) as [[= -> ->]|Hne]; [|by apply alive_keeps_drawer].
    apply (inj Some) in Hp as <-. apply (preserves_embed_own _ _ (life_at_put CClients n)), preserves_lift.
    apply preserves_reload_shown.
  - apply preserves_modify. intros s. apply drawer_state_commit.
  - apply preserves_modify. intros s. apply drawer_state_commit.
  - destruct (decide ((k, i) = (CClients, n))) as [[= -> ->]|Hne]; [|by apply alive_keeps_drawer].
    cbn [component_event] in e. apply (preserves_embed_own _ _ (life_at_put CClients n)), preserves_lift.
    pose proof (preserves_handler_shown e (life_at CClients n c)) as Hp.
    destruct e; try exact Hp; cbn [moves_drawer] in Hev; by rewrite Nat.eqb_refl in Hev.
Qed.

(** A function of the page, run in the dashboard. *)
Lemma run_in_dashboard (p : prog (app ClientsState) api_call ui_effect thrown api_result unit) (c c' : console) os o :
  Async.run (alive CClients n (lift p)) c = (c', os, o) ->
  exists s' o', Async.run p (life_at CClients n c) = (s', os, o') /\ life_at CClients n c' = s'.
Proof.
  intros Hr. destruct (Async.run p (life_at CClients n c)) as [[s' os'] o'] eqn:Hp.
  destruct (run_embed _ _ (life_at_put CClients n) (lift p) c s' os' (lift_outcome o')) as (g & Hg & Hs).
  { by apply run_lift. }
  unfold alive in Hr. rewrite Hg in Hr. injection Hr as <- <- _. by exists s', o'.
Qed.

Lemma handler_drawer_stable (ev : console_event) (c c' : console) os o :
  Async.run (console_handler ev c) c = (c', os, o) ->
  (drawer_version c <= drawer_version c')%Z
  /\ forall m, (drawer_version c' < m)%Z -> stable drawer_version drawer_shown m (console_handler ev c) c.
Proof.
  intros Hr. destruct (moves_drawer ev) eqn:Hev.
  - destruct ev as [|key| |[] i e]; try done. cbn [moves_drawer component_event] in *.
    assert (i = n) as -> by (destruct e; try done; by apply Nat.eqb_eq).
    cbn [console_handler component_handler] in *.
    destruct (run_in_dashboard _ _ _ _ _ Hr) as (s' & o' & Hp & Hs).
    destruct (handler_stable _ _ _ _ _ Hp) as [Hle Hst]. unfold drawer_version. rewrite Hs. split; [exact Hle|].
    intros m Hm. apply (stable_embed _ _ (life_at_put CClients n)), stable_lift, Hst, Hm.
  - pose proof (handler_keeps_drawer ev c Hev) as Hp.
    destruct (run_preserves drawer_state _ _ _ _ _ Hp Hr) as [Heq _]. injection Heq as Hv _.
    change (drawer_version c' = drawer_version c) in Hv. split; [lia|]. intros m _. by apply stable_preserves.
Qed.

Lemma dashboard_outdated (m : Storage) (y : console_sys) :
  reachable console_enabled console_handler (console_mounted m) y ->
  Forall (outdated drawer_version drawer_shown (drawer_version (st y))) (threads y).
Proof. apply outdated_invariant; [done|]. intros ev c c' os o. apply handler_drawer_stable. Qed.

(** What goes on but for opening a client on this page. *)
Definition enabled_but_opening (ev : console_event) (c : console) : bool :=
  match ev with On CClients i (ViewClient _) => negb (i =? n)%nat | _ => true end && console_enabled ev c.

Lemma handler_keeps_drawer_closed (v : Z) (ev : console_event) (c c' : console) os o :
  enabled_but_opening ev c = true -> (v < drawer_version c)%Z -> drawer_shown c = None ->
  Async.run (console_handler ev c) c = (c', os, o) ->
  (v < drawer_version c')%Z /\ drawer_shown c' = None /\ Forall (outdated drawer_version drawer_shown v) (suspended o).
Proof.
  intros He Hv Hd Hr. destruct (moves_drawer ev) eqn:Hev.
  - destruct ev as [|key| |[] i e]; try done. cbn [moves_drawer component_event enabled_but_opening] in *.
    destruct e; try done; apply Nat.eqb_eq in Hev as ->; [unfold enabled_but_opening in He; by rewrite Nat.eqb_refl in He|].
    cbn [console_handler component_handler clients_handler] in Hr. pose proof Hr as Hr'.
    apply run_in_dashboard in Hr as (s' & o' & Hp & Hs). injection Hp as <- _ _.
    unfold drawer_version, drawer_shown. rewrite Hs. split; [unfold drawer_version, version in *; cbn in *; lia|].
    split; [done|]. cbn in Hr'. injection Hr' as _ _ <-. constructor.
  - pose proof (handler_keeps_drawer ev c Hev) as Hp.
    destruct (run_preserves drawer_state _ _ _ _ _ Hp Hr) as [Heq _]. injection Heq as Hv' Hd'.
    change (drawer_version c' = drawer_version c) in Hv'. change (drawer_shown c' = drawer_shown c) in Hd'.
    rewrite Hv', Hd'. split; [done|]. split; [done|]. apply Forall_forall. intros t Ht m Hm.
    destruct (run_stable drawer_version drawer_shown m _ _ _ _ _ (stable_preserves _ _ _ _ _ Hp) Hr) as (_ & _ & Hts).
    by eapply Forall_forall.
Qed.
End Drawer.

(** C6: In the dashboard a closed drawer stays closed: from the moment it is closed, nothing that
    happens there - answers still to come, other pages, signing out and in, the page mounted
    anew - opens it, until a client is opened on that page again. *)
Theorem drawer_stays_closed (m : Storage) (n : nat) (y y' : console_sys) :
  reachable console_enabled console_handler (console_mounted m) y ->
  reachable_from (enabled_but_opening n) console_handler
    (spawn (console_handler (On CClients n CloseDetail) (st y)) y) y' ->
  detail (store (st y') CClients n) = None.
Proof.
  intros Hy. pose proof (dashboard_outdated n m y Hy) as Hout.
  destruct (Async.run (console_handler (On CClients n CloseDetail) (st y)) (st y)) as [[c' os] o] eqn:Hr.
  assert (drawer_version n c' = drawer_version n (st y) + 1 /\ drawer_shown n c' = None)%Z as [Hv Hd].
  { cbn [console_handler component_handler clients_handler] in Hr. apply run_in_dashboard in Hr as (s' & o' & Hp & Hs).
    injection Hp as <- _ _. unfold drawer_version, drawer_shown. by rewrite Hs. }
  apply (outdated_stays (enabled_but_opening n) console_handler (drawer_version n) (drawer_shown n) (fun d => d = None)
           (drawer_version n (st y))).
  all: unfold spawn, exec; rewrite ?Hr; cbn [st threads].
  - lia.
  - done.
  - apply Forall_app_2; [done|]. cbn in Hr. injection Hr as _ _ <-. constructor.
  - intros ev c c1 os1 o1. apply handler_keeps_drawer_closed.
Qed.

(** *** An execution *)

(** A client was opened on the clients page; the drawer is closed, the user chooses the logs, and
    the client's details arrive. *)
Definition client_opened : console_sys :=
  click (On CClients 1 (ViewClient (sample_client (js "a")))) (click (Select (js "clients")) (initial (console_mounted signed_in))).

Definition details_late (y : console_sys) : console_sys :=
  schedule (repeat (joint_answer (answering (response 200 (js "OK")) (js "{}")), 0%nat) 4) (click (Select (js "logs")) y).

Lemma drawer_stays_closed_witness :
  detail (store (st (details_late (spawn (console_handler (On CClients 1 CloseDetail) (st client_opened)) client_opened))) CClients 1) = None.
Proof.
  apply (drawer_stays_closed signed_in 1 client_opened).
  - apply (reachable_event console_enabled console_handler _ _ (On CClients 1 (ViewClient _))); [|by_evaluation].
    apply (reachable_event console_enabled console_handler _ _ (Select _)); [|by_evaluation]. apply rtc_refl.
  - apply schedule_reachable.
    apply (reachable_event (enabled_but_opening 1) console_handler _ _ (Select _)); [apply rtc_refl|by_evaluation].
Defined.

(** Had it not been closed, they would have filled it. *)
Example details_arrive : present (detail (store (st (details_late client_opened)) CClients 1)) = true.
Proof. by_evaluation. Qed.
